(* ===== verification/_CoqProject ===== *)
-Q . S2P
Prelude.v
CString.v
Arch.v
Cbpf.v
Seccomp.v
Wire.v
Inet.v
Netfilter.v
NetDaemon.v
NetChain.v
NetInv.v
NetSim.v
NetThms.v
Policy.v
Control.v
ControlThms.v
Client.v
ClientThms.v
Config.v
ConfigThms.v
Mounts.v
MountThms.v
Cell.v
CellThms.v
Info.v
Cgroup.v
InfoThms.v
Cells.v
CellsThms.v
Life.v
LifeThms.v
Lib.v
LibThms.v
Load.v
OneShot.v
OneShotThms.v
Agentmon.v
AgentmonThms.v
