(* ===== verification/Prelude.v ===== *)
(** * AgentCell: a verification library for the sandbox, its daemon and its
    embedding API

    ** The program

    AgentCell runs a command in a _cell_: user, mount, pid, network and other
    name spaces, a private file system, Landlock, a seccomp filter, a cgroup with
    limits, and optionally a network of its own and a list of files it may not
    open.  Its parts, all under [src/src/]:

    - [sand.c], the command line.  [main] reads the options, clones the child,
      writes its user and group maps, creates the cgroup, asks the daemon for the
      deny rules and for the network, and releases the child with one message on
      a pipe; then it waits ([--timeout], [--ask]) or serves clients ([serve]) and
      cleans up.  The child ([child_main]) mounts, drops rights and starts the
      payload, or answers [sand exec] requests ([jail_server], [handle_conn]).
      The other commands list cells, show statistics and change policies.
    - [agentlsm.c], the root daemon.  Over a Unix socket it takes line requests
      ([ADD], [DEL], [CLR], [LIST], [WATCH], [NETUP], [NETDOWN]): it keeps the
      deny rules in BPF maps, gives cells a /30 on a veth pair, installs egress
      allowlists with iptables, and sends events to watchers.  It also has
      one-shot modes that fill the maps from its command line.
    - [agentlsm.bpf.c], the kernel side: the [file_open] hook that decides with
      the maps, and the probes that report activity and refused calls.
    - [netup_reply.h], the reply of [NETUP] and the resumption after an over-long
      line; shared with a test.
    - [libagentcell.c] and [agentcell.h], the embedding library: [sand.c] compiled
      in, with [agentcell_spawn] and [agentcell_release] in place of [main].
    - [agentmon.c] and [agentmon.bpf.c], a monitor of one cgroup.
    - [arch/], generated tables of system call numbers for two architectures.

    [sand] and the library are clients of the daemon ([lsm_cmd]); the daemon and
    the hook share the BPF maps; the probes of [agentlsm.bpf.c] and the filter of
    [sand.c] share the system call tables.  The development follows these
    interfaces: each part is proved on its own, with the other side as an
    argument, and the end-to-end theorems put the modelled parts together.

    ** Files

    A definition has the name of the C function or structure it translates.
    Code that calls the kernel, the C library's network functions or the daemon
    takes what they answer as arguments, so that a theorem holds for every
    answer; a write to a descriptor or a command is recorded in a log or moves an
    explicit state.

    - [Prelude]: bytes, machine integers, tactics, hint databases.
    - [CString]: the string functions of the C library that the code uses
      ([snprintf] with truncation, [sscanf] conversions, [strtok], [fgets]) and
      the print/scan inverses; [Inet]: IPv4 addresses as text.
    - [Arch]: [arch/*.h].
    - [Cbpf], [Seccomp]: section 5 of [sand.c].  [CbpfMachine] is the interface of
      the kernel's filter machine, [cbpf_interp] an instance.  An array that would
      overflow is [None].
    - [Wire]: [put_u32] to [client_exec] and [handle_conn], both ends of [sand exec].
    - [Netfilter]: every [sh(...)] command of the daemon with its text, and the
      interface [NetKernel] of the shell, [iptables] and [ip]; [NetSim] is a
      concrete kernel that reads the text and has these laws.
    - [NetDaemon]: [resolve_egress] to [net_cleanup_all]; [NetChain], [NetInv],
      [NetThms]: its lemmas, its invariant, its theorems.
    - [Policy]: the maps, [cell_add], [cell_del], [cell_clr], the listing and the
      hook [cell_file_open].
    - [Control], [ControlThms]: connections, framing, [serve_line], [fanout].
    - [Client], [ClientThms]: [lsm_cmd], [lsm_register], [net_veth_register] and
      their inverses, first with any daemon and then with the modelled one.
    - [Config], [ConfigThms]: [struct cfg], the option loop and its checks.
    - [Mounts], [MountThms]: [do_mounts] as a script of system calls with what a
      path shows afterwards (a recursive bind brings the file systems mounted
      below its source, a remount reaches one mount only, and what [pivot_root]
      leaves at [/.put_old] is a mount too); [landlock_apply] with the meaning of a
      rule set.
    - [Cell], [CellThms]: the sync message, [child_main], [ask_handle], the waiting
      loops, [serve_loop] and [jail_server].
    - [Info], [Cgroup], [InfoThms]: info files, statistics, [sand cells], [sand top],
      [cgroup_setup].
    - [Cells], [CellsThms]: the table of running cells, selectors, [sand lsm].
    - [Life], [LifeThms]: [main] after the options, as a computation in a monad of
      state, log and exit; [net_lo_up], [net_veth_up].  [wp] is its weakest
      precondition and the tactic [wp_step] walks a program.
    - [Lib], [LibThms]: the embedding library, in the same monad.
    - [Load]: [bpf_load_attach], the bytes written into an object's constants and
      how the programs read them.
    - [OneShot], [OneShotThms]: [main] of [agentlsm], [daemon_lock] and the start
      and end of [serve_mode] as the step relation [serve_step] of processes on
      one host.
    - [Agentmon], [AgentmonThms]: the monitor.

    ** What is shown

    - The filter: [seccomp_apply_correct] (every call on both architectures is
      decided as the policy says and the arrays are not exceeded),
      [trip_calls_reported] (what the probes watch the filter refuses, and it is
      reported when there is room).
    - The file system: [host_writable_only_given] (for every answer of the mount
      calls), [landlock_confines], [secrets_in_memory].
    - Starting and ending a cell: [payload_confined] (the child), [payload_held]
      (the parent releases it once and only after its set-up, with the requests
      to the daemon), [cell_released] (it ends, and what it leaves is what could
      not be removed), [timeout_enforced], [ask_exact], [cgroup_limits_applied],
      [main_options_well_formed], [env_file_roundtrip].
    - [sand exec]: [exec_session_exact] refines a session to running the command,
      input, output and status included, with [request_roundtrip], [read_request_sound], [handle_conn_safe] and
      [client_loop_exact] for the two ends alone.
    - The network daemon: the invariant [daemon_cells_isolated] of every state that
      well-formed requests reach, the operations [net_up_consistent], [net_down_frees],
      [egress_refresh_exact], [net_cleanup_clean] and [ip_forward_restored], and
      [one_daemon], that only one process ever works on them.  "Well-formed": the
      request names a process other than 0 and its ports are plain words ([op_ok]);
      what the others do is in [netdown_zero_duplicates_index] and
      [netup_port_reaches_shell].  The kernel may refuse any insertion and any link
      creation; only the exact verdict for a cell needs that the base rules were
      inserted ([base_reliable]; [egress_base_failure_open] shows why).
    - The policy: [cell_policy_exact], [cell_clr_clears], [oneshot_exact].
    - The control protocol: [control_stream_framed], [overlong_line_swallowed],
      [events_delivered_exactly].
    - Together: [netup_end_to_end], [net_veth_register_strict], [lsm_lifecycle],
      [hot_policy_exact], [status_lists_policies], [info_roundtrip].
    - The library: [spawn_equals_cli], [lib_table_refines].
    - The monitor: [monitor_exact].

    Theorems whose comment tells of a behaviour the code's comments do not
    promise ([seccomp_x32_alias_allowed], [netup_port_reaches_shell],
    [release_leaks] and others) describe the code as it is.

    ** Bounds and fuel

    Loops over data are structural.  Where they are not:

    - [emit_bst] halves an interval, [S (length g_deny)] steps; with the machine
      [cbpf_interp], whose jumps go forward, [S (length p)] steps.
      [seccomp_apply_correct] has the result, not only its correctness.
    - [clr_loop] restarts at the first key after each deletion; with [n] keys it
      needs at most [n * n + n + 1] steps, [list_loop] needs [n + 1];
      [cell_clr_clears] proves that the result is there for every walk order.
    - [line_loop] takes one byte at least for each line and starts with the length
      of the buffer; [control_stream_framed] shows that it always returns.
    - [netup_opts], [fgets_fuel], [meminfo_loop] consume their text and start with
      its length (or one more); [print_pos] with the binary logarithm;
      [apply_prune] with the length of the list it shortens; [grow] doubles a
      64-bit capacity, so 64 steps reach every size.
    - [read_full_loop] gets one byte at least in each turn and starts with the
      number of bytes wanted.
    - The loops that wait ([serve_loop], [ask_loop], [wait_loop], [flat_wait],
      [block_wait], [mon_loop], the relays of
      [handle_conn] and [client_exec]) consume a finite list of what [poll],
      [read], [waitpid] and the clock answer; when it ends the model says that the
      loop still waits, and the theorems say which answers make it stop.

    Integers keep their width where the code depends on it ([u32], [u64], [s32],
    [s64]); a fixed buffer is the explicit truncation of [snprintf].

    ** Not modelled

    - The kernel, libbpf and the C library's resolver, beyond the documented
      behaviour named above.  What libbpf does with an object is its answers and
      the list of the calls made.
    - Conversions of floating-point numbers (a core count to a quota, a fraction
      of the memory): arguments.
    - [examples/ffi_demo.c] (prints what the library returns), the Rust binding in
      [rust/], the OS image and the packaging: other languages and scripts.
    - Paths are texts: symbolic links inside the new root are not resolved, ".." is
      a name like another ([covers]), and a Landlock rule is compared with the text
      of a path and not with the directory it was opened at.
    - Signals appear only as the values they make the interrupted calls return and
      as the stop flag a turn reads; one that comes between that test and [poll]
      is not seen by any turn, and one that kills the program is not modelled.
    - The order of events of two programs is the order of the answers each gets;
      a write that fails with a warning (cgroup files, [cgroup.procs], the sync
      pipe) is a call that was made, and the theorems on the limits say what the
      files hold in either case.

    Left for later: the dispatch of [sand]'s subcommands in [main], the framing
    of [send_fd] and [recv_fd], and the composition of the library with the
    modelled daemon as it is done for [sand]. *)

From Stdlib Require Export Ascii String ZArith Lia.
From stdpp Require Export base tactics numbers list gmap strings.

Set Default Goal Selector "!".
Global Open Scope Z_scope.

(** ** Byte strings

    A C string is modelled by the bytes before its terminating NUL; a buffer
    that may hold NULs is a [bytes] too, and the code that reads it as a C
    string goes through [cstr]. *)

Abbreviation bytes := (list ascii).

Declare Scope cell_scope.
Delimit Scope cell_scope with cell.
Global Open Scope cell_scope.

(** [B "text"]: a string literal of the source. *)
Definition B (s : string) : bytes := list_ascii_of_string s.
Arguments B s%_string.

(** The value of a byte, and the byte of a value (wrapped to 8 bits). *)
Definition code (c : ascii) : Z := Z.of_N (N_of_ascii c).
Definition chr (z : Z) : ascii := ascii_of_N (Z.to_N (z mod 256)).

Definition NUL : ascii := "000"%char.
Definition NL : ascii := "010"%char.
Definition CR : ascii := "013"%char.
Definition TAB : ascii := "009"%char.
Definition SP : ascii := " "%char.
Definition SLASH : ascii := "/"%char.
Definition COLON : ascii := ":"%char.

(** ** Machine integers: [Z] with the wrap-around of each C type written out *)

Definition u8 (z : Z) : Z := z mod 2 ^ 8.
Definition u16 (z : Z) : Z := z mod 2 ^ 16.
Definition u32 (z : Z) : Z := z mod 2 ^ 32.
Definition u64 (z : Z) : Z := z mod 2 ^ 64.
Definition s32 (z : Z) : Z := (z + 2 ^ 31) mod 2 ^ 32 - 2 ^ 31.
Definition s64 (z : Z) : Z := (z + 2 ^ 63) mod 2 ^ 64 - 2 ^ 63.

Definition LONG_MAX : Z := 2 ^ 63 - 1.
Definition LONG_MIN : Z := - 2 ^ 63.
Definition ULLONG_MAX : Z := 2 ^ 64 - 1.

(** ** Tactics and hint databases of the development *)

Create HintDb cell discriminated.
Create Rewrite HintDb cell.

(** Turn the boolean comparisons of the code into propositions. *)
Ltac zbool :=
  repeat match goal with
    | H : (_ && _) = true |- _ => apply andb_true_iff in H as [? ?]
    | H : (_ || _) = false |- _ => apply orb_false_iff in H as [? ?]
    | H : (_ =? _) = true |- _ => apply Z.eqb_eq in H
    | H : (_ =? _) = false |- _ => apply Z.eqb_neq in H
    | H : (_ <? _) = true |- _ => apply Z.ltb_lt in H
    | H : (_ <? _) = false |- _ => apply Z.ltb_ge in H
    | H : (_ <=? _) = true |- _ => apply Z.leb_le in H
    | H : (_ <=? _) = false |- _ => apply Z.leb_gt in H
    | H : negb _ = true |- _ => apply negb_true_iff in H
    | H : negb _ = false |- _ => apply negb_false_iff in H
    end.

(** Case on the scrutinee of the innermost [match]/[if] of the goal. *)
Ltac case_on_match :=
  match goal with
  | |- context [match ?x with _ => _ end] =>
      lazymatch x with
      | context [match _ with _ => _ end] => fail
      | _ => let E := fresh "E" in destruct x eqn:E
      end
  end.

(** The same on a hypothesis. *)
Ltac case_in H :=
  match type of H with
  | context [match ?x with _ => _ end] =>
      lazymatch x with
      | context [match _ with _ => _ end] => fail
      | _ => let E := fresh "E" in destruct x eqn:E
      end
  end.

(** ** Facts about machine integers *)

Lemma u8_small z : 0 <= z < 256 -> u8 z = z.
Proof. intros. unfold u8. rewrite Z.mod_small; lia. Qed.

Lemma u32_small z : 0 <= z < 2 ^ 32 -> u32 z = z.
Proof. intros. unfold u32. rewrite Z.mod_small; lia. Qed.

Lemma s32_small z : - 2 ^ 31 <= z < 2 ^ 31 -> s32 z = z.
Proof. intros. unfold s32. rewrite Z.mod_small; lia. Qed.

Lemma s64_small z : - 2 ^ 63 <= z < 2 ^ 63 -> s64 z = z.
Proof. intros. unfold s64. rewrite Z.mod_small; lia. Qed.

Lemma u32_range z : 0 <= u32 z < 2 ^ 32.
Proof. apply Z.mod_pos_bound. lia. Qed.

#[export] Hint Rewrite u8_small u32_small s32_small s64_small using lia : cell.

(** ** Facts about byte codes *)

Lemma code_range c : 0 <= code c < 256.
Proof.
  unfold code. pose proof (N_ascii_bounded c). lia.
Qed.

Lemma code_chr z : 0 <= z < 256 -> code (chr z) = z.
Proof.
  intros. unfold code, chr. rewrite Z.mod_small by lia.
  rewrite N_ascii_embedding; lia.
Qed.

Lemma chr_code c : chr (code c) = c.
Proof.
  unfold chr. rewrite Z.mod_small by apply code_range.
  unfold code. rewrite N2Z.id. apply ascii_N_embedding.
Qed.

Lemma code_inj c d : code c = code d -> c = d.
Proof. intros H. rewrite <- (chr_code c), <- (chr_code d). by rewrite H. Qed.

#[export] Hint Resolve code_range : cell.

(** ** Decisions on options of integers *)

Lemma bool_decide_Some_eqb x y : bool_decide (Some x = Some y) = (y =? x).
Proof.
  destruct (Z.eqb_spec y x) as [->|Hne].
  - by apply bool_decide_eq_true_2.
  - apply bool_decide_eq_false_2. congruence.
Qed.

(** ** Facts about filters *)

Lemma filter_all {A} (P : A -> Prop) `{!forall x, Decision (P x)} (l : list A) :
  Forall P l -> filter P l = l.
Proof.
  induction 1 as [|x l Hx Hl IH]; [done|]. rewrite filter_cons_True by done. by rewrite IH.
Qed.

Lemma filter_none {A} (P : A -> Prop) `{!forall x, Decision (P x)} (l : list A) :
  Forall (fun x => ~ P x) l -> filter P l = [].
Proof.
  induction 1 as [|x l Hx Hl IH]; [done|]. by rewrite filter_cons_False.
Qed.

Lemma Forall_filter_sub {A} (Q P : A -> Prop) `{!forall x, Decision (P x)} (l : list A) :
  Forall Q l -> Forall Q (filter P l).
Proof.
  induction 1 as [|x l Hx Hl IH]; [constructor|]. rewrite filter_cons.
  destruct (decide (P x)); [by constructor|done].
Qed.
