(* ===== verification/CString.v ===== *)
(** * The C library functions on strings that the program calls

    [strlen]-level functions over [bytes] (a C string without its NUL):
    searching, prefix tests, tokenizing, bounded copies ([snprintf] into a
    fixed array), decimal printing and the [strtol]/[sscanf] conversions with
    their clamping.  Every component that handles text uses these, and the
    print/scan inverse lemmas at the end carry the round trips. *)

From S2P Require Import Prelude.

(** ** Views of memory as a C string *)

(** The C string at the start of a buffer: the bytes before its first NUL. *)
Fixpoint cstr (s : bytes) : bytes :=
  match s with
  | [] => []
  | c :: s' => if decide (c = NUL) then [] else c :: cstr s'
  end.

(** No NUL inside: the bytes are a C string. *)
Definition no_nul (s : bytes) : Prop := NUL ∉ s.
#[export] Instance no_nul_dec s : Decision (no_nul s).
Proof. unfold no_nul. apply _. Defined.

(** [snprintf(dst, n, "%s", s)]: at most [n-1] bytes and a NUL. *)
Definition snprintf_s (n : nat) (s : bytes) : bytes := take (n - 1) s.

(** ** Searching *)

(** Offset of the first [c], as [strchr] (or [memchr] on a buffer). *)
Fixpoint strchr (c : ascii) (s : bytes) : option nat :=
  match s with
  | [] => None
  | x :: s' => if decide (x = c) then Some 0%nat else S <$> strchr c s'
  end.

(** Offset of the last [c]. *)
Fixpoint strrchr (c : ascii) (s : bytes) : option nat :=
  match s with
  | [] => None
  | x :: s' =>
      match strrchr c s' with
      | Some i => Some (S i)
      | None => if decide (x = c) then Some 0%nat else None
      end
  end.

(** [!strncmp(s, p, strlen(p))]. *)
Fixpoint starts_with (p s : bytes) : bool :=
  match p, s with
  | [], _ => true
  | x :: p', y :: s' => bool_decide (x = y) && starts_with p' s'
  | _ :: _, [] => false
  end.

(** [while (P( *p)) p++]: the rest, and the span skipped. *)
Fixpoint skip_while (P : ascii -> bool) (s : bytes) : bytes :=
  match s with
  | c :: s' => if P c then skip_while P s' else s
  | [] => []
  end.

Fixpoint span_while (P : ascii -> bool) (s : bytes) : bytes :=
  match s with
  | c :: s' => if P c then c :: span_while P s' else []
  | [] => []
  end.

Definition is_sp (c : ascii) : bool := bool_decide (c = SP).
Definition not_sp (c : ascii) : bool := negb (is_sp c).
Definition isspace (c : ascii) : bool :=
  ((9 <=? code c) && (code c <=? 13)) || (code c =? 32).
Definition not_space (c : ascii) : bool := negb (isspace c).
Definition isdigit (c : ascii) : bool := (48 <=? code c) && (code c <=? 57).

(** [strstr(s, p)]: offset of the first occurrence. *)
Fixpoint strstr (p s : bytes) : option nat :=
  if starts_with p s then Some 0%nat
  else match s with
       | [] => None
       | _ :: s' => S <$> strstr p s'
       end.

(** The tokens [strtok(s, delim)] yields for a one-character delimiter: the
    maximal non-empty runs without it. *)
Fixpoint tokens_acc (d : ascii) (cur s : bytes) : list bytes :=
  match s with
  | [] => match cur with [] => [] | _ => [rev cur] end
  | c :: s' =>
      if decide (c = d)
      then match cur with
           | [] => tokens_acc d [] s'
           | _ => rev cur :: tokens_acc d [] s'
           end
      else tokens_acc d (c :: cur) s'
  end.
Definition strtok (d : ascii) (s : bytes) : list bytes := tokens_acc d [] s.

(** [fgets(line, n, f)] until the end: the lines of a file, cut at [n - 1] bytes,
    newline included; each takes a byte, so the file's length is fuel enough. *)
Fixpoint fgets_fuel (fuel n : nat) (s : bytes) : list bytes :=
  match fuel, s with
  | S fuel', _ :: _ =>
      let k := match strchr NL (take (n - 1) s) with Some i => S i | None => (n - 1)%nat end in
      take k s :: fgets_fuel fuel' n (drop k s)
  | _, _ => []
  end.
Definition fgets_lines (n : nat) (s : bytes) : list bytes := fgets_fuel (length s) n s.

(** [line[strcspn(line, "\n")] = 0]. *)
Definition chomp (s : bytes) : bytes := match strchr NL s with Some i => take i s | None => s end.

(** ** Decimal output: [%d], [%ld], [%u], [%llu] *)

Definition digit (d : Z) : ascii := chr (48 + d).

Fixpoint print_pos (fuel : nat) (z : Z) : bytes :=
  match fuel with
  | O => []
  | S fuel' => if z <? 10 then [digit z]
               else print_pos fuel' (z / 10) ++ [digit (z mod 10)]
  end.
Definition print_u (z : Z) : bytes := print_pos (S (Z.to_nat (Z.log2 z))) z.
Definition print_d (z : Z) : bytes :=
  if z <? 0 then "-"%char :: print_u (- z) else print_u z.

(** ** Decimal input *)

(** Value of a digit run, left to right. *)
Definition digits_val (acc : Z) (s : bytes) : Z :=
  fold_left (fun a c => a * 10 + (code c - 48)) s acc.

(** An optional sign: whether it is a minus, and what follows. *)
Definition scan_sign (s : bytes) : bool * bytes :=
  match s with
  | c :: s' => if decide (c = "-"%char) then (true, s')
               else if decide (c = "+"%char) then (false, s') else (false, s)
  | [] => (false, [])
  end.

(** Leading blanks, sign, digits: the integer matched (unbounded) and the
    rest; [None] when no digit follows. *)
Definition scan_int (s : bytes) : option (Z * bytes) :=
  let '(neg, s1) := scan_sign (skip_while isspace s) in
  match span_while isdigit s1 with
  | [] => None
  | ds => let v := digits_val 0 ds in
          Some (if neg then - v else v, skip_while isdigit s1)
  end.

(** [strtol(s, &end, 10)] clamps; [None] is [end == s]. *)
Definition strtol (s : bytes) : option (Z * bytes) :=
  match scan_int s with
  | Some (v, r) => Some (Z.max LONG_MIN (Z.min LONG_MAX v), r)
  | None => None
  end.

(** [strtoull]: a magnitude above the maximum clamps, a minus negates in the
    unsigned type. *)
Definition clamp_ull (v : Z) : Z :=
  if ULLONG_MAX <? Z.abs v then ULLONG_MAX else u64 v.
Definition strtoull (s : bytes) : Z :=
  match scan_int s with Some (v, _) => clamp_ull v | None => 0 end.

(** [atol], [atoi] (glibc: [strtol], then the cast). *)
Definition atol (s : bytes) : Z :=
  match strtol s with Some (v, _) => v | None => 0 end.
Definition atoi (s : bytes) : Z := s32 (atol s).

(** The [sscanf] conversions used: [%ld], [%d], [%llu] and [%Ns]. *)
Definition scan_ld (s : bytes) : option (Z * bytes) := strtol s.
Definition scan_d (s : bytes) : option (Z * bytes) :=
  match strtol s with Some (v, r) => Some (s32 v, r) | None => None end.
Definition scan_llu (s : bytes) : option (Z * bytes) :=
  match scan_int s with Some (v, r) => Some (clamp_ull v, r) | None => None end.
Definition scan_str (n : nat) (s : bytes) : option (bytes * bytes) :=
  let s1 := skip_while isspace s in
  match take n (span_while not_space s1) with
  | [] => None
  | w => Some (w, drop (length w) s1)
  end.

(** ** Lemmas: prefixes and spans *)

Lemma starts_with_spec p s :
  starts_with p s = true <-> exists r, s = p ++ r.
Proof.
  revert s. induction p as [|x p IH]; intros s; simpl.
  - split; eauto.
  - destruct s as [|y s]; simpl.
    + split; [done|]. intros [r Hr]. discriminate.
    + rewrite andb_true_iff, bool_decide_eq_true, IH. split.
      * intros [-> [r ->]]. eauto.
      * intros [r [= -> ->]]. eauto.
Qed.

Lemma starts_with_app p s : starts_with p (p ++ s) = true.
Proof. apply starts_with_spec. eauto. Qed.

Lemma span_skip P s : span_while P s ++ skip_while P s = s.
Proof. induction s as [|c s IH]; simpl; [done|]. destruct (P c); simpl; congruence. Qed.

Lemma span_while_all P s : forallb P s = true -> span_while P s = s.
Proof.
  induction s as [|c s IH]; simpl; [done|].
  intros [Hc Hs]%andb_true_iff. rewrite Hc. by rewrite IH.
Qed.

(** A run of [P]-bytes ended by a byte outside [P] (or the end) is the span. *)
Definition stops (P : ascii -> bool) (s : bytes) : Prop :=
  match s with [] => True | c :: _ => P c = false end.

Lemma span_while_app P w r :
  forallb P w = true -> stops P r -> span_while P (w ++ r) = w.
Proof.
  intros Hw Hr. induction w as [|c w IH]; simpl in *.
  - destruct r as [|c r]; simpl in *; [done|]. by rewrite Hr.
  - apply andb_true_iff in Hw as [Hc Hw]. rewrite Hc, IH; done.
Qed.

Lemma skip_while_app P w r :
  forallb P w = true -> stops P r -> skip_while P (w ++ r) = r.
Proof.
  intros Hw Hr. induction w as [|c w IH]; simpl in *.
  - destruct r as [|c r]; simpl in *; [done|]. by rewrite Hr.
  - apply andb_true_iff in Hw as [Hc Hw]. rewrite Hc. auto.
Qed.

Lemma skip_while_stops P s : stops P s -> skip_while P s = s.
Proof. destruct s; simpl; [done|]. by intros ->. Qed.

Lemma cstr_no_nul s : no_nul s -> cstr s = s.
Proof.
  unfold no_nul. induction s as [|c s IH]; [done|]. simpl.
  intros [Hc Hs]%not_elem_of_cons. rewrite decide_False by congruence. by rewrite IH.
Qed.

(** ** Lemmas: decimal printing is inverted by scanning *)

Lemma code_digit d : 0 <= d < 10 -> code (digit d) = 48 + d.
Proof. intros. unfold digit. rewrite code_chr; lia. Qed.

Lemma isdigit_digit d : 0 <= d < 10 -> isdigit (digit d) = true.
Proof.
  intros. unfold isdigit. rewrite code_digit by lia.
  apply andb_true_iff; split; apply Z.leb_le; lia.
Qed.

Lemma log2_div10 z : 10 <= z -> Z.log2 (z / 10) < Z.log2 z.
Proof.
  intros. assert (z / 10 <= z / 2) by (apply Z.div_le_compat_l; lia).
  pose proof (Z.log2_le_mono (z / 10) (z / 2) ltac:(lia)) as Hle.
  change (z / 2) with (z / 2 ^ 1) in Hle.
  rewrite <- Z.shiftr_div_pow2, Z.log2_shiftr in Hle by lia.
  pose proof (Z.log2_pos z ltac:(lia)). lia.
Qed.

(** Enough fuel: the digits printed are digits, at least one, and their value
    is the number. *)
Lemma print_pos_spec fuel z :
  0 <= z -> (Z.to_nat (Z.log2 z) < fuel)%nat ->
  forallb isdigit (print_pos fuel z) = true /\
  print_pos fuel z <> [] /\
  digits_val 0 (print_pos fuel z) = z.
Proof.
  revert z. induction fuel as [|fuel IH]; intros z Hz Hf; [lia|].
  simpl. destruct (Z.ltb_spec z 10).
  - simpl. rewrite isdigit_digit, code_digit by lia. split_and!; [done|done|lia].
  - pose proof (log2_div10 z ltac:(lia)).
    pose proof (Z.log2_nonneg (z / 10)).
    destruct (IH (z / 10)) as (Hd & Hn & Hv); [apply Z.div_pos; lia|lia|].
    pose proof (Z.mod_pos_bound z 10 ltac:(lia)).
    split_and!.
    + rewrite forallb_app, Hd. simpl. by rewrite isdigit_digit by lia.
    + by destruct (print_pos fuel (z / 10)).
    + unfold digits_val in *. rewrite fold_left_app, Hv. simpl.
      rewrite code_digit by lia. pose proof (Z.div_mod z 10). lia.
Qed.

Lemma print_u_spec z :
  0 <= z -> forallb isdigit (print_u z) = true /\ print_u z <> [] /\
            digits_val 0 (print_u z) = z.
Proof. intros. apply print_pos_spec; lia. Qed.

Lemma isdigit_not_space c : isdigit c = true -> isspace c = false.
Proof.
  unfold isdigit, isspace. intros. zbool.
  apply orb_false_iff; split; [apply andb_false_iff; right; apply Z.leb_gt; lia|].
  apply Z.eqb_neq. lia.
Qed.

Lemma isdigit_no_sign c s : isdigit c = true -> scan_sign (c :: s) = (false, c :: s).
Proof.
  intros Hc. simpl.
  destruct (decide (c = "-"%char)) as [->|]; [done|].
  destruct (decide (c = "+"%char)) as [->|]; [done|]. done.
Qed.

(** Scanning a digit run (blanks before it allowed). *)
Lemma scan_int_digits ds r :
  forallb isdigit ds = true -> ds <> [] -> stops isdigit r ->
  scan_int (ds ++ r) = Some (digits_val 0 ds, r).
Proof.
  intros Hd Hn Hr. destruct ds as [|c ds]; [done|].
  pose proof Hd as Hd'. simpl in Hd'. apply andb_true_iff in Hd' as [Hc _].
  unfold scan_int. rewrite skip_while_stops
    by (simpl; by apply isdigit_not_space).
  change ((c :: ds) ++ r) with (c :: (ds ++ r)).
  rewrite isdigit_no_sign by done.
  change (c :: (ds ++ r)) with ((c :: ds) ++ r).
  rewrite span_while_app, skip_while_app by done. done.
Qed.

Lemma scan_int_print_u z r :
  0 <= z -> stops isdigit r -> scan_int (print_u z ++ r) = Some (z, r).
Proof.
  intros Hz Hr. destruct (print_u_spec z Hz) as (Hd & Hn & Hv).
  rewrite scan_int_digits by done. by rewrite Hv.
Qed.

Lemma scan_int_skip_space c s : isspace c = true -> scan_int (c :: s) = scan_int s.
Proof. intros Hc. unfold scan_int. simpl. by rewrite Hc. Qed.

Lemma print_u_stops_space z r : 0 <= z -> stops isspace (print_u z ++ r).
Proof.
  intros Hz. destruct (print_u_spec z Hz) as (Hd & Hn & _).
  destruct (print_u z) as [|c ds]; [done|]. simpl in *.
  apply andb_true_iff in Hd as [Hc _]. by apply isdigit_not_space.
Qed.

(** ** Bounds and predicates on strings *)

Lemma strchr_None c s : strchr c s = None <-> c ∉ s.
Proof.
  induction s as [|x s IH]; cbn [strchr].
  - split; [intros _; apply not_elem_of_nil|done].
  - destruct (decide (x = c)) as [->|Hx].
    + split; [done|]. intros H. destruct H. constructor.
    + rewrite not_elem_of_cons. destruct (strchr c s) as [n|]; cbn.
      * split; [done|]. intros [_ Hs]. by apply IH in Hs.
      * split; [|done]. intros _. split; [congruence|by apply IH].
Qed.

Lemma strchr_Some c s n :
  strchr c s = Some n ->
  s = take n s ++ c :: drop (S n) s /\ (n < length s)%nat /\ c ∉ take n s.
Proof.
  revert n. induction s as [|x s IH]; intros n; cbn [strchr]; [done|].
  destruct (decide (x = c)) as [->|Hx].
  - intros [= <-]. cbn. split_and!; [by rewrite drop_0|lia|apply not_elem_of_nil].
  - destruct (strchr c s) as [m|]; cbn [fmap option_fmap option_map]; [|done].
    intros [= <-]. destruct (IH m eq_refl) as (E & Hl & Hn).
    cbn [take drop app length]. split_and!; [congruence|lia|].
    apply not_elem_of_cons. split; [congruence|done].
Qed.

Lemma snprintf_s_short n s : (length s < n)%nat -> snprintf_s n s = s.
Proof. intros. unfold snprintf_s. apply take_ge. lia. Qed.

Lemma snprintf_s_length n s : (0 < n)%nat -> (length (snprintf_s n s) < n)%nat.
Proof. intros. unfold snprintf_s. rewrite length_take. lia. Qed.

Lemma forallb_take {A} (P : A -> bool) n l : forallb P l = true -> forallb P (take n l) = true.
Proof.
  intros H. rewrite forallb_forall in *. intros x Hx. apply H.
  rewrite <- (take_drop n l). apply in_app_iff. by left.
Qed.

Lemma forallb_drop {A} (P : A -> bool) n l : forallb P l = true -> forallb P (drop n l) = true.
Proof.
  intros H. rewrite forallb_forall in *. intros x Hx. apply H.
  rewrite <- (take_drop n l). apply in_app_iff. by right.
Qed.

Lemma forallb_impl {A} (P Q : A -> bool) l :
  (forall x, P x = true -> Q x = true) -> forallb P l = true -> forallb Q l = true.
Proof. intros H Hl. rewrite forallb_forall in *. auto. Qed.

Lemma forallb_concat {A} (P : A -> bool) ll :
  Forall (fun l => forallb P l = true) ll -> forallb P (concat ll) = true.
Proof. induction 1; [done|]. cbn [concat]. by rewrite forallb_app, andb_true_iff. Qed.

Lemma print_pos_length fuel z : (length (print_pos fuel z) <= fuel)%nat.
Proof.
  revert z. induction fuel as [|fuel IH]; intros z; cbn [print_pos]; [done|].
  destruct (z <? 10); [cbn; lia|]. rewrite length_app. cbn [length]. specialize (IH (z / 10)). lia.
Qed.

Lemma print_u_length z n : 0 <= z < 2 ^ Z.of_nat n -> (length (print_u z) <= S n)%nat.
Proof.
  intros Hz. unfold print_u. etrans; [apply print_pos_length|].
  destruct (decide (z = 0)) as [->|]; [cbn; lia|].
  assert (Z.log2 z < Z.of_nat n) by (apply Z.log2_lt_pow2; lia). lia.
Qed.

Lemma print_u_digits z n :
  0 <= z < 10 ^ Z.of_nat n -> (0 < n)%nat -> (length (print_u z) <= n)%nat.
Proof.
  unfold print_u. generalize (S (Z.to_nat (Z.log2 z))). intros fuel. revert z n.
  induction fuel as [|fuel IH]; intros z n Hz Hn; cbn [print_pos]; [cbn; lia|].
  destruct (Z.ltb_spec z 10); [cbn; lia|]. destruct n as [|[|n]]; [lia|cbn in Hz; lia|].
  rewrite length_app. cbn [length].
  assert (length (print_pos fuel (z / 10)) <= S n)%nat; [|lia]. apply IH; [|lia].
  rewrite Nat2Z.inj_succ, Z.pow_succ_r in Hz by lia.
  split; [apply Z.div_pos; lia|apply Z.div_lt_upper_bound; lia].
Qed.

Lemma print_d_length z n : Z.abs z < 2 ^ Z.of_nat n -> (length (print_d z) <= S (S n))%nat.
Proof.
  intros Hz. unfold print_d. destruct (Z.ltb_spec z 0).
  - cbn [length]. pose proof (print_u_length (- z) n ltac:(lia)). lia.
  - pose proof (print_u_length z n ltac:(lia)). lia.
Qed.

Lemma skip_while_length P s : (length (skip_while P s) <= length s)%nat.
Proof.
  induction s as [|c s IH]; cbn [skip_while]; [done|]. destruct (P c); cbn [length]; lia.
Qed.
