(* ===== verification/Arch.v ===== *)
(** * Per-architecture system call numbers

    The generated headers [src/arch/x86_64.h] and [src/arch/aarch64.h], and
    the selector [src/arch/syscalls.h].  [AC_SYS] is the list of the
    [AC_SYS_<name>] macros, so that the token paste [AC_SYS_##s] of the
    sources is the lookup [ac_sys_nr a s]; [AC_TRIP_X] is the X-macro list;
    [AC_TP] the tracepoint aliases; [AC_SYSCALL_TAB] the table of numbers and
    names from which the deny list is built. *)

From S2P Require Import Prelude.
Local Open Scope string_scope.
Local Open Scope Z_scope.

(** [struct ac_sys { int nr; const char *name; }]. *)
Record ac_sys := AcSys { sys_nr : Z; sys_name : string }.

#[export] Instance ac_sys_eq_dec : EqDecision ac_sys.
Proof. solve_decision. Defined.

Record arch := Arch {
  AC_AUDIT_ARCH : Z;
  AC_SYS : list (string * Z);
  AC_TRIP_X : list string;
  AC_TP : list (string * string);
  AC_SYSCALL_TAB : list ac_sys
}.

(** The macro [AC_SYS_<s>]. *)
Definition ac_sys_nr (a : arch) (s : string) : option Z :=
  (fun p => p.2.2) <$> list_find (fun p => p.1 = s) (AC_SYS a).

(** ** x86_64.h *)

(** [AUDIT_ARCH_X86_64] of [linux/audit.h]. *)
Definition AC_AUDIT_ARCH_x86_64 : Z := 3221225534.

Definition AC_SYS_x86_64 : list (string * Z) :=
  [ ("execve", 59); ("openat", 257); ("connect", 42); ("clone", 56);
   ("clone3", 435); ("mount", 165); ("umount2", 166); ("pivot_root", 155);
   ("unshare", 272); ("setns", 308); ("bpf", 321); ("perf_event_open", 298);
   ("ptrace", 101); ("keyctl", 250); ("init_module", 175); ("finit_module", 313);
   ("delete_module", 176); ("kexec_load", 246); ("kexec_file_load", 320); ("reboot", 169);
   ("swapon", 167); ("swapoff", 168); ("acpi", (-1)); ("process_vm_readv", 310);
   ("process_vm_writev", 311); ("kcmp", 312); ("pidfd_getfd", 438); ("process_madvise", 440);
   ("process_mrelease", 448); ("open_by_handle_at", 304); ("name_to_handle_at", 303); ("fsopen", 430);
   ("fsconfig", 431); ("fsmount", 432); ("fspick", 433); ("move_mount", 429);
   ("open_tree", 428); ("mount_setattr", 442); ("add_key", 248); ("request_key", 249);
   ("fanotify_init", 300); ("clock_settime", 227); ("clock_settime64", (-1)); ("settimeofday", 164);
   ("adjtimex", 159); ("vhangup", 153); ("syslog", 103); ("quotactl", 179);
   ("quotactl_fd", 443); ("userfaultfd", 323); ("uselib", 134); ("lookup_dcookie", 212);
   ("io_uring_setup", 425); ("io_uring_enter", 426); ("io_uring_register", 427); ("vm86", (-1));
   ("vm86old", (-1)); ("ioperm", 173); ("iopl", 172) ].

Definition AC_TRIP_X_x86_64 : list string :=
  [ "mount"; "umount2"; "pivot_root"; "unshare"; "setns";
   "clone3"; "bpf"; "perf_event_open"; "ptrace"; "keyctl";
   "init_module"; "delete_module"; "userfaultfd"; "io_uring_setup"; "fsopen";
   "fsconfig"; "fsmount"; "fspick"; "move_mount"; "open_tree";
   "mount_setattr"; "ioperm"; "iopl" ].

Definition AC_TP_x86_64 : list (string * string) :=
  [ ("mount", "mount"); ("umount2", "umount"); ("pivot_root", "pivot_root");
   ("unshare", "unshare"); ("setns", "setns"); ("clone3", "clone3");
   ("bpf", "bpf"); ("perf_event_open", "perf_event_open"); ("ptrace", "ptrace");
   ("keyctl", "keyctl"); ("init_module", "init_module"); ("delete_module", "delete_module");
   ("userfaultfd", "userfaultfd"); ("io_uring_setup", "io_uring_setup"); ("fsopen", "fsopen");
   ("fsconfig", "fsconfig"); ("fsmount", "fsmount"); ("fspick", "fspick");
   ("move_mount", "move_mount"); ("open_tree", "open_tree"); ("mount_setattr", "mount_setattr");
   ("ioperm", "ioperm"); ("iopl", "iopl") ].

Definition AC_SYSCALL_TAB_x86_64 : list ac_sys :=
  [ AcSys 165 "mount"; AcSys 166 "umount2"; AcSys 155 "pivot_root";
   AcSys 272 "unshare"; AcSys 308 "setns"; AcSys 321 "bpf";
   AcSys 298 "perf_event_open"; AcSys 101 "ptrace"; AcSys 250 "keyctl";
   AcSys 175 "init_module"; AcSys 313 "finit_module"; AcSys 176 "delete_module";
   AcSys 246 "kexec_load"; AcSys 320 "kexec_file_load"; AcSys 169 "reboot";
   AcSys 167 "swapon"; AcSys 168 "swapoff"; AcSys 310 "process_vm_readv";
   AcSys 311 "process_vm_writev"; AcSys 312 "kcmp"; AcSys 438 "pidfd_getfd";
   AcSys 440 "process_madvise"; AcSys 448 "process_mrelease"; AcSys 304 "open_by_handle_at";
   AcSys 303 "name_to_handle_at"; AcSys 430 "fsopen"; AcSys 431 "fsconfig";
   AcSys 432 "fsmount"; AcSys 433 "fspick"; AcSys 429 "move_mount";
   AcSys 428 "open_tree"; AcSys 442 "mount_setattr"; AcSys 248 "add_key";
   AcSys 249 "request_key"; AcSys 300 "fanotify_init"; AcSys 227 "clock_settime";
   AcSys 164 "settimeofday"; AcSys 159 "adjtimex"; AcSys 153 "vhangup";
   AcSys 103 "syslog"; AcSys 179 "quotactl"; AcSys 443 "quotactl_fd";
   AcSys 323 "userfaultfd"; AcSys 134 "uselib"; AcSys 212 "lookup_dcookie";
   AcSys 425 "io_uring_setup"; AcSys 426 "io_uring_enter"; AcSys 427 "io_uring_register";
   AcSys 173 "ioperm"; AcSys 172 "iopl" ].

Definition arch_x86_64 : arch :=
  Arch AC_AUDIT_ARCH_x86_64 AC_SYS_x86_64 AC_TRIP_X_x86_64 AC_TP_x86_64
    AC_SYSCALL_TAB_x86_64.


(** ** aarch64.h *)

(** [AUDIT_ARCH_AARCH64] of [linux/audit.h]. *)
Definition AC_AUDIT_ARCH_aarch64 : Z := 3221225655.

Definition AC_SYS_aarch64 : list (string * Z) :=
  [ ("execve", 221); ("openat", 56); ("connect", 203); ("clone", 220);
   ("clone3", 435); ("mount", 40); ("umount2", 39); ("pivot_root", 41);
   ("unshare", 97); ("setns", 268); ("bpf", 280); ("perf_event_open", 241);
   ("ptrace", 117); ("keyctl", 219); ("init_module", 105); ("finit_module", 273);
   ("delete_module", 106); ("kexec_load", 104); ("kexec_file_load", 294); ("reboot", 142);
   ("swapon", 224); ("swapoff", 225); ("acpi", (-1)); ("process_vm_readv", 270);
   ("process_vm_writev", 271); ("kcmp", 272); ("pidfd_getfd", 438); ("process_madvise", 440);
   ("process_mrelease", 448); ("open_by_handle_at", 265); ("name_to_handle_at", 264); ("fsopen", 430);
   ("fsconfig", 431); ("fsmount", 432); ("fspick", 433); ("move_mount", 429);
   ("open_tree", 428); ("mount_setattr", 442); ("add_key", 217); ("request_key", 218);
   ("fanotify_init", 262); ("clock_settime", 112); ("clock_settime64", 404); ("settimeofday", 170);
   ("adjtimex", 171); ("vhangup", 58); ("syslog", 116); ("quotactl", 60);
   ("quotactl_fd", 443); ("userfaultfd", 282); ("uselib", (-1)); ("lookup_dcookie", 18);
   ("io_uring_setup", 425); ("io_uring_enter", 426); ("io_uring_register", 427); ("vm86", (-1));
   ("vm86old", (-1)); ("ioperm", (-1)); ("iopl", (-1)) ].

Definition AC_TRIP_X_aarch64 : list string :=
  [ "mount"; "umount2"; "pivot_root"; "unshare"; "setns";
   "clone3"; "bpf"; "perf_event_open"; "ptrace"; "keyctl";
   "init_module"; "delete_module"; "userfaultfd"; "io_uring_setup"; "fsopen";
   "fsconfig"; "fsmount"; "fspick"; "move_mount"; "open_tree";
   "mount_setattr" ].

Definition AC_TP_aarch64 : list (string * string) :=
  [ ("mount", "mount"); ("umount2", "umount"); ("pivot_root", "pivot_root");
   ("unshare", "unshare"); ("setns", "setns"); ("clone3", "clone3");
   ("bpf", "bpf"); ("perf_event_open", "perf_event_open"); ("ptrace", "ptrace");
   ("keyctl", "keyctl"); ("init_module", "init_module"); ("delete_module", "delete_module");
   ("userfaultfd", "userfaultfd"); ("io_uring_setup", "io_uring_setup"); ("fsopen", "fsopen");
   ("fsconfig", "fsconfig"); ("fsmount", "fsmount"); ("fspick", "fspick");
   ("move_mount", "move_mount"); ("open_tree", "open_tree"); ("mount_setattr", "mount_setattr");
   ("ioperm", "ioperm"); ("iopl", "iopl") ].

Definition AC_SYSCALL_TAB_aarch64 : list ac_sys :=
  [ AcSys 40 "mount"; AcSys 39 "umount2"; AcSys 41 "pivot_root";
   AcSys 97 "unshare"; AcSys 268 "setns"; AcSys 280 "bpf";
   AcSys 241 "perf_event_open"; AcSys 117 "ptrace"; AcSys 219 "keyctl";
   AcSys 105 "init_module"; AcSys 273 "finit_module"; AcSys 106 "delete_module";
   AcSys 104 "kexec_load"; AcSys 294 "kexec_file_load"; AcSys 142 "reboot";
   AcSys 224 "swapon"; AcSys 225 "swapoff"; AcSys 270 "process_vm_readv";
   AcSys 271 "process_vm_writev"; AcSys 272 "kcmp"; AcSys 438 "pidfd_getfd";
   AcSys 440 "process_madvise"; AcSys 448 "process_mrelease"; AcSys 265 "open_by_handle_at";
   AcSys 264 "name_to_handle_at"; AcSys 430 "fsopen"; AcSys 431 "fsconfig";
   AcSys 432 "fsmount"; AcSys 433 "fspick"; AcSys 429 "move_mount";
   AcSys 428 "open_tree"; AcSys 442 "mount_setattr"; AcSys 217 "add_key";
   AcSys 218 "request_key"; AcSys 262 "fanotify_init"; AcSys 112 "clock_settime";
   AcSys 404 "clock_settime64"; AcSys 170 "settimeofday"; AcSys 171 "adjtimex";
   AcSys 58 "vhangup"; AcSys 116 "syslog"; AcSys 60 "quotactl";
   AcSys 443 "quotactl_fd"; AcSys 282 "userfaultfd"; AcSys 18 "lookup_dcookie";
   AcSys 425 "io_uring_setup"; AcSys 426 "io_uring_enter"; AcSys 427 "io_uring_register" ].

Definition arch_aarch64 : arch :=
  Arch AC_AUDIT_ARCH_aarch64 AC_SYS_aarch64 AC_TRIP_X_aarch64 AC_TP_aarch64
    AC_SYSCALL_TAB_aarch64.


(** [syscalls.h]: the build selects exactly one of the two headers. *)
Inductive target := T_x86_64 | T_aarch64.

#[export] Instance target_eq_dec : EqDecision target.
Proof. solve_decision. Defined.

Definition syscalls_h (t : target) : arch :=
  match t with T_x86_64 => arch_x86_64 | T_aarch64 => arch_aarch64 end.

(** ** What the generator guarantees

    [tools/gen-arch-headers.sh] promises that the table holds every deny-list
    macro that exists on the architecture, under the same number, and that
    the trip list names only calls the table (or the clone3 rule) covers. *)

(** The macros that are not deny-list entries: the monitored calls and the
    two clone calls, which the filter handles with rules of their own. *)
Definition unlisted : list string := ["execve"; "openat"; "connect"; "clone"; "clone3"].

Definition tab_nrs (a : arch) : list Z := sys_nr <$> AC_SYSCALL_TAB a.

Definition tab_has (a : arch) (s : string) : bool :=
  existsb (fun e => bool_decide (sys_name e = s)) (AC_SYSCALL_TAB a).

(** The executable check of the four clauses. *)
Definition header_ok (a : arch) : bool :=
  forallb (fun e => bool_decide (ac_sys_nr a (sys_name e) = Some (sys_nr e)) &&
                    (0 <=? sys_nr e)) (AC_SYSCALL_TAB a) &&
  forallb (fun p => (p.2 <? 0) || bool_decide (p.1 ∈ unlisted) || tab_has a p.1)
          (AC_SYS a) &&
  bool_decide (NoDup (tab_nrs a)) &&
  forallb (fun s => bool_decide (s = "clone3") || tab_has a s) (AC_TRIP_X a).

Lemma headers_ok t : header_ok (syscalls_h t) = true.
Proof. destruct t; vm_compute; reflexivity. Qed.

Lemma tab_has_spec a s :
  tab_has a s = true <-> exists e, e ∈ AC_SYSCALL_TAB a /\ sys_name e = s.
Proof.
  unfold tab_has. rewrite existsb_exists. setoid_rewrite bool_decide_eq_true.
  by setoid_rewrite list_elem_of_In.
Qed.

Lemma tab_entry t e :
  e ∈ AC_SYSCALL_TAB (syscalls_h t) ->
  ac_sys_nr (syscalls_h t) (sys_name e) = Some (sys_nr e) /\ 0 <= sys_nr e.
Proof.
  intros He%list_elem_of_In. pose proof (headers_ok t) as H. unfold header_ok in H.
  zbool. rewrite forallb_forall in H. apply H in He. zbool.
  split; [by eapply bool_decide_eq_true_1|done].
Qed.

Lemma tab_nrs_nodup t : NoDup (tab_nrs (syscalls_h t)).
Proof.
  pose proof (headers_ok t) as H. unfold header_ok in H. zbool.
  by eapply bool_decide_eq_true_1.
Qed.

Lemma trip_listed t s :
  s ∈ AC_TRIP_X (syscalls_h t) ->
  s = "clone3" \/ exists e, e ∈ AC_SYSCALL_TAB (syscalls_h t) /\ sys_name e = s.
Proof.
  intros Hs%list_elem_of_In. pose proof (headers_ok t) as H. unfold header_ok in H.
  zbool. rewrite forallb_forall in H0. apply H0 in Hs.
  apply orb_true_iff in Hs as [Hs|Hs]; [left; by eapply bool_decide_eq_true_1|right].
  by apply tab_has_spec.
Qed.

Lemma tab_small t : (length (AC_SYSCALL_TAB (syscalls_h t)) <= 128)%nat.
Proof. destruct t; vm_compute; lia. Qed.

Lemma tab_nrs_u32 t n : n ∈ tab_nrs (syscalls_h t) -> 0 <= n < 512.
Proof.
  assert (Hb : forallb (fun n => (0 <=? n) && (n <? 512)) (tab_nrs (syscalls_h t)) = true)
    by (destruct t; vm_compute; reflexivity).
  rewrite forallb_forall in Hb. intros Hn%list_elem_of_In%Hb. zbool. lia.
Qed.
