(* ===== verification/Cbpf.v ===== *)
(** * Classic BPF as seccomp runs it: the interface the filter is built for

    The kernel's filter machine is not part of the repository.  [CbpfMachine]
    states the documented behaviour of the five instruction forms the sandbox
    emits (load of a 32-bit word of [struct seccomp_data], the three compare
    jumps with unsigned operands and forward offsets, return of a constant);
    the theorems about the filter are proved against it.  [cbpf_interp] is a
    concrete machine that meets the interface. *)

From S2P Require Import Prelude.

(** [struct sock_filter], and the macros that build it. *)
Record sock_filter := SockFilter { f_code : Z; f_jt : Z; f_jf : Z; f_k : Z }.

#[export] Instance sock_filter_eq_dec : EqDecision sock_filter.
Proof. solve_decision. Defined.

Definition BPF_STMT (c k : Z) : sock_filter := SockFilter c 0 0 (u32 k).
Definition BPF_JUMP (c k jt jf : Z) : sock_filter := SockFilter c (u8 jt) (u8 jf) (u32 k).

(** Opcodes, from [linux/bpf_common.h]: class, size, mode, operation, source. *)
Definition LD_W_ABS : Z := 32.
Definition JEQ_K : Z := 21.
Definition JGT_K : Z := 37.
Definition JSET_K : Z := 69.
Definition RET_K : Z := 6.

(** [struct seccomp_data]: nr (int), arch, instruction pointer, six arguments. *)
Record seccomp_data := SeccompData {
  sd_nr : Z; sd_arch : Z; sd_ip : Z; sd_args : list Z
}.

(** The word at a byte offset (little endian): the low halves of the fields. *)
Definition sd_word (d : seccomp_data) (off : Z) : option Z :=
  if off =? 0 then Some (u32 (sd_nr d))
  else if off =? 4 then Some (u32 (sd_arch d))
  else if off =? 16 then Some (u32 (default 0 (sd_args d !! 0%nat)))
  else None.

(** The test of a conditional jump on the accumulator. *)
Definition jump_test (c k a : Z) : option bool :=
  if c =? JEQ_K then Some (a =? k)
  else if c =? JGT_K then Some (k <? a)
  else if c =? JSET_K then Some (negb (Z.land a k =? 0))
  else None.

(** One more executed instruction. *)
Definition tick (n : nat) (r : option (Z * nat)) : option (Z * nat) :=
  match r with Some (v, m) => Some (v, (n + m)%nat) | None => None end.

(** [cbpf_run p pc a d]: run [p] from [pc] with accumulator [a]; the verdict
    and the number of instructions executed. *)
Class CbpfMachine := {
  cbpf_run : list sock_filter -> nat -> Z -> seccomp_data -> option (Z * nat);
  cbpf_ld : forall p pc a d i v,
    p !! pc = Some i -> f_code i = LD_W_ABS -> sd_word d (f_k i) = Some v ->
    cbpf_run p pc a d = tick 1 (cbpf_run p (S pc) v d);
  cbpf_jmp : forall p pc a d i t,
    p !! pc = Some i -> jump_test (f_code i) (f_k i) a = Some t ->
    cbpf_run p pc a d =
      tick 1 (cbpf_run p (S pc + Z.to_nat (if t then f_jt i else f_jf i)) a d);
  cbpf_ret : forall p pc a d i,
    p !! pc = Some i -> f_code i = RET_K -> cbpf_run p pc a d = Some (f_k i, 1%nat)
}.

(** ** A concrete machine *)

Fixpoint cbpf_interp (fuel : nat) (p : list sock_filter) (pc : nat) (a : Z)
    (d : seccomp_data) : option (Z * nat) :=
  match fuel with
  | O => None
  | S fuel' =>
      match p !! pc with
      | None => None
      | Some i =>
          if f_code i =? RET_K then Some (f_k i, 1%nat)
          else if f_code i =? LD_W_ABS then
            match sd_word d (f_k i) with
            | Some v => tick 1 (cbpf_interp fuel' p (S pc) v d)
            | None => None
            end
          else match jump_test (f_code i) (f_k i) a with
               | Some t =>
                   tick 1 (cbpf_interp fuel' p
                     (S pc + Z.to_nat (if t then f_jt i else f_jf i)) a d)
               | None => None
               end
      end
  end.

(** Jumps go forward, so fuel past the end of the program changes nothing. *)
Lemma cbpf_interp_fuel f1 f2 p pc a d :
  (length p <= f1 + pc)%nat -> (length p <= f2 + pc)%nat ->
  cbpf_interp f1 p pc a d = cbpf_interp f2 p pc a d.
Proof.
  revert f2 pc a. induction f1 as [|f1 IH]; intros f2 pc a H1 H2.
  - destruct f2 as [|f2]; [done|]. simpl.
    by rewrite (lookup_ge_None_2 p pc) by lia.
  - destruct f2 as [|f2]; simpl.
    { by rewrite (lookup_ge_None_2 p pc) by lia. }
    destruct (p !! pc) as [i|]; [|done].
    repeat case_on_match; try done.
    all: try (f_equal; apply IH; lia).
Qed.

#[export] Program Instance cbpf_machine : CbpfMachine := {|
  cbpf_run p pc a d := cbpf_interp (S (length p)) p pc a d
|}.
Next Obligation.
  intros p pc a d i v Hi Hc Hw. simpl. rewrite Hi, Hc, Hw. simpl.
  f_equal. apply (cbpf_interp_fuel _ (S (length p))); lia.
Qed.
Next Obligation.
  intros p pc a d i t Hi Ht. simpl. rewrite Hi, Ht.
  unfold jump_test in Ht.
  destruct (Z.eqb_spec (f_code i) RET_K) as [E|].
  { rewrite E in Ht. discriminate. }
  destruct (Z.eqb_spec (f_code i) LD_W_ABS) as [E|].
  { rewrite E in Ht. discriminate. }
  f_equal. apply (cbpf_interp_fuel _ (S (length p))); lia.
Qed.
Next Obligation.
  intros p pc a d i Hi Hc. simpl. by rewrite Hi, Hc.
Qed.

Lemma tick_tick n m r : tick n (tick m r) = tick (n + m) r.
Proof. destruct r as [[v k]|]; simpl; [|done]. by rewrite Nat.add_assoc. Qed.

Lemma tick_fst n r : fst <$> tick n r = fst <$> r.
Proof. by destruct r as [[v k]|]. Qed.
