(* ===== verification/Seccomp.v ===== *)
(** * The seccomp filter of the sandbox ([sand.c], section 5)

    The deny list is collected in [g_deny], sorted, and compiled by
    [emit_bst] into a search tree of classic BPF instructions behind a
    prologue that checks the architecture and the flags of [clone].  The
    globals [g_flt]/[g_n], [g_deny]/[g_ndeny] and [g_deny_ret] are the record
    [filter_state]; a store past the end of [g_flt] (512) or [g_deny] (128) is
    the value [None], so that a theorem that the compiler returns [Some] is
    also the proof that it stays inside its arrays. *)

From S2P Require Import Prelude Arch Cbpf.
From stdpp Require Import sorting.
Local Open Scope Z_scope.

(** ** Constants of the kernel headers the filter uses *)

Definition EPERM : Z := 1.
Definition ENOSYS : Z := 38.
Definition SECCOMP_RET_KILL_PROCESS : Z := 2147483648.
Definition SECCOMP_RET_ERRNO : Z := 327680.
Definition SECCOMP_RET_USER_NOTIF : Z := 2143289344.
Definition SECCOMP_RET_ALLOW : Z := 2147418112.
Definition SECCOMP_RET_DATA : Z := 65535.
Definition SECCOMP_FILTER_FLAG_LOG : Z := 2.
Definition SECCOMP_FILTER_FLAG_NEW_LISTENER : Z := 8.
Definition CLONE_NEWUSER : Z := 268435456.
Definition CLONE_NEWNET : Z := 1073741824.

Definition DENY_EPERM : Z := Z.lor SECCOMP_RET_ERRNO (Z.land EPERM SECCOMP_RET_DATA).
Definition DENY_KILL : Z := SECCOMP_RET_KILL_PROCESS.
Definition DENY_ENOSYS : Z := Z.lor SECCOMP_RET_ERRNO (Z.land ENOSYS SECCOMP_RET_DATA).

Definition OFF_NR : Z := 0.
Definition OFF_ARCH : Z := 4.
Definition OFF_ARG0 : Z := 16.

(** ** State *)

Record sc_deny := ScDeny { deny_nr : Z; deny_name : string }.

#[export] Instance sc_deny_eq_dec : EqDecision sc_deny.
Proof. solve_decision. Defined.

Record filter_state := FilterState {
  g_flt : list sock_filter;
  g_deny : list sc_deny;
  g_deny_ret : Z
}.

Definition filter_init : filter_state := FilterState [] [] DENY_EPERM.

Definition set_flt (st : filter_state) (p : list sock_filter) : filter_state :=
  FilterState p (g_deny st) (g_deny_ret st).
Definition set_deny (st : filter_state) (l : list sc_deny) : filter_state :=
  FilterState (g_flt st) l (g_deny_ret st).
Definition set_deny_ret (st : filter_state) (r : Z) : filter_state :=
  FilterState (g_flt st) (g_deny st) r.

(** [g_flt[g_n++] = f] *)
Definition f_push (f : sock_filter) (st : filter_state) : option filter_state :=
  if decide (length (g_flt st) < 512)%nat
  then Some (set_flt st (g_flt st ++ [f])) else None.

(** [g_deny[g_ndeny++] = { nr, name }] *)
Definition deny (nr : Z) (name : string) (st : filter_state) : option filter_state :=
  if decide (length (g_deny st) < 128)%nat
  then Some (set_deny st (g_deny st ++ [ScDeny nr name])) else None.

Definition cmp_sc (a b : sc_deny) : Z :=
  if deny_nr a <? deny_nr b then -1 else if deny_nr b <? deny_nr a then 1 else 0.

(** The order [qsort] establishes with [cmp_sc]. *)
Definition sc_le (a b : sc_deny) : Prop := cmp_sc a b <= 0.
#[export] Instance sc_le_dec : RelDecision sc_le.
Proof. intros a b. unfold sc_le. apply _. Defined.

Definition qsort_deny (l : list sc_deny) : list sc_deny := merge_sort sc_le l.

(** [g_flt[i].jt = v] *)
Definition patch_jt (i : nat) (v : Z) (p : list sock_filter) : list sock_filter :=
  alter (fun f => SockFilter (f_code f) (u8 v) (f_jf f) (f_k f)) i p.

(** The recursion halves an interval of at most [g_ndeny] entries: the fuel
    [S g_ndeny] the caller passes is never exhausted (see [emit_bst_ok]). *)
Fixpoint emit_bst (fuel : nat) (lo hi : Z) (st : filter_state) : option filter_state :=
  match fuel with
  | O => None
  | S fuel' =>
      if hi <? lo then Some st
      else
        let mid := Z.quot (lo + hi) 2 in
        let node := length (g_flt st) in
        e ← g_deny st !! Z.to_nat mid;
        st ← f_push (BPF_JUMP JGT_K (deny_nr e) 0 0) st;
        st ← f_push (BPF_JUMP JEQ_K (deny_nr e) 0 1) st;
        st ← f_push (BPF_STMT RET_K (g_deny_ret st)) st;
        st ← emit_bst fuel' lo (mid - 1) st;
        let right := length (g_flt st) in
        let st := set_flt st (patch_jt node (Z.of_nat right - Z.of_nat node - 1) (g_flt st)) in
        emit_bst fuel' (mid + 1) hi st
  end.

Definition deny_enosys (nr : Z) (st : filter_state) : option filter_state :=
  st ← f_push (BPF_JUMP JEQ_K nr 0 1) st;
  f_push (BPF_STMT RET_K DENY_ENOSYS) st.

(** One [deny] per row of the generated table. *)
Fixpoint denylist_rows (tab : list ac_sys) (st : filter_state) : option filter_state :=
  match tab with
  | [] => Some st
  | e :: tab' => st ← deny (sys_nr e) (sys_name e) st; denylist_rows tab' st
  end.
Definition denylist_build (a : arch) (st : filter_state) : option filter_state :=
  denylist_rows (AC_SYSCALL_TAB a) st.

(** The pushes of [seccomp_apply] up to [denylist_build]. *)
Definition prologue (a : arch) (clone : Z) (st : filter_state) : option filter_state :=
  st ← f_push (BPF_STMT LD_W_ABS OFF_ARCH) st;
  st ← f_push (BPF_JUMP JEQ_K (AC_AUDIT_ARCH a) 1 0) st;
  st ← f_push (BPF_STMT RET_K DENY_KILL) st;
  st ← f_push (BPF_STMT LD_W_ABS OFF_NR) st;
  st ← f_push (BPF_JUMP JEQ_K clone 0 4) st;
  st ← f_push (BPF_STMT LD_W_ABS OFF_ARG0) st;
  st ← f_push (BPF_JUMP JSET_K (Z.lor CLONE_NEWUSER CLONE_NEWNET) 0 1) st;
  st ← f_push (BPF_STMT RET_K DENY_EPERM) st;
  f_push (BPF_STMT LD_W_ABS OFF_NR) st.

(** The filter program [seccomp_apply] builds ([ask] is [C.ask]). *)
Definition seccomp_filter (a : arch) (ask : bool) (st : filter_state)
    : option filter_state :=
  clone ← ac_sys_nr a "clone";
  clone3 ← ac_sys_nr a "clone3";
  let st := if ask then set_deny_ret st SECCOMP_RET_USER_NOTIF else st in
  st ← prologue a clone st;
  st ← denylist_build a st;
  st ← (if 0 <=? clone3 then deny_enosys clone3 st else Some st);
  let st := set_deny st (qsort_deny (g_deny st)) in
  st ← emit_bst (S (length (g_deny st))) 0 (Z.of_nat (length (g_deny st)) - 1) st;
  f_push (BPF_STMT RET_K SECCOMP_RET_ALLOW) st.

(** ** Installing the filter *)

Inductive apply_result :=
  | Installed (st : filter_state) (prog : list sock_filter) (flags : Z) (rc : Z)
  | Died (msg : string)
  | Overrun.          (* a store outside g_flt or g_deny *)

Section Install.
(** What [prctl(PR_SET_NO_NEW_PRIVS)] and [seccomp(2)] answer. *)
Context (prctl_rc : Z) (seccomp_rc : Z -> list sock_filter -> Z).

Definition seccomp_apply (a : arch) (ask : bool) (st : filter_state) : apply_result :=
  match seccomp_filter a ask st with
  | None => Overrun
  | Some st =>
      let len := u16 (Z.of_nat (length (g_flt st))) in
      let prog := take (Z.to_nat len) (g_flt st) in
      if prctl_rc <? 0 then Died "no_new_privs"
      else
        let fl := SECCOMP_FILTER_FLAG_LOG in
        let fl := if ask then Z.lor fl SECCOMP_FILTER_FLAG_NEW_LISTENER else fl in
        let rc := seccomp_rc fl prog in
        if rc <? 0 then Died "seccomp install (--ask needs kernel >= 5.0)"
        else Installed st prog fl rc
  end.
End Install.

(** [sc_name]: the display name of a denied call. *)
Definition sc_name (st : filter_state) (nr : Z) : string :=
  match list_find (fun e => deny_nr e = nr) (g_deny st) with
  | Some (_, e) => deny_name e
  | None => "?"
  end.

(** ** The policy the filter is meant to implement *)

(** The verdict for one system call, read off the comments of the source:
    a foreign architecture kills; [clone] may not create user or network
    namespaces; [clone3] does not exist; the listed calls are refused (or
    parked for the supervisor); everything else runs. *)
Definition policy (a : arch) (ask : bool) (d : seccomp_data) : Z :=
  let nr := u32 (sd_nr d) in
  if negb (u32 (sd_arch d) =? AC_AUDIT_ARCH a) then DENY_KILL
  else if bool_decide (ac_sys_nr a "clone" = Some nr) &&
          negb (Z.land (u32 (default 0 (sd_args d !! 0%nat)))
                       (Z.lor CLONE_NEWUSER CLONE_NEWNET) =? 0) then DENY_EPERM
  else if bool_decide (ac_sys_nr a "clone3" = Some nr) then DENY_ENOSYS
  else if bool_decide (nr ∈ tab_nrs a)
       then (if ask then SECCOMP_RET_USER_NOTIF else DENY_EPERM)
  else SECCOMP_RET_ALLOW.

(** ** The shape of the emitted tree

    [bst_block ret ns blk]: [blk] is the code of a search tree over the
    numbers [ns] whose matches return [ret].  The left subtree follows its
    node and falls through into the right one; the [JGT] skips it. *)
Inductive bst_block (ret : Z) : list Z -> list sock_filter -> Prop :=
  | bst_leaf : bst_block ret [] []
  | bst_node l m r cl cr :
      bst_block ret l cl -> bst_block ret r cr ->
      (length cl + 2 < 256)%nat ->
      bst_block ret (l ++ m :: r)
        ([BPF_JUMP JGT_K m (Z.of_nat (length cl) + 2) 0;
          BPF_JUMP JEQ_K m 0 1; BPF_STMT RET_K ret] ++ cl ++ cr).

Lemma bst_block_length ret ns blk :
  bst_block ret ns blk -> length blk = (3 * length ns)%nat.
Proof.
  induction 1 as [|l m r cl cr _ IHl _ IHr _]; [done|].
  simpl. rewrite !length_app, IHl, IHr. simpl. lia.
Qed.

(** ** Stores stay inside the arrays: the emitter as a function on programs *)

Lemma f_push_ok f st :
  (length (g_flt st) < 512)%nat -> f_push f st = Some (set_flt st (g_flt st ++ [f])).
Proof. intros. unfold f_push. by rewrite decide_True. Qed.

Lemma set_flt_set_flt st p q : set_flt (set_flt st p) q = set_flt st q.
Proof. done. Qed.

Lemma patch_jt_node v pre c jf k post :
  patch_jt (length pre) v (pre ++ SockFilter c 0 jf k :: post)
  = pre ++ SockFilter c (u8 v) jf k :: post.
Proof.
  unfold patch_jt. rewrite <- (Nat.add_0_r (length pre)). by rewrite alter_app_r.
Qed.

(** The entries [lo..hi] of the deny list. *)
Definition seg (l : list Z) (lo hi : Z) : list Z :=
  take (Z.to_nat (hi - lo + 1)) (drop (Z.to_nat lo) l).

Lemma seg_split l lo mid hi n :
  0 <= lo <= mid -> mid <= hi -> l !! Z.to_nat mid = Some n ->
  seg l lo hi = seg l lo (mid - 1) ++ n :: seg l (mid + 1) hi.
Proof.
  intros Hlo Hhi Hn. unfold seg.
  rewrite <- (take_drop (Z.to_nat (mid - lo)) (take _ (drop (Z.to_nat lo) l))).
  rewrite take_take. f_equal; [f_equal; lia|].
  rewrite skipn_firstn_comm, drop_drop.
  replace (Z.to_nat lo + Z.to_nat (mid - lo))%nat with (Z.to_nat mid) by lia.
  rewrite (drop_S _ n) by done.
  replace (Z.to_nat (hi - lo + 1) - Z.to_nat (mid - lo))%nat
    with (S (Z.to_nat (hi - (mid + 1) + 1))) by lia.
  simpl. do 3 f_equal. lia.
Qed.

(** Interval length bounds the code, the jump offsets and the recursion. *)
Lemma emit_bst_ok fuel lo hi st :
  0 <= lo <= hi + 1 -> hi < Z.of_nat (length (g_deny st)) ->
  hi - lo + 1 <= 128 -> hi - lo + 1 < Z.of_nat fuel ->
  Z.of_nat (length (g_flt st)) + 3 * (hi - lo + 1) <= 512 ->
  exists blk,
    emit_bst fuel lo hi st = Some (set_flt st (g_flt st ++ blk)) /\
    bst_block (g_deny_ret st) (seg (deny_nr <$> g_deny st) lo hi) blk.
Proof.
  revert lo hi st. induction fuel as [|fuel IH]; intros lo hi st Hlo Hhi Hn Hf Hc.
  { lia. }
  simpl. destruct (Z.ltb_spec hi lo) as [Hlt|Hge].
  { exists []. rewrite app_nil_r. destruct st. split; [done|].
    unfold seg. replace (Z.to_nat (hi - lo + 1)) with 0%nat by lia. constructor. }
  set (mid := Z.quot (lo + hi) 2).
  assert (lo <= mid <= hi /\ mid - lo <= 64) as [Hmid Hhalf].
  { subst mid. rewrite Z.quot_div_nonneg by lia.
    pose proof (Z.div_mod (lo + hi) 2). pose proof (Z.mod_pos_bound (lo + hi) 2). lia. }
  destruct (lookup_lt_is_Some_2 (g_deny st) (Z.to_nat mid)) as [e He]; [lia|].
  rewrite He. simpl.
  do 3 (rewrite f_push_ok by (simpl; rewrite ?length_app; simpl; lia); simpl).
  rewrite !set_flt_set_flt, <- !app_assoc. simpl.
  set (n3 := [_; _; _]).
  destruct (IH lo (mid - 1) (set_flt st (g_flt st ++ n3))) as (cl & -> & Hl);
    simpl; rewrite ?length_app; simpl; try lia.
  simpl in Hl. pose proof (bst_block_length _ _ _ Hl) as Hlen.
  assert (length cl = (3 * Z.to_nat (mid - lo))%nat) as Hcl.
  { rewrite Hlen. unfold seg. rewrite length_take, length_drop, length_fmap. lia. }
  replace (patch_jt _ _ _) with
    (g_flt st ++ [BPF_JUMP JGT_K (deny_nr e) (Z.of_nat (length cl) + 2) 0;
                  BPF_JUMP JEQ_K (deny_nr e) 0 1; BPF_STMT RET_K (g_deny_ret st)] ++ cl).
  2: { subst n3. rewrite <- app_assoc. simpl. unfold BPF_JUMP.
       change (u8 0) with 0. rewrite patch_jt_node. do 4 f_equal. lia. }
  edestruct (IH (mid + 1) hi) as (cr & -> & Hr); simpl; rewrite ?length_app; simpl;
    try lia.
  eexists. split; [f_equal; f_equal; rewrite <- app_assoc; done|].
  rewrite (seg_split _ _ mid _ (deny_nr e)) by (try lia; by rewrite list_lookup_fmap, He).
  apply bst_node; [done..|lia].
Qed.

#[local] Arguments emit_bst : simpl never.

(** ** Running the tree on any machine that meets the interface *)

Section Exec.
Context `{M : CbpfMachine}.
Implicit Types (p pre post blk : list sock_filter) (a m ret : Z).

(** The instruction after the first [length pre] ones. *)
Lemma at_pc p pre i post n :
  p = pre ++ i :: post -> n = length pre -> p !! n = Some i.
Proof. intros -> ->. by apply list_lookup_middle. Qed.

Lemma run_jump p n c k jt jf a d t :
  p !! n = Some (BPF_JUMP c k jt jf) ->
  0 <= k < 2 ^ 32 -> 0 <= jt < 256 -> 0 <= jf < 256 ->
  jump_test c k a = Some t ->
  cbpf_run p n a d = tick 1 (cbpf_run p (S n + Z.to_nat (if t then jt else jf)) a d).
Proof.
  intros Hp Hk Hjt Hjf Ht.
  rewrite (cbpf_jmp p n a d (BPF_JUMP c k jt jf) t Hp).
  - simpl. rewrite !u8_small by lia. done.
  - simpl. rewrite u32_small by lia. done.
Qed.

Lemma run_return p n k a d :
  p !! n = Some (BPF_STMT RET_K k) -> 0 <= k < 2 ^ 32 ->
  cbpf_run p n a d = Some (k, 1%nat).
Proof.
  intros Hp Hk. rewrite (cbpf_ret p n a d (BPF_STMT RET_K k) Hp) by done.
  simpl. by rewrite u32_small by lia.
Qed.

Lemma run_load p n k a d v :
  p !! n = Some (BPF_STMT LD_W_ABS k) -> 0 <= k < 2 ^ 32 -> sd_word d k = Some v ->
  cbpf_run p n a d = tick 1 (cbpf_run p (S n) v d).
Proof.
  intros Hp Hk Hv. apply (cbpf_ld p n a d (BPF_STMT LD_W_ABS k)); [done..|].
  simpl. by rewrite u32_small by lia.
Qed.

Lemma snoc_length {A} (l : list A) x : S (length l) = length (l ++ [x]).
Proof. rewrite length_app. simpl. lia. Qed.

(** One node: greater skips the left subtree, equal returns, smaller enters it. *)
Lemma run_node p pre m jt ret post a d :
  p = pre ++ [BPF_JUMP JGT_K m jt 0; BPF_JUMP JEQ_K m 0 1; BPF_STMT RET_K ret] ++ post ->
  0 <= m < 2 ^ 32 -> 0 <= jt < 256 -> 0 <= ret < 2 ^ 32 ->
  cbpf_run p (length pre) a d =
    if m <? a then tick 1 (cbpf_run p (S (length pre) + Z.to_nat jt) a d)
    else if a =? m then Some (ret, 3%nat)
    else tick 2 (cbpf_run p (length pre + 3) a d).
Proof.
  intros Hp Hm Hjt Hret.
  assert (H0 : p !! length pre = Some (BPF_JUMP JGT_K m jt 0)) by (by eapply at_pc).
  assert (H1 : p !! S (length pre) = Some (BPF_JUMP JEQ_K m 0 1)).
  { eapply (at_pc _ (pre ++ [_])); [by rewrite Hp, <- app_assoc|apply snoc_length]. }
  assert (H2 : p !! S (S (length pre)) = Some (BPF_STMT RET_K ret)).
  { eapply (at_pc _ (pre ++ [_; _])); [by rewrite Hp, <- app_assoc|].
    rewrite length_app. simpl. lia. }
  rewrite (run_jump p _ _ _ _ _ a d (m <? a) H0) by (lia || done).
  destruct (m <? a); [done|]. rewrite Nat.add_0_r.
  rewrite (run_jump p _ _ _ _ _ a d (a =? m) H1), tick_tick by (lia || done).
  destruct (a =? m).
  - by rewrite Nat.add_0_r, (run_return p _ _ a d H2).
  - do 2 f_equal. simpl. lia.
Qed.

Lemma StronglySorted_mid (l : list Z) m r :
  StronglySorted Z.lt (l ++ m :: r) ->
  StronglySorted Z.lt l /\ StronglySorted Z.lt r /\
  Forall (fun x => x < m) l /\ Forall (fun x => m < x) r.
Proof.
  intros H. rewrite StronglySorted_app in H. destruct H as (Hx & Hl & Hr).
  apply StronglySorted_inv in Hr as [Hr Hm]. split_and!; try done.
  apply Forall_forall. intros x Hin. apply (Hx x m); [done|]. apply list_elem_of_here.
Qed.

(** The tree is a set: a number in it returns [ret], any other number reaches
    the end of the block with the accumulator unchanged. *)
Lemma run_block ret ns blk :
  bst_block ret ns blk -> 0 <= ret < 2 ^ 32 ->
  StronglySorted Z.lt ns -> Forall (fun n => 0 <= n < 2 ^ 32) ns ->
  forall p pre post a d, p = pre ++ blk ++ post ->
  if decide (a ∈ ns) then fst <$> cbpf_run p (length pre) a d = Some ret
  else exists k, cbpf_run p (length pre) a d
                 = tick k (cbpf_run p (length pre + length blk) a d).
Proof.
  intros Hb Hret. induction Hb as [|l m r cl cr Hl IHl Hr IHr Hcl];
    intros Hs Hu p pre post a d Hp.
  { case_decide as Hin; [by apply elem_of_nil in Hin|].
    exists 0%nat. simpl. rewrite Nat.add_0_r. by destruct (cbpf_run _ _ _ _) as [[??]|]. }
  apply StronglySorted_mid in Hs as (Hsl & Hsr & Hlt & Hgt).
  rewrite Forall_app, Forall_cons in Hu. destruct Hu as (Hul & Hm & Hur).
  set (n3 := [_; _; _]) in *.
  assert (Hpl : p = (pre ++ n3) ++ cl ++ (cr ++ post)) by (by rewrite Hp, <- !app_assoc).
  assert (Hpr : p = (pre ++ n3 ++ cl) ++ cr ++ post) by (by rewrite Hp, <- !app_assoc).
  specialize (IHl Hsl Hul p _ _ a d Hpl). specialize (IHr Hsr Hur p _ _ a d Hpr).
  rewrite (run_node p pre m (Z.of_nat (length cl) + 2) ret (cl ++ cr ++ post))
    by (done || lia || by rewrite Hp, <- !app_assoc).
  replace (S (length pre) + Z.to_nat (Z.of_nat (length cl) + 2))%nat
    with (length (pre ++ n3 ++ cl)) by (rewrite !length_app; simpl; lia).
  replace (length pre + 3)%nat with (length (pre ++ n3)) by (rewrite length_app; done).
  replace (length pre + length (n3 ++ cl ++ cr))%nat
    with (length (pre ++ n3 ++ cl) + length cr)%nat by (rewrite !length_app; lia).
  replace (length (pre ++ n3) + length cl)%nat with (length (pre ++ n3 ++ cl)) in IHl
    by (rewrite !length_app; lia).
  rewrite Forall_forall in Hlt, Hgt.
  destruct (Z.ltb_spec m a) as [Ha|Ha].
  - assert (a ∉ l) by (intros ?%Hlt; lia).
    assert (a ∈ l ++ m :: r <-> a ∈ r) as Hiff 
      by (rewrite elem_of_app, elem_of_cons; intuition (congruence || lia)).
    destruct (decide (a ∈ r)) as [Hin|Hin].
    + rewrite decide_True by tauto. by rewrite tick_fst.
    + rewrite decide_False by tauto. destruct IHr as [k ->]. rewrite tick_tick. eauto.
  - assert (a ∉ r) by (intros ?%Hgt; lia). rewrite decide_False in IHr by done.
    destruct IHr as [kr IHr].
    destruct (Z.eqb_spec a m) as [->|Hne].
    { rewrite decide_True by (rewrite elem_of_app, elem_of_cons; tauto). done. }
    assert (a ∈ l ++ m :: r <-> a ∈ l) as Hiff
      by (rewrite elem_of_app, elem_of_cons; tauto).
    destruct (decide (a ∈ l)) as [Hin|Hin].
    + rewrite decide_True by tauto. by rewrite tick_fst.
    + rewrite decide_False by tauto. destruct IHl as [k ->]. rewrite IHr, !tick_tick. eauto.
Qed.

(** A number below the whole list visits every node: two instructions each. *)
Lemma run_block_below ret ns blk :
  bst_block ret ns blk -> 0 <= ret < 2 ^ 32 ->
  Forall (fun n => 0 <= n < 2 ^ 32) ns ->
  forall p pre post a d, p = pre ++ blk ++ post -> Forall (fun n => a < n) ns ->
  cbpf_run p (length pre) a d =
    tick (2 * length ns) (cbpf_run p (length pre + length blk) a d).
Proof.
  intros Hb Hret. induction Hb as [|l m r cl cr Hl IHl Hr IHr Hcl];
    intros Hu p pre post a d Hp Ha.
  { simpl. rewrite Nat.add_0_r. by destruct (cbpf_run _ _ _ _) as [[??]|]. }
  rewrite !Forall_app, !Forall_cons in Hu, Ha.
  destruct Hu as (Hul & Hm & Hur), Ha as (Hal & Ham & Har).
  set (n3 := [_; _; _]) in *.
  rewrite (run_node p pre m (Z.of_nat (length cl) + 2) ret (cl ++ cr ++ post))
    by (done || lia || by rewrite Hp, <- !app_assoc).
  destruct (Z.ltb_spec m a); [lia|]. destruct (Z.eqb_spec a m); [lia|].
  replace (length pre + 3)%nat with (length (pre ++ n3)) by (rewrite length_app; done).
  rewrite (IHl Hul p (pre ++ n3) (cr ++ post)) by (done || by rewrite Hp, <- !app_assoc).
  replace (length (pre ++ n3) + length cl)%nat with (length (pre ++ n3 ++ cl))
    by (rewrite !length_app; lia).
  rewrite (IHr Hur p (pre ++ n3 ++ cl) post) by (done || by rewrite Hp, <- !app_assoc).
  rewrite !tick_tick. f_equal; [rewrite length_app; simpl; lia|].
  f_equal. rewrite !length_app. simpl. lia.
Qed.
End Exec.

(** ** The whole program *)

(** The nine instructions before the deny list, and the two of [clone3]. *)
Definition pro (a : arch) (clone : Z) : list sock_filter :=
  [BPF_STMT LD_W_ABS OFF_ARCH; BPF_JUMP JEQ_K (AC_AUDIT_ARCH a) 1 0;
   BPF_STMT RET_K DENY_KILL; BPF_STMT LD_W_ABS OFF_NR;
   BPF_JUMP JEQ_K clone 0 4; BPF_STMT LD_W_ABS OFF_ARG0;
   BPF_JUMP JSET_K (Z.lor CLONE_NEWUSER CLONE_NEWNET) 0 1;
   BPF_STMT RET_K DENY_EPERM; BPF_STMT LD_W_ABS OFF_NR].
Definition enosys (clone3 : Z) : list sock_filter :=
  [BPF_JUMP JEQ_K clone3 0 1; BPF_STMT RET_K DENY_ENOSYS].

Lemma denylist_rows_ok tab st :
  (length (g_deny st) + length tab <= 128)%nat ->
  denylist_rows tab st =
    Some (set_deny st (g_deny st ++ ((fun e => ScDeny (sys_nr e) (sys_name e)) <$> tab))).
Proof.
  revert st. induction tab as [|e tab IH]; intros st Hl; simpl in *.
  { rewrite app_nil_r. by destruct st. }
  unfold deny. rewrite decide_True by lia. simpl. rewrite IH.
  - simpl. by rewrite <- app_assoc.
  - simpl. rewrite length_app. simpl. lia.
Qed.

Lemma prologue_ok a clone st :
  (length (g_flt st) + 9 <= 512)%nat ->
  prologue a clone st = Some (set_flt st (g_flt st ++ pro a clone)).
Proof.
  intros Hl. unfold prologue.
  do 9 (rewrite f_push_ok by (simpl; rewrite ?length_app; simpl; lia); simpl).
  rewrite !set_flt_set_flt, <- !app_assoc. done.
Qed.

Lemma deny_enosys_ok nr st :
  (length (g_flt st) + 2 <= 512)%nat ->
  deny_enosys nr st = Some (set_flt st (g_flt st ++ enosys nr)).
Proof.
  intros Hl. unfold deny_enosys.
  do 2 (rewrite f_push_ok by (simpl; rewrite ?length_app; simpl; lia); simpl).
  rewrite !set_flt_set_flt, <- !app_assoc. done.
Qed.

Lemma sc_le_nr x y : sc_le x y <-> deny_nr x <= deny_nr y.
Proof.
  unfold sc_le, cmp_sc. destruct (Z.ltb_spec (deny_nr x) (deny_nr y)); [lia|].
  destruct (Z.ltb_spec (deny_nr y) (deny_nr x)); lia.
Qed.

#[export] Instance sc_le_trans : Transitive sc_le.
Proof. intros x y z. rewrite !sc_le_nr. lia. Qed.
#[export] Instance sc_le_total : Total sc_le.
Proof. intros x y. rewrite !sc_le_nr. lia. Qed.

Lemma qsort_deny_perm l : qsort_deny l ≡ₚ l.
Proof. apply merge_sort_Permutation. Qed.

Lemma sorted_strict l :
  StronglySorted sc_le l -> NoDup (deny_nr <$> l) ->
  StronglySorted Z.lt (deny_nr <$> l).
Proof.
  induction 1 as [|x l Hs IH Hx]; intros Hnd; [constructor|].
  rewrite fmap_cons, NoDup_cons in Hnd. destruct Hnd as [Hni Hnd].
  constructor; [by apply IH|]. rewrite Forall_forall in Hx. apply Forall_forall.
  intros n (y & -> & Hy)%list_elem_of_fmap.
  pose proof (Hx y Hy) as Hle. rewrite sc_le_nr in Hle.
  assert (deny_nr x <> deny_nr y); [|lia].
  intros Heq. apply Hni. rewrite Heq. by apply list_elem_of_fmap_2.
Qed.

Lemma qsort_deny_strict l :
  NoDup (deny_nr <$> l) -> StronglySorted Z.lt (deny_nr <$> qsort_deny l).
Proof.
  intros Hnd. apply sorted_strict.
  - apply StronglySorted_merge_sort; apply _.
  - by rewrite qsort_deny_perm.
Qed.

Lemma arch_consts t :
  exists clone clone3, ac_sys_nr (syscalls_h t) "clone" = Some clone /\
    ac_sys_nr (syscalls_h t) "clone3" = Some clone3 /\
    0 <= clone < 512 /\ 0 <= clone3 < 512 /\
    (clone ∉ tab_nrs (syscalls_h t)) /\ (clone3 ∉ tab_nrs (syscalls_h t)) /\
    clone <> clone3 /\
    0 <= AC_AUDIT_ARCH (syscalls_h t) < 2 ^ 32.
Proof.
  destruct t; do 2 eexists; split_and!; try reflexivity; try (vm_compute; congruence).
  all: apply (bool_decide_eq_false_1 (_ ∈ _)); vm_compute; reflexivity.
Qed.

Definition deny_rows (a : arch) : list sc_deny :=
  (fun e => ScDeny (sys_nr e) (sys_name e)) <$> AC_SYSCALL_TAB a.

Lemma deny_rows_nrs a : deny_nr <$> deny_rows a = tab_nrs a.
Proof. unfold deny_rows, tab_nrs. rewrite <- list_fmap_compose. done. Qed.

Definition match_ret (ask : bool) : Z :=
  if ask then SECCOMP_RET_USER_NOTIF else DENY_EPERM.

(** Building never overruns, and the program is prologue, [clone3] rule, tree
    over the sorted table, allow. *)
Lemma seccomp_filter_shape t ask clone clone3 :
  ac_sys_nr (syscalls_h t) "clone" = Some clone ->
  ac_sys_nr (syscalls_h t) "clone3" = Some clone3 -> 0 <= clone3 ->
  exists blk,
    seccomp_filter (syscalls_h t) ask filter_init =
      Some (FilterState
        (pro (syscalls_h t) clone ++ enosys clone3 ++ blk ++ [BPF_STMT RET_K SECCOMP_RET_ALLOW])
        (qsort_deny (deny_rows (syscalls_h t))) (match_ret ask)) /\
    bst_block (match_ret ask) (deny_nr <$> qsort_deny (deny_rows (syscalls_h t))) blk.
Proof.
  intros Hc Hc3 Hpos. unfold seccomp_filter. rewrite Hc, Hc3. simpl.
  set (st0 := if ask then _ else _).
  assert (st0 = FilterState [] [] (match_ret ask)) as -> by (by destruct ask).
  rewrite prologue_ok by (simpl; lia). simpl. unfold denylist_build.
  rewrite denylist_rows_ok by (simpl; apply tab_small). simpl.
  rewrite (proj2 (Z.leb_le _ _) Hpos), deny_enosys_ok by (simpl; lia). simpl.
  change ((fun e => ScDeny (sys_nr e) (sys_name e)) <$> AC_SYSCALL_TAB (syscalls_h t))
    with (deny_rows (syscalls_h t)).
  set (srt := qsort_deny _).
  assert (length srt <= 128)%nat as Hlen.
  { unfold srt. rewrite qsort_deny_perm. unfold deny_rows. rewrite length_fmap.
    apply tab_small. }
  set (st := set_deny _ srt).
  destruct (emit_bst_ok (S (length srt)) 0 (Z.of_nat (length srt) - 1) st)
    as (blk & -> & Hb); simpl; try lia.
  simpl in Hb. pose proof (bst_block_length _ _ _ Hb) as Hbl.
  unfold seg in Hb, Hbl. change (Z.to_nat 0) with 0%nat in *. rewrite drop_0 in *.
  rewrite take_ge in Hb, Hbl by (rewrite length_fmap; lia).
  rewrite length_fmap in Hbl.
  rewrite f_push_ok by (simpl; lia). exists blk. split; [|done].
  simpl. unfold set_flt. simpl. by rewrite <- ?app_assoc.
Qed.

Section Verdict.
Context `{M : CbpfMachine}.

(** Name the program counter of the run in the goal by its value. *)
Ltac pc_is n :=
  match goal with |- context [cbpf_run ?p ?k ?a ?d] =>
    change (cbpf_run p k a d) with (cbpf_run p n a d) end.

(** The prologue decides foreign architectures and [clone] with namespace
    flags; every other call reaches the deny part with its number loaded. *)
Lemma run_prologue a clone rest d acc :
  0 <= AC_AUDIT_ARCH a < 2 ^ 32 -> 0 <= clone < 2 ^ 32 ->
  let p := pro a clone ++ rest in
  let nr := u32 (sd_nr d) in
  if negb (u32 (sd_arch d) =? AC_AUDIT_ARCH a)
  then cbpf_run p 0 acc d = Some (DENY_KILL, 3%nat)
  else if (nr =? clone) &&
          negb (Z.land (u32 (default 0 (sd_args d !! 0%nat)))
                       (Z.lor CLONE_NEWUSER CLONE_NEWNET) =? 0)
  then cbpf_run p 0 acc d = Some (DENY_EPERM, 7%nat)
  else cbpf_run p 0 acc d =
       tick (if nr =? clone then 7 else 4) (cbpf_run p 9 nr d).
Proof.
  intros Ha Hc p nr.
  rewrite (run_load p 0 OFF_ARCH acc d (u32 (sd_arch d))) by done.
  rewrite (run_jump p 1 _ _ _ _ _ d (u32 (sd_arch d) =? AC_AUDIT_ARCH a) eq_refl)
    by (lia || done).
  destruct (u32 (sd_arch d) =? AC_AUDIT_ARCH a); simpl negb; cbv iota.
  2: { pc_is 2%nat. by rewrite (run_return p 2 DENY_KILL). }
  pc_is 3%nat. rewrite (run_load p 3 OFF_NR _ d nr) by done.
  rewrite (run_jump p 4 _ _ _ _ _ d (nr =? clone) eq_refl), !tick_tick by (lia || done).
  destruct (nr =? clone); simpl andb; [|done].
  set (w := u32 (default 0 (sd_args d !! 0%nat))).
  pc_is 5%nat. rewrite (run_load p 5 OFF_ARG0 _ d w) by done.
  rewrite (run_jump p 6 _ _ _ _ _ d
    (negb (Z.land w (Z.lor CLONE_NEWUSER CLONE_NEWNET) =? 0)) eq_refl) by done.
  destruct (Z.land w (Z.lor CLONE_NEWUSER CLONE_NEWNET) =? 0); simpl negb; cbv iota.
  - pc_is 8%nat. rewrite (run_load p 8 OFF_NR _ d nr), !tick_tick by done. done.
  - pc_is 7%nat. by rewrite (run_return p 7 DENY_EPERM).
Qed.

(** The [clone3] rule. *)
Lemma run_enosys p pre clone3 post nr d :
  p = pre ++ enosys clone3 ++ post -> 0 <= clone3 < 2 ^ 32 ->
  cbpf_run p (length pre) nr d =
    if nr =? clone3 then Some (DENY_ENOSYS, 2%nat)
    else tick 1 (cbpf_run p (length pre + 2) nr d).
Proof.
  intros Hp Hc. unfold enosys in Hp. simpl in Hp.
  assert (H0 : p !! length pre = Some (BPF_JUMP JEQ_K clone3 0 1)) by (by eapply at_pc).
  assert (H1 : p !! S (length pre) = Some (BPF_STMT RET_K DENY_ENOSYS)).
  { eapply (at_pc _ (pre ++ [_])); [by rewrite Hp, <- app_assoc|apply snoc_length]. }
  rewrite (run_jump p _ _ _ _ _ _ d (nr =? clone3) H0) by (lia || done).
  destruct (nr =? clone3).
  - by rewrite Nat.add_0_r, (run_return p _ _ nr d H1).
  - do 2 f_equal. simpl. lia.
Qed.

Lemma match_ret_range ask : 0 <= match_ret ask < 2 ^ 32.
Proof. destruct ask; vm_compute; split; congruence. Qed.

Lemma sorted_rows_mem t n :
  n ∈ deny_nr <$> qsort_deny (deny_rows (syscalls_h t)) <-> n ∈ tab_nrs (syscalls_h t).
Proof. by rewrite qsort_deny_perm, deny_rows_nrs. Qed.

Lemma sorted_rows_ok t :
  StronglySorted Z.lt (deny_nr <$> qsort_deny (deny_rows (syscalls_h t))) /\
  Forall (fun n => 0 <= n < 2 ^ 32) (deny_nr <$> qsort_deny (deny_rows (syscalls_h t))).
Proof.
  split.
  - apply qsort_deny_strict. rewrite deny_rows_nrs. apply tab_nrs_nodup.
  - apply Forall_forall. intros n Hn%sorted_rows_mem%tab_nrs_u32. lia.
Qed.

(** The deny part: from the end of the prologue to the verdict. *)
Lemma run_deny_part t ask clone clone3 blk d nr :
  bst_block (match_ret ask) (deny_nr <$> qsort_deny (deny_rows (syscalls_h t))) blk ->
  0 <= clone3 < 512 ->
  fst <$> cbpf_run (pro (syscalls_h t) clone ++ enosys clone3 ++ blk ++
                    [BPF_STMT RET_K SECCOMP_RET_ALLOW]) 9 nr d =
  Some (if nr =? clone3 then DENY_ENOSYS
        else if bool_decide (nr ∈ tab_nrs (syscalls_h t)) then match_ret ask
        else SECCOMP_RET_ALLOW).
Proof.
  intros Hb Hc3. set (p := pro _ _ ++ _).
  change 9%nat with (length (pro (syscalls_h t) clone)).
  rewrite (run_enosys p _ clone3 _ nr d eq_refl) by lia.
  destruct (nr =? clone3); [done|]. rewrite tick_fst.
  destruct (sorted_rows_ok t) as [Hs Hu].
  pose proof (run_block _ _ _ Hb (match_ret_range ask) Hs Hu p
    (pro (syscalls_h t) clone ++ enosys clone3) [BPF_STMT RET_K SECCOMP_RET_ALLOW] nr d)
    as Hrun.
  rewrite length_app in Hrun. change (length (enosys clone3)) with 2%nat in Hrun.
  specialize (Hrun ltac:(by rewrite <- app_assoc)).
  destruct (decide (nr ∈ deny_nr <$> _)) as [Hin|Hin]; rewrite sorted_rows_mem in Hin.
  - rewrite bool_decide_eq_true_2 by done. done.
  - rewrite bool_decide_eq_false_2 by done. destruct Hrun as [k ->]. rewrite tick_fst.
    assert (Hend : p = (pro (syscalls_h t) clone ++ enosys clone3 ++ blk) ++
                   [BPF_STMT RET_K SECCOMP_RET_ALLOW])
      by (unfold p; by rewrite <- !app_assoc).
    replace (_ + _ + length blk)%nat
      with (length (pro (syscalls_h t) clone ++ enosys clone3 ++ blk))
      by (rewrite !length_app; simpl; lia).
    rewrite (run_return p _ SECCOMP_RET_ALLOW); [done| |done]. by eapply at_pc.
Qed.
End Verdict.

Lemma tab_has_425 t : 425 ∈ tab_nrs (syscalls_h t).
Proof. apply (bool_decide_eq_true_1 (_ ∈ _)). by destruct t. Qed.

Lemma clone3_435 t clone3 : ac_sys_nr (syscalls_h t) "clone3" = Some clone3 -> clone3 = 435.
Proof. destruct t; intros [= <-]; done. Qed.

(** The compiled filter computes [policy] on every system call, and fits. *)
Lemma seccomp_filter_policy `{M : CbpfMachine} (t : target) (ask : bool) :
  exists st, seccomp_filter (syscalls_h t) ask filter_init = Some st /\
    (length (g_flt st) <= 512)%nat /\
    forall d acc, fst <$> cbpf_run (g_flt st) 0 acc d = Some (policy (syscalls_h t) ask d).
Proof.
  destruct (arch_consts t) as (clone & clone3 & Hc & Hc3 & Hcr & Hc3r & _ & _ & _ & Har).
  destruct (seccomp_filter_shape t ask clone clone3) as (blk & Hf & Hb); [done..|lia|].
  eexists. split; [exact Hf|]. split.
  { simpl. pose proof (bst_block_length _ _ _ Hb) as Hl. rewrite length_app, Hl.
    rewrite length_fmap, qsort_deny_perm. unfold deny_rows. rewrite length_fmap.
    pose proof (tab_small t). simpl. lia. }
  intros d acc. cbn [g_flt].
  pose proof (run_prologue (syscalls_h t) clone
    (enosys clone3 ++ blk ++ [BPF_STMT RET_K SECCOMP_RET_ALLOW]) d acc Har ltac:(lia)) as Hp.
  cbv zeta in Hp. unfold policy. rewrite Hc, Hc3.
  destruct (negb (u32 (sd_arch d) =? _)); [by rewrite Hp|].
  rewrite !bool_decide_Some_eqb.
  destruct ((_ =? clone) && _); [by rewrite Hp|].
  rewrite Hp, tick_fst. by apply run_deny_part.
Qed.

(** The number of instructions run for a number below the whole deny list
    that is not [clone]: four of the prologue, the [clone3] test, two per
    table row, the final return. *)
Lemma seccomp_filter_low_cost `{M : CbpfMachine} (t : target) (ask : bool) d acc :
  u32 (sd_arch d) = AC_AUDIT_ARCH (syscalls_h t) ->
  ac_sys_nr (syscalls_h t) "clone" <> Some (u32 (sd_nr d)) ->
  Forall (fun n => u32 (sd_nr d) < n) (tab_nrs (syscalls_h t)) ->
  (g_flt <$> seccomp_filter (syscalls_h t) ask filter_init) ≫=
    (fun p => cbpf_run p 0 acc d) =
  Some (SECCOMP_RET_ALLOW, (6 + 2 * length (tab_nrs (syscalls_h t)))%nat).
Proof.
  intros Harch Hnc Hlow.
  destruct (arch_consts t) as (clone & clone3 & Hc & Hc3 & Hcr & Hc3r & _ & _ & _ & Har).
  destruct (seccomp_filter_shape t ask clone clone3) as (blk & Hf & Hb); [done..|lia|].
  rewrite Hf. cbn [fmap option_fmap option_map mbind option_bind g_flt].
  set (nr := u32 (sd_nr d)) in *. set (p := pro _ _ ++ _).
  pose proof (run_prologue (syscalls_h t) clone
    (enosys clone3 ++ blk ++ [BPF_STMT RET_K SECCOMP_RET_ALLOW]) d acc Har ltac:(lia)) as Hp.
  cbv zeta in Hp. fold nr in Hp. rewrite Harch, Z.eqb_refl in Hp.
  assert ((nr =? clone) = false) as Hne by (apply Z.eqb_neq; congruence).
  rewrite Hne in Hp. cbn [negb andb] in Hp. fold p in Hp. rewrite Hp. change 9%nat with (length (pro (syscalls_h t) clone)).
  rewrite (run_enosys p _ clone3 _ nr d eq_refl) by lia.
  assert (Forall (fun n => nr < n) (deny_nr <$> qsort_deny (deny_rows (syscalls_h t))))
    as Hlow'.
  { rewrite Forall_forall in Hlow. apply Forall_forall.
    intros n Hn%sorted_rows_mem. by apply Hlow. }
  assert ((nr =? clone3) = false) as Hne3.
  { apply Z.eqb_neq. rewrite Forall_forall in Hlow.
    assert (nr < 425) by (apply Hlow, tab_has_425). pose proof (clone3_435 t clone3 Hc3). lia. }
  rewrite Hne3.
  change (length (pro (syscalls_h t) clone) + 2)%nat
    with (length (pro (syscalls_h t) clone ++ enosys clone3)).
  rewrite (run_block_below _ _ _ Hb (match_ret_range ask) (proj2 (sorted_rows_ok t)) p
    (pro (syscalls_h t) clone ++ enosys clone3) [BPF_STMT RET_K SECCOMP_RET_ALLOW] nr d)
    by (done || by (unfold p; rewrite <- app_assoc)).
  rewrite (run_return p _ SECCOMP_RET_ALLOW); [| |done].
  - rewrite length_fmap, qsort_deny_perm, <- (length_fmap deny_nr), deny_rows_nrs.
    simpl. f_equal. f_equal. lia.
  - eapply (at_pc _ (pro (syscalls_h t) clone ++ enosys clone3 ++ blk)).
    + unfold p. by rewrite <- !app_assoc.
    + rewrite !length_app. simpl. lia.
Qed.

(** ** Properties *)

Lemma seccomp_apply_spec `{M : CbpfMachine} (t : target) (ask : bool)
    (prctl_rc : Z) (seccomp_rc : Z -> list sock_filter -> Z) :
  match seccomp_apply prctl_rc seccomp_rc (syscalls_h t) ask filter_init with
  | Overrun => False
  | Died _ => prctl_rc < 0 \/ exists fl prog, seccomp_rc fl prog < 0
  | Installed st prog fl rc =>
      prog = g_flt st /\ (length prog <= 512)%nat /\
      rc = seccomp_rc fl prog /\ 0 <= rc /\ Z.testbit fl 3 = ask /\
      forall d acc, fst <$> cbpf_run prog 0 acc d = Some (policy (syscalls_h t) ask d)
  end.
Proof.
  destruct (seccomp_filter_policy t ask) as (st & Hf & Hlen & Hrun).
  unfold seccomp_apply. rewrite Hf. unfold u16.
  rewrite Z.mod_small, Nat2Z.id, take_ge by lia.
  destruct (Z.ltb_spec prctl_rc 0); [by left|]. cbv zeta.
  set (fl := if ask then _ else _). destruct (Z.ltb_spec (seccomp_rc fl (g_flt st)) 0).
  - right. eauto.
  - split_and!; try done. by destruct ask.
Qed.

(** C1. What [seccomp_apply] installs is the policy.  On either architecture,
    with and without [--ask], whatever [prctl] and [seccomp] answer: building
    never writes outside [g_flt] or [g_deny]; it dies only when one of the two
    calls failed; otherwise the installed program is the whole filter (the
    16-bit length loses nothing), the listener flag is set exactly under
    [--ask], and on every machine with the documented semantics and every
    system call the verdict is [policy]'s: kill for a foreign architecture,
    EPERM for [clone] with a user or network namespace flag, ENOSYS for
    [clone3], EPERM (a supervisor question under [--ask]) for exactly the
    numbers of the generated table, allow otherwise. *)
Theorem seccomp_apply_correct `{M : CbpfMachine} (t : target) (ask : bool)
    (prctl_rc : Z) (seccomp_rc : Z -> list sock_filter -> Z) :
  match seccomp_apply prctl_rc seccomp_rc (syscalls_h t) ask filter_init with
  | Overrun => False
  | Died _ => prctl_rc < 0 \/ exists fl prog, seccomp_rc fl prog < 0
  | Installed st prog fl rc =>
      prog = g_flt st /\ (length prog <= 512)%nat /\
      rc = seccomp_rc fl prog /\ 0 <= rc /\ Z.testbit fl 3 = ask /\
      forall d acc, fst <$> cbpf_run prog 0 acc d = Some (policy (syscalls_h t) ask d)
  end.
Proof. apply seccomp_apply_spec. Qed.

Lemma seccomp_apply_correct_witness :
  match seccomp_apply 0 (fun _ _ => 0) (syscalls_h T_x86_64) false filter_init with
  | Overrun => False
  | Died _ => (0 < 0)%Z \/ exists fl prog, (fun (_ : Z) (_ : list sock_filter) => 0) fl prog < 0
  | Installed st prog fl rc =>
      prog = g_flt st /\ (length prog <= 512)%nat /\
      rc = 0 /\ 0 <= rc /\ Z.testbit fl 3 = false /\
      forall d acc, fst <$> cbpf_run prog 0 acc d = Some (policy (syscalls_h T_x86_64) false d)
  end.
Proof. exact (seccomp_apply_correct (M := cbpf_machine) T_x86_64 false 0 (fun _ _ => 0)). Defined.

(** The cost of the tree for the most frequent calls.  The comments at
    [emit_bst] and in [seccomp_apply] announce O(log n) comparisons per system
    call; the left subtree falls through into the right one, so a call whose
    number is below the whole deny list ([read], [write], [open], ... on
    x86_64) runs two instructions for every row of the table: 6 + 2n in all,
    more than the linear chain of [JEQ]s the comment compares with. *)
Theorem seccomp_low_nr_linear `{M : CbpfMachine} (t : target) (ask : bool) d acc
    (Harch : u32 (sd_arch d) = AC_AUDIT_ARCH (syscalls_h t))
    (Hclone : ac_sys_nr (syscalls_h t) "clone" <> Some (u32 (sd_nr d)))
    (Hlow : Forall (fun n => u32 (sd_nr d) < n) (tab_nrs (syscalls_h t))) :
  (g_flt <$> seccomp_filter (syscalls_h t) ask filter_init) ≫=
    (fun p => cbpf_run p 0 acc d) =
  Some (SECCOMP_RET_ALLOW, (6 + 2 * length (tab_nrs (syscalls_h t)))%nat).
Proof. by apply seccomp_filter_low_cost. Qed.

(** [read] (0) on x86_64: 106 instructions for a table of 50 rows. *)
Lemma seccomp_low_nr_linear_witness :
  (g_flt <$> seccomp_filter (syscalls_h T_x86_64) false filter_init) ≫=
    (fun p => cbpf_run p 0 0 (SeccompData 0 3221225534 0 [])) =
  Some (SECCOMP_RET_ALLOW, 106%nat).
Proof.
  refine (seccomp_low_nr_linear (M := cbpf_machine) T_x86_64 false
    (SeccompData 0 3221225534 0 []) 0 _ _ _).
  - reflexivity.
  - vm_compute. congruence.
  - apply (bool_decide_eq_true_1 (Forall _ _)). vm_compute. reflexivity.
Defined.

(** The x32 alias of a denied call is allowed.  On x86_64 the number of an
    x32 call is the plain number with bit 30 set, and [arch] is the same
    AUDIT_ARCH_X86_64; the filter tests neither, so for every row of the deny
    list the aliased number gets [SECCOMP_RET_ALLOW]. *)
Theorem seccomp_x32_alias_allowed `{M : CbpfMachine} (ask : bool) e ip args acc
    (He : e ∈ AC_SYSCALL_TAB (syscalls_h T_x86_64)) :
  exists st, seccomp_filter (syscalls_h T_x86_64) ask filter_init = Some st /\
    fst <$> cbpf_run (g_flt st) 0 acc
      (SeccompData (Z.lor (sys_nr e) (2 ^ 30)) 3221225534 ip args)
    = Some SECCOMP_RET_ALLOW.
Proof.
  destruct (seccomp_filter_policy T_x86_64 ask) as (st & Hf & _ & Hrun).
  exists st. split; [done|]. rewrite Hrun. f_equal. unfold policy. simpl sd_nr. simpl sd_arch.
  assert (Hn : Forall (fun e => 2 ^ 30 <= u32 (Z.lor (sys_nr e) (2 ^ 30)) /\
    (u32 (Z.lor (sys_nr e) (2 ^ 30)) ∉ tab_nrs (syscalls_h T_x86_64)))
    (AC_SYSCALL_TAB (syscalls_h T_x86_64))).
  { apply (bool_decide_eq_true_1 (Forall _ _)). vm_compute. reflexivity. }
  rewrite Forall_forall in Hn. destruct (Hn e He) as [Hbig Hni].
  change (ac_sys_nr (syscalls_h T_x86_64) "clone") with (Some 56).
  change (ac_sys_nr (syscalls_h T_x86_64) "clone3") with (Some 435).
  rewrite !bool_decide_Some_eqb, (bool_decide_eq_false_2 (_ ∈ _)) by done.
  rewrite (proj2 (Z.eqb_neq _ 56)), (proj2 (Z.eqb_neq _ 435)) by lia. done.
Qed.

Lemma seccomp_x32_alias_allowed_witness :
  exists st, seccomp_filter (syscalls_h T_x86_64) false filter_init = Some st /\
    fst <$> cbpf_run (g_flt st) 0 0 (SeccompData (Z.lor 165 (2 ^ 30)) 3221225534 0 [])
    = Some SECCOMP_RET_ALLOW.
Proof.
  refine (seccomp_x32_alias_allowed (M := cbpf_machine) false (AcSys 165 "mount") 0 [] 0 _).
  apply (bool_decide_eq_true_1 (_ ∈ _)). vm_compute. reflexivity.
Defined.
