(* ===== verification/Wire.v ===== *)
(** * The exec wire protocol between [sand exec] and a jail

    [sand.c]: [put_u32], [get_u32], [read_full], [write_full], the jail side
    [handle_conn] and the client side [client_exec].  A descriptor that is
    read is the list of the chunks successive [read]s can deliver (an empty
    chunk, or the end of the list, is a result [<= 0]); a descriptor that is
    written is the list of the counts successive [write]s accept.  Event loops
    take the list of what [poll], [read] and [waitpid] answer at each turn. *)

From S2P Require Import Prelude CString.
Local Open Scope Z_scope.

(** ** Integers on the wire *)

Definition put_u32 (v : Z) : bytes :=
  [chr v; chr (Z.shiftr v 8); chr (Z.shiftr v 16); chr (Z.shiftr v 24)].

(** The four bytes at [b]; the shift of the last one is in [uint32_t]. *)
Definition get_u32 (b : bytes) : Z :=
  let at_ i := code (default NUL (b !! i)) in
  Z.lor (Z.lor (Z.lor (at_ 0%nat) (Z.shiftl (at_ 1%nat) 8)) (Z.shiftl (at_ 2%nat) 16))
        (u32 (Z.shiftl (at_ 3%nat) 24)).

(** ** Reading and writing everything *)

(** One [read(fd, p, n)]: the bytes delivered ([[]] for a result [<= 0]). *)
Definition sys_read (n : nat) (s : list bytes) : bytes * list bytes :=
  match s with
  | [] => ([], [])
  | c :: s' => if (length c <=? n)%nat then (c, s') else (take n c, drop n c :: s')
  end.

(** Each turn of the loop delivers at least one byte, so [n] turns suffice. *)
Fixpoint read_full_loop (fuel n : nat) (s : list bytes) : option (bytes * list bytes) :=
  match n with
  | O => Some ([], s)
  | S _ =>
      match fuel with
      | O => None
      | S fuel' =>
          let '(p, s') := sys_read n s in
          match p with
          | [] => None
          | _ => '(q, s'') ← read_full_loop fuel' (n - length p) s'; Some (p ++ q, s'')
          end
      end
  end.
Definition read_full (n : nat) (s : list bytes) : option (bytes * list bytes) :=
  read_full_loop n n s.

(** [write_full] against the counts [ws] that [write] returns: what reached
    the descriptor, and whether everything did. *)
Fixpoint write_full (ws : list Z) (p : bytes) : bytes * bool :=
  match p with
  | [] => ([], true)
  | _ =>
      match ws with
      | [] => ([], false)
      | r :: ws' =>
          if r <=? 0 then ([], false)
          else let '(q, ok) := write_full ws' (drop (Z.to_nat r) p) in
               (take (Z.to_nat r) p ++ q, ok)
      end
  end.

(** ** The jail side: the request *)

Definition MAXARGS : Z := 256.

Section Request.
(** Whether [malloc(n)] succeeds. *)
Context (malloc_ok : Z -> bool).

(** One argument: its length word, then its bytes ([argv[i]], NUL-terminated
    by the code; [execvp] sees it through [cstr]). *)
Definition read_arg (s : list bytes) : option (bytes * list bytes) :=
  '(b, s) ← read_full 4 s;
  let len := get_u32 b in
  if (len =? 0) || (65536 <? len) then None
  else if negb (malloc_ok (len + 1)) then None
  else read_full (Z.to_nat len) s.

Fixpoint read_args (argc : nat) (s : list bytes) : option (list bytes * list bytes) :=
  match argc with
  | O => Some ([], s)
  | S argc' =>
      '(a, s) ← read_arg s;
      '(l, s) ← read_args argc' s;
      Some (a :: l, s)
  end.

(** The header of [handle_conn]: [None] is [goto out]. *)
Definition read_request (s : list bytes) : option (list bytes * list bytes) :=
  '(b, s) ← read_full 4 s;
  let argc := get_u32 b in
  if (argc =? 0) || (MAXARGS <? argc) then None
  else read_args (Z.to_nat argc) s.
End Request.

(** ** The jail side: wait status *)

Definition WIFEXITED (st : Z) : bool := Z.land st 127 =? 0.
Definition WEXITSTATUS (st : Z) : Z := Z.land (Z.shiftr st 8) 255.
Definition WTERMSIG (st : Z) : Z := Z.land st 127.
Definition WIFSIGNALED (st : Z) : bool :=
  negb (Z.land st 127 =? 0) && negb (Z.land st 127 =? 127).

Definition exit_code (st : Z) : Z :=
  if WIFEXITED st then WEXITSTATUS st
  else if WIFSIGNALED st then 128 + WTERMSIG st else 1.

(** ** The jail side: pumping the client's input into the command *)

Inductive poll_in :=
  | PollEintr                                  (* poll < 0, EINTR *)
  | PollFail                                   (* poll < 0, any other error *)
  | PollIdle                                   (* no POLLIN *)
  | PollReady (ws : list Z).                   (* POLLIN; what write accepts *)

(** One turn: what [waitpid(p, &st, WNOHANG)] returns, the status it stores (if
    it stores one), and what poll answers. *)
Record turn := Turn { tu_wait : Z; tu_st : option Z; tu_poll : poll_in }.

Record pump := Pump {
  pu_src : list bytes;    (* what the connection still delivers *)
  pu_eof : bool;          (* stdin_eof *)
  pu_open : bool;         (* inpipe[1] >= 0 *)
  pu_closed : nat;        (* how many times close ran on the pipe's write end *)
  pu_in : bytes;          (* bytes written to the command's stdin *)
  pu_st : Z               (* st *)
}.
Definition pump_init (src : list bytes) : pump := Pump src false true 0 [] 0.

Definition pump_set_st (st : option Z) (s : pump) : pump :=
  Pump (pu_src s) (pu_eof s) (pu_open s) (pu_closed s) (pu_in s) (default (pu_st s) st).

Definition PUMPSZ : nat := Z.to_nat 65536.

(** What one [read] of the connection does: end of input closes the pipe ([close]
    of -1 is no close); bytes go to the pipe while it is open. *)
Definition pump_read (ws : list Z) (s : pump) : pump :=
  let '(chunk, src) := sys_read PUMPSZ (pu_src s) in
  match chunk with
  | [] => Pump src true false (if pu_open s then S (pu_closed s) else pu_closed s)
            (pu_in s) (pu_st s)
  | _ =>
      if pu_open s then
        let '(w, ok) := write_full ws chunk in
        if ok then Pump src (pu_eof s) true (pu_closed s) (pu_in s ++ w) (pu_st s)
        else Pump src (pu_eof s) false (S (pu_closed s)) (pu_in s ++ w) (pu_st s)
      else Pump src (pu_eof s) (pu_open s) (pu_closed s) (pu_in s) (pu_st s)
  end.

(** One turn of the loop: [inl] goes round again, [inr] breaks. *)
Definition pump_step (p : Z) (t : turn) (s : pump) : pump + pump :=
  let s := pump_set_st (tu_st t) s in
  if tu_wait t =? p then inr s
  else if pu_eof s then inl s
  else match tu_poll t with
       | PollEintr => inl s
       | PollFail => inr s
       | PollIdle => inl s
       | PollReady ws => inl (pump_read ws s)
       end.

Fixpoint pump_loop (p : Z) (ts : list turn) (s : pump) : option pump :=
  match ts with
  | [] => None                              (* still running *)
  | t :: ts' => match pump_step p t s with inl s' => pump_loop p ts' s' | inr s' => Some s' end
  end.

(** After the loop: close the pipe if it is still open, then [waitpid(p, &st,
    0)]; [last] is the status that call stores, if it stores one. *)
Definition pump_finish (last : option Z) (s : pump) : pump :=
  pump_set_st last
    (if pu_open s then Pump (pu_src s) (pu_eof s) false (S (pu_closed s)) (pu_in s) (pu_st s) else s).

(** ** The jail side: one connection *)

(** What one connection produced: the argument vector of the command started
    ([None]: none), its input, the trailer sent ([None]: closed without one)
    and how often the write end of the pipe was closed. *)
Record conn_result := ConnResult {
  cr_argv : option (list bytes);
  cr_stdin : bytes;
  cr_trailer : option bytes;
  cr_closes : nat
}.
Definition conn_dropped : conn_result := ConnResult None [] None 0.

Section HandleConn.
Context (malloc_ok : Z -> bool).

(** [pipe_ok]: [pipe] succeeded; [p]: the result of [fork] (not tested by the
    code); [ts], [last]: what the loop and the final [waitpid] observe; [ws]:
    what [write] accepts of the trailer.  [None]: still in the loop. *)
Definition handle_conn (pipe_ok : bool) (p : Z) (s : list bytes) (ts : list turn)
    (last : option Z) (ws : list Z) : option conn_result :=
  match read_request malloc_ok s with
  | None => Some conn_dropped
  | Some (argv, rest) =>
      if negb pipe_ok then Some conn_dropped
      else
        s ← pump_loop p ts (pump_init rest);
        let s := pump_finish last s in
        let code := put_u32 (exit_code (pu_st s)) in
        Some (ConnResult (if p <? 0 then None else Some (cstr <$> argv))
                (pu_in s) (Some (write_full ws code).1) (pu_closed s))
  end.
End HandleConn.

(** ** The client side: building the request *)

(** [av = SOCK, ("--"), CMD, ARGS...]: [inl] is the exit status of a usage
    error, [inr] the socket and the command. *)
Definition client_args (av : list bytes) : Z + (bytes * list bytes) :=
  match av with
  | sock :: a0 :: rest =>
      if decide (a0 = B "--")
      then match rest with [] => inl 2 | _ => inr (sock, rest) end
      else inr (sock, a0 :: rest)
  | _ => inl 2
  end.

(** [while (len + n > cap) cap <<= 1] (in [size_t]; 64 doublings reach any
    representable need). *)
Fixpoint grow (fuel : nat) (need cap : Z) : Z :=
  match fuel with
  | O => cap
  | S fuel' => if cap <? need then grow fuel' need (u64 (Z.shiftl cap 1)) else cap
  end.

(** The request buffer: its capacity and the bytes in it. *)
Record reqbuf := ReqBuf { rq_cap : Z; rq_data : bytes }.

Section Build.
(** Whether [malloc(n)] / [realloc(req, n)] succeeds. *)
Context (malloc_ok : Z -> bool).

(** [APPEND(ptr, n)]; [None] is [return 2]. *)
Definition append_req (p : bytes) (r : reqbuf) : option reqbuf :=
  let need := Z.of_nat (length (rq_data r)) + Z.of_nat (length p) in
  if rq_cap r <? need then
    let cap := grow 64 need (rq_cap r) in
    if malloc_ok cap then Some (ReqBuf cap (rq_data r ++ p)) else None
  else Some (ReqBuf (rq_cap r) (rq_data r ++ p)).

Fixpoint append_args (args : list bytes) (r : reqbuf) : option reqbuf :=
  match args with
  | [] => Some r
  | a :: args' =>
      r ← append_req (put_u32 (u32 (Z.of_nat (length a)))) r;
      r ← append_req a r;
      append_args args' r
  end.

Definition build_request (args : list bytes) : option reqbuf :=
  if malloc_ok (Z.shiftl 1 16) then
    r ← append_req (put_u32 (u32 (Z.of_nat (length args)))) (ReqBuf (Z.shiftl 1 16) []);
    append_args args r
  else None.
End Build.

(** ** The client side: the full-duplex phase *)

(** One turn of the client's loop: poll fails, or it reports on the reply
    ([Some chunk] if readable; [[]] is [read <= 0]) and on stdin ([Some (chunk,
    ws)]: [chunk] is what [read(0)] gives, [ws] what [write] accepts of it). *)
Inductive cturn :=
  | CEintr
  | CFail
  | CReady (reply : option bytes) (input : option (bytes * list Z)).

Record client := Client {
  cl_pend : bytes;        (* the first npend bytes of pend *)
  cl_wr : bool;           (* wr_open *)
  cl_out : bytes;         (* written to stdout *)
  cl_sent : bytes;        (* input bytes sent to the jail *)
  cl_shut : nat           (* shutdown(s, SHUT_WR) calls *)
}.
Definition client_init : client := Client [] true [] [] 0.

(** One chunk of the reply: print all but the last four bytes seen so far. *)
Definition client_reply (buf : bytes) (c : client) : client :=
  let npend := length (cl_pend c) in
  let total := (npend + length buf)%nat in
  let emit := if (4 <? total)%nat then (total - 4)%nat else 0%nat in
  let from_pend := if (emit <? npend)%nat then emit else npend in
  let out := cl_out c ++ take from_pend (cl_pend c) ++
             (if (from_pend <? emit)%nat then take (emit - from_pend) buf else []) in
  let np i := if (i <? npend)%nat then default NUL (cl_pend c !! i)
              else default NUL (buf !! (i - npend)%nat) in
  Client (np <$> seq emit (Nat.min 4 (total - emit))) (cl_wr c) out (cl_sent c) (cl_shut c).

Definition client_input (chunk : bytes) (ws : list Z) (c : client) : client :=
  match chunk with
  | [] => Client (cl_pend c) false (cl_out c) (cl_sent c) (S (cl_shut c))
  | _ =>
      let '(w, ok) := write_full ws chunk in
      if ok then Client (cl_pend c) (cl_wr c) (cl_out c) (cl_sent c ++ w) (cl_shut c)
      else Client (cl_pend c) false (cl_out c) (cl_sent c ++ w) (S (cl_shut c))
  end.

Definition client_step (t : cturn) (c : client) : client + client :=
  match t with
  | CEintr => inl c
  | CFail => inr c
  | CReady reply input =>
      match (match reply with
             | Some [] => inr c
             | Some buf => inl (client_reply buf c)
             | None => inl c
             end) with
      | inr c => inr c
      | inl c => inl (match input with
                      | Some (chunk, ws) => if cl_wr c then client_input chunk ws c else c
                      | None => c
                      end)
      end
  end.

Fixpoint client_loop (ts : list cturn) (c : client) : option client :=
  match ts with
  | [] => None
  | t :: ts' => match client_step t c with inl c' => client_loop ts' c' | inr c' => Some c' end
  end.

(** The value [client_exec] returns when the loop is over. *)
Definition client_status (c : client) : Z :=
  if decide (length (cl_pend c) = 4%nat) then s32 (get_u32 (cl_pend c)) else 2.

(** The whole client: [conn_ok] is [connect]'s success, [ws] what [write] takes
    of the request.  The result is the exit status, the bytes sent as the
    request, the bytes sent as input and the bytes printed. *)
Record client_result := ClientResult {
  ce_status : Z; ce_request : bytes; ce_input : bytes; ce_stdout : bytes
}.
Definition client_failed (req : bytes) : client_result := ClientResult 2 req [] [].

Definition client_exec (malloc_ok : Z -> bool) (av : list bytes) (conn_ok : bool)
    (ws : list Z) (ts : list cturn) : option client_result :=
  match client_args av with
  | inl st => Some (ClientResult st [] [] [])
  | inr (_, args) =>
      if negb conn_ok then Some (client_failed [])
      else match build_request malloc_ok args with
           | None => Some (client_failed [])
           | Some r =>
               let '(w, ok) := write_full ws (rq_data r) in
               if negb ok then Some (client_failed w)
               else c ← client_loop ts client_init;
                    Some (ClientResult (client_status c) w (cl_sent c) (cl_out c))
           end
  end.

#[local] Arguments put_u32 : simpl never.
#[local] Arguments get_u32 : simpl never.
#[local] Arguments read_full : simpl never.

(** ** Lemmas: integers on the wire *)

Lemma put_u32_length v : length (put_u32 v) = 4%nat.
Proof. done. Qed.

Lemma code_chr_mod z : code (chr z) = z mod 256.
Proof.
  unfold code, chr. pose proof (Z.mod_pos_bound z 256 ltac:(lia)).
  rewrite N_ascii_embedding; lia.
Qed.

(** Bytes placed side by side add up. *)
Lemma lor_shiftl_add a b n :
  0 <= n -> 0 <= a < 2 ^ n -> Z.lor a (Z.shiftl b n) = a + b * 2 ^ n.
Proof.
  intros Hn Ha. rewrite <- Z.shiftl_mul_pow2 by done.
  symmetry. apply Z.add_nocarry_lor.
  apply Z.bits_inj'; intros k Hk. rewrite Z.land_spec, Z.bits_0.
  destruct (Z.lt_ge_cases k n).
  - rewrite Z.shiftl_spec_low by lia. apply andb_false_r.
  - destruct (decide (a = 0)) as [->|]; [by rewrite Z.bits_0|].
    rewrite (Z.bits_above_log2 a k); [done|lia|].
    apply Z.log2_lt_pow2; [lia|]. eapply Z.lt_le_trans; [apply Ha|].
    apply Z.pow_le_mono_r; lia.
Qed.

(** The value of four bytes, little-endian. *)
Lemma get_u32_bytes b0 b1 b2 b3 r :
  get_u32 (b0 :: b1 :: b2 :: b3 :: r) =
  code b0 + code b1 * 2 ^ 8 + code b2 * 2 ^ 16 + code b3 * 2 ^ 24.
Proof.
  pose proof (code_range b0). pose proof (code_range b1).
  pose proof (code_range b2). pose proof (code_range b3).
  unfold get_u32. simpl. rewrite u32_small.
  2:{ rewrite Z.shiftl_mul_pow2 by lia. lia. }
  rewrite (lor_shiftl_add (code b0)), (lor_shiftl_add (code b0 + _)),
    lor_shiftl_add by lia. done.
Qed.

Lemma get_put_u32 v r : 0 <= v < 2 ^ 32 -> get_u32 (put_u32 v ++ r) = v.
Proof.
  intros Hv. unfold put_u32. simpl app. rewrite get_u32_bytes, !code_chr_mod.
  rewrite !Z.shiftr_div_pow2 by lia.
  Z.div_mod_to_equations. lia.
Qed.

Lemma get_u32_range b : 0 <= get_u32 b < 2 ^ 32.
Proof.
  assert (forall c0 c1 c2 c3, get_u32 b =
    code c0 + code c1 * 2 ^ 8 + code c2 * 2 ^ 16 + code c3 * 2 ^ 24 ->
    0 <= get_u32 b < 2 ^ 32) as Hgo.
  { intros c0 c1 c2 c3 ->. pose proof (code_range c0). pose proof (code_range c1).
    pose proof (code_range c2). pose proof (code_range c3). lia. }
  eapply Hgo. symmetry. rewrite <- (get_u32_bytes _ _ _ _ []). reflexivity.
Qed.

Lemma put_get_u32 b : length b = 4%nat -> put_u32 (get_u32 b) = b.
Proof.
  intros Hb. destruct b as [|b0 [|b1 [|b2 [|b3 [|]]]]]; try discriminate Hb.
  rewrite get_u32_bytes. unfold put_u32.
  pose proof (code_range b0). pose proof (code_range b1).
  pose proof (code_range b2). pose proof (code_range b3).
  rewrite !Z.shiftr_div_pow2 by lia.
  repeat f_equal; apply code_inj; rewrite code_chr_mod;
    Z.div_mod_to_equations; lia.
Qed.

Lemma exit_code_range st : 0 <= exit_code st < 256.
Proof.
  assert (forall x, 0 <= Z.land x 255 < 256) by
    (intros x; change 255 with (Z.ones 8); rewrite Z.land_ones by lia;
     apply Z.mod_pos_bound; lia).
  assert (0 <= Z.land st 127 < 128) by
    (change 127 with (Z.ones 7); rewrite Z.land_ones by lia;
     apply Z.mod_pos_bound; lia).
  unfold exit_code, WEXITSTATUS, WTERMSIG. repeat case_on_match; auto; lia.
Qed.

(** ** Lemmas: reading and writing everything *)

(** A stream that is not at its end: no chunk is empty. *)
Abbreviation nonempty := (fun c : bytes => c <> []).
Abbreviation live := (Forall nonempty).

Lemma sys_read_spec n s p s' :
  live s -> (0 < n)%nat -> sys_read n s = (p, s') ->
  concat s = p ++ concat s' /\ live s' /\ (length p <= n)%nat /\
  (p = [] -> concat s = []).
Proof.
  intros Hl Hn. destruct s as [|c s]; simpl.
  - intros [= <- <-]. split_and!; simpl; auto; lia.
  - apply Forall_cons in Hl as [Hc Hl]. destruct (Nat.leb_spec (length c) n).
    + intros [= <- <-]. split_and!; auto. intros ->. done.
    + intros [= <- <-]. simpl. rewrite app_assoc, take_drop. split_and!; auto.
      * apply Forall_cons. split; [|done]. intros E.
        apply (f_equal length) in E. rewrite length_drop in E. simpl in E. lia.
      * rewrite length_take. lia.
      * intros E. apply (f_equal length) in E. rewrite length_take in E. simpl in E. lia.
Qed.

Lemma read_full_loop_ok fuel n s :
  live s -> (n <= fuel)%nat -> (n <= length (concat s))%nat ->
  exists s', read_full_loop fuel n s = Some (take n (concat s), s') /\
             concat s' = drop n (concat s) /\ live s'.
Proof.
  revert n s. induction fuel as [|fuel IH]; intros n s Hl Hf Hn.
  - assert (n = 0%nat) as -> by lia. exists s. done.
  - destruct n as [|n]; [by exists s|]. simpl.
    destruct (sys_read (S n) s) as [p s1] eqn:E.
    apply sys_read_spec in E as (Hc & Hl1 & Hp & He); [|done|lia].
    destruct p as [|b p].
    { rewrite He in Hn by done. simpl in Hn. lia. }
    rewrite Hc in Hn |- *. rewrite length_app in Hn. simpl in Hn, Hp.
    destruct (IH (S n - length (b :: p))%nat s1) as (s2 & -> & Hc2 & Hl2);
      [done|simpl; lia|simpl; lia|].
    exists s2. split_and!; [|rewrite drop_app_ge by (simpl; lia); done|done].
    cbn [mbind option_bind]. do 2 f_equal.
    rewrite take_app_ge by (simpl; lia). done.
Qed.

Lemma read_full_loop_short fuel n s :
  live s -> (length (concat s) < n)%nat -> read_full_loop fuel n s = None.
Proof.
  revert n s. induction fuel as [|fuel IH]; intros [|n] s Hl Hn; try lia; [done|].
  simpl. destruct (sys_read (S n) s) as [p s1] eqn:E.
  apply sys_read_spec in E as (Hc & Hl1 & Hp & _); [|done|lia].
  destruct p as [|b p]; [done|].
  rewrite Hc, length_app in Hn. simpl in Hn, Hp.
  rewrite IH; [done|done|simpl; lia].
Qed.

Lemma read_full_ok n s :
  live s -> (n <= length (concat s))%nat ->
  exists s', read_full n s = Some (take n (concat s), s') /\
             concat s' = drop n (concat s) /\ live s'.
Proof. intros. by apply read_full_loop_ok. Qed.

(** Reading a known prefix off the stream. *)
Lemma read_full_app p r s :
  live s -> concat s = p ++ r ->
  exists s', read_full (length p) s = Some (p, s') /\ concat s' = r /\ live s'.
Proof.
  intros Hl Hc. destruct (read_full_ok (length p) s) as (s' & -> & H1 & H2); [done| |].
  { rewrite Hc, length_app. lia. }
  exists s'. rewrite H1, Hc, take_app_length, drop_app_length. done.
Qed.

Lemma read_full_inv n s p s' :
  live s -> read_full n s = Some (p, s') ->
  length p = n /\ concat s = p ++ concat s' /\ live s'.
Proof.
  intros Hl Hr. destruct (decide (n <= length (concat s))%nat) as [Hn|Hn].
  - destruct (read_full_ok n s Hl Hn) as (s1 & H1 & H2 & H3).
    rewrite H1 in Hr. injection Hr as <- <-.
    rewrite length_take, H2, take_drop. split_and!; [lia|done|done].
  - unfold read_full in Hr. rewrite read_full_loop_short in Hr; [done|done|lia].
Qed.

(** [write_full] sends a prefix, all of it exactly when it succeeds. *)
Lemma write_full_spec ws p :
  exists q, p = (write_full ws p).1 ++ q /\ ((write_full ws p).2 = true <-> q = []).
Proof.
  revert p. induction ws as [|r ws IH]; intros p.
  - destruct p; simpl; [by exists []|]. by exists (a :: p).
  - destruct p as [|b p]; [by exists []|]. cbn [write_full].
    destruct (Z.leb_spec r 0); [by exists (b :: p)|].
    destruct (IH (drop (Z.to_nat r) (b :: p))) as (q & Hq & Hiff).
    destruct (write_full ws (drop (Z.to_nat r) (b :: p))) as [w ok]. simpl in Hq, Hiff.
    exists q. simpl fst. simpl snd. split; [|done].
    rewrite <- app_assoc, <- Hq. by rewrite take_drop.
Qed.

Lemma write_full_all ws p w :
  write_full ws p = (w, true) -> w = p.
Proof.
  intros E. destruct (write_full_spec ws p) as (q & Hq & Hiff). rewrite E in Hq, Hiff.
  simpl in *. rewrite (proj1 Hiff eq_refl), app_nil_r in Hq. done.
Qed.

#[local] Arguments write_full : simpl never.

(** ** The request format, and that both ends implement it *)

Definition enc_arg (a : bytes) : bytes := put_u32 (Z.of_nat (length a)) ++ a.
Definition enc_request (args : list bytes) : bytes :=
  put_u32 (Z.of_nat (length args)) ++ concat (enc_arg <$> args).

#[local] Arguments enc_arg : simpl never.

Definition arg_ok (a : bytes) : bool :=
  negb (Z.of_nat (length a) =? 0) && (Z.of_nat (length a) <=? 65536).
Definition request_ok (args : list bytes) : bool :=
  negb (Z.of_nat (length args) =? 0) && (Z.of_nat (length args) <=? MAXARGS) &&
  forallb arg_ok args.

Lemma arg_ok_spec a : arg_ok a = true <-> 0 < Z.of_nat (length a) <= 65536.
Proof. unfold arg_ok. rewrite andb_true_iff, negb_true_iff, Z.eqb_neq, Z.leb_le. lia. Qed.

Lemma request_ok_spec args :
  request_ok args = true <->
  0 < Z.of_nat (length args) <= MAXARGS /\ forallb arg_ok args = true.
Proof.
  unfold request_ok. rewrite !andb_true_iff, negb_true_iff, Z.eqb_neq, Z.leb_le.
  intuition lia.
Qed.

Section RequestFacts.
Context (malloc_ok : Z -> bool).
Hypothesis malloc_small : forall n, n <= 65537 -> malloc_ok n = true.

Lemma read_arg_app a r s :
  arg_ok a = true -> live s -> concat s = enc_arg a ++ r ->
  exists s', read_arg malloc_ok s = Some (a, s') /\ concat s' = r /\ live s'.
Proof.
  intros Ha%arg_ok_spec Hl Hc. unfold enc_arg in Hc. rewrite <- app_assoc in Hc.
  destruct (read_full_app _ _ _ Hl Hc) as (s1 & H1 & Hc1 & Hl1).
  unfold read_arg. change 4%nat with (length (put_u32 (Z.of_nat (length a)))).
  rewrite H1. simpl mbind. rewrite <- (app_nil_r (put_u32 _)), get_put_u32 by lia.
  destruct (Z.eqb_spec (Z.of_nat (length a)) 0); [lia|].
  destruct (Z.ltb_spec 65536 (Z.of_nat (length a))); [lia|]. simpl.
  rewrite malloc_small by lia. rewrite Nat2Z.id.
  by apply read_full_app.
Qed.

Lemma read_args_app args r s :
  forallb arg_ok args = true -> live s -> concat s = concat (enc_arg <$> args) ++ r ->
  exists s', read_args malloc_ok (length args) s = Some (args, s') /\
             concat s' = r /\ live s'.
Proof.
  revert s. induction args as [|a args IH]; intros s Ha Hl Hc; simpl in *.
  - by exists s.
  - apply andb_true_iff in Ha as [Ha Hs]. rewrite <- app_assoc in Hc.
    destruct (read_arg_app _ _ _ Ha Hl Hc) as (s1 & -> & Hc1 & Hl1). simpl.
    destruct (IH s1 Hs Hl1 Hc1) as (s2 & -> & Hc2 & Hl2). simpl. by exists s2.
Qed.

Lemma read_request_app args r s :
  request_ok args = true -> live s -> concat s = enc_request args ++ r ->
  exists s', read_request malloc_ok s = Some (args, s') /\ concat s' = r /\ live s'.
Proof.
  intros [Hn Ha]%request_ok_spec Hl Hc. unfold enc_request in Hc.
  rewrite <- app_assoc in Hc.
  destruct (read_full_app _ _ _ Hl Hc) as (s1 & H1 & Hc1 & Hl1).
  unfold read_request. change 4%nat with (length (put_u32 (Z.of_nat (length args)))).
  rewrite H1. simpl mbind. unfold MAXARGS in *.
  rewrite <- (app_nil_r (put_u32 _)), get_put_u32 by lia.
  destruct (Z.eqb_spec (Z.of_nat (length args)) 0); [lia|].
  destruct (Z.ltb_spec 256 (Z.of_nat (length args))); [lia|]. simpl.
  rewrite Nat2Z.id. by apply read_args_app.
Qed.
End RequestFacts.

Section RequestInv.
Context (malloc_ok : Z -> bool).

Lemma read_arg_inv s a s' :
  live s -> read_arg malloc_ok s = Some (a, s') ->
  arg_ok a = true /\ concat s = enc_arg a ++ concat s' /\ live s'.
Proof.
  intros Hl. unfold read_arg.
  destruct (read_full 4 s) as [[b s1]|] eqn:E1; cbn [mbind option_bind]; [|done].
  apply read_full_inv in E1 as (Hb & Hc1 & Hl1); [|done].
  destruct ((get_u32 b =? 0) || _) eqn:Eg; [done|]. zbool.
  destruct (malloc_ok _); [cbn [negb]|done]. intros Hr.
  apply read_full_inv in Hr as (Ha & Hc2 & Hl2); [|done].
  pose proof (get_u32_range b).
  assert (Z.of_nat (length a) = get_u32 b) as Hlen by lia.
  split; [apply arg_ok_spec; lia|]. split; [|done].
  unfold enc_arg. rewrite Hlen.
  rewrite put_get_u32, <- app_assoc by done. congruence.
Qed.

Lemma read_args_inv n s l s' :
  live s -> read_args malloc_ok n s = Some (l, s') ->
  length l = n /\ forallb arg_ok l = true /\
  concat s = concat (enc_arg <$> l) ++ concat s' /\ live s'.
Proof.
  revert s l. induction n as [|n IH]; intros s l Hl; simpl.
  - intros [= <- <-]. done.
  - destruct (read_arg malloc_ok s) as [[a s1]|] eqn:E1; simpl; [|done].
    apply read_arg_inv in E1 as (Ha & Hc1 & Hl1); [|done].
    destruct (read_args malloc_ok n s1) as [[l1 s2]|] eqn:E2; simpl; [|done].
    intros [= <- <-]. apply IH in E2 as (Hn & Hs & Hc2 & Hl2); [|done].
    cbn [length forallb fmap list_fmap concat]. rewrite Ha, Hs, <- app_assoc.
    split_and!; [by f_equal|done|rewrite Hc1, Hc2; done|done].
Qed.

Lemma read_request_inv s args s' :
  live s -> read_request malloc_ok s = Some (args, s') ->
  request_ok args = true /\ concat s = enc_request args ++ concat s' /\ live s'.
Proof.
  intros Hl. unfold read_request.
  destruct (read_full 4 s) as [[b s1]|] eqn:E1; cbn [mbind option_bind]; [|done].
  apply read_full_inv in E1 as (Hb & Hc1 & Hl1); [|done].
  destruct ((get_u32 b =? 0) || _) eqn:Eg; [done|]. zbool. intros Hr.
  apply read_args_inv in Hr as (Hn & Ha & Hc2 & Hl2); [|done].
  pose proof (get_u32_range b).
  assert (Z.of_nat (length args) = get_u32 b) as Hlen by lia.
  split; [apply request_ok_spec; split; [lia|done]|]. split; [|done].
  unfold enc_request. rewrite Hlen, put_get_u32, <- app_assoc by done. congruence.
Qed.
End RequestInv.

(** ** The client's buffer *)

Lemma grow_enough fuel need cap :
  0 < cap -> need <= 2 ^ 63 -> need <= cap * 2 ^ Z.of_nat fuel ->
  need <= grow fuel need cap /\ cap <= grow fuel need cap.
Proof.
  revert cap. induction fuel as [|fuel IH]; intros cap Hc Hn Hf; simpl grow.
  - lia.
  - destruct (Z.ltb_spec cap need); [|lia].
    assert (u64 (Z.shiftl cap 1) = 2 * cap) as ->.
    { rewrite Z.shiftl_mul_pow2 by lia. unfold u64. rewrite Z.mod_small; lia. }
    rewrite Nat2Z.inj_succ, Z.pow_succ_r in Hf by lia.
    destruct (IH (2 * cap)); lia.
Qed.

(** The memory an append needs is there: the buffer never overruns. *)
Definition req_fits (r : reqbuf) : Prop :=
  0 < rq_cap r /\ Z.of_nat (length (rq_data r)) <= rq_cap r.

Section BuildFacts.
Context (malloc_ok : Z -> bool).

Lemma append_req_fits p r r' :
  req_fits r -> Z.of_nat (length (rq_data r)) + Z.of_nat (length p) <= 2 ^ 63 ->
  append_req malloc_ok p r = Some r' ->
  req_fits r' /\ rq_data r' = rq_data r ++ p.
Proof.
  intros [Hc Hd] Hb. unfold append_req, req_fits.
  destruct (Z.ltb_spec (rq_cap r) (Z.of_nat (length (rq_data r)) + Z.of_nat (length p))).
  - pose proof (grow_enough 64 (Z.of_nat (length (rq_data r)) + Z.of_nat (length p))
                  (rq_cap r) ltac:(lia) ltac:(lia) ltac:(lia)) as Hg.
    revert Hg. generalize (grow 64 (Z.of_nat (length (rq_data r)) + Z.of_nat (length p))
                             (rq_cap r)) as g. intros g Hg.
    destruct (malloc_ok g); [|done]. intros [= <-]. cbn [rq_cap rq_data].
    rewrite length_app. split; [lia|done].
  - intros [= <-]. cbn [rq_cap rq_data]. rewrite length_app. split; [lia|done].
Qed.

Lemma append_args_fits args r r' :
  req_fits r ->
  Z.of_nat (length (rq_data r)) + Z.of_nat (length (concat (enc_arg <$> args))) <= 2 ^ 63 ->
  Forall (fun a => Z.of_nat (length a) < 2 ^ 32) args ->
  append_args malloc_ok args r = Some r' ->
  req_fits r' /\ rq_data r' = rq_data r ++ concat (enc_arg <$> args).
Proof.
  revert r. induction args as [|a args IH]; intros r Hr Hb Ha;
    cbn [append_args fmap list_fmap concat] in *.
  { intros [= <-]. by rewrite app_nil_r. }
  apply Forall_cons in Ha as [Ha Hs]. rewrite u32_small by lia.
  rewrite length_app in Hb. unfold enc_arg in Hb at 1.
  rewrite length_app, put_u32_length in Hb.
  destruct (append_req _ _ r) as [r1|] eqn:E1; cbn [mbind option_bind]; [|done].
  destruct (append_req _ _ r1) as [r2|] eqn:E2; cbn [mbind option_bind]; [|done].
  apply append_req_fits in E1 as [Hr1 Hd1]; [|done|rewrite put_u32_length; lia].
  assert (length (rq_data r1) = (length (rq_data r) + 4)%nat) as Hl1
    by (rewrite Hd1, length_app; done).
  apply append_req_fits in E2 as [Hr2 Hd2]; [|done|lia].
  assert (length (rq_data r2) = (length (rq_data r1) + length a)%nat) as Hl2
    by (rewrite Hd2, length_app; done).
  intros E. apply IH in E as [Hr' Hd']; [|done|lia|done].
  split; [done|]. rewrite Hd', Hd2, Hd1. unfold enc_arg at 2. by rewrite <- !app_assoc.
Qed.

(** The bytes in the buffer are the request, within its capacity. *)
Lemma build_request_enc args r :
  Z.of_nat (length (enc_request args)) <= 2 ^ 63 ->
  Z.of_nat (length args) < 2 ^ 32 ->
  Forall (fun a => Z.of_nat (length a) < 2 ^ 32) args ->
  build_request malloc_ok args = Some r ->
  req_fits r /\ rq_data r = enc_request args.
Proof.
  intros Hb Hn Ha. unfold build_request. rewrite u32_small by lia.
  unfold enc_request in Hb. rewrite length_app, put_u32_length in Hb.
  destruct (malloc_ok _); [|done].
  destruct (append_req _ _ _) as [r1|] eqn:E1; cbn [mbind option_bind]; [|done].
  apply append_req_fits in E1 as [Hr1 Hd1];
    [|split; vm_compute; done|cbn [rq_data length]; rewrite put_u32_length; lia].
  cbn [rq_data app] in Hd1. intros E.
  apply append_args_fits in E as [Hr Hd]; [|done|rewrite Hd1, put_u32_length; lia|done].
  split; [done|]. by rewrite Hd, Hd1.
Qed.

(** With memory available the request is always built. *)
Lemma build_request_total args :
  (forall n, malloc_ok n = true) -> exists r, build_request malloc_ok args = Some r.
Proof.
  intros Hm.
  assert (forall p r, exists r', append_req malloc_ok p r = Some r') as Happ.
  { intros p r. unfold append_req. rewrite Hm. case_on_match; eauto. }
  assert (forall l r, exists r', append_args malloc_ok l r = Some r') as Hargs.
  { induction l as [|a l IH]; intros r; cbn [append_args]; [eauto|].
    destruct (Happ (put_u32 (u32 (Z.of_nat (length a)))) r) as [r1 ->]. simpl.
    destruct (Happ a r1) as [r2 ->]. simpl. apply IH. }
  unfold build_request. rewrite Hm.
  destruct (Happ (put_u32 (u32 (Z.of_nat (length args)))) (ReqBuf (Z.shiftl 1 16) []))
    as [r ->]. simpl. apply Hargs.
Qed.
End BuildFacts.

(** A request within the jail's limits is small. *)
Lemma enc_args_small args :
  forallb arg_ok args = true ->
  Z.of_nat (length (concat (enc_arg <$> args))) <= 65540 * Z.of_nat (length args) /\
  Forall (fun a => Z.of_nat (length a) < 2 ^ 32) args.
Proof.
  induction args as [|a args IH]; cbn [forallb fmap list_fmap concat length].
  - intros _. split; [done|constructor].
  - intros [Ha%arg_ok_spec Hs]%andb_true_iff. destruct (IH Hs) as [Hl Hf].
    unfold enc_arg at 1. rewrite !length_app, put_u32_length. split; [lia|].
    constructor; [lia|done].
Qed.

Lemma build_request_ok malloc_ok args r :
  request_ok args = true -> build_request malloc_ok args = Some r ->
  req_fits r /\ rq_data r = enc_request args.
Proof.
  intros [Hn Ha]%request_ok_spec. destruct (enc_args_small args Ha) as [Hl Hf].
  unfold MAXARGS in Hn. apply build_request_enc; [|lia|done].
  unfold enc_request. rewrite length_app, put_u32_length. lia.
Qed.

(** ** The pump: what the command reads is a prefix of what the client sent *)

Lemma sys_read_concat n s p s' : sys_read n s = (p, s') -> concat s = p ++ concat s'.
Proof.
  destruct s as [|c s]; cbn; [by intros [= <- <-]|].
  destruct (length c <=? n)%nat; intros [= <- <-]; cbn; [done|]. by rewrite app_assoc, take_drop.
Qed.

(** The pipe is closed at most once, and only then not open; the end of input
    closes it; of the bytes [all] the connection delivers some were read, and
    the command's input is a prefix of these, all of them while the pipe is
    open. *)
Record pump_inv (all : bytes) (s : pump) : Prop := {
  pi_closed : pu_closed s = if pu_open s then 0%nat else 1%nat;
  pi_eof : pu_eof s = true -> pu_open s = false;
  pi_read : exists rd, all = rd ++ concat (pu_src s) /\ pu_in s `prefix_of` rd /\
                       (pu_open s = true -> pu_in s = rd)
}.

Lemma pump_inv_init src : pump_inv (concat src) (pump_init src).
Proof. split; [done|done|]. by exists []. Qed.

Lemma pump_inv_set_st all st s : pump_inv all s -> pump_inv all (pump_set_st st s).
Proof. by intros []. Qed.

Lemma pump_read_inv all ws s : pump_inv all s -> pump_inv all (pump_read ws s).
Proof.
  intros [H1 H2 (rd & Hall & Hp & Ho)]. unfold pump_read.
  destruct (sys_read PUMPSZ (pu_src s)) as [c src] eqn:E. apply sys_read_concat in E. rewrite E in Hall.
  destruct c as [|b c].
  { split; cbn; [destruct (pu_open s); lia|done|]. by exists rd. }
  rewrite app_assoc in Hall. destruct (pu_open s) eqn:Eo.
  - specialize (Ho eq_refl). subst rd. destruct (write_full_spec ws (b :: c)) as (q & Hq & Hiff).
    destruct (write_full ws (b :: c)) as [w [|]]; cbn in Hq, Hiff.
    + rewrite (proj1 Hiff eq_refl), app_nil_r in Hq. subst w.
      split; cbn; [lia| |]; [intros He; by apply H2 in He|]. by eexists.
    + split; cbn; [lia|done|]. eexists. split; [done|]. split; [|done]. apply prefix_app. by exists q.
  - split; cbn; [lia|done|]. eexists. split; [done|]. split; [by apply prefix_app_r|done].
Qed.

Lemma pump_step_inv p t all s :
  pump_inv all s ->
  match pump_step p t s with inl s' | inr s' => pump_inv all s' end.
Proof.
  intros Hi. apply (pump_inv_set_st _ (tu_st t)) in Hi. unfold pump_step.
  set (s0 := pump_set_st (tu_st t) s) in *. clearbody s0.
  destruct (tu_wait t =? p); [done|]. destruct (pu_eof s0); [done|].
  destruct (tu_poll t); try done. by apply pump_read_inv.
Qed.

Lemma pump_loop_inv p ts all s s' :
  pump_inv all s -> pump_loop p ts s = Some s' -> pump_inv all s'.
Proof.
  revert s. induction ts as [|t ts IH]; intros s Hi; cbn; [done|].
  pose proof (pump_step_inv p t all s Hi) as Hs. destruct (pump_step p t s) as [s1|s1].
  - by apply IH.
  - by intros [= <-].
Qed.

(** A turn before the command has ended: [waitpid] stores nothing and poll does
    not fail (but by a signal). *)
Definition waiting (p : Z) (t : turn) : Prop :=
  tu_wait t <> p /\ tu_st t = None /\ tu_poll t <> PollFail.

Lemma pump_step_waiting p t s :
  waiting p t ->
  pump_step p t s = inl (if pu_eof s then s else match tu_poll t with PollReady ws => pump_read ws s | _ => s end).
Proof.
  intros (Hw & Hst & Hp). unfold pump_step. rewrite Hst, (proj2 (Z.eqb_neq _ _)) by done.
  assert (pump_set_st None s = s) as -> by (by destruct s). destruct (pu_eof s); [done|]. by destruct (tu_poll t).
Qed.

Lemma pump_waiting p pre s k :
  Forall (waiting p) pre -> exists s', pump_loop p (pre ++ k) s = pump_loop p k s' /\ pu_st s' = pu_st s.
Proof.
  intros Hp. revert s. induction Hp as [|t pre Ht _ IH]; intros s; [by exists s|].
  cbn [app pump_loop]. rewrite pump_step_waiting by done. destruct (IH (if pu_eof s then s else
    match tu_poll t with PollReady ws => pump_read ws s | _ => s end)) as (s' & E & Est).
  exists s'. split; [done|]. rewrite Est. destruct (pu_eof s); [done|].
  destruct (tu_poll t); try done. unfold pump_read. destruct (sys_read _ _) as [[|b c] src]; [done|].
  destruct (pu_open s); [|done]. by destruct (write_full ws (b :: c)) as [w []].
Qed.

(** The command takes everything offered in a turn. *)
Definition takes (t : turn) : Prop :=
  match tu_poll t with
  | PollReady ws => forall c, (length c <= PUMPSZ)%nat -> (write_full ws c).2 = true
  | _ => True
  end.
(** The turns in which there is something to read. *)
Fixpoint ready (ts : list turn) : nat :=
  match ts with
  | [] => 0
  | t :: ts' => (match tu_poll t with PollReady _ => 1 | _ => 0 end + ready ts')%nat
  end.

(** While the command takes everything, each turn with something to read moves at
    least one byte until all have been moved. *)
Record moving (all : bytes) (k : nat) (s : pump) : Prop := {
  mv_live : live (pu_src s);
  mv_all : all = pu_in s ++ concat (pu_src s);
  mv_open : pu_eof s = false -> pu_open s = true;
  mv_eof : pu_eof s = true -> pu_src s = [];
  mv_count : (k <= length (pu_in s))%nat \/ concat (pu_src s) = []
}.

Lemma moving_read all k ws s :
  (forall c, (length c <= PUMPSZ)%nat -> (write_full ws c).2 = true) ->
  moving all k s -> pu_eof s = false -> moving all (S k) (pump_read ws s).
Proof.
  intros Hw [Hl Ha Ho He Hc] Hne. unfold pump_read. rewrite (Ho Hne).
  destruct (sys_read PUMPSZ (pu_src s)) as [c src] eqn:E. pose proof E as E'.
  apply sys_read_spec in E as (Hcat & Hl' & Hlen & Hnil); [|done|unfold PUMPSZ; lia].
  destruct c as [|b c].
  - assert (src = []) as ->.
    { destruct (pu_src s) as [|x xs]; cbn in E'; [by injection E'|]. apply Forall_cons in Hl as [Hx _].
      destruct (Nat.leb_spec (length x) PUMPSZ) as [|El]; injection E' as E1 _; [done|].
      apply (f_equal length) in E1. rewrite length_take in E1. cbn in E1. unfold PUMPSZ in *. lia. }
    split; cbn; [done| |done|done|by right]. by rewrite Ha, Hnil.
  - destruct (write_full ws (b :: c)) as [w ok] eqn:Ew.
    pose proof (Hw (b :: c) Hlen) as Hok. rewrite Ew in Hok. cbn in Hok. subst ok.
    apply write_full_all in Ew as ->. rewrite Hne. split; cbn [pu_src pu_in pu_eof pu_open]; [done| |done|done|].
    + by rewrite Ha, Hcat, app_assoc.
    + destruct Hc as [Hc|Hc]; [left; rewrite length_app; cbn; lia|]. rewrite Hcat in Hc. done.
Qed.

Lemma pump_moving p pre all k s t :
  Forall (fun t => waiting p t /\ takes t) pre -> moving all k s ->
  exists s', pump_loop p (pre ++ t) s = pump_loop p t s' /\ moving all (k + ready pre) s' /\ pu_st s' = pu_st s.
Proof.
  intros Hp. revert k s. induction Hp as [|x pre [Hx Ht] _ IH]; intros k s Hm.
  { exists s. cbn. by rewrite Nat.add_0_r. }
  cbn [app pump_loop ready]. rewrite pump_step_waiting by done. destruct (pu_eof s) eqn:Ee.
  - destruct (IH (k + match tu_poll x with PollReady _ => 1 | _ => 0 end)%nat s) as (s' & E & Hm' & Est).
    { destruct Hm as [H1 H2 H3 H4 H5]. split; auto. right. by rewrite H4. }
    exists s'. by rewrite Nat.add_assoc.
  - destruct (tu_poll x) as [| | |ws] eqn:Eq; cbn [Nat.add]; try (by apply IH).
    destruct (IH (S k) (pump_read ws s)) as (s' & E & Hm' & Est).
    { apply moving_read; [|done|done]. unfold takes in Ht. by rewrite Eq in Ht. }
    exists s'. split; [done|]. split; [by rewrite Nat.add_succ_r|].
    rewrite Est. unfold pump_read. destruct (sys_read _ _) as [[|b c] src]; [done|].
    destruct (pu_open s); [|done]. by destruct (write_full ws (b :: c)) as [w []].
Qed.

(** ** The client: printing holds back exactly the last four bytes *)

Lemma fmap_lookup_seq (l : bytes) k :
  (fun i => default NUL (l !! i)) <$> seq k (length l - k) = drop k l.
Proof.
  apply list_eq. intros i. rewrite list_lookup_fmap, lookup_drop.
  destruct (decide (i < length l - k)%nat) as [Hi|Hi].
  - rewrite lookup_seq_lt by lia. simpl.
    destruct (lookup_lt_is_Some_2 l (k + i)) as [x ->]; [lia|]. done.
  - rewrite lookup_seq_ge by lia. simpl. symmetry. apply lookup_ge_None. lia.
Qed.

(** The tail kept back after bytes [rd], and what was printed before it. *)
Lemma client_reply_spec buf c :
  (length (cl_pend c) <= 4)%nat ->
  let all := cl_pend c ++ buf in
  client_reply buf c =
  Client (drop (length all - 4) all) (cl_wr c) (cl_out c ++ take (length all - 4) all)
         (cl_sent c) (cl_shut c).
Proof.
  intros Hp all. unfold client_reply. cbv zeta.
  assert (length all = (length (cl_pend c) + length buf)%nat) as Hl by apply length_app.
  rewrite <- Hl.
  assert ((if (4 <? length all)%nat then (length all - 4)%nat else 0%nat) =
          (length all - 4)%nat) as -> by (destruct (Nat.ltb_spec 4 (length all)); lia).
  set (e := (length all - 4)%nat).
  f_equal.
  - rewrite Nat.min_r by lia. rewrite <- (fmap_lookup_seq all e).
    apply list_fmap_ext. intros _ i _. unfold all.
    destruct (Nat.ltb_spec i (length (cl_pend c))).
    + by rewrite lookup_app_l by done.
    + by rewrite lookup_app_r by done.
  - f_equal. unfold all. rewrite take_app.
    destruct (Nat.ltb_spec e (length (cl_pend c))) as [He|He].
    + rewrite Nat.ltb_irrefl. f_equal. assert (e - length (cl_pend c) = 0)%nat as -> by lia.
      done.
    + rewrite (take_ge (cl_pend c)) by lia. rewrite (take_ge (cl_pend c) e) by lia. f_equal.
      destruct (Nat.ltb_spec (length (cl_pend c)) e); [done|].
      assert (e - length (cl_pend c) = 0)%nat as -> by lia. done.
Qed.

Definition reply_bytes (t : cturn) : bytes :=
  match t with CReady (Some b) _ => b | _ => [] end.
Definition input_bytes (t : cturn) : bytes :=
  match t with CReady _ (Some (b, _)) => b | _ => [] end.
Definition replies (ts : list cturn) : bytes := concat (reply_bytes <$> ts).
Definition inputs (ts : list cturn) : bytes := concat (input_bytes <$> ts).

(** After reply bytes [rd] and with stdin bytes [inp] read: the tail is the last
    four bytes (all of them if there are fewer), everything before it has been
    printed, the bytes sent are a prefix of the input, and the socket was shut
    down for writing exactly once iff no more is sent. *)
Record client_inv (rd inp : bytes) (c : client) : Prop := {
  ci_pend : cl_pend c = drop (length rd - 4) rd;
  ci_out : cl_out c = take (length rd - 4) rd;
  ci_sent : cl_sent c `prefix_of` inp;
  ci_all : cl_wr c = true -> cl_sent c = inp;
  ci_shut : cl_shut c = if cl_wr c then 0%nat else 1%nat
}.

Lemma client_inv_init : client_inv [] [] client_init.
Proof. by split. Qed.

Lemma client_reply_inv rd inp buf c :
  client_inv rd inp c -> client_inv (rd ++ buf) inp (client_reply buf c).
Proof.
  intros [Hp Ho Hs Ha Hsh].
  assert (length (cl_pend c) = length rd - (length rd - 4))%nat as Hlp
    by (rewrite Hp, length_drop; lia).
  rewrite client_reply_spec by lia.
  assert (rd ++ buf = cl_out c ++ cl_pend c ++ buf) as Hrb
    by (rewrite app_assoc, Ho, Hp, take_drop; done).
  assert (length (cl_out c) = length rd - 4)%nat as Hlo
    by (rewrite Ho, length_take; lia).
  assert (length (rd ++ buf) - 4 - length (cl_out c) =
          length (cl_pend c ++ buf) - 4)%nat as Hk
    by (rewrite !length_app; lia).
  assert (length (cl_out c) <= length (rd ++ buf) - 4)%nat by (rewrite length_app; lia).
  split; simpl; [| |done|done|done].
  all: rewrite <- Hk; set (n := (length (rd ++ buf) - 4)%nat) in *; rewrite Hrb.
  - by rewrite (drop_app_ge (cl_out c)) by lia.
  - by rewrite (take_app_ge (cl_out c)) by lia.
Qed.

Lemma client_input_inv rd inp chunk ws c :
  client_inv rd inp c -> cl_wr c = true ->
  client_inv rd (inp ++ chunk) (client_input chunk ws c).
Proof.
  intros [Hp Ho Hs Ha Hsh] Hw. specialize (Ha Hw). rewrite Hw in Hsh.
  destruct chunk as [|b chunk].
  { rewrite app_nil_r. simpl. split; simpl; auto; congruence. }
  unfold client_input. destruct (write_full_spec ws (b :: chunk)) as (q & Hq & Hiff).
  destruct (write_full ws (b :: chunk)) as [w [|]]; simpl in Hq, Hiff.
  - rewrite (proj1 Hiff eq_refl), app_nil_r in Hq. subst w.
    split; simpl; rewrite ?Ha; auto. by rewrite Hw.
  - split; simpl; auto; [|congruence..]. rewrite Ha. apply prefix_app. by exists q.
Qed.

Lemma client_skip_inv rd inp chunk c :
  client_inv rd inp c -> cl_wr c = false -> client_inv rd (inp ++ chunk) c.
Proof.
  intros [Hp Ho Hs Ha Hsh] Hw. split; auto; [by apply prefix_app_r|by rewrite Hw].
Qed.

Lemma client_step_inv t rd inp c :
  client_inv rd inp c ->
  (forall c', client_step t c = inl c' ->
     client_inv (rd ++ reply_bytes t) (inp ++ input_bytes t) c') /\
  (forall c', client_step t c = inr c' -> client_inv rd inp c').
Proof.
  intros Hi. destruct t as [| |reply input]; simpl.
  1,2: split; intros c' [= <-]; rewrite ?app_nil_r; done.
  destruct reply as [[|b buf]|].
  { by split; intros ? [= <-]. }
  1: apply (client_reply_inv _ _ (b :: buf)) in Hi.
  2: rewrite (app_nil_r rd).
  all: split; [|done]; intros ? [= <-];
    destruct input as [[chunk ws]|]; [|by rewrite app_nil_r];
    destruct (cl_wr _) eqn:Hw; [by apply client_input_inv|by apply client_skip_inv].
Qed.

(** The turns in which the loop goes on. *)
Definition cturn_goes_on (t : cturn) : bool :=
  match t with CFail => false | CReady (Some []) _ => false | _ => true end.

Lemma client_step_goes_on t c :
  cturn_goes_on t = true -> exists c', client_step t c = inl c'.
Proof. destruct t as [| |[[|b buf]|] input]; simpl; eauto; done. Qed.

Lemma client_loop_eof ts i k rd inp c :
  forallb cturn_goes_on ts = true -> client_inv rd inp c ->
  exists c', client_loop (ts ++ CReady (Some []) i :: k) c = Some c' /\
             client_inv (rd ++ replies ts) (inp ++ inputs ts) c'.
Proof.
  revert rd inp c. induction ts as [|t ts IH]; intros rd inp c Ht Hi.
  { exists c. cbn. by rewrite !app_nil_r. }
  simpl in Ht. apply andb_true_iff in Ht as [Ht Hs].
  cbn [app client_loop]. destruct (client_step_goes_on t c Ht) as [c1 E].
  rewrite E. apply (proj1 (client_step_inv t rd inp c Hi)) in E.
  destruct (IH _ _ _ Hs E) as (c' & -> & Hi'). exists c'. split; [done|].
  unfold replies, inputs. cbn [fmap list_fmap concat]. by rewrite !app_assoc.
Qed.

(** The client's stdin: what its turns read of it, up to its end. *)
Fixpoint stdin_of (ts : list cturn) : bytes :=
  match ts with
  | [] => []
  | CReady _ (Some ([], _)) :: _ => []
  | t :: ts' => input_bytes t ++ stdin_of ts'
  end.
(** The jail takes all of what a turn sends. *)
Definition input_taken (t : cturn) : Prop :=
  match t with CReady _ (Some (chunk, ws)) => (write_full ws chunk).2 = true | _ => True end.

(** What one turn sends. *)
Lemma client_step_sent t c c' :
  client_step t c = inl c' ->
  (cl_wr c = false -> cl_wr c' = false /\ cl_sent c' = cl_sent c) /\
  (cl_wr c = true -> match t with
   | CReady _ (Some ([], _)) => cl_wr c' = false /\ cl_sent c' = cl_sent c
   | _ => cl_sent c' `prefix_of` cl_sent c ++ input_bytes t /\
          (cl_wr c' = true \/ ~ input_taken t) /\ (cl_wr c' = true -> cl_sent c' = cl_sent c ++ input_bytes t)
   end).
Proof.
  destruct t as [| |reply input]; cbn [client_step]; [intros [= <-]|done|].
  { split; [done|]. intros Hw. cbn [input_bytes]. rewrite app_nil_r. split_and!; [done|by left|done]. }
  assert (Hgo : forall c1 : client, cl_wr c1 = cl_wr c -> cl_sent c1 = cl_sent c ->
    inl (match input with Some (chunk, ws) => if cl_wr c1 then client_input chunk ws c1 else c1 | None => c1 end) =
      (inl c' : client + client) ->
    (cl_wr c = false -> cl_wr c' = false /\ cl_sent c' = cl_sent c) /\
    (cl_wr c = true -> match CReady reply input with
     | CReady _ (Some ([], _)) => cl_wr c' = false /\ cl_sent c' = cl_sent c
     | _ => cl_sent c' `prefix_of` cl_sent c ++ input_bytes (CReady reply input) /\
            (cl_wr c' = true \/ ~ input_taken (CReady reply input)) /\
            (cl_wr c' = true -> cl_sent c' = cl_sent c ++ input_bytes (CReady reply input))
     end)).
  { intros c1 Hw Hs [= <-]. destruct input as [[chunk ws]|]; cbn [input_bytes input_taken].
    - rewrite Hw. destruct (cl_wr c) eqn:Ew; [|by rewrite Hw, Hs]. split; [done|]. intros _.
      destruct chunk as [|b chunk]; [by cbn|]. unfold client_input.
      destruct (write_full_spec ws (b :: chunk)) as (q & Hq & Hiff).
      destruct (write_full ws (b :: chunk)) as [w [|]]; cbn [fst snd] in *; cbn [cl_wr cl_sent]; rewrite Hs.
      + rewrite (proj1 Hiff eq_refl), app_nil_r in Hq. rewrite Hq. rewrite Hw. split_and!; [done|by left|done].
      + split_and!; [|by right|done]. apply prefix_app. by exists q.
    - rewrite Hw, Hs. split; [done|]. intros Hwt. rewrite app_nil_r. split_and!; [done|by left|done]. }
  destruct reply as [[|b buf]|]; [done|..]; by apply Hgo.
Qed.

(** What the client sends is its stdin, up to the first bytes the jail refuses. *)
Lemma client_loop_sent ts i k c c' :
  forallb cturn_goes_on ts = true -> client_loop (ts ++ CReady (Some []) i :: k) c = Some c' ->
  (cl_wr c = false -> cl_sent c' = cl_sent c) /\
  (cl_wr c = true -> cl_sent c' `prefix_of` cl_sent c ++ stdin_of ts /\
     (Forall input_taken ts -> cl_sent c' = cl_sent c ++ stdin_of ts)).
Proof.
  revert c. induction ts as [|t ts IH]; intros c Hg.
  { cbn. intros [= <-]. rewrite app_nil_r. done. }
  cbn [forallb app client_loop] in *. apply andb_true_iff in Hg as [Ht Hg].
  destruct (client_step_goes_on t c Ht) as [c1 E]. rewrite E. intros El.
  destruct (client_step_sent t c c1 E) as [Hf Htr]. destruct (IH c1 Hg El) as [IHf IHt]. clear IH.
  split; [intros Hw; destruct (Hf Hw) as [H1 H2]; by rewrite IHf, H2|]. intros Hw. specialize (Htr Hw).
  assert (Hother : forall e, (cl_sent c1 `prefix_of` cl_sent c ++ e /\
      (cl_wr c1 = true \/ ~ input_taken t) /\ (cl_wr c1 = true -> cl_sent c1 = cl_sent c ++ e)) ->
    cl_sent c' `prefix_of` cl_sent c ++ e ++ stdin_of ts /\
    (Forall input_taken (t :: ts) -> cl_sent c' = cl_sent c ++ e ++ stdin_of ts)).
  { intros e (Hp & Hor & Hopen). destruct (cl_wr c1) eqn:Ew.
    - rewrite (Hopen eq_refl) in IHt. rewrite <- app_assoc in IHt. destruct (IHt eq_refl) as [H1 H2].
      split; [done|]. intros [_ Hs]%Forall_cons. by apply H2.
    - rewrite (IHf eq_refl). split; [rewrite app_assoc; by apply prefix_app_r|].
      intros [Hi _]%Forall_cons. destruct Hor; done. }
  assert (Heof : cl_wr c1 = false /\ cl_sent c1 = cl_sent c ->
    cl_sent c' `prefix_of` cl_sent c ++ [] /\ (Forall input_taken (t :: ts) -> cl_sent c' = cl_sent c ++ [])).
  { intros [H1 H2]. by rewrite (IHf H1), H2, app_nil_r. }
  destruct t as [| |reply [[[|b chunk] ws]|]]; [by apply Hother|done| |by apply Hother|by apply Hother].
  by apply Heof.
Qed.

(** ** The encoding is injective *)

Lemma enc_arg_inj a b r r' :
  Z.of_nat (length a) < 2 ^ 32 -> Z.of_nat (length b) < 2 ^ 32 ->
  enc_arg a ++ r = enc_arg b ++ r' -> a = b /\ r = r'.
Proof.
  intros Ha Hb E. unfold enc_arg in E. rewrite <- !app_assoc in E.
  apply app_inj_1 in E as [E1 E2]; [|done].
  assert (length a = length b) as Hl.
  { apply (f_equal get_u32) in E1. rewrite <- (app_nil_r (put_u32 _)), get_put_u32 in E1 by lia.
    rewrite <- (app_nil_r (put_u32 _)), get_put_u32 in E1 by lia. lia. }
  by apply app_inj_1 in E2.
Qed.

Lemma enc_args_inj l l' r r' :
  length l = length l' ->
  Forall (fun a => Z.of_nat (length a) < 2 ^ 32) l ->
  Forall (fun a => Z.of_nat (length a) < 2 ^ 32) l' ->
  concat (enc_arg <$> l) ++ r = concat (enc_arg <$> l') ++ r' -> l = l'.
Proof.
  revert l'. induction l as [|a l IH]; intros [|b l'] Hn Hl Hl' E; try done.
  cbn [fmap list_fmap concat] in E. rewrite <- !app_assoc in E.
  apply Forall_cons in Hl as [Ha Hl]. apply Forall_cons in Hl' as [Hb Hl'].
  apply enc_arg_inj in E as [-> E]; [|done|done].
  f_equal. apply IH; [by injection Hn|done..].
Qed.

Lemma enc_request_inj l l' r r' :
  Z.of_nat (length l) < 2 ^ 32 -> Z.of_nat (length l') < 2 ^ 32 ->
  Forall (fun a => Z.of_nat (length a) < 2 ^ 32) l ->
  Forall (fun a => Z.of_nat (length a) < 2 ^ 32) l' ->
  enc_request l ++ r = enc_request l' ++ r' -> l = l'.
Proof.
  intros Hn Hn' Hl Hl' E. unfold enc_request in E. rewrite <- !app_assoc in E.
  apply app_inj_1 in E as [E1 E2]; [|done].
  apply (f_equal get_u32) in E1. rewrite <- (app_nil_r (put_u32 _)), get_put_u32 in E1 by lia.
  rewrite <- (app_nil_r (put_u32 _)), get_put_u32 in E1 by lia.
  eapply enc_args_inj; [lia|done..].
Qed.

(** ** Argument vectors *)

Lemma client_args_plain sock args :
  request_ok args = true -> head args <> Some (B "--") ->
  client_args (sock :: args) = inr (sock, args).
Proof.
  intros Ha%request_ok_spec Hd. destruct args as [|a args]; [simpl in Ha; lia|].
  simpl in *. destruct (decide _); [congruence|done].
Qed.

(** ** Main theorems *)

(** C18. The request that [client_exec] builds for up to 256 arguments of 1 to
    65536 bytes fits the buffer it grew and is read back by [handle_conn] as the
    same arguments, however the socket cuts the byte stream into chunks; the
    bytes after the request are left for the command's input. *)
Theorem request_roundtrip (calloc jalloc : Z -> bool) args r rest s :
  request_ok args = true ->
  build_request calloc args = Some r ->
  (forall n, n <= 65537 -> jalloc n = true) ->
  Forall nonempty s -> concat s = rq_data r ++ rest ->
  Z.of_nat (length (rq_data r)) <= rq_cap r /\
  exists s', read_request jalloc s = Some (args, s') /\ concat s' = rest.
Proof.
  intros Ha Hb Hm Hl Hc. apply build_request_ok in Hb as [[_ Hf] Hd]; [|done].
  split; [done|]. rewrite Hd in Hc.
  destruct (read_request_app jalloc Hm args rest s Ha Hl Hc) as (s' & H1 & H2 & _). eauto.
Qed.

(** C39. Whatever bytes arrive, [handle_conn] only accepts requests of 1 to 256
    arguments of 1 to 65536 bytes each, and the bytes it consumed are exactly
    the encoding of the arguments it accepted. *)
Theorem read_request_sound (malloc_ok : Z -> bool) s args s' :
  Forall nonempty s -> read_request malloc_ok s = Some (args, s') ->
  0 < Z.of_nat (length args) <= MAXARGS /\
  Forall (fun a => 0 < Z.of_nat (length a) <= 65536) args /\
  concat s = enc_request args ++ concat s'.
Proof.
  intros Hl Hr. apply read_request_inv in Hr as (Ho & Hc & _); [|done].
  apply request_ok_spec in Ho as [Hn Ha]. split; [done|]. split; [|done].
  apply Forall_forall. intros a Hin. rewrite forallb_forall in Ha.
  by apply arg_ok_spec, Ha, list_elem_of_In.
Qed.

(** C20. For every behaviour of poll, read, write and waitpid under which
    [handle_conn] ends: a connection it does not drop gets as its trailer a
    prefix of the four bytes of an exit code in 0..255, the write end of the
    pipe has been closed exactly once, and the command's input is a prefix of
    the bytes the client sent after the request. *)
Theorem handle_conn_safe malloc_ok pipe_ok p s ts last ws res :
  handle_conn malloc_ok pipe_ok p s ts last ws = Some res ->
  res = conn_dropped \/
  (cr_closes res = 1%nat /\
   (exists argv rest, read_request malloc_ok s = Some (argv, rest) /\ cr_stdin res `prefix_of` concat rest) /\
   exists c tr, cr_trailer res = Some tr /\ tr `prefix_of` put_u32 c /\ 0 <= c < 256).
Proof.
  unfold handle_conn. destruct (read_request malloc_ok s) as [[argv s1]|]; [|intros [= <-]; auto].
  destruct pipe_ok; cbn [negb]; [|intros [= <-]; auto].
  destruct (pump_loop p ts (pump_init s1)) as [s2|] eqn:E; cbn [mbind option_bind]; [|done].
  intros [= <-]. right. cbn [cr_closes cr_stdin cr_trailer].
  destruct (pump_loop_inv _ _ _ _ _ (pump_inv_init s1) E) as [H1 H2 (rd & Hrd & Hp & _)]. split_and!.
  - unfold pump_finish. destruct (pu_open s2); simpl; congruence.
  - exists argv, s1. split; [done|]. rewrite Hrd. unfold pump_finish.
    destruct (pu_open s2); cbn; by apply prefix_app_r.
  - eexists _, _. split; [done|]. split; [|apply exit_code_range].
    destruct (write_full_spec ws (put_u32 (exit_code (pu_st (pump_finish last s2)))))
      as (q & Hq & _). by exists q.
Qed.

(** C21. For every interleaving and chunking of the reply and of stdin, when the
    reply ends after the bytes [replies ts] the client has printed all of them
    but the last four, its status is the value of those four (2 when there are
    fewer), what it sent is a prefix of its stdin and it has shut the socket
    down for writing at most once. *)
Theorem client_loop_exact ts i k :
  forallb cturn_goes_on ts = true ->
  let rd := replies ts in
  exists c, client_loop (ts ++ CReady (Some []) i :: k) client_init = Some c /\
    cl_out c = take (length rd - 4) rd /\
    client_status c = (if (length rd <? 4)%nat then 2
                       else s32 (get_u32 (drop (length rd - 4) rd))) /\
    cl_sent c `prefix_of` inputs ts /\ (cl_shut c <= 1)%nat.
Proof.
  intros Ht rd. destruct (client_loop_eof ts i k [] [] client_init Ht client_inv_init)
    as (c & E & [Hp Ho Hs Ha Hsh]). simpl in Hp, Ho, Hs. fold rd in Hp, Ho.
  exists c. split_and!; [done|done| |done|destruct (cl_wr c); lia].
  unfold client_status. rewrite Hp, length_drop.
  destruct (Nat.ltb_spec (length rd) 4); destruct (decide _); (done || lia).
Qed.

(** A jail that serves a session: what it does with the stream of a client whose
    command ends with status [st] at turn [fin]. *)
Lemma handle_conn_serves jalloc args sent s p pre fin post st jws :
  request_ok args = true -> Forall no_nul args -> (forall n, n <= 65537 -> jalloc n = true) ->
  Forall nonempty s -> concat s = enc_request args ++ sent -> 0 < p ->
  Forall (waiting p) pre -> tu_wait fin = p -> tu_st fin = Some st ->
  (write_full jws (put_u32 (exit_code st))).2 = true ->
  exists input, handle_conn jalloc true p s (pre ++ fin :: post) None jws =
      Some (ConnResult (Some args) input (Some (put_u32 (exit_code st))) 1) /\
    input `prefix_of` sent /\
    (Forall takes pre -> (ready pre <= length input)%nat \/ input = sent).
Proof.
  intros Ha Hnn Hm Hl Hc Hp Hpre Hfw Hfs Hjw.
  destruct (read_request_app jalloc Hm args _ s Ha Hl Hc) as (rest & Er & Hrest & Hlr).
  destruct (write_full jws _) as [tr ok] eqn:Etr. cbn in Hjw. subst ok. apply write_full_all in Etr as Et. subst tr.
  assert (Hend : forall s1, pump_loop p (fin :: post) s1 = Some (pump_set_st (Some st) s1)).
  { intros s1. cbn. unfold pump_step. by rewrite Hfw, Z.eqb_refl, Hfs. }
  assert (Hargs : cstr <$> args = args).
  { rewrite <- (list_fmap_id args) at 2. apply list_fmap_ext. intros k a Hk.
    apply cstr_no_nul. by eapply Forall_lookup_1. }
  assert (Hres : forall s1, pump_loop p (pre ++ fin :: post) (pump_init rest) = Some (pump_set_st (Some st) s1) ->
    handle_conn jalloc true p s (pre ++ fin :: post) None jws =
    Some (ConnResult (Some args) (pu_in s1) (Some (put_u32 (exit_code st))) 1) /\ pu_in s1 `prefix_of` sent).
  { intros s1 E. unfold handle_conn. rewrite Er. cbn [negb]. rewrite E. cbn [mbind option_bind].
    destruct (pump_loop_inv _ _ _ _ _ (pump_inv_init rest) E) as [H1 _ (rd & Hrd & Hpr & _)].
    cbn in H1, Hrd, Hpr. rewrite Hrest in Hrd. rewrite (proj2 (Z.ltb_ge p 0)), Hargs by lia.
    unfold pump_finish. cbn [pump_set_st pu_open pu_src pu_eof pu_closed pu_in pu_st default].
    split; [|rewrite Hrd; by apply prefix_app_r].
    destruct (pu_open s1); cbn [pump_set_st pu_open pu_src pu_eof pu_closed pu_in pu_st default id];
      rewrite H1, Etr; done. }
  destruct (pump_waiting p pre (pump_init rest) (fin :: post) Hpre) as (s1 & E & _).
  rewrite Hend in E. destruct (Hres s1 E) as [Hr Hpf]. exists (pu_in s1). split_and!; [done|done|].
  intros Ht. destruct (pump_moving p pre (concat rest) 0 (pump_init rest) (fin :: post)) as (s2 & E2 & Hmv & _).
  { rewrite Forall_forall in Hpre, Ht |- *. auto. }
  { split; cbn; [done|done|done|done|]. left. lia. }
  rewrite Hend in E2. rewrite E in E2. injection E2 as _ _ _ _ Ein. rewrite Ein.
  destruct Hmv as [_ Hall _ _ [Hk|Hk]]; [by left|right]. by rewrite <- Hrest, Hall, Hk, app_nil_r.
Qed.

(** C3. A session end to end, for arguments within the limits (C strings), when
    the reply the client reads is the command's output and the exit code: the
    client sends the request and then its own stdin, up to its end (a prefix of
    it if the jail stops taking bytes), prints exactly the output and exits with
    the code; and the jail, reading from what that client sent, however it is
    cut up, with its polls, idle turns, signals and reads interleaved in any way
    before [waitpid] reports the end, starts exactly [args], feeds the command a
    prefix of the client's input in order, at least one byte more for every turn
    that finds something to read while the command takes its input, so all of it
    once there were enough, and sends the exit code. *)
Theorem exec_session_exact (calloc jalloc : Z -> bool) sock args ws w r cts out st :
  request_ok args = true -> Forall no_nul args -> head args <> Some (B "--") ->
  build_request calloc args = Some r -> write_full ws (rq_data r) = (w, true) ->
  (forall n, n <= 65537 -> jalloc n = true) ->
  forallb cturn_goes_on cts = true -> replies cts = out ++ put_u32 (exit_code st) ->
  exists sent,
    client_exec calloc (sock :: args) true ws (cts ++ [CReady (Some []) None]) =
      Some (ClientResult (exit_code st) (enc_request args) sent out) /\
    sent `prefix_of` stdin_of cts /\ (Forall input_taken cts -> sent = stdin_of cts) /\
    forall s p pre fin post jws,
      Forall nonempty s -> concat s = enc_request args ++ sent ->
      0 < p -> Forall (waiting p) pre -> tu_wait fin = p -> tu_st fin = Some st ->
      (write_full jws (put_u32 (exit_code st))).2 = true ->
      exists input, handle_conn jalloc true p s (pre ++ fin :: post) None jws =
          Some (ConnResult (Some args) input (Some (put_u32 (exit_code st))) 1) /\
        input `prefix_of` sent /\
        (Forall takes pre -> (ready pre <= length input)%nat \/ input = sent).
Proof.
  intros Ha Hnn Hdd Hb Hw Hm Hct Hre. apply write_full_all in Hw as Hwd. subst w.
  pose proof Hb as Hb'. apply build_request_ok in Hb' as [_ Hd]; [|done].
  pose proof (exit_code_range st) as Hec.
  destruct (client_loop_eof cts None [] [] [] client_init Hct client_inv_init) as (c & E & [Hpd Ho _ _ _]).
  cbn in Hpd, Ho. destruct (client_loop_sent cts None [] client_init c Hct E) as [_ Hsent].
  destruct (Hsent eq_refl) as [Hs1 Hs2]. exists (cl_sent c). split_and!; [|done|done|].
  - unfold client_exec. rewrite client_args_plain by done. cbn [negb]. rewrite Hb, Hw. cbn [negb].
    rewrite E. cbn [mbind option_bind]. rewrite Hd, Ho, Hre.
    unfold client_status. rewrite Hpd, Hre, length_app, put_u32_length, Nat.add_sub.
    rewrite drop_app_length, take_app_length.
    destruct (decide _); [|done]. rewrite <- (app_nil_r (put_u32 _)), get_put_u32 by lia.
    by rewrite s32_small by lia.
  - intros s p pre fin post jws Hl Hc Hp. by apply handle_conn_serves.
Qed.

(** An empty argument is refused: whenever the arguments contain an empty
    string ([sand exec SOCK -- echo ''], which the client encodes and sends like
    any other), the jail drops the connection without running anything, and a
    client that then sees the end of the reply reports a protocol error with
    status 2. *)
Theorem exec_empty_arg_rejected (jalloc : Z -> bool) args s rest pipe_ok p ts last ws :
  Z.of_nat (length args) < 2 ^ 32 ->
  Forall (fun a => Z.of_nat (length a) < 2 ^ 32) args ->
  [] ∈ args -> Forall nonempty s -> concat s = enc_request args ++ rest ->
  handle_conn jalloc pipe_ok p s ts last ws = Some conn_dropped /\
  (c ← client_loop [CReady (Some []) None] client_init; Some (client_status c)) = Some 2.
Proof.
  intros Hn Ha Hin Hl Hc. split; [|done]. unfold handle_conn.
  destruct (read_request jalloc s) as [[args' s']|] eqn:E; [exfalso|done].
  apply read_request_inv in E as (Ho & Hc' & _); [|done].
  apply request_ok_spec in Ho as [Hn' Ha']. unfold MAXARGS in Hn'.
  rewrite Hc in Hc'.
  apply enc_request_inj in Hc' as <-; [|lia|lia|done|by apply enc_args_small].
  rewrite forallb_forall in Ha'. apply list_elem_of_In in Hin.
  apply Ha', arg_ok_spec in Hin. simpl in Hin. lia.
Qed.

(** A failed [fork] is reported as success: with [p = -1] the first
    [waitpid(-1, ...)] that finds no child also returns -1, the loop ends with
    the initial status 0, and the client gets exit code 0 for a command that
    was never started. *)
Theorem exec_fork_failure_status_zero (jalloc : Z -> bool) s args s' q ts :
  read_request jalloc s = Some (args, s') ->
  handle_conn jalloc true (-1) s (Turn (-1) None q :: ts) None [4] =
  Some (ConnResult None [] (Some (put_u32 0)) 1).
Proof. intros E. unfold handle_conn. rewrite E. reflexivity. Qed.

(** *** Witnesses *)

Definition wit_args := [B "sh"; B "-c"; B "ls -l"].
Definition wit_ok (n : Z) := true.
(* the request and an input of five bytes cut into single bytes, of which three are read *)
Definition wit_jts := [Turn 0 None (PollReady [1]); Turn 0 None PollIdle; Turn 0 None PollEintr;
            Turn 0 None (PollReady [1]); Turn 0 None (PollReady [1; 1])].
Definition wit_stream := (fun c => [c]) <$> (enc_request wit_args ++ B "input").
Definition wit_cts := [CReady (Some (B "hel")) (Some (B "in", [2])); CEintr;
            CReady (Some (B "lo" ++ [chr 7; NUL])) (Some (B "put", [3]));
            CReady (Some [NUL; NUL]) None].

Lemma request_roundtrip_witness :
  exists r, build_request wit_ok wit_args = Some r /\
  Z.of_nat (length (rq_data r)) <= rq_cap r /\
  exists s', read_request wit_ok wit_stream = Some (wit_args, s') /\ concat s' = B "input".
Proof.
  destruct (build_request wit_ok wit_args) as [r|] eqn:E; [|discriminate E].
  exists r. split; [done|].
  apply (request_roundtrip wit_ok wit_ok wit_args r (B "input") wit_stream); try done.
  - repeat constructor; done.
  - vm_compute in E. injection E as <-. by vm_compute.
Defined.

Lemma read_request_sound_witness :
  exists s', read_request wit_ok wit_stream = Some (wit_args, s') /\
  concat wit_stream = enc_request wit_args ++ concat s'.
Proof.
  destruct (read_request wit_ok wit_stream) as [[a s']|] eqn:E; [|vm_compute in E; discriminate E].
  destruct (read_request_sound wit_ok wit_stream a s') as (_ & _ & H).
  - repeat constructor; done.
  - exact E.
  - vm_compute in E. injection E as <- <-. exists ((fun c => [c]) <$> B "input").
    split; [done|exact H].
Defined.

Lemma handle_conn_safe_witness :
  exists res, handle_conn wit_ok true 5 wit_stream
    (wit_jts ++ [Turn 5 (Some 9) PollIdle]) None [2; 2] = Some res /\
  (res = conn_dropped \/ (cr_closes res = 1%nat /\
     (exists argv rest, read_request wit_ok wit_stream = Some (argv, rest) /\ cr_stdin res `prefix_of` concat rest) /\
     exists c tr, cr_trailer res = Some tr /\ tr `prefix_of` put_u32 c /\ 0 <= c < 256)).
Proof.
  destruct (handle_conn wit_ok true 5 wit_stream (wit_jts ++ [Turn 5 (Some 9) PollIdle]) None [2; 2])
    as [res|] eqn:E; [|vm_compute in E; discriminate E].
  exists res. split; [done|]. exact (handle_conn_safe _ _ _ _ _ _ _ _ E).
Defined.

Lemma client_loop_exact_witness :
  exists c, client_loop (wit_cts ++ [CReady (Some []) None]) client_init = Some c /\
            cl_out c = B "hello" /\ client_status c = 7.
Proof.
  destruct (client_loop_exact wit_cts None [] eq_refl) as (c & H1 & H2 & H3 & _).
  exists c. split; [exact H1|]. split; [exact H2|exact H3].
Defined.

(* six turns that find input, for the five bytes and the end, and others between *)
Definition wit_all := [Turn 0 None PollIdle] ++ replicate 3 (Turn 0 None (PollReady [65536])) ++
  [Turn 0 None PollEintr] ++ replicate 3 (Turn 0 None (PollReady [65536])).

Lemma wit_all_takes : Forall takes wit_all.
Proof.
  assert (takes (Turn 0 None (PollReady [65536]))) as H.
  { cbn. intros c Hc. unfold PUMPSZ in Hc. destruct c as [|b c]; [done|]. unfold write_full. cbn [Z.leb Z.compare].
    by rewrite drop_ge by done. }
  repeat (constructor; [done|]). constructor.
Qed.

Lemma exec_session_exact_witness :
  client_exec wit_ok (B "/run/s" :: wit_args) true [100] (wit_cts ++ [CReady (Some []) None]) =
    Some (ClientResult 7 (enc_request wit_args) (B "input") (B "hello")) /\
  handle_conn wit_ok true 5 wit_stream (wit_all ++ [Turn 5 (Some (7 * 256)) PollIdle]) None [4] =
    Some (ConnResult (Some wit_args) (B "input") (Some (put_u32 7)) 1).
Proof.
  destruct (build_request wit_ok wit_args) as [r|] eqn:E; [|discriminate E].
  destruct (exec_session_exact wit_ok wit_ok (B "/run/s") wit_args [100] (enc_request wit_args) r
              wit_cts (B "hello") (7 * 256)) as (sent & H1 & _ & H2 & H3).
  - reflexivity.
  - repeat constructor; by apply (bool_decide_unpack _).
  - done.
  - exact E.
  - vm_compute in E. injection E as <-. reflexivity.
  - done.
  - by vm_compute.
  - by vm_compute.
  - rewrite H2 in H1, H3 by (by repeat constructor). split; [exact H1|].
    destruct (H3 wit_stream 5 wit_all (Turn 5 (Some (7 * 256)) PollIdle) [] [4]) as (input & H4 & H5 & H6).
    + repeat constructor; done.
    + by vm_compute.
    + lia.
    + by repeat constructor.
    + done.
    + done.
    + by vm_compute.
    + destruct (H6 wit_all_takes) as [Hr| ->]; [|exact H4]. apply prefix_length in H5. cbn in Hr, H5. lia.
Defined.

Lemma exec_empty_arg_rejected_witness :
  handle_conn wit_ok true 5 ((fun c => [c]) <$> enc_request [B "echo"; []]) [] None [] =
  Some conn_dropped.
Proof.
  apply (exec_empty_arg_rejected wit_ok [B "echo"; []] _ [] true 5 [] None []).
  - done.
  - repeat constructor; done.
  - apply list_elem_of_In. simpl. auto.
  - repeat constructor; done.
  - by vm_compute.
Defined.

Lemma exec_fork_failure_status_zero_witness :
  handle_conn wit_ok true (-1) wit_stream [Turn (-1) None PollIdle] None [4] =
  Some (ConnResult None [] (Some (put_u32 0)) 1).
Proof.
  apply (exec_fork_failure_status_zero wit_ok wit_stream wit_args ((fun c => [c]) <$> B "input")
           PollIdle []).
  by vm_compute.
Defined.
