(* ===== verification/Inet.v ===== *)
(** * IPv4 addresses as text

    [inet_pton(AF_INET, ...)] and [inet_ntop(AF_INET, ...)] as the C library
    defines them (strict dotted quad: four decimal bytes, no leading zero), and
    [ns_addr] of [agentlsm.c], which reads a resolver's ["addr"] or
    ["addr:port"].  An address is a 32-bit [Z], first byte most significant. *)

From S2P Require Import Prelude CString.
Local Open Scope Z_scope.

Definition DOT : ascii := "."%char.

(** [inet_pton]: [seen] says whether the current byte has a digit, [cur] is its
    value, [acc] the bytes before it and [n] how many bytes have been started. *)
Fixpoint pton_loop (s : bytes) (seen : bool) (cur acc n : Z) : option Z :=
  match s with
  | [] => if (n =? 4) && seen then Some (acc * 256 + cur) else None
  | c :: s' =>
      if isdigit c then
        let v := cur * 10 + (code c - 48) in
        if (seen && (cur =? 0)) || (255 <? v) then None
        else if seen then pton_loop s' true v acc n
        else if n =? 4 then None
        else pton_loop s' true v acc (n + 1)
      else if bool_decide (c = DOT) && seen then
        if n =? 4 then None else pton_loop s' false 0 (acc * 256 + cur) n
      else None
  end.
Definition inet_pton (s : bytes) : option Z := pton_loop s false 0 0 0.

Definition byte_of (a : Z) (i : Z) : Z := Z.shiftr a (8 * (3 - i)) mod 256.
Definition inet_ntop (a : Z) : bytes :=
  print_u (byte_of a 0) ++ DOT :: print_u (byte_of a 1) ++ DOT ::
  print_u (byte_of a 2) ++ DOT :: print_u (byte_of a 3).

(** ** A resolver's address *)

Definition digits_only (s : bytes) : bool := forallb isdigit s.

(** [ns_addr]: address and port ([sin_port], host order). *)
Definition ns_addr (spec : bytes) : option (Z * Z) :=
  let a := snprintf_s 64 spec in
  let '(host, port) :=
    match strrchr COLON a with
    | Some i =>
        let p := drop (S i) a in
        match p with
        | [] => (a, 53)
        | _ => if digits_only p then (take i a, atoi p) else (a, 53)
        end
    | None => (a, 53)
    end in
  match inet_pton host with Some ip => Some (ip, u16 port) | None => None end.

(** ** Printing and parsing are inverse *)

#[local] Arguments print_u : simpl never.

Lemma pton_digits ds s cur acc n :
  forallb isdigit ds = true -> 0 <= cur ->
  (cur <> 0 \/ ds = []) -> digits_val cur ds <= 255 ->
  pton_loop (ds ++ s) true cur acc n = pton_loop s true (digits_val cur ds) acc n.
Proof.
  revert cur. induction ds as [|c ds IH]; intros cur Hd Hc Hz Hv; [done|].
  simpl in Hd. apply andb_true_iff in Hd as [Hdc Hd]. destruct Hz as [Hz|]; [|done].
  cbn [app pton_loop]. rewrite Hdc.
  assert (0 <= code c - 48) by (unfold isdigit in Hdc; zbool; lia).
  assert (Hge : forall l x y, forallb isdigit l = true -> 0 <= x <= y ->
            x <= digits_val y l).
  { clear. induction l as [|c l IH]; intros x y Hl Hxy; [cbn; lia|].
    simpl in Hl. apply andb_true_iff in Hl as [Hc Hl]. unfold isdigit in Hc. zbool.
    unfold digits_val. cbn [fold_left]. apply (IH x); [done|lia]. }
  pose proof (Hge ds (cur * 10 + (code c - 48)) (cur * 10 + (code c - 48)) Hd ltac:(lia)).
  unfold digits_val in Hv. cbn [fold_left] in Hv. fold (digits_val) in Hv.
  change (fold_left _ ds ?a) with (digits_val a ds) in Hv.
  destruct (Z.eqb_spec cur 0); [lia|]. destruct (Z.ltb_spec 255 (cur * 10 + (code c - 48))); [lia|].
  simpl. rewrite IH; [done|done|lia|left; lia|done].
Qed.

(** The digits of a positive number do not start with a zero. *)
Lemma print_pos_head fuel z :
  0 < z -> (Z.to_nat (Z.log2 z) < fuel)%nat ->
  exists d ds, print_pos fuel z = digit d :: ds /\ 0 < d < 10.
Proof.
  revert z. induction fuel as [|fuel IH]; intros z Hz Hf; [lia|].
  simpl. destruct (Z.ltb_spec z 10); [exists z, []; auto with lia|].
  pose proof (log2_div10 z ltac:(lia)). pose proof (Z.log2_nonneg (z / 10)).
  destruct (IH (z / 10)) as (d & ds & -> & Hd); [apply Z.div_str_pos; lia|lia|].
  simpl. eauto.
Qed.

Lemma pton_byte v s acc n :
  0 <= v < 256 -> n <> 4 ->
  pton_loop (print_u v ++ s) false 0 acc n = pton_loop s true v acc (n + 1).
Proof.
  intros Hv Hn. destruct (print_u_spec v ltac:(lia)) as (Hd & Hne & Hval).
  destruct (decide (v = 0)) as [->|Hv0].
  - change (print_u 0) with [digit 0]. cbn. destruct (Z.eqb_spec n 4); [lia|done].
  - destruct (print_pos_head (S (Z.to_nat (Z.log2 v))) v) as (d & ds & E & Hdr); [lia|lia|].
    fold (print_u v) in E. rewrite E in Hd, Hval |- *. simpl in Hd.
    apply andb_true_iff in Hd as [Hd1 Hd2]. cbn [app pton_loop]. rewrite Hd1.
    rewrite code_digit by lia. cbn [andb orb].
    destruct (Z.ltb_spec 255 (0 * 10 + (48 + d - 48))); [lia|].
    destruct (Z.eqb_spec n 4); [lia|].
    unfold digits_val in Hval. cbn [fold_left] in Hval. rewrite code_digit in Hval by lia.
    rewrite pton_digits; [|done|lia|left; lia|unfold digits_val; lia].
    f_equal. exact Hval.
Qed.

Lemma pton_dot s v acc n :
  n <> 4 -> pton_loop (DOT :: s) true v acc n = pton_loop s false 0 (acc * 256 + v) n.
Proof. intros Hn. cbn. destruct (Z.eqb_spec n 4); [lia|done]. Qed.

Lemma byte_of_range a i : 0 <= byte_of a i < 256.
Proof. apply Z.mod_pos_bound. lia. Qed.

(** Parsing what was printed gives the address back. *)
Lemma inet_pton_ntop a : 0 <= a < 2 ^ 32 -> inet_pton (inet_ntop a) = Some a.
Proof.
  intros Ha. unfold inet_pton, inet_ntop.
  rewrite pton_byte, pton_dot by (auto using byte_of_range; lia).
  rewrite pton_byte, pton_dot by (auto using byte_of_range; lia).
  rewrite pton_byte, pton_dot by (auto using byte_of_range; lia).
  rewrite <- (app_nil_r (print_u (byte_of a 3))).
  rewrite pton_byte by (auto using byte_of_range; lia).
  cbn [pton_loop]. simpl (0 + 1 + 1 + 1 + 1 =? 4). cbn [andb]. f_equal.
  unfold byte_of. rewrite !Z.shiftr_div_pow2 by lia. simpl (8 * _).
  Z.div_mod_to_equations. lia.
Qed.
