(* ===== verification/Netfilter.v ===== *)
(** * The shell commands of the daemon and what they do to the kernel

    [agentlsm.c] changes the network only through [sh(fmt, ...)].  [shcmd] has a
    constructor per call, [render] is the text of its format string, and [sh]
    runs the first 511 bytes of it through the [system] of the host, which is a
    parameter.  [NetKernel] states what the code relies on about [iptables] and
    [ip]: a view of the kernel (FORWARD chain and veth links) and how each
    command moves it.  [sim_kernel] is a concrete kernel with these laws. *)

From S2P Require Import Prelude CString Inet.
Local Open Scope Z_scope.

(** ** Commands *)

Inductive shcmd :=
  | LinkAdd (idx : Z) (quiet : bool)
  | LinkDel (idx : Z)
  | ScrubIdx (idx : Z)                      (* delete every rule naming vethh<idx> *)
  | LinkNetns (idx pid : Z)
  | AddrAdd (b idx : Z)
  | LinkUp (idx : Z)
  | MasqEnsure | SrcEnsure | DstEnsure | MetaEnsure
  | MasqDel | SrcDel | DstDel | MetaDel
  | BaseDrop (add : bool) (idx : Z)
  | BaseEst (add : bool) (idx : Z)
  | BaseDns (add : bool) (idx : Z)
  | AcceptCmd (add : bool) (idx : Z) (ip port : bytes)
  | StaleLinks                              (* delete every vethh<n> link *)
  | StaleRules.                             (* delete every rule naming a vethh<n> *)

Definition NET16 : bytes := B "10.200.0.0/16".
Definition QUIET : bytes := B " 2>/dev/null".

(** ["-I FORWARD 1"] or ["-D FORWARD"]. *)
Definition op_text (add : bool) : bytes :=
  if add then B "-I FORWARD 1" else B "-D FORWARD".

(** [iptables -C spec 2>/dev/null || iptables <how> spec]. *)
Definition ensure_text (table how spec : bytes) : bytes :=
  B "iptables " ++ table ++ B "-C " ++ spec ++ QUIET ++
  B " || iptables " ++ table ++ how ++ spec.

(** The specifications of the global rules. *)
Definition masq_spec : bytes := B "POSTROUTING -s " ++ NET16 ++ B " -j MASQUERADE".
Definition src_spec : bytes := B "FORWARD -s " ++ NET16 ++ B " -j ACCEPT".
Definition dst_spec : bytes := B "FORWARD -d " ++ NET16 ++ B " -j ACCEPT".
Definition meta_spec : bytes :=
  B "FORWARD -s " ++ NET16 ++ B " -d 169.254.0.0/16 -j DROP".

Definition DQ : ascii := "034"%char.

Definition render (c : shcmd) : bytes :=
  match c with
  | LinkAdd i q =>
      B "ip link add vethh" ++ print_d i ++ B " type veth peer name vethc" ++
      print_d i ++ (if q then QUIET else [])
  | LinkDel i => B "ip link del vethh" ++ print_d i ++ QUIET
  | ScrubIdx i =>
      B "iptables-save 2>/dev/null | grep -E -- '-[io] vethh" ++ print_d i ++
      B "( |$)' | sed 's/^-A/-D/' | while read -r r; do iptables $r 2>/dev/null; done"
  | LinkNetns i pid => B "ip link set vethc" ++ print_d i ++ B " netns " ++ print_d pid
  | AddrAdd b i =>
      B "ip addr add 10.200." ++ print_u (Z.shiftr (b + 1) 8) ++ B "." ++
      print_u (Z.land (b + 1) 255) ++ B "/30 dev vethh" ++ print_d i
  | LinkUp i => B "ip link set vethh" ++ print_d i ++ B " up"
  | MasqEnsure => ensure_text (B "-t nat ") (B "-A ") masq_spec
  | SrcEnsure => ensure_text [] (B "-I ") src_spec
  | DstEnsure => ensure_text [] (B "-I ") dst_spec
  | MetaEnsure => ensure_text [] (B "-I ") meta_spec
  | MasqDel => B "iptables -t nat -D " ++ masq_spec ++ QUIET
  | SrcDel => B "iptables -D " ++ src_spec ++ QUIET
  | DstDel => B "iptables -D " ++ dst_spec ++ QUIET
  | MetaDel => B "iptables -D " ++ meta_spec ++ QUIET
  | BaseDrop add i =>
      B "iptables " ++ op_text add ++ B " -i vethh" ++ print_d i ++ B " -j DROP" ++ QUIET
  | BaseEst add i =>
      B "iptables " ++ op_text add ++ B " -i vethh" ++ print_d i ++
      B " -m conntrack --ctstate ESTABLISHED,RELATED -j ACCEPT" ++ QUIET
  | BaseDns add i =>
      B "iptables " ++ op_text add ++ B " -i vethh" ++ print_d i ++
      B " -p udp --dport 53 -j ACCEPT" ++ QUIET
  | AcceptCmd add i ip port =>
      B "iptables " ++ op_text add ++ B " -i vethh" ++ print_d i ++ B " -p tcp -d " ++
      ip ++ B " --dport " ++ port ++ B " -j ACCEPT" ++ QUIET
  | StaleLinks =>
      B "ip -o link show 2>/dev/null | sed -n 's/^[0-9]*: \(vethh[0-9]*\)@.*/\1/p'" ++
      B " | while read -r v; do   ip link del " ++ DQ :: B "$v" ++ DQ ::
      B " 2>/dev/null   && echo " ++ DQ ::
      B "agentlsm: removed stale $v from a previous run" ++ DQ :: B "; done >&2"
  | StaleRules =>
      B "iptables-save 2>/dev/null | grep -E -- '-[io] vethh[0-9]+( |$)'" ++
      B " | sed 's/^-A/-D/' | while read -r r; do iptables $r 2>/dev/null; done"
  end.

(** [sh]: format into [cmd[512]] and run it. *)
Definition sh {K} (system : bytes -> K -> Z * K) (c : shcmd) (k : K) : Z * K :=
  system (snprintf_s 512 (render c)) k.

(** ** The FORWARD chain *)

Inductive frule :=
  | RDrop (idx : Z)                          (* -i vethh<idx> -j DROP *)
  | REst (idx : Z)                           (* established or related: ACCEPT *)
  | RDns (idx : Z)                           (* udp port 53: ACCEPT *)
  | RAcc (idx : Z) (ip port : bytes)         (* tcp to ip:port: ACCEPT *)
  | RSrc | RDst | RMeta                      (* the global 10.200.0.0/16 rules *)
  | ROther (n : Z).                          (* a rule that is not the daemon's *)

#[export] Instance frule_eq_dec : EqDecision frule.
Proof. solve_decision. Defined.

(** The veth a rule names. *)
Definition rule_if (r : frule) : option Z :=
  match r with
  | RDrop i | REst i | RDns i | RAcc i _ _ => Some i
  | _ => None
  end.
(** The rules naming one veth ([None]: naming none), in chain order. *)
Definition rules_of (o : option Z) (l : list frule) : list frule :=
  filter (fun r => rule_if r = o) l.

(** A packet that enters through [vethh<pk_in>] (a veth of a cell). *)
Record packet := Packet {
  pk_in : Z; pk_udp : bool; pk_dst : Z; pk_dport : Z; pk_est : bool
}.
Inductive verdict := ACCEPT | DROP | POLICY.
#[export] Instance verdict_eq_dec : EqDecision verdict.
Proof. solve_decision. Defined.

Section Verdict.
(** How iptables reads a [--dport] argument, and how the other rules of the
    host match. *)
Context (dport_match : bytes -> Z -> bool) (other : Z -> packet -> option verdict).

Definition in_cell_net (a : Z) : bool := Z.shiftr a 16 =? 10 * 256 + 200.
Definition in_link_local (a : Z) : bool := Z.shiftr a 16 =? 169 * 256 + 254.

(** What one rule decides about a packet of a cell (whose source address is in
    10.200.0.0/16). *)
Definition rule_verdict (r : frule) (p : packet) : option verdict :=
  match r with
  | RDrop i => if i =? pk_in p then Some DROP else None
  | REst i => if (i =? pk_in p) && pk_est p then Some ACCEPT else None
  | RDns i => if (i =? pk_in p) && pk_udp p && (pk_dport p =? 53) then Some ACCEPT else None
  | RAcc i ip port =>
      if (i =? pk_in p) && negb (pk_udp p) && bool_decide (inet_pton ip = Some (pk_dst p)) &&
         dport_match port (pk_dport p)
      then Some ACCEPT else None
  | RSrc => Some ACCEPT
  | RDst => if in_cell_net (pk_dst p) then Some ACCEPT else None
  | RMeta => if in_link_local (pk_dst p) then Some DROP else None
  | ROther n => other n p
  end.

(** The first rule that matches decides. *)
Fixpoint chain_verdict (l : list frule) (p : packet) : verdict :=
  match l with
  | [] => POLICY
  | r :: l' => match rule_verdict r p with Some v => v | None => chain_verdict l' p end
  end.
End Verdict.

(** ** What the kernel does *)

Record kview := KView { kv_fwd : list frule; kv_links : list Z }.

(** Delete the first occurrence. *)
Fixpoint remove_first (r : frule) (l : list frule) : list frule :=
  match l with
  | [] => []
  | x :: l' => if decide (x = r) then l' else x :: remove_first r l'
  end.

Inductive keffect :=
  | EIns (r : frule) | EDel (r : frule) | EEnsure (r : frule)
  | EScrub (idx : Z) | EScrubAll
  | ELinkAdd (idx : Z) | ELinkDel (idx : Z) | ELinkDelAll
  | ENone.

Definition ins_del (add : bool) (r : frule) : keffect := if add then EIns r else EDel r.

Definition effect (c : shcmd) : keffect :=
  match c with
  | LinkAdd i _ => ELinkAdd i
  | LinkDel i => ELinkDel i
  | ScrubIdx i => EScrub i
  | SrcEnsure => EEnsure RSrc | DstEnsure => EEnsure RDst | MetaEnsure => EEnsure RMeta
  | SrcDel => EDel RSrc | DstDel => EDel RDst | MetaDel => EDel RMeta
  | BaseDrop add i => ins_del add (RDrop i)
  | BaseEst add i => ins_del add (REst i)
  | BaseDns add i => ins_del add (RDns i)
  | AcceptCmd add i ip port => ins_del add (RAcc i ip port)
  | StaleLinks => ELinkDelAll
  | StaleRules => EScrubAll
  | LinkNetns _ _ | AddrAdd _ _ | LinkUp _ | MasqEnsure | MasqDel => ENone
  end.

(** The result and the view after a command with a given effect: an insertion or
    a link creation may be refused (non-zero, nothing changes); a deletion
    fails exactly when the rule is not there. *)
Definition moves (e : keffect) (v : kview) (rc : Z) (v' : kview) : Prop :=
  match e with
  | EIns r => (rc = 0 /\ v' = KView (r :: kv_fwd v) (kv_links v)) \/ (rc <> 0 /\ v' = v)
  | EDel r => (rc = 0 <-> (r ∈ kv_fwd v)) /\
              v' = KView (remove_first r (kv_fwd v)) (kv_links v)
  | EEnsure r =>
      v' = (if decide (r ∈ kv_fwd v) then v else KView (r :: kv_fwd v) (kv_links v)) \/
      (rc <> 0 /\ v' = v)
  | EScrub i => v' = KView (filter (fun r => rule_if r <> Some i) (kv_fwd v)) (kv_links v)
  | EScrubAll => v' = KView (filter (fun r => rule_if r = None) (kv_fwd v)) (kv_links v)
  | ELinkAdd i =>
      (rc = 0 /\ (i ∉ kv_links v) /\ v' = KView (kv_fwd v) (i :: kv_links v)) \/
      (rc <> 0 /\ v' = v)
  | ELinkDel i => v' = KView (kv_fwd v) (filter (fun j => j <> i) (kv_links v))
  | ELinkDelAll => v' = KView (kv_fwd v) []
  | ENone => v' = v
  end.

(** A word the shell passes on unchanged: letters, digits, [.], [:], [-]. *)
Definition plain_char (c : ascii) : bool :=
  isdigit c || ((97 <=? code c) && (code c <=? 122)) || ((65 <=? code c) && (code c <=? 90)) ||
  bool_decide (c = DOT) || bool_decide (c = COLON) || bool_decide (c = "-"%char).
Definition plain_word (s : bytes) : bool :=
  negb (bool_decide (s = [])) && forallb plain_char s.

(** The commands whose text means what the daemon intends. *)
Definition cmd_idx_ok (i : Z) : bool := (0 <=? i) && (i <? 16384).
Definition cmd_safe (c : shcmd) : bool :=
  match c with
  | AcceptCmd _ i ip port =>
      cmd_idx_ok i && plain_word ip && (length ip <=? 63)%nat &&
      plain_word port && (length port <=? 7)%nat
  | LinkAdd i _ | LinkDel i | ScrubIdx i | LinkUp i
  | BaseDrop _ i | BaseEst _ i | BaseDns _ i => cmd_idx_ok i
  | LinkNetns i pid => cmd_idx_ok i && (s32 pid =? pid)
  | AddrAdd b i => cmd_idx_ok i && (b =? 4 * i)
  | _ => true
  end.

Class NetKernel (K : Type) (system : bytes -> K -> Z * K) := {
  view : K -> kview;
  sh_moves : forall c k, cmd_safe c = true ->
    moves (effect c) (view k) (sh system c k).1 (view (sh system c k).2)
}.
Arguments view {K system _}.
