(* ===== verification/NetDaemon.v ===== *)
(** * Network provisioning in the daemon

    [agentlsm.c], from [resolve_egress] to [net_cleanup_all], with
    [egress_no_resolv] of [netup_reply.h]: the /30 allocator, the per-cell slots,
    resolving and installing the egress allowlist, NAT and [ip_forward], and the
    two operations [net_up] and [net_down] the control protocol calls.  The
    kernel is reached through [sh] ([Netfilter]); DNS answers and the time are
    arguments of the operations that ask for them. *)

From S2P Require Import Prelude CString Inet Netfilter.
Local Open Scope Z_scope.

Definition MAX_EGRESS : nat := 16.
Definition MAX_EG_IPS : nat := 128.
Definition MAX_NS : nat := 4.
Definition EG_TTL_CAP : Z := 60.

(** ** Data *)

Record egpair := EgPair { eg_ip : bytes; eg_port : bytes }.
#[export] Instance egpair_eq_dec : EqDecision egpair.
Proof. solve_decision. Defined.

Record eghost := EgHost { eh_host : bytes; eh_port : bytes }.

(** One entry of [g_nets]; [eg], [hosts] and [ns] are the first [n_eg],
    [n_hosts] and [n_ns] entries of the arrays. *)
Record netslot := NetSlot {
  ns_pid : Z; ns_idx : Z;
  ns_eg : list egpair; ns_hosts : list eghost; ns_ns : list bytes;
  ns_next : Z
}.

(** The daemon's globals, and the two files it keeps [ip_forward] in. *)
Record netd := NetD {
  g_netmap : list Z;                    (* 256 words of 64 bits *)
  g_nets : list netslot;                (* 64 slots *)
  g_nat_on : bool;
  g_fwd_save : Z
}.
Record fwdfiles := FwdFiles {
  ff_proc : option bytes;               (* /proc/sys/net/ipv4/ip_forward *)
  ff_saved : option bytes;              (* IPFWD_SAVE *)
  ff_proc_w : bool; ff_saved_w : bool   (* can they be opened for writing? *)
}.

Definition slot_empty : netslot := NetSlot 0 0 [] [] [] 0.
Definition netd_init : netd := NetD (replicate 256 0) (replicate 64 slot_empty) false (-1).

(** ** The /30 bitmap *)

Definition netmap_test (m : list Z) (i : Z) : bool :=
  negb (Z.land (default 0 (m !! Z.to_nat (Z.shiftr i 6))) (Z.shiftl 1 (Z.land i 63)) =? 0).
Definition netmap_set (m : list Z) (i : Z) : list Z :=
  alter (fun w => Z.lor w (Z.shiftl 1 (Z.land i 63))) (Z.to_nat (Z.shiftr i 6)) m.
Definition netmap_clear (m : list Z) (i : Z) : list Z :=
  alter (fun w => Z.land w (u64 (Z.lnot (Z.shiftl 1 (Z.land i 63)))))
        (Z.to_nat (Z.shiftr i 6)) m.

(** The first clear bit among [n] from [i]. *)
Fixpoint netmap_find (n : nat) (m : list Z) (i : Z) : option Z :=
  match n with
  | O => None
  | S n' => if netmap_test m i then netmap_find n' m (i + 1) else Some i
  end.

(** The first free slot. *)
Fixpoint slot_find (l : list netslot) : option nat :=
  match l with
  | [] => None
  | s :: l' => if ns_pid s =? 0 then Some 0%nat else S <$> slot_find l'
  end.

(** ** Resolving *)

(** Append a pair unless it is there; [None]: the array is full. *)
Definition want_add (ip port : bytes) (want : list egpair) : option (list egpair) :=
  if existsb (fun w => bool_decide (eg_ip w = ip) && bool_decide (eg_port w = port)) want
  then Some want
  else if (MAX_EG_IPS <=? length want)%nat then None
  else Some (want ++ [EgPair (snprintf_s 64 ip) (snprintf_s 8 port)]).

(** The smallest non-zero TTL seen. *)
Definition ttl_merge (ttl_min t : Z) : Z :=
  if negb (t =? 0) && ((ttl_min =? 0) || (s32 t <? ttl_min)) then s32 t else ttl_min.

(** The state of one resolution: the wanted pairs, the TTL, whether any
    nameserver answered. *)
Record reso := Reso { re_want : list egpair; re_ttl : Z; re_got : bool }.

(** The A records of one answer, [(address, ttl)]; [inr]: overflow. *)
Fixpoint take_answers (port : bytes) (rrs : list (Z * Z)) (s : reso) : reso + reso :=
  match rrs with
  | [] => inl s
  | (a, t) :: rrs' =>
      let s := Reso (re_want s) (ttl_merge (re_ttl s) t) true in
      match want_add (inet_ntop a) port (re_want s) with
      | None => inr s
      | Some w => take_answers port rrs' (Reso w (re_ttl s) true)
      end
  end.

Section Resolve.
(** The A records nameserver [(address, port)] returns for a name ([[]] when the
    query or the parse of its answer fails). *)
Context (dns : Z * Z -> bytes -> list (Z * Z)).

Fixpoint query_all (host port : bytes) (ns : list (Z * Z)) (s : reso) : reso + reso :=
  match ns with
  | [] => inl s
  | n :: ns' =>
      match take_answers port (dns n host) s with
      | inl s' => query_all host port ns' s'
      | inr s' => inr s'
      end
  end.

(** Result code, wanted pairs and TTL. *)
Definition resolve_egress (host port : bytes) (ns : list (Z * Z))
    (want : list egpair) (ttl : Z) : Z * list egpair * Z :=
  match inet_pton host with
  | Some a =>
      match want_add (inet_ntop a) port want with
      | Some w => (0, w, ttl)
      | None => (-2, want, ttl)
      end
  | None =>
      match query_all host port ns (Reso want ttl false) with
      | inl s => (if re_got s then 0 else -1, re_want s, re_ttl s)
      | inr s => (-2, re_want s, re_ttl s)
      end
  end.

(** The loop over the hosts: code, pairs, TTL and the host it failed on. *)
Fixpoint want_hosts (hosts : list eghost) (ns : list (Z * Z)) (want : list egpair) (ttl : Z)
    : Z * list egpair * Z * bytes :=
  match hosts with
  | [] => (0, want, ttl, [])
  | h :: hosts' =>
      let '(r, want, ttl) := resolve_egress (eh_host h) (eh_port h) ns want ttl in
      if r =? -2 then (-2, want, ttl, [])
      else if r <? 0 then (-1, want, ttl, snprintf_s 128 (eh_host h))
      else want_hosts hosts' ns want ttl
  end.

Definition egress_want (s : netslot) : Z * list egpair * Z * bytes :=
  want_hosts (ns_hosts s) (omap ns_addr (ns_ns s)) [] 0.
End Resolve.

(** The refresh deadline from the smallest TTL. *)
Definition next_deadline (now ttl : Z) : Z :=
  now + (if (0 <? ttl) && (ttl <? EG_TTL_CAP) then ttl else EG_TTL_CAP).

(** ** Installing *)

Section Install.
Context {K : Type} (system : bytes -> K -> Z * K).

Definition egress_accept (idx : Z) (ip port : bytes) (add : bool) (k : K) : Z * K :=
  sh system (AcceptCmd add idx ip port) k.

Definition run (c : shcmd) (k : K) : K := (sh system c k).2.

Definition egress_base (idx : Z) (add : bool) (k : K) : K :=
  run (BaseDns add idx) (run (BaseEst add idx) (run (BaseDrop add idx) k)).

(** First loop of [egress_apply]: drop the pairs that are no longer wanted; the
    last pair takes the place of a dropped one ([eg[i] = eg[--n_eg]]). *)
Fixpoint apply_prune (fuel i : nat) (idx : Z) (want eg : list egpair) (k : K)
    : list egpair * K :=
  match fuel with
  | O => (eg, k)
  | S fuel' =>
      match eg !! i with
      | None => (eg, k)
      | Some e =>
          if bool_decide (e ∈ want) then apply_prune fuel' (S i) idx want eg k
          else let k := (egress_accept idx (eg_ip e) (eg_port e) false k).2 in
               let n := (length eg - 1)%nat in
               apply_prune fuel' i idx want
                 (take n (<[i := default e (eg !! n)]> eg)) k
      end
  end.

(** Second loop: install what is missing; a rule that fails is not recorded. *)
Fixpoint apply_add (idx : Z) (want eg : list egpair) (failed : Z) (k : K)
    : Z * list egpair * K :=
  match want with
  | [] => (failed, eg, k)
  | w :: want' =>
      if (length eg <? MAX_EG_IPS)%nat then
        if bool_decide (w ∈ eg) then apply_add idx want' eg failed k
        else let '(rc, k) := egress_accept idx (eg_ip w) (eg_port w) true k in
             if rc =? 0 then apply_add idx want' (eg ++ [w]) failed k
             else apply_add idx want' eg (failed + 1) k
      else (failed, eg, k)
  end.

(** Failures, the slot and the kernel afterwards. *)
Definition egress_apply (s : netslot) (want : list egpair) (k : K) : Z * netslot * K :=
  let '(eg, k) := apply_prune (length (ns_eg s)) 0 (ns_idx s) want (ns_eg s) k in
  let '(failed, eg, k) := apply_add (ns_idx s) want eg 0 k in
  (failed, NetSlot (ns_pid s) (ns_idx s) eg (ns_hosts s) (ns_ns s) (ns_next s), k).

Definition set_next (t : Z) (s : netslot) : netslot :=
  NetSlot (ns_pid s) (ns_idx s) (ns_eg s) (ns_hosts s) (ns_ns s) t.

(** One slot of [egress_refresh] at time [now]. *)
Definition refresh_slot (dns : Z * Z -> bytes -> list (Z * Z)) (now : Z)
    (s : netslot) (k : K) : netslot * K :=
  if (ns_pid s =? 0) || (length (ns_hosts s) =? 0)%nat then (s, k)
  else if now <? ns_next s then (s, k)
  else
    let '(r, want, ttl, _) := egress_want dns s in
    if r =? -2 then (set_next (now + 10) s, k)
    else if (r <? 0) || (length want =? 0)%nat then (set_next (now + 10) s, k)
    else let '(_, s, k) := egress_apply s want k in
         (set_next (next_deadline now ttl) s, k).

Fixpoint refresh_slots (dns : Z * Z -> bytes -> list (Z * Z)) (now : Z)
    (l : list netslot) (k : K) : list netslot * K :=
  match l with
  | [] => ([], k)
  | s :: l' =>
      let '(s, k) := refresh_slot dns now s k in
      let '(l', k) := refresh_slots dns now l' k in
      (s :: l', k)
  end.

Definition egress_refresh (dns : Z * Z -> bytes -> list (Z * Z)) (now : Z)
    (d : netd) (k : K) : netd * K :=
  let '(l, k) := refresh_slots dns now (g_nets d) k in
  (NetD (g_netmap d) l (g_nat_on d) (g_fwd_save d), k).

(** ** NAT and [ip_forward] *)

(** [fscanf(f, "%d", &v)] on a file's contents. *)
Definition fscan_d (s : bytes) : option Z := fst <$> scan_d s.

Definition write_proc (v : bytes) (f : fwdfiles) : fwdfiles :=
  if ff_proc_w f then FwdFiles (Some v) (ff_saved f) (ff_proc_w f) (ff_saved_w f) else f.
Definition unlink_saved (f : fwdfiles) : fwdfiles :=
  FwdFiles (ff_proc f) None (ff_proc_w f) (ff_saved_w f).

Definition ipfwd_persist (v : Z) (f : fwdfiles) : fwdfiles :=
  if ff_saved_w f
  then FwdFiles (ff_proc f) (Some (print_d v ++ [NL])) (ff_proc_w f) (ff_saved_w f) else f.

Definition ipfwd_recover (f : fwdfiles) : fwdfiles :=
  match ff_saved f with
  | None => f
  | Some s =>
      unlink_saved
        match fscan_d s with
        | Some v => if 0 <=? v then write_proc (print_d v ++ [NL]) f else f
        | None => f
        end
  end.

(** The whole state an operation of the daemon moves. *)
Record netst := NetSt { st_d : netd; st_f : fwdfiles; st_k : K }.

Definition nat_ensure (s : netst) : netst :=
  let d := st_d s in
  if g_nat_on d then s
  else
    let save := match ff_proc (st_f s) with
                | Some c => default (-1) (fscan_d c)
                | None => g_fwd_save d
                end in
    let f := if 0 <=? save then ipfwd_persist save (st_f s) else st_f s in
    let f := write_proc (B "1" ++ [NL]) f in
    NetSt (NetD (g_netmap d) (g_nets d) true save) f
      (run MetaEnsure (run DstEnsure (run SrcEnsure (run MasqEnsure (st_k s))))).

Definition nat_teardown (s : netst) : netst :=
  let d := st_d s in
  if negb (g_nat_on d) then s
  else
    let f := if 0 <=? g_fwd_save d
             then write_proc (print_d (g_fwd_save d) ++ [NL]) (st_f s) else st_f s in
    NetSt (NetD (g_netmap d) (g_nets d) false (g_fwd_save d)) (unlink_saved f)
      (run MetaDel (run DstDel (run SrcDel (run MasqDel (st_k s))))).

Definition net_recover_startup (s : netst) : netst :=
  NetSt (st_d s) (ipfwd_recover (st_f s))
    (run MetaDel (run DstDel (run SrcDel (run MasqDel
      (run StaleRules (run StaleLinks (st_k s))))))).

(** ** [net_up] *)

Definition egress_no_resolv (needs_dns : bool) (n_ns : nat) : bool :=
  needs_dns && (n_ns =? 0)%nat.

(** The slot as claimed before anything is installed. *)
Definition slot_claim (idx : Z) (s : netslot) : netslot :=
  NetSlot (ns_pid s) idx [] [] [] 0.
(** The slot as it is left when freed: the index stays behind. *)
Definition slot_free (s : netslot) : netslot := NetSlot 0 (ns_idx s) [] [] [] 0.

Definition set_slot (i : nat) (f : netslot -> netslot) (d : netd) : netd :=
  NetD (g_netmap d) (alter f i (g_nets d)) (g_nat_on d) (g_fwd_save d).
Definition set_map (m : list Z) (d : netd) : netd :=
  NetD m (g_nets d) (g_nat_on d) (g_fwd_save d).

(** Delete every recorded accept rule. *)
Fixpoint drop_accepts (idx : Z) (eg : list egpair) (k : K) : K :=
  match eg with
  | [] => k
  | e :: eg' => drop_accepts idx eg' (egress_accept idx (eg_ip e) (eg_port e) false k).2
  end.

(** [fail:] of [net_up]. *)
Definition net_fail (slot : nat) (idx : Z) (s : netst) : netst :=
  let eg := default [] (ns_eg <$> g_nets (st_d s) !! slot) in
  NetSt (set_slot slot slot_free (set_map (netmap_clear (g_netmap (st_d s)) idx) (st_d s)))
    (st_f s)
    (run (LinkDel idx) (egress_base idx false (drop_accepts idx eg (st_k s)))).

(** The link: create it (after scrubbing a stale one), move the cell's end,
    address and raise the host's end. *)
Definition link_up (idx pid : Z) (k : K) : bool * K :=
  let '(rc, k) := sh system (LinkAdd idx true) k in
  let '(rc, k) :=
    if rc =? 0 then (0, k)
    else sh system (LinkAdd idx false) (run (ScrubIdx idx) (run (LinkDel idx) k)) in
  if negb (rc =? 0) then (false, k) else
  let '(rc, k) := sh system (LinkNetns idx pid) k in
  if negb (rc =? 0) then (false, k) else
  let '(rc, k) := sh system (AddrAdd (idx * 4) idx) k in
  if negb (rc =? 0) then (false, k) else
  let '(rc, k) := sh system (LinkUp idx) k in
  if negb (rc =? 0) then (false, k) else (true, k).

(** The request as recorded in the slot. *)
Definition slot_request (pid : Z) (hosts : list (bytes * bytes)) (nss : list bytes)
    (s : netslot) : netslot :=
  NetSlot pid (ns_idx s) (ns_eg s)
    ((fun '(h, p) => EgHost (snprintf_s 128 h) (snprintf_s 8 p)) <$> take MAX_EGRESS hosts)
    (snprintf_s 64 <$> take MAX_NS nss) (ns_next s).

Definition needs_dns (s : netslot) : bool :=
  existsb (fun h => bool_decide (inet_pton (eh_host h) = None)) (ns_hosts s).

(** The address text [10.200.<v >> 8>.<v & 255>]. *)
Definition cell_addr (v : Z) : bytes :=
  B "10.200." ++ print_u (Z.shiftr v 8) ++ B "." ++ print_u (Z.land v 255).

Definition net_up_reply (s : netslot) : bytes :=
  let b := ns_idx s * 4 in
  B "OK vethc" ++ print_d (ns_idx s) ++ SP :: cell_addr (b + 2) ++
  SP :: cell_addr (b + 1) ++ SP :: print_d (Z.of_nat (length (ns_hosts s))) ++
  SP :: print_d (Z.of_nat (length (ns_eg s))) ++ [NL].

Definition REPN : nat := 128.

(** The egress part: [inr] is [goto fail] with the reply; [inl] goes on. *)
Definition net_egress (dns : Z * Z -> bytes -> list (Z * Z)) (now : Z) (slot : nat)
    (s : netst) : netst + (bytes * netst) :=
  let cell := default slot_empty (g_nets (st_d s) !! slot) in
  let k := egress_base (ns_idx cell) true (st_k s) in
  let s := NetSt (st_d s) (st_f s) k in
  let '(r, want, ttl, bad) := egress_want dns cell in
  if r =? -2 then inr (B "ERR egress_too_many_ips" ++ [NL], s)
  else if (r <? 0) || (length want =? 0)%nat
  then inr (B "ERR egress_unresolved " ++ bad ++ [NL], s)
  else
    let '(failed, cell, k) := egress_apply cell want k in
    if 0 <? failed
    then inr (B "ERR egress_install_failed" ++ [NL],
              NetSt (set_slot slot (fun _ => cell) (st_d s)) (st_f s) k)
    else inl (NetSt (set_slot slot (fun _ => set_next (next_deadline now ttl) cell) (st_d s))
                (st_f s) k).

(** From [nat_ensure()] to the reply, for the claimed [slot]: [inr] is [goto
    fail] with the reply, [inl] the reply and [return 0]. *)
Definition net_provision (dns : Z * Z -> bytes -> list (Z * Z)) (now pid : Z)
    (hosts : list (bytes * bytes)) (nss : list bytes) (slot : nat) (s : netst)
    : bytes * netst + bytes * netst :=
  let s := nat_ensure s in
  let s := NetSt (set_slot slot (slot_request pid hosts nss) (st_d s)) (st_f s) (st_k s) in
  let cell := default slot_empty (g_nets (st_d s) !! slot) in
  if egress_no_resolv (needs_dns cell) (length (ns_ns cell))
  then inr (B "ERR egress_no_resolv" ++ [NL], s)
  else
    match (if (0 <? length hosts)%nat then net_egress dns now slot s else inl s) with
    | inr (rep, s) => inr (rep, s)
    | inl s => inl (net_up_reply (default slot_empty (g_nets (st_d s) !! slot)), s)
    end.

(** Result, reply ([[]]: nothing was written to it) and state. *)
Definition net_up (dns : Z * Z -> bytes -> list (Z * Z)) (now pid : Z)
    (hosts : list (bytes * bytes)) (nss : list bytes) (s : netst) : Z * bytes * netst :=
  match slot_find (g_nets (st_d s)) with
  | None => (-1, [], s)
  | Some slot =>
      match netmap_find (Z.to_nat 16384) (g_netmap (st_d s)) 0 with
      | None => (-1, [], s)
      | Some idx =>
          let d := set_slot slot (slot_claim idx)
                     (set_map (netmap_set (g_netmap (st_d s)) idx) (st_d s)) in
          let '(ok, k) := link_up idx pid (st_k s) in
          let s := NetSt d (st_f s) k in
          if negb ok then (-1, [], net_fail slot idx s)
          else match net_provision dns now pid hosts nss slot s with
               | inr (rep, s) => (-1, snprintf_s REPN rep, net_fail slot idx s)
               | inl (rep, s) => (0, snprintf_s REPN rep, s)
               end
      end
  end.

(** ** [net_down] and the exit path *)

(** One slot torn down. *)
Definition slot_down (c : netslot) (k : K) : K :=
  let k := drop_accepts (ns_idx c) (ns_eg c) k in
  let k := if (0 <? length (ns_eg c))%nat then egress_base (ns_idx c) false k else k in
  run (LinkDel (ns_idx c)) k.

(** Tear down every slot whose pid satisfies [P]; [reset] frees a slot
    ([net_cleanup_all] does not reset [next_refresh]). *)
Fixpoint down_slots (P : Z -> bool) (reset : netslot -> netslot) (l : list netslot)
    (m : list Z) (k : K) : list netslot * list Z * K :=
  match l with
  | [] => ([], m, k)
  | c :: l' =>
      let '(c, m, k) :=
        if P (ns_pid c)
        then (reset c, netmap_clear m (ns_idx c), slot_down c k) else (c, m, k) in
      let '(l', m, k) := down_slots P reset l' m k in
      (c :: l', m, k)
  end.

Definition net_down (pid : Z) (s : netst) : netst :=
  let d := st_d s in
  let '(l, m, k) := down_slots (fun p => p =? pid) slot_free (g_nets d) (g_netmap d) (st_k s) in
  NetSt (NetD m l (g_nat_on d) (g_fwd_save d)) (st_f s) k.

Definition slot_free_keep (s : netslot) : netslot :=
  NetSlot 0 (ns_idx s) [] [] [] (ns_next s).

Definition net_cleanup_all (s : netst) : netst :=
  let d := st_d s in
  let '(l, m, k) :=
    down_slots (fun p => negb (p =? 0)) slot_free_keep (g_nets d) (g_netmap d) (st_k s) in
  nat_teardown (NetSt (NetD m l (g_nat_on d) (g_fwd_save d)) (st_f s) k).
End Install.
