(* ===== verification/NetChain.v ===== *)
(** * Lemmas about the allocator, the FORWARD chain and the resolver

    The bitmap as a set of indices; the chain seen cell by cell and the verdict
    a packet of a cell meets; what each loop of the allowlist code leaves in the
    chain; that resolving collects exactly the answers. *)

From S2P Require Import Prelude CString Inet Netfilter NetDaemon.
Local Open Scope Z_scope.

(** ** The bitmap *)

Definition netmap_ok (m : list Z) : Prop :=
  length m = 256%nat /\ Forall (fun w => 0 <= w < 2 ^ 64) m.
Abbreviation idx_ok i := (0 <= i < 16384).

Lemma land_one_testbit w n :
  0 <= n -> negb (Z.land w (Z.shiftl 1 n) =? 0) = Z.testbit w n.
Proof.
  intros Hn. rewrite Z.shiftl_1_l.
  destruct (Z.testbit w n) eqn:E.
  - apply negb_true_iff, Z.eqb_neq. intros H0.
    apply (f_equal (fun z => Z.testbit z n)) in H0.
    rewrite Z.land_spec, E, Z.pow2_bits_true, Z.bits_0 in H0 by done. done.
  - apply negb_false_iff, Z.eqb_eq. apply Z.bits_inj'. intros j Hj.
    rewrite Z.land_spec, Z.bits_0. destruct (decide (j = n)) as [->|].
    + by rewrite E.
    + rewrite Z.pow2_bits_false by lia. apply andb_false_r.
Qed.

Lemma land63_range i : 0 <= Z.land i 63 < 64.
Proof.
  change 63 with (Z.ones 6). rewrite Z.land_ones by lia. apply Z.mod_pos_bound. lia.
Qed.

(** Word and bit of an index. *)
Lemma idx_split i j :
  0 <= i -> 0 <= j ->
  Z.to_nat (Z.shiftr i 6) = Z.to_nat (Z.shiftr j 6) -> Z.land i 63 = Z.land j 63 -> i = j.
Proof.
  intros Hi Hj Hw Hb. rewrite !Z.shiftr_div_pow2 in Hw by lia.
  change 63 with (Z.ones 6) in Hb. rewrite !Z.land_ones in Hb by lia.
  pose proof (Z.div_mod i (2 ^ 6) ltac:(lia)). pose proof (Z.div_mod j (2 ^ 6) ltac:(lia)).
  pose proof (Z.div_pos i (2 ^ 6)). pose proof (Z.div_pos j (2 ^ 6)).
  assert (i / 2 ^ 6 = j / 2 ^ 6) by lia. lia.
Qed.

Lemma netmap_test_bit m i :
  netmap_test m i = Z.testbit (default 0 (m !! Z.to_nat (Z.shiftr i 6))) (Z.land i 63).
Proof. unfold netmap_test. apply land_one_testbit. pose proof (land63_range i). lia. Qed.

Lemma idx_word_lt m i :
  netmap_ok m -> idx_ok i -> exists w, m !! Z.to_nat (Z.shiftr i 6) = Some w /\ 0 <= w < 2 ^ 64.
Proof.
  intros [Hl Hf] Hi. rewrite Z.shiftr_div_pow2 by lia.
  destruct (lookup_lt_is_Some_2 m (Z.to_nat (i / 2 ^ 6))) as [w Hw].
  { rewrite Hl. assert (i / 2 ^ 6 < 256) by (apply Z.div_lt_upper_bound; lia).
    assert (0 <= i / 2 ^ 6) by (apply Z.div_pos; lia). lia. }
  exists w. split; [done|]. by apply (Forall_lookup_1 _ _ _ _ Hf Hw).
Qed.

Lemma netmap_test_set m i j :
  netmap_ok m -> idx_ok i -> idx_ok j ->
  netmap_test (netmap_set m i) j = (i =? j) || netmap_test m j.
Proof.
  intros Hm Hi Hj. rewrite !netmap_test_bit. unfold netmap_set.
  destruct (idx_word_lt m i Hm Hi) as (w & Hw & _).
  pose proof (land63_range i). pose proof (land63_range j).
  destruct (decide (Z.to_nat (Z.shiftr i 6) = Z.to_nat (Z.shiftr j 6))) as [E|E].
  - rewrite <- E, list_lookup_alter_eq, Hw. cbn.
    rewrite Z.lor_spec, Z.shiftl_1_l, Z.pow2_bits_eqb by lia.
    rewrite orb_comm. f_equal.
    destruct (Z.eqb_spec i j) as [->|Hne]; [by apply Z.eqb_refl|].
    apply Z.eqb_neq. intros Hb. apply Hne, idx_split; lia.
  - rewrite list_lookup_alter_ne by done.
    destruct (Z.eqb_spec i j) as [->|]; done.
Qed.

Lemma netmap_test_clear m i j :
  netmap_ok m -> idx_ok i -> idx_ok j ->
  netmap_test (netmap_clear m i) j = negb (i =? j) && netmap_test m j.
Proof.
  intros Hm Hi Hj. rewrite !netmap_test_bit. unfold netmap_clear.
  destruct (idx_word_lt m i Hm Hi) as (w & Hw & _).
  pose proof (land63_range i). pose proof (land63_range j).
  destruct (decide (Z.to_nat (Z.shiftr i 6) = Z.to_nat (Z.shiftr j 6))) as [E|E].
  - rewrite <- E, list_lookup_alter_eq, Hw. cbn.
    unfold u64. rewrite Z.land_spec, Z.mod_pow2_bits_low, Z.lnot_spec by lia.
    rewrite Z.shiftl_1_l, Z.pow2_bits_eqb by lia. rewrite andb_comm. do 2 f_equal.
    destruct (Z.eqb_spec i j) as [->|Hne]; [by apply Z.eqb_refl|].
    apply Z.eqb_neq. intros Hb. apply Hne, idx_split; lia.
  - rewrite list_lookup_alter_ne by done.
    destruct (Z.eqb_spec i j) as [->|]; done.
Qed.

Lemma Forall_alter_word (f : Z -> Z) m n :
  (forall w, 0 <= w < 2 ^ 64 -> 0 <= f w < 2 ^ 64) ->
  Forall (fun w => 0 <= w < 2 ^ 64) m -> Forall (fun w => 0 <= w < 2 ^ 64) (alter f n m).
Proof.
  intros Hf Hm. apply Forall_alter; [done|]. intros x _. apply Hf.
Qed.

Lemma bits64_range w : 0 <= w -> (forall n, 64 <= n -> Z.testbit w n = false) -> w < 2 ^ 64.
Proof.
  intros Hw Hb. destruct (decide (w = 0)) as [->|]; [lia|].
  apply Z.log2_lt_pow2; [lia|]. destruct (Z.lt_ge_cases (Z.log2 w) 64); [done|].
  specialize (Hb (Z.log2 w) ltac:(lia)). rewrite Z.bit_log2 in Hb by lia. done.
Qed.

Lemma bits64_above w n : 0 <= w < 2 ^ 64 -> 64 <= n -> Z.testbit w n = false.
Proof.
  intros Hw Hn. rewrite <- (Z.mod_small w (2 ^ 64)) by lia.
  apply Z.mod_pow2_bits_high. lia.
Qed.

Lemma netmap_set_ok m i : netmap_ok m -> netmap_ok (netmap_set m i).
Proof.
  intros [Hl Hf]. split; [rewrite <- Hl; by apply length_alter|].
  apply Forall_alter_word; [|done]. intros w Hw. pose proof (land63_range i).
  assert (0 <= Z.shiftl 1 (Z.land i 63)) by (apply Z.shiftl_nonneg; lia).
  assert (0 <= Z.lor w (Z.shiftl 1 (Z.land i 63))) by (apply Z.lor_nonneg; lia).
  split; [done|]. apply bits64_range; [done|]. intros n Hn.
  rewrite Z.lor_spec, (bits64_above w n) by lia.
  rewrite Z.shiftl_1_l, Z.pow2_bits_false by lia. done.
Qed.

Lemma netmap_clear_ok m i : netmap_ok m -> netmap_ok (netmap_clear m i).
Proof.
  intros [Hl Hf]. split; [rewrite <- Hl; by apply length_alter|].
  apply Forall_alter_word; [|done]. intros w Hw.
  assert (0 <= Z.land w (u64 (Z.lnot (Z.shiftl 1 (Z.land i 63))))) by (apply Z.land_nonneg; lia).
  split; [done|]. apply bits64_range; [done|]. intros n Hn.
  by rewrite Z.land_spec, (bits64_above w n) by lia.
Qed.

Lemma netmap_find_spec n m i0 i :
  netmap_find n m i0 = Some i ->
  i0 <= i < i0 + Z.of_nat n /\ netmap_test m i = false /\
  forall j, i0 <= j < i -> netmap_test m j = true.
Proof.
  revert i0. induction n as [|n IH]; intros i0; simpl; [done|].
  destruct (netmap_test m i0) eqn:E.
  - intros H. destruct (IH _ H) as (H1 & H2 & H3). split_and!; [lia|lia|done|].
    intros j Hj. destruct (decide (j = i0)) as [->|]; [done|]. apply H3. lia.
  - intros [= <-]. split_and!; [lia|lia|done|]. intros j Hj. lia.
Qed.

Lemma netmap_find_None n m i0 j :
  netmap_find n m i0 = None -> i0 <= j < i0 + Z.of_nat n -> netmap_test m j = true.
Proof.
  revert i0. induction n as [|n IH]; intros i0; simpl; [lia|].
  destruct (netmap_test m i0) eqn:E; [|done]. intros H Hj.
  destruct (decide (j = i0)) as [->|]; [done|]. eapply IH; [done|lia].
Qed.

Lemma slot_find_spec l i :
  slot_find l = Some i -> exists s, l !! i = Some s /\ ns_pid s = 0.
Proof.
  revert i. induction l as [|s l IH]; intros i; simpl; [done|].
  destruct (Z.eqb_spec (ns_pid s) 0).
  - intros [= <-]. by exists s.
  - destruct (slot_find l) as [j|]; simpl; [|done]. intros [= <-]. by apply IH.
Qed.

(** ** The chain, cell by cell *)

Lemma rules_of_cons o r l :
  rules_of o (r :: l) = if decide (rule_if r = o) then r :: rules_of o l else rules_of o l.
Proof. unfold rules_of. by rewrite filter_cons. Qed.

Lemma rules_of_remove_first o r l :
  rules_of o (remove_first r l) =
  if decide (rule_if r = o) then remove_first r (rules_of o l) else rules_of o l.
Proof.
  induction l as [|x l IH]; cbn [remove_first]; [by destruct (decide _)|].
  destruct (decide (x = r)) as [->|Hx].
  - rewrite rules_of_cons. destruct (decide (rule_if r = o)); [|done].
    cbn [remove_first]. by rewrite decide_True by done.
  - rewrite !rules_of_cons, IH. destruct (decide (rule_if r = o)), (decide (rule_if x = o)); try done.
    cbn [remove_first]. by rewrite decide_False by done.
Qed.

Lemma remove_first_notin r l : r ∉ l -> remove_first r l = l.
Proof.
  induction l as [|x l IH]; [done|]. intros [Hx Hl]%not_elem_of_cons.
  cbn [remove_first]. rewrite decide_False by congruence. by rewrite IH.
Qed.

Lemma remove_first_app_l r l l' : r ∈ l -> remove_first r (l ++ l') = remove_first r l ++ l'.
Proof.
  induction l as [|x l IH]; [by intros ?%elem_of_nil|]. intros Hin.
  cbn [app remove_first]. destruct (decide (x = r)) as [|Hx]; [done|].
  apply elem_of_cons in Hin as [->|Hin]; [done|]. cbn [app]. by rewrite IH.
Qed.

Lemma remove_first_app_r r l l' : r ∉ l -> remove_first r (l ++ l') = l ++ remove_first r l'.
Proof.
  induction l as [|x l IH]; [done|]. intros [Hx Hl]%not_elem_of_cons.
  cbn [app remove_first]. rewrite decide_False by congruence. by rewrite IH.
Qed.

Lemma remove_first_perm r l : r ∈ l -> l ≡ₚ r :: remove_first r l.
Proof.
  induction l as [|x l IH]; [by intros ?%elem_of_nil|]. intros Hin.
  cbn [remove_first]. destruct (decide (x = r)) as [->|Hx]; [done|].
  apply elem_of_cons in Hin as [->|Hin]; [done|].
  rewrite (IH Hin) at 1. apply Permutation_swap.
Qed.

(** Every rule that names a veth is above every rule that does not. *)
Definition segregated (l : list frule) : Prop :=
  exists vs gs, l = vs ++ gs /\ Forall (fun r => rule_if r <> None) vs /\
                Forall (fun r => rule_if r = None) gs.

Lemma segregated_cons r l : rule_if r <> None -> segregated l -> segregated (r :: l).
Proof. intros Hr (vs & gs & -> & Hv & Hg). exists (r :: vs), gs. by repeat constructor. Qed.

Lemma Forall_remove_first (P : frule -> Prop) r l : Forall P l -> Forall P (remove_first r l).
Proof.
  induction 1 as [|x l Hx Hl IH]; cbn [remove_first]; [done|].
  destruct (decide (x = r)); [done|]. by constructor.
Qed.

Lemma segregated_remove_first r l : segregated l -> segregated (remove_first r l).
Proof.
  intros (vs & gs & -> & Hv & Hg). destruct (decide (r ∈ vs)) as [Hin|Hin].
  - rewrite remove_first_app_l by done. exists (remove_first r vs), gs.
    split_and!; [done|by apply Forall_remove_first|done].
  - rewrite remove_first_app_r by done. exists vs, (remove_first r gs).
    split_and!; [done|done|by apply Forall_remove_first].
Qed.

Lemma segregated_filter (P : frule -> Prop) `{!forall r, Decision (P r)} l :
  segregated l -> segregated (filter P l).
Proof.
  intros (vs & gs & -> & Hv & Hg). exists (filter P vs), (filter P gs).
  rewrite filter_app. split_and!; [done|by apply Forall_filter_sub..].
Qed.

Lemma rules_of_filter_ne i j l :
  i <> j -> rules_of (Some j) (filter (fun r => rule_if r <> Some i) l) = rules_of (Some j) l.
Proof.
  intros Hne. unfold rules_of. induction l as [|r l IH]; [done|]. rewrite !filter_cons.
  destruct (decide (rule_if r <> Some i)) as [H1|H1].
  - rewrite filter_cons. by rewrite IH.
  - rewrite IH. destruct (decide (rule_if r = Some j)); [|done].
    exfalso. apply H1. congruence.
Qed.

(** ** The rules of a cell *)

Definition base_rules (i : Z) : list frule := [RDns i; REst i; RDrop i].
Definition acc_rule (i : Z) (e : egpair) : frule := RAcc i (eg_ip e) (eg_port e).

Lemma acc_rule_inj i e e' : acc_rule i e = acc_rule i e' -> e = e'.
Proof. destruct e, e'. unfold acc_rule. simpl. congruence. Qed.

#[export] Instance acc_rule_Inj i : Inj (=) (=) (acc_rule i).
Proof. intros e e'. apply acc_rule_inj. Qed.

(** The chain has exactly the accept rules of the pairs [eg], above [b]. *)
Definition cell_chain (i : Z) (eg : list egpair) (b l : list frule) : Prop :=
  exists accs, (accs ≡ₚ acc_rule i <$> eg) /\ rules_of (Some i) l = accs ++ b.

Lemma cell_chain_acc_cons i e eg b l :
  cell_chain i eg b l -> cell_chain i (eg ++ [e]) b (acc_rule i e :: l).
Proof.
  intros (accs & Hp & Hr). exists (acc_rule i e :: accs). split.
  - rewrite Hp, fmap_app. cbn. by rewrite Permutation_cons_append.
  - rewrite rules_of_cons, decide_True by done. by rewrite Hr.
Qed.

Lemma cell_chain_acc_del i e eg eg' b l :
  (eg ≡ₚ e :: eg') -> cell_chain i eg b l -> cell_chain i eg' b (remove_first (acc_rule i e) l).
Proof.
  intros He (accs & Hp & Hr). rewrite He in Hp. cbn in Hp.
  assert (acc_rule i e ∈ accs) as Hin by (rewrite Hp; constructor).
  exists (remove_first (acc_rule i e) accs). split.
  - apply (Permutation_cons_inv (a := acc_rule i e)). rewrite <- remove_first_perm by done. done.
  - rewrite rules_of_remove_first, decide_True, Hr by done. by apply remove_first_app_l.
Qed.

Lemma cell_chain_perm i eg eg' b l : (eg ≡ₚ eg') -> cell_chain i eg b l -> cell_chain i eg' b l.
Proof. intros He (accs & Hp & Hr). exists accs. by rewrite <- He. Qed.

(** A chain that decides decides in front of any other. *)
Lemma chain_verdict_app dm other l1 l2 p v :
  chain_verdict dm other l1 p = v -> v <> POLICY -> chain_verdict dm other (l1 ++ l2) p = v.
Proof.
  induction l1 as [|r l1 IH]; cbn [app chain_verdict]; [by intros <-|].
  by destruct (rule_verdict dm other r p).
Qed.

(** What a packet of the cell meets: its own rules, when one of them decides. *)
Lemma chain_verdict_own dm other l i p v :
  segregated l -> pk_in p = i -> chain_verdict dm other (rules_of (Some i) l) p = v ->
  v <> POLICY -> chain_verdict dm other l p = v.
Proof.
  intros (vs & gs & -> & Hv & Hg) Hp Hr Hn. unfold rules_of in Hr. rewrite filter_app in Hr.
  assert (filter (fun r => rule_if r = Some i) gs = []) as Hg0.
  { apply filter_none. eapply Forall_impl; [exact Hg|]. cbn. intros r Hr' E. congruence. }
  rewrite Hg0, app_nil_r in Hr.
  assert (Hskip : forall l2, chain_verdict dm other (vs ++ l2) p =
            chain_verdict dm other (filter (fun r => rule_if r = Some i) vs ++ l2) p).
  { intros l2. clear Hr Hg0 Hg. induction Hv as [|r vs Hr Hv IH]; [done|].
    rewrite filter_cons. cbn [app chain_verdict]. rewrite IH.
    destruct (decide (rule_if r = Some i)) as [|Hne]; [done|].
    assert (rule_verdict dm other r p = None) as ->; [|done].
    destruct r; cbn in *; try done;
      match goal with |- context [?x =? pk_in p] => destruct (Z.eqb_spec x (pk_in p)) end;
      congruence || done. }
  rewrite Hskip. by apply chain_verdict_app.
Qed.

(** Base rules of [i] only: the accept rules name destinations, these do not. *)
Definition base_only (i : Z) (b : list frule) : Prop := Forall (fun r => r ∈ base_rules i) b.

(** TCP to a listed pair is accepted whatever follows the accept rules. *)
Lemma accs_accept dm other i accs eg b e p :
  (accs ≡ₚ acc_rule i <$> eg) -> pk_in p = i -> e ∈ eg -> pk_udp p = false ->
  inet_pton (eg_ip e) = Some (pk_dst p) -> dm (eg_port e) (pk_dport p) = true ->
  chain_verdict dm other (accs ++ b) p = ACCEPT.
Proof.
  intros Hp Hi He Hu Hd Hm. apply chain_verdict_app; [|done].
  assert (Hall : Forall (fun r => r ∈ (acc_rule i <$> eg)) accs)
    by (apply Forall_forall; intros r Hr; by rewrite <- Hp).
  assert (Hin : acc_rule i e ∈ accs) by (rewrite Hp; apply list_elem_of_fmap; eauto).
  clear Hp. induction Hall as [|r l Hr Hl IH]; [by apply elem_of_nil in Hin|].
  cbn [chain_verdict]. apply elem_of_cons in Hin as [<-|Hin].
  - unfold acc_rule. cbn [rule_verdict].
    by rewrite Hi, Z.eqb_refl, Hu, Hd, Hm, bool_decide_true.
  - rewrite (IH Hin). apply list_elem_of_fmap in Hr as (e' & -> & _).
    unfold acc_rule. cbn [rule_verdict]. by repeat case_on_match.
Qed.

(** With a DROP among the base rules, what no rule admits is dropped. *)
Lemma base_drop dm other i b p :
  base_only i b -> (RDrop i ∈ b) -> pk_in p = i -> pk_est p = false ->
  pk_udp p && (pk_dport p =? 53) = false -> chain_verdict dm other b p = DROP.
Proof.
  intros Hb Hin Hp He Hu. induction Hb as [|r b Hr Hb IH]; [by apply elem_of_nil in Hin|].
  unfold base_rules in Hr. rewrite !elem_of_cons, elem_of_nil in Hr. cbn [chain_verdict].
  destruct Hr as [->|[->|[->|[]]]]; cbn [rule_verdict]; rewrite Hp, Z.eqb_refl; cbn [andb].
  - rewrite Hu. apply IH. by apply elem_of_cons in Hin as [?|?].
  - rewrite He. apply IH. by apply elem_of_cons in Hin as [?|?].
  - done.
Qed.

(** The verdict of the cell's own rules. *)
Lemma cell_rules_verdict dm other i accs eg p :
  (accs ≡ₚ acc_rule i <$> eg) -> pk_in p = i ->
  chain_verdict dm other (accs ++ base_rules i) p =
  if pk_est p || (pk_udp p && (pk_dport p =? 53)) ||
     (negb (pk_udp p) && existsb (fun e => bool_decide (inet_pton (eg_ip e) = Some (pk_dst p)) &&
                                           dm (eg_port e) (pk_dport p)) eg)
  then ACCEPT else DROP.
Proof.
  intros Hp Hi.
  assert (Ha : forall l, Forall (fun r => r ∈ (acc_rule i <$> eg)) l ->
    chain_verdict dm other (l ++ base_rules i) p =
    if existsb (fun r => bool_decide (rule_verdict dm other r p = Some ACCEPT)) l
    then ACCEPT else chain_verdict dm other (base_rules i) p).
  { induction 1 as [|r l Hr Hl IH]; [done|]. cbn [app chain_verdict existsb].
    apply list_elem_of_fmap in Hr as (e & -> & _). rewrite IH.
    unfold acc_rule. cbn [rule_verdict]. rewrite Hi, Z.eqb_refl. cbn [andb].
    by repeat case_on_match. }
  rewrite Ha by (apply Forall_forall; intros r Hr; by rewrite <- Hp).
  assert (existsb (fun r => bool_decide (rule_verdict dm other r p = Some ACCEPT)) accs =
    negb (pk_udp p) && existsb (fun e => bool_decide (inet_pton (eg_ip e) = Some (pk_dst p)) &&
                                           dm (eg_port e) (pk_dport p)) eg) as ->.
  { apply eq_true_iff_eq. rewrite andb_true_iff, !existsb_exists. split.
    - intros (r & Hr%list_elem_of_In & Hv%bool_decide_eq_true).
      rewrite Hp in Hr. apply list_elem_of_fmap in Hr as (e & -> & He).
      unfold acc_rule in Hv. cbn [rule_verdict] in Hv. rewrite Hi, Z.eqb_refl in Hv.
      cbn [andb] in Hv. destruct (negb (pk_udp p)); [|done]. cbn [andb] in Hv.
      split; [done|]. exists e. split; [by apply list_elem_of_In|]. by destruct (_ && _).
    - intros [Hu (e & He%list_elem_of_In & Hm)]. exists (acc_rule i e). split.
      + apply list_elem_of_In. rewrite Hp. apply list_elem_of_fmap. eauto.
      + apply bool_decide_eq_true. unfold acc_rule. cbn [rule_verdict].
        rewrite Hi, Z.eqb_refl, Hu. cbn [andb]. by rewrite Hm. }
  cbn [base_rules chain_verdict rule_verdict]. rewrite Hi, Z.eqb_refl. cbn [andb].
  destruct (pk_est p), (pk_udp p), (pk_dport p =? 53), (existsb _ eg); done.
Qed.

(** A packet no accept rule is for goes past them. *)
Lemma accs_skip dm other i accs eg b p :
  (accs ≡ₚ acc_rule i <$> eg) -> pk_in p = i ->
  negb (pk_udp p) && existsb (fun e => bool_decide (inet_pton (eg_ip e) = Some (pk_dst p)) &&
                                       dm (eg_port e) (pk_dport p)) eg = false ->
  chain_verdict dm other (accs ++ b) p = chain_verdict dm other b p.
Proof.
  intros Hp Hi Hno.
  assert (Hall : Forall (fun r => r ∈ (acc_rule i <$> eg)) accs)
    by (apply Forall_forall; intros r Hr; by rewrite <- Hp).
  clear Hp. induction Hall as [|r l Hr Hl IH]; [done|]. cbn [app chain_verdict].
  apply list_elem_of_fmap in Hr as (e & -> & He). unfold acc_rule. cbn [rule_verdict].
  rewrite Hi, Z.eqb_refl. cbn [andb]. rewrite <- andb_assoc.
  destruct (negb (pk_udp p)); [|done]. cbn [andb] in *.
  destruct (_ && _) eqn:E; [|done]. rewrite <- not_true_iff_false in Hno. destruct Hno.
  apply existsb_exists. exists e. split; [by apply list_elem_of_In|done].
Qed.

(** ** One command *)

(** A pair whose text the shell passes on unchanged. *)
Definition pair_ok (e : egpair) : bool :=
  plain_word (eg_ip e) && (length (eg_ip e) <=? 63)%nat &&
  plain_word (eg_port e) && (length (eg_port e) <=? 7)%nat.

Lemma accept_safe add i e :
  idx_ok i -> pair_ok e = true -> cmd_safe (AcceptCmd add i (eg_ip e) (eg_port e)) = true.
Proof.
  intros Hi He. cbn [cmd_safe]. unfold pair_ok in He. rewrite <- !andb_assoc in *.
  rewrite He, andb_true_r. unfold cmd_idx_ok.
  apply andb_true_iff; split; [apply Z.leb_le|apply Z.ltb_lt]; lia.
Qed.

Lemma idx_safe i : idx_ok i -> cmd_idx_ok i = true.
Proof.
  intros Hi. unfold cmd_idx_ok.
  apply andb_true_iff; split; [apply Z.leb_le|apply Z.ltb_lt]; lia.
Qed.
#[export] Hint Resolve accept_safe idx_safe : cell.

Section Kernel.
Context {K : Type} (system : bytes -> K -> Z * K) `{!NetKernel K system}.

Abbreviation fw k := (kv_fwd (view (system := system) k)).
Abbreviation lk k := (kv_links (view (system := system) k)).

(** Only the rules of veth [i] moved. *)
Record kframe (i : Z) (k k' : K) : Prop := {
  kf_links : lk k' = lk k;
  kf_rules : forall o, o <> Some i -> rules_of o (fw k') = rules_of o (fw k);
  kf_seg : segregated (fw k) -> segregated (fw k')
}.

#[export] Instance kframe_preorder i : PreOrder (kframe i).
Proof.
  split; [by split|]. intros k1 k2 k3 [L1 R1 S1] [L2 R2 S2]. split.
  - congruence.
  - intros o Ho. by rewrite R2, R1.
  - auto.
Qed.

Lemma kframe_eq i k k' : view (system := system) k' = view k -> kframe i k k'.
Proof. intros E. split; by rewrite E. Qed.

Lemma ins_spec c r k :
  cmd_safe c = true -> effect c = EIns r ->
  ((sh system c k).1 = 0 /\ fw (sh system c k).2 = r :: fw k \/
   (sh system c k).1 <> 0 /\ fw (sh system c k).2 = fw k) /\
  lk (sh system c k).2 = lk k.
Proof.
  intros Hs He. pose proof (sh_moves c k Hs) as Hm. rewrite He in Hm. cbn [moves] in Hm.
  destruct Hm as [[H1 ->]|[H1 ->]]; auto.
Qed.

Lemma del_spec c r k :
  cmd_safe c = true -> effect c = EDel r ->
  fw (sh system c k).2 = remove_first r (fw k) /\ lk (sh system c k).2 = lk k.
Proof.
  intros Hs He. pose proof (sh_moves c k Hs) as Hm. rewrite He in Hm. cbn [moves] in Hm.
  destruct Hm as [_ ->]. auto.
Qed.

Lemma ins_frame c r i k :
  cmd_safe c = true -> effect c = EIns r -> rule_if r = Some i ->
  kframe i k (sh system c k).2.
Proof.
  intros Hs He Hr. destruct (ins_spec c r k Hs He) as [[[_ H]|[_ H]] Hl];
    split; rewrite ?H; auto.
  - intros o Ho. rewrite rules_of_cons, decide_False by congruence. done.
  - intros Hg. apply segregated_cons; congruence.
Qed.

Lemma del_frame c r i k :
  cmd_safe c = true -> effect c = EDel r -> rule_if r = Some i ->
  kframe i k (sh system c k).2.
Proof.
  intros Hs He Hr. destruct (del_spec c r k Hs He) as [H Hl]. split; rewrite ?H; auto.
  - intros o Ho. rewrite rules_of_remove_first, decide_False by congruence. done.
  - apply segregated_remove_first.
Qed.

(** Deleting the accept rule of a recorded pair. *)
Lemma accept_del i e eg eg' b k :
  idx_ok i -> pair_ok e = true -> (eg ≡ₚ e :: eg') -> cell_chain i eg b (fw k) ->
  let k' := (egress_accept system i (eg_ip e) (eg_port e) false k).2 in
  cell_chain i eg' b (fw k') /\ kframe i k k'.
Proof.
  intros Hi He Hp Hc k'. subst k'. unfold egress_accept.
  split; [|eapply del_frame; [by apply accept_safe|done|done]].
  destruct (del_spec (AcceptCmd false i (eg_ip e) (eg_port e)) (acc_rule i e) k
              ltac:(by apply accept_safe) eq_refl) as [-> _].
  by eapply cell_chain_acc_del.
Qed.

Lemma drop_accepts_spec i eg b k :
  idx_ok i -> Forall (fun e => pair_ok e = true) eg -> cell_chain i eg b (fw k) ->
  cell_chain i [] b (fw (drop_accepts system i eg k)) /\
  kframe i k (drop_accepts system i eg k).
Proof.
  intros Hi Hs. revert k. induction Hs as [|e eg He Hs IH]; intros k Hc; [done|].
  cbn [drop_accepts].
  destruct (accept_del i e _ eg b k Hi He ltac:(done) Hc) as [Hc1 Hf1].
  destruct (IH _ Hc1) as [Hc2 Hf2]. split; [done|]. by etrans.
Qed.

(** ** The two loops of [egress_apply] *)

Lemma insert_last_perm (e : egpair) eg i :
  eg !! i = Some e ->
  eg ≡ₚ e :: take (length eg - 1) (<[i := default e (eg !! (length eg - 1)%nat)]> eg).
Proof.
  intros Hi. pose proof (lookup_lt_Some _ _ _ Hi).
  destruct eg as [|x l] using rev_ind; [done|]. clear IHl.
  rewrite length_app in *. cbn [length] in *. rewrite Nat.add_sub.
  rewrite list_lookup_middle by done. cbn [default].
  destruct (decide (i = length l)) as [->|Hne].
  - rewrite list_lookup_middle in Hi by done. injection Hi as ->.
    rewrite insert_app_r_alt, take_app_length by lia.
    by rewrite <- Permutation_cons_append.
  - rewrite insert_app_l by lia. rewrite lookup_app_l in Hi by lia.
    rewrite take_app_length' by (by rewrite length_insert).
    rewrite <- Permutation_cons_append.
    apply list_elem_of_split_length in Hi as (l1 & l2 & -> & ->).
    rewrite insert_app_r_alt, Nat.sub_diag by done. cbn.
    rewrite <- !Permutation_middle. apply Permutation_swap.
Qed.

Abbreviation safe_pairs eg := (Forall (fun e => pair_ok e = true) eg).

Lemma safe_pairs_perm eg eg' : (eg ≡ₚ eg') -> safe_pairs eg -> safe_pairs eg'.
Proof. intros Hp. by rewrite Hp. Qed.

Lemma apply_prune_spec fuel i idx want eg b k :
  idx_ok idx -> safe_pairs eg -> cell_chain idx eg b (fw k) ->
  (length eg - i <= fuel)%nat -> Forall (fun e => e ∈ want) (take i eg) ->
  let '(eg', k') := apply_prune system fuel i idx want eg k in
  (eg' ≡ₚ filter (fun e => e ∈ want) eg) /\
  cell_chain idx eg' b (fw k') /\ kframe idx k k'.
Proof.
  intros Hidx. revert i eg k. induction fuel as [|fuel IH]; intros i eg k Hs Hc Hf Hw.
  all: assert (Hend : (length eg <= i)%nat -> (eg ≡ₚ filter (fun e => e ∈ want) eg))
    by (intros Hle; rewrite take_ge in Hw by done; by rewrite filter_all).
  { cbn. split_and!; [apply Hend; lia|done|done]. }
  cbn [apply_prune]. destruct (eg !! i) as [e|] eqn:Hi.
  2:{ split_and!; [apply Hend; by apply lookup_ge_None|done|done]. }
  pose proof (lookup_lt_Some _ _ _ Hi) as Hlt.
  case_bool_decide as Hin.
  - apply IH; [done|done|lia|]. rewrite (take_S_r _ _ _ Hi). apply Forall_app_2; [done|by constructor].
  - pose proof (insert_last_perm e eg i Hi) as Hp.
    set (eg1 := take (length eg - 1) _) in *.
    pose proof Hs as Hs'. rewrite Hp in Hs'. apply Forall_cons in Hs' as [He Hs1].
    destruct (accept_del idx e eg eg1 b k Hidx He Hp Hc) as [Hc1 Hf1].
    specialize (IH i eg1 _ Hs1 Hc1).
    destruct (apply_prune system fuel i idx want eg1 _) as [eg' k'].
    assert (length eg1 = length eg - 1)%nat as Hl1
      by (unfold eg1; rewrite length_take, length_insert; lia).
    assert (take i eg1 = take i eg) as Ht.
    { unfold eg1. rewrite take_take, Nat.min_l by lia. apply take_insert_ge. lia. }
    rewrite Ht in IH. destruct IH as (H1 & H2 & H3); [lia|done|].
    split_and!; [|done|by etrans]. rewrite H1, Hp.
    rewrite filter_cons, decide_False by done. done.
Qed.

(** [iptables] refused to insert the accept rule of a pair. *)
Definition refused (i : Z) (e : egpair) : Prop :=
  exists k, (egress_accept system i (eg_ip e) (eg_port e) true k).1 <> 0.

Lemma apply_add_spec want0 idx want eg failed b k :
  idx_ok idx -> safe_pairs want -> cell_chain idx eg b (fw k) ->
  NoDup eg -> eg ⊆ want0 -> want ⊆ want0 -> (length want0 <= MAX_EG_IPS)%nat ->
  let '(failed', eg', k') := apply_add system idx want eg failed k in
  cell_chain idx eg' b (fw k') /\ kframe idx k k' /\ NoDup eg' /\ eg' ⊆ want0 /\
  eg ⊆ eg' /\ failed <= failed' /\ (failed' = failed -> want ⊆ eg') /\
  (forall e, e ∈ want -> e ∈ eg' \/ refused idx e).
Proof.
  intros Hidx Hs. revert eg failed k.
  induction Hs as [|w want Hw Hs IH]; intros eg failed k Hc Hn He Hww Hl; cbn [apply_add].
  { split_and!; try (done || lia); [intros _ x Hx|intros x Hx]; by apply elem_of_nil in Hx. }
  assert (w ∈ want0 /\ want ⊆ want0) as [Hw0 Hw1].
  { split; [apply Hww; constructor|]. intros x Hx. apply Hww. by constructor. }
  destruct (Nat.ltb_spec (length eg) MAX_EG_IPS) as [Hlt|Hge].
  2:{ assert (Hfull : w :: want ⊆ eg); [|split_and!; try (done || lia); auto].
      intros x Hx. apply list_elem_of_In. apply (NoDup_length_incl (l := eg) (l' := want0)).
      - by apply NoDup_ListNoDup.
      - lia.
      - intros y Hy%list_elem_of_In. apply list_elem_of_In. by apply He.
      - apply list_elem_of_In. by apply Hww. }
  case_bool_decide as Hin.
  - specialize (IH eg failed k Hc Hn He Hw1 Hl).
    destruct (apply_add system idx want eg failed k) as [[f' eg'] k'].
    destruct IH as (H1 & H2 & H3 & H4 & H5 & H6 & H7 & H8). split_and!; auto.
    + intros E x [->|Hx]%elem_of_cons; [by apply H5|by apply H7].
    + intros x [->|Hx]%elem_of_cons; auto.
  - destruct (ins_spec (AcceptCmd true idx (eg_ip w) (eg_port w)) (acc_rule idx w) k
                ltac:(by apply accept_safe) eq_refl) as [Hcase _].
    pose proof (ins_frame (AcceptCmd true idx (eg_ip w) (eg_port w)) (acc_rule idx w) idx k
                ltac:(by apply accept_safe) eq_refl eq_refl) as Hfr.
    unfold egress_accept.
    destruct (sh system (AcceptCmd true idx (eg_ip w) (eg_port w)) k) as [rc k1] eqn:Ersh.
    cbn [fst snd] in *. destruct Hcase as [[-> Hfw]|[Hrc Hfw]].
    + simpl (0 =? 0). cbv iota.
      specialize (IH (eg ++ [w]) failed k1).
      destruct (apply_add system idx want (eg ++ [w]) failed k1) as [[f' eg'] k'].
      destruct IH as (H1 & H2 & H3 & H4 & H5 & H6 & H7 & H8); auto.
      * rewrite Hfw. by apply cell_chain_acc_cons.
      * apply NoDup_app. split_and!; [done| |by apply NoDup_singleton].
        intros x Hx Hx1. apply list_elem_of_singleton in Hx1 as ->. done.
      * intros x [Hx|Hx]%elem_of_app; [auto|]. apply list_elem_of_singleton in Hx as ->. auto.
      * assert (w ∈ eg') as Hwin by (apply H5, elem_of_app; right; constructor).
        split_and!; auto; [by etrans| | |].
        { intros x Hx. apply H5, elem_of_app. by left. }
        { intros E x [->|Hx]%elem_of_cons; [done|by apply H7]. }
        intros x [->|Hx]%elem_of_cons; auto.
    + destruct (Z.eqb_spec rc 0); [done|].
      specialize (IH eg (failed + 1) k1).
      destruct (apply_add system idx want eg (failed + 1) k1) as [[f' eg'] k'].
      destruct IH as (H1 & H2 & H3 & H4 & H5 & H6 & H7 & H8); auto; [by rewrite Hfw|].
      split_and!; auto; [by etrans|lia|lia|]. intros x [->|Hx]%elem_of_cons; [right|auto].
      exists k. unfold egress_accept. by rewrite Ersh.
Qed.

(** [egress_apply]: the recorded pairs and the chain agree afterwards, only
    wanted pairs remain, and all of them when nothing failed. *)
Lemma egress_apply_spec c want b k :
  idx_ok (ns_idx c) -> safe_pairs (ns_eg c) -> safe_pairs want ->
  cell_chain (ns_idx c) (ns_eg c) b (fw k) -> NoDup (ns_eg c) ->
  (length want <= MAX_EG_IPS)%nat ->
  let '(failed, c', k') := egress_apply system c want k in
  c' = NetSlot (ns_pid c) (ns_idx c) (ns_eg c') (ns_hosts c) (ns_ns c) (ns_next c) /\
  cell_chain (ns_idx c) (ns_eg c') b (fw k') /\ kframe (ns_idx c) k k' /\
  NoDup (ns_eg c') /\ ns_eg c' ⊆ want /\ 0 <= failed /\
  (failed = 0 -> want ⊆ ns_eg c') /\
  (forall e, e ∈ want -> e ∈ ns_eg c' \/ refused (ns_idx c) e) /\
  (forall e, e ∈ ns_eg c -> e ∈ want -> e ∈ ns_eg c').
Proof.
  intros Hi Hs Hw Hc Hn Hl. unfold egress_apply.
  pose proof (apply_prune_spec (length (ns_eg c)) 0 (ns_idx c) want (ns_eg c) b k
                Hi Hs Hc ltac:(lia) ltac:(constructor)) as Hpr.
  destruct (apply_prune system _ 0 (ns_idx c) want (ns_eg c) k) as [eg1 k1].
  destruct Hpr as (Hp & Hc1 & Hf1).
  assert (NoDup eg1) as Hn1 by (rewrite Hp; by apply NoDup_filter).
  assert (eg1 ⊆ want) as Hsub.
  { intros e He. rewrite Hp in He. by apply list_elem_of_filter in He as [? _]. }
  pose proof (apply_add_spec want (ns_idx c) want eg1 0 b k1 Hi Hw Hc1 Hn1 Hsub
                ltac:(done) Hl) as Had.
  destruct (apply_add system (ns_idx c) want eg1 0 k1) as [[f' eg'] k'].
  destruct Had as (H1 & H2 & H3 & H4 & H5 & H6 & H7 & H8). cbn [ns_eg].
  split_and!; auto; [by etrans|].
  intros e He Hew. apply H5. rewrite Hp. by apply list_elem_of_filter.
Qed.

(** ** The base rules *)

(** The insertions of the base rules succeed (nothing in the code tests it). *)
Definition base_reliable : Prop :=
  forall i k, idx_ok i -> (sh system (BaseDrop true i) k).1 = 0 /\
    (sh system (BaseEst true i) k).1 = 0 /\ (sh system (BaseDns true i) k).1 = 0.

(** The base rules one [egress_base] installs: all of them when [strict]. *)
Definition base_part (strict : bool) (i : Z) (b : list frule) : Prop :=
  if strict then b = base_rules i else b `sublist_of` base_rules i.

Lemma base_part_sub strict i b : base_part strict i b -> b `sublist_of` base_rules i.
Proof. destruct strict; [by intros ->|done]. Qed.

Lemma base_only_sub i b b' : b `sublist_of` b' -> base_only i b' -> base_only i b.
Proof.
  unfold base_only. rewrite !Forall_forall. intros Hs Hb r Hr. by apply Hb, (sublist_subseteq b b').
Qed.

Lemma base_only_rules i : base_only i (base_rules i).
Proof. by apply Forall_forall. Qed.

Lemma ins_rules c r i k :
  cmd_safe c = true -> effect c = EIns r -> rule_if r = Some i ->
  exists b, (b = [r] \/ (sh system c k).1 <> 0 /\ b = []) /\
  rules_of (Some i) (fw (sh system c k).2) = b ++ rules_of (Some i) (fw k).
Proof.
  intros Hs He Hr. destruct (ins_spec c r k Hs He) as [[[Hz ->]|[Hz ->]] _].
  - exists [r]. split; [by left|]. by rewrite rules_of_cons, decide_True.
  - exists []. auto.
Qed.

Lemma base_ins strict i k :
  (strict = true -> base_reliable) -> idx_ok i ->
  let k' := egress_base system i true k in
  (exists b, base_part strict i b /\ cell_chain i [] (b ++ rules_of (Some i) (fw k)) (fw k')) /\
  kframe i k k'.
Proof.
  intros Hst Hi k'. subst k'. unfold egress_base, run.
  destruct (ins_rules (BaseDrop true i) _ i k (idx_safe i Hi) eq_refl eq_refl) as (b1 & Hb1 & E1).
  pose proof (ins_frame (BaseDrop true i) _ i k (idx_safe i Hi) eq_refl eq_refl) as F1.
  set (k1 := (sh system (BaseDrop true i) k).2) in *.
  destruct (ins_rules (BaseEst true i) _ i k1 (idx_safe i Hi) eq_refl eq_refl) as (b2 & Hb2 & E2).
  pose proof (ins_frame (BaseEst true i) _ i k1 (idx_safe i Hi) eq_refl eq_refl) as F2.
  set (k2 := (sh system (BaseEst true i) k1).2) in *.
  destruct (ins_rules (BaseDns true i) _ i k2 (idx_safe i Hi) eq_refl eq_refl) as (b3 & Hb3 & E3).
  pose proof (ins_frame (BaseDns true i) _ i k2 (idx_safe i Hi) eq_refl eq_refl) as F3.
  split; [|by do 2 (etrans; [eassumption|])].
  exists (b3 ++ b2 ++ b1). split.
  - unfold base_part, base_rules. destruct strict.
    + destruct (Hst eq_refl i k Hi) as (R1 & _). destruct (Hst eq_refl i k1 Hi) as (_ & R2 & _).
      destruct (Hst eq_refl i k2 Hi) as (_ & _ & R3).
      destruct Hb1 as [->|[]]; [|done]. destruct Hb2 as [->|[]]; [|done].
      destruct Hb3 as [->|[]]; [|done]. done.
    + destruct Hb1 as [->|[_ ->]], Hb2 as [->|[_ ->]], Hb3 as [->|[_ ->]]; cbn;
        repeat constructor.
  - exists []. split; [done|]. by rewrite E3, E2, E1, <- !app_assoc.
Qed.

Lemma del_rules c r i k :
  cmd_safe c = true -> effect c = EDel r -> rule_if r = Some i ->
  rules_of (Some i) (fw (sh system c k).2) = remove_first r (rules_of (Some i) (fw k)).
Proof.
  intros Hs He Hr. destruct (del_spec c r k Hs He) as [-> _].
  by rewrite rules_of_remove_first, decide_True.
Qed.

(** What [egress_base] takes away: the first of each base rule. *)
Definition base_dropped (i : Z) (b : list frule) : list frule :=
  remove_first (RDns i) (remove_first (REst i) (remove_first (RDrop i) b)).

Lemma remove_first_sublist r l : remove_first r l `sublist_of` l.
Proof.
  induction l as [|x l IH]; cbn [remove_first]; [done|]. destruct (decide (x = r)).
  - by apply sublist_cons.
  - by apply sublist_skip.
Qed.

Lemma base_dropped_sublist i b : base_dropped i b `sublist_of` b.
Proof. unfold base_dropped. do 3 (etrans; [apply remove_first_sublist|]). done. Qed.

(** Removing the base rules undoes inserting some of them. *)
Lemma base_dropped_app i b l :
  b `sublist_of` base_rules i -> base_dropped i (b ++ l) `sublist_of` l.
Proof.
  intros Hb. unfold base_rules, base_dropped in *.
  repeat match goal with
    | H : _ `sublist_of` (_ :: _) |- _ =>
        apply sublist_cons_r in H as [H|(? & -> & H)]
    | H : _ `sublist_of` [] |- _ => apply sublist_nil_r in H as ->
    end; cbn [app remove_first];
    repeat first [rewrite decide_True by done | rewrite decide_False by done
                 | progress cbn [app remove_first]];
    repeat first [done | etrans; [apply remove_first_sublist|]].
Qed.

Lemma remove_first_nodup r l : NoDup l -> r ∉ remove_first r l.
Proof.
  induction 1 as [|x l Hx Hn IH]; cbn [remove_first]; [apply not_elem_of_nil|].
  destruct (decide (x = r)) as [->|]; [done|]. by apply not_elem_of_cons.
Qed.

(** No base rule stays when none was there twice. *)
Lemma base_dropped_nil i b : base_only i b -> NoDup b -> base_dropped i b = [].
Proof.
  intros Hb Hn. destruct (base_dropped i b) as [|r l] eqn:E; [done|]. exfalso.
  assert (Hn1 : NoDup (remove_first (RDrop i) b))
    by (eapply sublist_NoDup; [exact Hn|apply remove_first_sublist]).
  assert (Hn2 : NoDup (remove_first (REst i) (remove_first (RDrop i) b)))
    by (eapply sublist_NoDup; [exact Hn1|apply remove_first_sublist]).
  assert (Hin : r ∈ base_dropped i b) by (rewrite E; constructor).
  assert (Hs : forall (x : frule) l1 l2, l1 `sublist_of` l2 -> x ∈ l1 -> x ∈ l2)
    by (intros x l1 l2 H1; by apply sublist_subseteq).
  pose proof (Hs _ _ _ (base_dropped_sublist i b) Hin) as Hr.
  unfold base_only in Hb. rewrite Forall_forall in Hb. apply Hb in Hr. unfold base_rules in Hr.
  rewrite !elem_of_cons, elem_of_nil in Hr. unfold base_dropped in Hin.
  destruct Hr as [->|[->|[->|[]]]].
  - by apply remove_first_nodup in Hin.
  - apply (Hs _ _ _ (remove_first_sublist _ _)) in Hin. by apply remove_first_nodup in Hin.
  - do 2 apply (Hs _ _ _ (remove_first_sublist _ _)) in Hin. by apply remove_first_nodup in Hin.
Qed.

Lemma base_del i b k :
  idx_ok i -> cell_chain i [] b (fw k) ->
  let k' := egress_base system i false k in
  rules_of (Some i) (fw k') = base_dropped i b /\ kframe i k k'.
Proof.
  intros Hi (accs & Hp & Hr) k'. subst k'. unfold egress_base, run.
  cbn in Hp. apply Permutation_nil_r in Hp as ->. cbn in Hr.
  pose proof (idx_safe i Hi) as Hs. split.
  - rewrite (del_rules (BaseDns false i) (RDns i)) by done.
    rewrite (del_rules (BaseEst false i) (REst i)) by done.
    rewrite (del_rules (BaseDrop false i) (RDrop i)) by done. by rewrite Hr.
  - etrans; [|by apply (del_frame (BaseDns false i) (RDns i))].
    etrans; [|by apply (del_frame (BaseEst false i) (REst i))].
    by apply (del_frame (BaseDrop false i) (RDrop i)).
Qed.
End Kernel.

(** ** Resolving gives exactly the answers *)

Lemma print_u_byte v : 0 <= v < 256 -> forallb plain_char (print_u v) = true /\
  (0 < length (print_u v) <= 3)%nat.
Proof.
  intros Hv.
  assert (Forall (fun w => forallb plain_char (print_u w) = true /\
                    (0 < length (print_u w) <= 3)%nat) (seqZ 0 256)) as Hall.
  { apply (bool_decide_unpack _). by vm_compute. }
  rewrite Forall_forall in Hall. apply Hall, elem_of_seqZ. lia.
Qed.

Lemma inet_ntop_plain a : plain_word (inet_ntop a) = true /\ (length (inet_ntop a) <= 15)%nat.
Proof.
  destruct (print_u_byte (byte_of a 0) (byte_of_range a 0)) as [P0 L0].
  destruct (print_u_byte (byte_of a 1) (byte_of_range a 1)) as [P1 L1].
  destruct (print_u_byte (byte_of a 2) (byte_of_range a 2)) as [P2 L2].
  destruct (print_u_byte (byte_of a 3) (byte_of_range a 3)) as [P3 L3].
  unfold plain_word, inet_ntop. split.
  - rewrite !forallb_app. cbn [forallb]. rewrite !forallb_app. cbn [forallb].
    rewrite !forallb_app. cbn [forallb]. rewrite P0, P1, P2, P3.
    change (plain_char DOT) with true. cbn [andb]. rewrite andb_true_r.
    destruct (print_u (byte_of a 0)); [cbn in L0; lia|done].
  - rewrite !length_app. cbn [length]. rewrite !length_app. cbn [length].
    rewrite !length_app. cbn [length]. lia.
Qed.

(** A port as the slot keeps it: a word of at most seven bytes. *)
Definition port_ok (p : bytes) : bool := plain_word p && (length p <=? 7)%nat.

Lemma ntop_pair_ok a port : port_ok port = true -> pair_ok (EgPair (inet_ntop a) port) = true.
Proof.
  intros [Hp Hl]%andb_true_iff. destruct (inet_ntop_plain a) as [Hw Hn].
  unfold pair_ok. cbn [eg_ip eg_port]. rewrite Hw, Hp, Hl.
  assert ((length (inet_ntop a) <=? 63)%nat = true) as -> by (apply Nat.leb_le; lia). done.
Qed.

Lemma want_add_spec a port want w :
  (length port <= 7)%nat -> want_add (inet_ntop a) port want = Some w ->
  (forall e, e ∈ w <-> e ∈ want \/ e = EgPair (inet_ntop a) port) /\
  ((length want <= MAX_EG_IPS)%nat -> (length w <= MAX_EG_IPS)%nat).
Proof.
  intros Hl. unfold want_add. destruct (inet_ntop_plain a) as [_ Hn].
  rewrite !snprintf_s_short by lia.
  destruct (existsb _ want) eqn:E.
  - intros [= <-]. split; [|done]. intros e. split; [by left|].
    intros [?| ->]; [done|]. apply existsb_exists in E as (x & Hx & Hb).
    apply andb_true_iff in Hb as [H1%bool_decide_eq_true H2%bool_decide_eq_true].
    destruct x as [xi xp]. cbn in *. subst. by apply list_elem_of_In.
  - destruct (Nat.leb_spec MAX_EG_IPS (length want)); [done|]. intros [= <-]. split.
    + intros e. rewrite elem_of_app, list_elem_of_singleton. done.
    + intros _. rewrite length_app. cbn [length]. lia.
Qed.

(** The pairs a host with text [port] contributes through the answers [rrs]. *)
Definition from_rrs (port : bytes) (rrs : list (Z * Z)) (e : egpair) : Prop :=
  exists a t, (a, t) ∈ rrs /\ e = EgPair (inet_ntop a) port.

Lemma take_answers_spec port rrs s s' :
  (length port <= 7)%nat -> take_answers port rrs s = inl s' ->
  (forall e, e ∈ re_want s' <-> e ∈ re_want s \/ from_rrs port rrs e) /\
  ((length (re_want s) <= MAX_EG_IPS)%nat -> (length (re_want s') <= MAX_EG_IPS)%nat).
Proof.
  intros Hl. revert s. induction rrs as [|[a t] rrs IH]; intros s; cbn [take_answers].
  - intros [= <-]. split; [|done]. intros e. split; [by left|].
    intros [?|(a & t & Ha & _)]; [done|]. by apply elem_of_nil in Ha.
  - cbn [re_want]. destruct (want_add (inet_ntop a) port (re_want s)) as [w|] eqn:Ew; [|done].
    intros E. apply IH in E as [H1 H2]. cbn [re_want] in H1, H2.
    apply want_add_spec in Ew as [H3 H4]; [|done]. split; [|auto].
    intros e. rewrite H1, H3. unfold from_rrs. split.
    + intros [[?| ->]|(a' & t' & Ha & ->)]; [by left|right..].
      * exists a, t. split; [constructor|done].
      * exists a', t'. split; [by constructor|done].
    + intros [?|(a' & t' & [[= -> ->]|Ha]%elem_of_cons & ->)]; eauto 6.
Qed.

Section ResolveFacts.
Context (dns : Z * Z -> bytes -> list (Z * Z)).

(** The addresses a host stands for. *)
Definition host_addr (ns : list (Z * Z)) (host : bytes) (a : Z) : Prop :=
  inet_pton host = Some a \/
  (inet_pton host = None /\ exists n t, n ∈ ns /\ (a, t) ∈ dns n host).

Lemma query_all_spec host port ns s s' :
  (length port <= 7)%nat -> query_all dns host port ns s = inl s' ->
  (forall e, e ∈ re_want s' <-> e ∈ re_want s \/
     exists n, n ∈ ns /\ from_rrs port (dns n host) e) /\
  ((length (re_want s) <= MAX_EG_IPS)%nat -> (length (re_want s') <= MAX_EG_IPS)%nat).
Proof.
  intros Hl. revert s. induction ns as [|n ns IH]; intros s; cbn [query_all].
  - intros [= <-]. split; [|done]. intros e. split; [by left|].
    intros [?|(n & Hn & _)]; [done|]. by apply elem_of_nil in Hn.
  - destruct (take_answers port (dns n host) s) as [s1|] eqn:E1; [|done]. intros E.
    apply IH in E as [H1 H2]. apply take_answers_spec in E1 as [H3 H4]; [|done].
    split; [|auto]. intros e. rewrite H1, H3. split.
    + intros [[?|?]|(n' & Hn & ?)]; [by left|right..].
      * exists n. split; [constructor|done].
      * exists n'. split; [by constructor|done].
    + intros [?|(n' & [->|Hn]%elem_of_cons & ?)]; eauto 6.
Qed.

Lemma resolve_egress_spec host port ns want ttl want' ttl' :
  (length port <= 7)%nat -> resolve_egress dns host port ns want ttl = (0, want', ttl') ->
  (forall e, e ∈ want' <-> e ∈ want \/
     exists a, host_addr ns host a /\ e = EgPair (inet_ntop a) port) /\
  ((length want <= MAX_EG_IPS)%nat -> (length want' <= MAX_EG_IPS)%nat).
Proof.
  intros Hl. unfold resolve_egress, host_addr. destruct (inet_pton host) as [a|].
  - destruct (want_add _ _ _) as [w|] eqn:E; [|done]. intros [= <- <-].
    apply want_add_spec in E as [H1 H2]; [|done]. split; [|done].
    intros e. rewrite H1. split; [intros [?| ->]; eauto|].
    intros [?|(a' & [[= ->]|[? _]] & ->)]; eauto; done.
  - destruct (query_all _ _ _ _ _) as [s|s] eqn:E; [|done].
    destruct (re_got s); [|done]. intros [= <- <-].
    apply query_all_spec in E as [H1 H2]; [|done]. split; [|done].
    intros e. rewrite H1. cbn [re_want]. split.
    + intros [?|(n & Hn & a & t & Ha & ->)]; [by left|]. right. exists a. eauto 7.
    + intros [?|(a & [?|(_ & n & t & Hn & Ha)] & ->)]; [by left|done|].
      right. exists n. split; [done|]. exists a, t. done.
Qed.

(** A successful [egress_want] holds exactly the pairs of its hosts' addresses. *)
Lemma want_hosts_spec hosts ns want ttl want' ttl' bad :
  Forall (fun h => (length (eh_port h) <= 7)%nat) hosts ->
  want_hosts dns hosts ns want ttl = (0, want', ttl', bad) ->
  (forall e, e ∈ want' <-> e ∈ want \/
     exists h a, h ∈ hosts /\ host_addr ns (eh_host h) a /\
                 e = EgPair (inet_ntop a) (eh_port h)) /\
  ((length want <= MAX_EG_IPS)%nat -> (length want' <= MAX_EG_IPS)%nat).
Proof.
  intros Hp. revert want ttl. induction Hp as [|h hosts Hh Hp IH]; intros want ttl;
    cbn [want_hosts].
  - intros [= <- <- <-]. split; [|done]. intros e. split; [by left|].
    intros [?|(h & a & Hh & _)]; [done|]. by apply elem_of_nil in Hh.
  - destruct (resolve_egress dns _ _ ns want ttl) as [[r w1] t1] eqn:E1.
    destruct (Z.eqb_spec r (-2)); [done|]. destruct (Z.ltb_spec r 0); [done|].
    assert (r = 0) as ->.
    { unfold resolve_egress in E1. repeat case_in E1; injection E1; lia. }
    intros E. apply IH in E as [H1 H2]. apply resolve_egress_spec in E1 as [H3 H4]; [|done].
    split; [|auto]. intros e. rewrite H1, H3. split.
    + intros [[?|(a & Ha & ->)]|(h' & a & Hh' & Ha & ->)]; [by left|right..].
      * exists h, a. split; [constructor|done].
      * exists h', a. split; [by constructor|done].
    + intros [?|(h' & a & [->|Hh']%elem_of_cons & Ha & ->)]; eauto 8.
Qed.
End ResolveFacts.

(** A host as the slot keeps it. *)
Abbreviation hosts_ok hosts := (Forall (fun h => port_ok (eh_port h) = true) hosts).

Lemma egress_want_ok dns c want ttl bad :
  hosts_ok (ns_hosts c) -> egress_want dns c = (0, want, ttl, bad) ->
  Forall (fun e => pair_ok e = true) want /\ (length want <= MAX_EG_IPS)%nat.
Proof.
  intros Hh E. apply want_hosts_spec in E as [H1 H2].
  - split; [|apply H2; cbn; lia]. apply Forall_forall. intros e He.
    apply H1 in He as [He|(h & a & Hin & _ & ->)]; [by apply elem_of_nil in He|].
    apply ntop_pair_ok. rewrite Forall_forall in Hh. by apply Hh.
  - eapply Forall_impl; [exact Hh|]. cbn. intros h [_ Hl]%andb_true_iff.
    by apply Nat.leb_le.
Qed.
