(* ===== verification/NetInv.v ===== *)
(** * Correctness of the network provisioning

    The daemon's invariant (bitmap, slots, FORWARD chain and links agree), its
    preservation by every operation, what a packet of a cell meets in the chain,
    and the exact behaviour of the error paths. *)

From S2P Require Import Prelude CString Inet Netfilter NetDaemon NetChain.
Local Open Scope Z_scope.

(** ** The invariant of the daemon *)

(** The ports of a request, as the slots keep them, are plain words. *)
Abbreviation ports_ok hosts := (Forall (fun hp => port_ok (snprintf_s 8 hp.2) = true) hosts).

Section Invariant.
Context {K : Type} (system : bytes -> K -> Z * K) `{!NetKernel K system} (strict : bool).

Abbreviation fw k := (kv_fwd (view (system := system) k)).
Abbreviation lk k := (kv_links (view (system := system) k)).

(** A slot in use: its link exists, and the rules of its veth are exactly the
    accept rules of its pairs above base rules; with [strict] a cell with an
    allowlist has the three base rules first among these.  (What [iptables]
    refuses is not there, and a cell that went down without pairs leaves its
    base rules to the next cell with the index: [b] is any list of them.) *)
Record slot_live (k : K) (c : netslot) : Prop := {
  sl_idx : idx_ok (ns_idx c);
  sl_hosts : hosts_ok (ns_hosts c);
  sl_pairs : Forall (fun e => pair_ok e = true) (ns_eg c);
  sl_nodup : NoDup (ns_eg c);
  sl_len : (length (ns_eg c) <= MAX_EG_IPS)%nat;
  sl_link : ns_idx c ∈ lk k;
  sl_none : ns_hosts c = [] -> ns_eg c = [];
  sl_chain : exists b, base_only (ns_idx c) b /\ cell_chain (ns_idx c) (ns_eg c) b (fw k) /\
    (strict = true -> ns_hosts c <> [] -> base_rules (ns_idx c) `prefix_of` b)
}.

(** [c] is a live slot of [l]. *)
Definition live_in (l : list netslot) (c : netslot) : Prop := (c ∈ l) /\ ns_pid c <> 0.

(** Bitmap [m], slots [l], NAT flag and kernel agree. *)
Record net_inv (m : list Z) (l : list netslot) (nat_on : bool) (k : K) : Prop := {
  ni_map : netmap_ok m;
  ni_len : length l = 64%nat;
  ni_live : forall c, live_in l c -> slot_live k c /\ netmap_test m (ns_idx c) = true;
  ni_inj : forall l1 c l2, l = l1 ++ c :: l2 -> ns_pid c <> 0 ->
             forall c', live_in (l1 ++ l2) c' -> ns_idx c' <> ns_idx c;
  ni_used : forall i, idx_ok i -> netmap_test m i = true ->
              exists c, live_in l c /\ ns_idx c = i;
  ni_free : forall i, (forall c, live_in l c -> ns_idx c <> i) ->
              base_only i (rules_of (Some i) (fw k));
  ni_seg : segregated (fw k);
  ni_nat : forall c, live_in l c -> nat_on = true;
  ni_off : nat_on = false -> forall i, rules_of (Some i) (fw k) = []
}.

Definition st_inv (s : netst (K := K)) : Prop :=
  net_inv (g_netmap (st_d s)) (g_nets (st_d s)) (g_nat_on (st_d s)) (st_k s).

(** Nothing that names another veth than [i] moved. *)
Record lframe (i : Z) (k k' : K) : Prop := {
  lf_links : forall j, j <> i -> (j ∈ lk k') <-> (j ∈ lk k);
  lf_rules : forall j, j <> i -> rules_of (Some j) (fw k') = rules_of (Some j) (fw k)
}.

#[export] Instance lframe_preorder i : PreOrder (lframe i).
Proof.
  split; [by split|]. intros k1 k2 k3 [L1 R1] [L2 R2]. split.
  - intros j Hj. by rewrite L2, L1.
  - intros j Hj. by rewrite R2, R1.
Qed.

Lemma kframe_lframe i k k' : kframe system i k k' -> lframe i k k'.
Proof.
  intros [L R _]. split; [intros j _; by rewrite L|]. intros j Hj. apply R. congruence.
Qed.

Lemma slot_live_frame i k k' c :
  lframe i k k' -> ns_idx c <> i -> slot_live k c -> slot_live k' c.
Proof.
  intros [L R] Hi [H1 H2 H3 H4 Hln H5 H6 (b & Hp & (accs & Hacc & Hr) & Hb)].
  split; auto; [by apply L|]. exists b. split_and!; auto. exists accs. by rewrite R.
Qed.

Lemma live_in_middle l1 c l2 c' :
  live_in (l1 ++ c :: l2) c' <-> (c' = c /\ ns_pid c <> 0) \/ live_in (l1 ++ l2) c'.
Proof.
  unfold live_in. rewrite !elem_of_app, elem_of_cons. split.
  - intros [[?|[->|?]] ?]; tauto.
  - intros [[-> ?]|[[?|?] ?]]; tauto.
Qed.

Lemma app_cons_eq_inv {A} (l1 l2 p1 p2 : list A) x y :
  l1 ++ x :: l2 = p1 ++ y :: p2 ->
  (l1 = p1 /\ x = y /\ l2 = p2) \/
  (exists q, p1 = l1 ++ x :: q /\ l2 = q ++ y :: p2) \/
  (exists q, l1 = p1 ++ y :: q /\ p2 = q ++ x :: l2).
Proof.
  revert p1. induction l1 as [|a l1 IH]; intros [|b p1]; cbn; intros E.
  - injection E as -> ->. auto.
  - injection E as -> ->. right. left. exists p1. done.
  - injection E as -> <-. right. right. exists l1. done.
  - injection E as -> E. destruct (IH _ E) as [(-> & -> & ->)|[(q & -> & ->)|(q & -> & ->)]].
    + auto.
    + right. left. by exists q.
    + right. right. by exists q.
Qed.

(** Replacing one slot: all that the operations do to the slots. *)
Lemma inv_slot i l1 c0 c1 l2 m m' nat nat' k k' :
  net_inv m (l1 ++ c0 :: l2) nat k ->
  (ns_pid c0 <> 0 /\ ns_idx c0 = i \/
   ns_pid c0 = 0 /\ forall c, live_in (l1 ++ l2) c -> ns_idx c <> i) ->
  idx_ok i -> netmap_ok m' ->
  (forall j, idx_ok j -> j <> i -> netmap_test m' j = netmap_test m j) ->
  lframe i k k' -> segregated (fw k') -> (nat = true -> nat' = true) ->
  (ns_pid c1 <> 0 /\ ns_idx c1 = i /\ slot_live k' c1 /\ netmap_test m' i = true /\ nat' = true \/
   ns_pid c1 = 0 /\ netmap_test m' i = false /\ base_only i (rules_of (Some i) (fw k')) /\
   (nat' = false -> rules_of (Some i) (fw k') = [])) ->
  net_inv m' (l1 ++ c1 :: l2) nat' k'.
Proof.
  intros [M L Li In Us Fr Sg Na Of] H0 Hi Hm' Hj Hf Hs Hn H1.
  assert (Hoth : forall c, live_in (l1 ++ l2) c -> ns_idx c <> i).
  { destruct H0 as [[Hp <-]|[_ H0]]; [|done]. by apply (In l1 c0 l2). }
  split; auto.
  - rewrite length_app in *. cbn [length] in *. lia.
  - intros c [[-> Hp]|Hc]%live_in_middle.
    + destruct H1 as [(_ & <- & ? & ? & _)|[? _]]; [done|congruence].
    + destruct (Li c) as [Hl Ht]; [by apply live_in_middle; right|].
      pose proof (Hoth c Hc). split; [by eapply slot_live_frame|].
      rewrite Hj; auto. apply Hl.
  - intros p1 c p2 E Hc c' Hc'. apply app_cons_eq_inv in E
      as [(<- & -> & <-)|[(q & -> & ->)|(q & -> & ->)]].
    + destruct H1 as [(_ & -> & _)|[? _]]; [auto|congruence].
    + rewrite <- app_assoc in Hc'. cbn in Hc'. apply live_in_middle in Hc' as [[-> Hp]|Hc'].
      * destruct H1 as [(_ & -> & _)|[? _]]; [|congruence]. symmetry. apply Hoth.
        split; [|done]. rewrite !elem_of_app. right. right. constructor.
      * apply (In (l1 ++ c0 :: q) c p2); [by rewrite <- app_assoc|done|].
        rewrite <- app_assoc. cbn. apply live_in_middle. right. done.
    + rewrite app_assoc in Hc'. cbn in Hc'.
      assert (live_in (p1 ++ (q ++ c1 :: l2)) c') as Hc2 by (by rewrite app_assoc).
      rewrite app_assoc in Hc2. apply live_in_middle in Hc2 as [[-> Hp]|Hc2].
      * destruct H1 as [(_ & -> & _)|[? _]]; [|congruence]. symmetry. apply Hoth.
        split; [|done]. rewrite !elem_of_app. left. right. constructor.
      * apply (In p1 c (q ++ c0 :: l2)); [by rewrite <- app_assoc|done|].
        rewrite app_assoc. apply live_in_middle. right. done.
  - intros j Hij Ht. destruct (decide (j = i)) as [->|Hne].
    + destruct H1 as [(Hp & <- & _)|(_ & Ht' & _)]; [|congruence].
      exists c1. split; [|done]. apply live_in_middle. by left.
    + rewrite Hj in Ht by done. destruct (Us j Hij Ht) as (c & Hc & <-).
      exists c. split; [|done]. apply live_in_middle in Hc as [[-> Hp]|Hc].
      * destruct H0 as [[_ H0]|[H0 _]]; congruence.
      * apply live_in_middle. by right.
  - intros j Hfree. destruct (decide (j = i)) as [->|Hne].
    + destruct H1 as [(Hp & Hx & _)|(_ & _ & H1 & _)]; [|done].
      destruct (Hfree c1); [|done]. apply live_in_middle. by left.
    + rewrite (lf_rules _ _ _ Hf) by done. apply Fr.
      intros c [[-> Hp]|Hc]%live_in_middle.
      * destruct H0 as [[_ H0]|[H0 _]]; congruence.
      * apply Hfree. apply live_in_middle. by right.
  - intros c [[-> Hp]|Hc]%live_in_middle.
    + destruct H1 as [(_ & _ & _ & _ & ?)|[? _]]; [done|congruence].
    + apply Hn, (Na c). apply live_in_middle. by right.
  - intros Hoff j. destruct (decide (j = i)) as [->|Hne].
    + destruct H1 as [(_ & _ & _ & _ & ?)|(_ & _ & _ & H1)]; [congruence|auto].
    + rewrite (lf_rules _ _ _ Hf) by done. apply Of. destruct nat; [|done].
      by rewrite Hn in Hoff.
Qed.

(** ** Taking a cell down *)

Lemma link_del_spec i k :
  idx_ok i -> let k' := run system (LinkDel i) k in
  fw k' = fw k /\ (i ∉ lk k') /\ lframe i k k'.
Proof.
  intros Hi k'. subst k'. unfold run.
  pose proof (sh_moves (LinkDel i) k (idx_safe i Hi)) as Hm. cbn [effect moves] in Hm.
  rewrite Hm. cbn [kv_fwd kv_links]. split_and!; [done| |].
  - rewrite list_elem_of_filter. tauto.
  - split; [|intros j _; by rewrite Hm].
    intros j Hj. rewrite Hm. cbn [kv_links]. rewrite list_elem_of_filter. tauto.
Qed.

(** The accept rules of [eg], one copy of each base rule and the link go. *)
Lemma teardown_spec i eg b k :
  idx_ok i -> Forall (fun e => pair_ok e = true) eg ->
  cell_chain i eg b (fw k) -> segregated (fw k) ->
  let k' := run system (LinkDel i) (egress_base system i false (drop_accepts system i eg k)) in
  rules_of (Some i) (fw k') = base_dropped i b /\ (i ∉ lk k') /\ lframe i k k' /\
  segregated (fw k').
Proof.
  intros Hi Hs Hc Hg k'. subst k'.
  destruct (drop_accepts_spec system i eg b k Hi Hs Hc) as [Hc1 F1].
  destruct (base_del system i b _ Hi Hc1) as [Hr F2].
  set (k2 := egress_base system i false _) in *.
  destruct (link_del_spec i k2 Hi) as (Hfw & Hnl & F3).
  split_and!; [by rewrite Hfw|done| |].
  - etrans; [by eapply kframe_lframe|]. etrans; [by eapply kframe_lframe|]. done.
  - rewrite Hfw. by apply (kf_seg _ _ _ _ F2), (kf_seg _ _ _ _ F1).
Qed.

(** What a cell that goes down leaves behind: base rules at most; those it has
    when it has no pairs; none when it has pairs and no rule was there twice. *)
Definition down_rules (c : netslot) (k k' : K) : Prop :=
  base_only (ns_idx c) (rules_of (Some (ns_idx c)) (fw k')) /\
  (ns_eg c = [] -> rules_of (Some (ns_idx c)) (fw k') = rules_of (Some (ns_idx c)) (fw k)) /\
  (ns_eg c <> [] -> NoDup (rules_of (Some (ns_idx c)) (fw k)) ->
   rules_of (Some (ns_idx c)) (fw k') = []).

Lemma slot_down_spec c k :
  slot_live k c -> segregated (fw k) ->
  let k' := slot_down system c k in
  down_rules c k k' /\ (ns_idx c ∉ lk k') /\ lframe (ns_idx c) k k' /\ segregated (fw k').
Proof.
  intros [H1 H2 H3 H4 _ H5 H6 (b & Hb & Hc & _)] Hg k'. subst k'. unfold slot_down, down_rules.
  destruct (ns_eg c) as [|e eg] eqn:He.
  - cbn [drop_accepts length]. cbv zeta. change (0 <? 0)%nat with false. cbv iota.
    destruct (link_del_spec (ns_idx c) k H1) as (Hfw & Hnl & F3). rewrite Hfw.
    split_and!; [|done|done|done|done|done]. destruct Hc as (accs & Hp & ->).
    cbn in Hp. apply Permutation_nil_r in Hp as ->. done.
  - cbn [length]. change (0 <? S (length eg))%nat with true. cbv iota zeta.
    destruct (teardown_spec (ns_idx c) (e :: eg) b k H1 H3 Hc Hg) as (T1 & T2 & T3 & T4).
    split_and!; [|done| |done|done|done]; rewrite T1.
    + eapply base_only_sub; [apply base_dropped_sublist|done].
    + intros _ Hn. apply base_dropped_nil; [done|]. destruct Hc as (accs & _ & Hr).
      rewrite Hr in Hn. by apply NoDup_app in Hn as (_ & _ & ?).
Qed.

Lemma down_slots_inv P reset l1 l2 m nat k :
  (forall c, ns_pid (reset c) = 0) -> P 0 = false ->
  net_inv m (l1 ++ l2) nat k ->
  let '(l2', m', k') := down_slots system P reset l2 m k in
  net_inv m' (l1 ++ l2') nat k' /\
  (forall i, (forall c, live_in l2 c -> P (ns_pid c) = true -> ns_idx c <> i) ->
     rules_of (Some i) (fw k') = rules_of (Some i) (fw k) /\ ((i ∈ lk k') <-> (i ∈ lk k))) /\
  (forall c, live_in l2 c -> P (ns_pid c) = true -> (ns_idx c ∉ lk k') /\ down_rules c k k') /\
  (forall c', live_in l2' c' <-> live_in l2 c' /\ P (ns_pid c') = false).
Proof.
  intros Hres HP. revert l1 m k. induction l2 as [|c l2 IH]; intros l1 m k Hi; cbn [down_slots].
  { split_and!; [done|done| |].
    - intros c [Hc _]. by apply elem_of_nil in Hc.
    - intros c. unfold live_in. split; [intros [Hc _]|intros [[Hc _] _]]; by apply elem_of_nil in Hc. }
  destruct (P (ns_pid c)) eqn:EP.
  - assert (ns_pid c <> 0) as Hp by congruence.
    destruct (ni_live _ _ _ _ Hi c) as [Hl Ht]; [by apply live_in_middle; left|].
    destruct (slot_down_spec c k Hl (ni_seg _ _ _ _ Hi)) as (Hr & Hnl & Hf & Hsg).
    pose proof (ni_map _ _ _ _ Hi) as Hm. pose proof (sl_idx _ _ Hl) as Hidx.
    assert (net_inv (netmap_clear m (ns_idx c)) (l1 ++ reset c :: l2) nat (slot_down system c k))
      as Hi1.
    { eapply (inv_slot (ns_idx c)); [exact Hi|by left|done|by apply netmap_clear_ok| |done|done|done|].
      - intros j Hj Hne. rewrite netmap_test_clear by done.
        by rewrite (proj2 (Z.eqb_neq (ns_idx c) j)) by done.
      - right. split_and!; [done| |apply Hr|].
        + rewrite netmap_test_clear by done. by rewrite Z.eqb_refl.
        + intros Hoff. rewrite (ni_nat _ _ _ _ Hi c) in Hoff; [done|]. apply live_in_middle. by left. }
    specialize (IH (l1 ++ [reset c]) (netmap_clear m (ns_idx c)) (slot_down system c k)).
    rewrite <- app_assoc in IH. specialize (IH Hi1).
    destruct (down_slots system P reset l2 _ _) as [[l2' m'] k'].
    destruct IH as (I1 & I2 & I3 & I4). rewrite <- app_assoc in I1.
    assert (Hdis : forall c', live_in l2 c' -> ns_idx c' <> ns_idx c).
    { intros c' Hc'. apply (ni_inj _ _ _ _ Hi l1 c l2 eq_refl Hp).
      destruct Hc' as [Hin ?]. split; [apply elem_of_app; by right|done]. }
    destruct (I2 (ns_idx c)) as [Rc Lc]; [intros c' Hc' _; by apply Hdis|].
    split_and!; [done| | |].
    + intros i Hfr. destruct (decide (i = ns_idx c)) as [->|Hne].
      { destruct (Hfr c); [by split; [constructor|]|done|done]. }
      destruct (I2 i) as [-> ->].
      * intros c' Hc'. apply Hfr. destruct Hc'. by split; [constructor|].
      * split; [by apply (lf_rules _ _ _ Hf)|by apply (lf_links _ _ _ Hf)].
    + intros c' [[->|Hin]%elem_of_cons Hp'] HPc.
      * rewrite Lc. split; [done|]. unfold down_rules. by rewrite Rc.
      * destruct (I3 c') as [L3 R3]; [done|done|]. split; [done|]. unfold down_rules in *.
        by rewrite (lf_rules _ _ _ Hf) in R3 by (by apply Hdis).
    + intros c'. unfold live_in in *. rewrite !elem_of_cons. split.
      * intros [[->|Hin] Hp']; [by rewrite Hres in Hp'|].
        destruct (proj1 (I4 c') (conj Hin Hp')) as [[? ?] ?]. tauto.
      * intros [[[->|Hin] Hp'] HPf]; [congruence|].
        destruct (proj2 (I4 c')) as [? ?]; tauto.
  - specialize (IH (l1 ++ [c]) m k). rewrite <- app_assoc in IH. specialize (IH Hi).
    destruct (down_slots system P reset l2 m k) as [[l2' m'] k'].
    destruct IH as (I1 & I2 & I3 & I4). rewrite <- app_assoc in I1.
    split_and!; [done| | |].
    + intros i Hfr. apply I2. intros c' [? ?]. apply Hfr. by split; [constructor|].
    + intros c' [[->|Hin]%elem_of_cons Hp'] HPc; [congruence|by apply I3].
    + intros c'. unfold live_in in *. rewrite !elem_of_cons. split.
      * intros [[->|Hin] Hp']; [tauto|].
        destruct (proj1 (I4 c') (conj Hin Hp')) as [[? ?] ?]. tauto.
      * intros [[[->|Hin] Hp'] HPf]; [tauto|].
        destruct (proj2 (I4 c')) as [? ?]; tauto.
Qed.

(** ** Refreshing a cell *)

Lemma want_hosts_code dns hosts ns want ttl :
  let r := (want_hosts dns hosts ns want ttl).1.1.1 in r = 0 \/ r = -1 \/ r = -2.
Proof.
  revert want ttl.
  induction hosts as [|h hosts IH]; intros want ttl; cbn [want_hosts]; [by left|].
  destruct (resolve_egress _ _ _ _ _ _) as [[r w] t].
  destruct (r =? -2); [by auto|]. destruct (r <? 0); [by auto|]. apply IH.
Qed.

Lemma egress_want_code dns c :
  let r := (egress_want dns c).1.1.1 in r = 0 \/ r = -1 \/ r = -2.
Proof. apply want_hosts_code. Qed.

Lemma slot_live_set_next t k c : slot_live k c -> slot_live k (set_next t c).
Proof. by intros []. Qed.

Lemma nodup_sub_len {A} (l k : list A) n :
  NoDup l -> l ⊆ k -> (length k <= n)%nat -> (length l <= n)%nat.
Proof.
  intros Hl Hs Hk. etrans; [|exact Hk]. by apply submseteq_length, NoDup_submseteq.
Qed.

(** A live slot with an allowlist after [egress_apply]: its rules are still
    exactly those of its pairs, which are wanted ones, all that [iptables] did not
    refuse. *)
Lemma slot_live_apply want c k :
  slot_live k c -> ns_hosts c <> [] ->
  Forall (fun e => pair_ok e = true) want -> (length want <= MAX_EG_IPS)%nat ->
  let '(_, c', k') := egress_apply system c want k in
  ns_pid c' = ns_pid c /\ ns_idx c' = ns_idx c /\ slot_live k' c' /\
  kframe system (ns_idx c) k k' /\ ns_eg c' ⊆ want /\
  (forall e, e ∈ want -> e ∈ ns_eg c' \/ refused system (ns_idx c) e) /\
  (exists b, cell_chain (ns_idx c) (ns_eg c) b (fw k) /\ cell_chain (ns_idx c) (ns_eg c') b (fw k')).
Proof.
  intros [H1 H2 H3 H4 Hln H5 H6 (b & Hb & Hc & Hst)] Hne Hs Hl.
  pose proof (egress_apply_spec system c want b k H1 H3 Hs Hc H4 Hl) as Hsp.
  destruct (egress_apply system c want k) as [[f c'] k'].
  destruct Hsp as (Ec & Hc' & Hfr & Hnd & Hsub & _ & _ & Hall & _).
  destruct c' as [p' i' eg' h' n' t']. cbn [ns_eg] in *.
  injection Ec as -> -> -> -> ->. cbn [ns_pid ns_idx].
  split_and!; [done|done| |done|done|done|by exists b].
  split; cbn [ns_idx ns_hosts ns_eg]; auto; [| |by rewrite (kf_links _ _ _ _ Hfr)|done|by exists b].
  - apply Forall_forall. intros e Hin. rewrite Forall_forall in Hs. by apply Hs, Hsub.
  - by eapply nodup_sub_len.
Qed.

Lemma refresh_slot_inv dns now l1 c l2 m nat k :
  net_inv m (l1 ++ c :: l2) nat k ->
  let '(c', k') := refresh_slot system dns now c k in
  net_inv m (l1 ++ c' :: l2) nat k' /\ ns_pid c' = ns_pid c /\ ns_idx c' = ns_idx c.
Proof.
  intros Hi. unfold refresh_slot.
  destruct (Z.eqb_spec (ns_pid c) 0) as [|Hp]; [done|]. cbn [orb].
  destruct (Nat.eqb_spec (length (ns_hosts c)) 0) as [|Hh]; [done|].
  destruct (now <? ns_next c); [done|].
  destruct (ni_live _ _ _ _ Hi c) as [Hl Ht]; [by apply live_in_middle; left|].
  assert (Hsame : forall t k' c', ns_pid c' = ns_pid c -> ns_idx c' = ns_idx c ->
    slot_live k' c' -> kframe system (ns_idx c) k k' ->
    net_inv m (l1 ++ set_next t c' :: l2) nat k').
  { intros t k' c' E1 E2 Hl' Hf.
    eapply (inv_slot (ns_idx c)); [exact Hi|by left|apply Hl|apply Hi|done| | |done|].
    - by eapply kframe_lframe.
    - apply (kf_seg _ _ _ _ Hf), Hi.
    - left. cbn. rewrite E1. split_and!; auto; [by apply slot_live_set_next|].
      apply (ni_nat _ _ _ _ Hi c). apply live_in_middle. by left. }
  pose proof (egress_want_code dns c) as Hcode.
  destruct (egress_want dns c) as [[[r want] ttl] bad] eqn:Ew. cbn in Hcode.
  destruct (Z.eqb_spec r (-2)); [split_and!; [by apply Hsame|done|done]|].
  destruct (Z.ltb_spec r 0); [split_and!; [by apply Hsame|done|done]|]. cbn [orb].
  destruct (Nat.eqb_spec (length want) 0) as [|Hw]; [split_and!; [by apply Hsame|done|done]|].
  assert (r = 0) as -> by lia.
  destruct (egress_want_ok dns c want ttl bad (sl_hosts _ _ Hl) Ew) as [Hs Hlen].
  pose proof (slot_live_apply want c k Hl ltac:(intros E; by rewrite E in Hh) Hs Hlen) as Ha.
  destruct (egress_apply system c want k) as [[f c'] k'].
  destruct Ha as (E1 & E2 & Hl' & Hf & _). split_and!; [by apply Hsame|done|done].
Qed.

Lemma refresh_slots_inv dns now l1 l2 m nat k :
  net_inv m (l1 ++ l2) nat k ->
  let '(l2', k') := refresh_slots system dns now l2 k in
  net_inv m (l1 ++ l2') nat k'.
Proof.
  revert l1 k. induction l2 as [|c l2 IH]; intros l1 k Hi; cbn [refresh_slots]; [done|].
  pose proof (refresh_slot_inv dns now l1 c l2 m nat k Hi) as H1.
  destruct (refresh_slot system dns now c k) as [c' k1]. destruct H1 as (H1 & _).
  specialize (IH (l1 ++ [c']) k1). rewrite <- app_assoc in IH. specialize (IH H1).
  destruct (refresh_slots system dns now l2 k1) as [l2' k'].
  by rewrite <- app_assoc in IH.
Qed.

(** ** Bringing a cell up: the link *)

Lemma link_add_spec i q k :
  idx_ok i -> let '(rc, k') := sh system (LinkAdd i q) k in
  fw k' = fw k /\ lframe i k k' /\ (rc = 0 -> i ∈ lk k').
Proof.
  intros Hi. pose proof (sh_moves (LinkAdd i q) k (idx_safe i Hi)) as Hm.
  cbn [effect moves] in Hm. destruct (sh system (LinkAdd i q) k) as [rc k']. cbn in Hm.
  destruct Hm as [(-> & _ & E)|(Hrc & E)].
  - rewrite E. cbn. split_and!; [done| |intros _; constructor].
    split; rewrite E; cbn; [|done]. intros j Hj. rewrite elem_of_cons. intuition.
  - rewrite E. split_and!; [done| |done]. split; by rewrite E.
Qed.

(** Only rules of veth [i] went, if any. *)
Record fewer (i : Z) (k k' : K) : Prop := {
  fe_rules : rules_of (Some i) (fw k') `sublist_of` rules_of (Some i) (fw k);
  fe_seg : segregated (fw k) -> segregated (fw k');
  fe_frame : lframe i k k'
}.

#[export] Instance fewer_preorder i : PreOrder (fewer i).
Proof.
  split; [by split|]. intros k1 k2 k3 [R1 S1 F1] [R2 S2 F2].
  split; [by etrans|auto|by etrans].
Qed.

Lemma fewer_eq i k k' : fw k' = fw k -> lframe i k k' -> fewer i k k'.
Proof. intros E Hf. split; by rewrite ?E. Qed.

Lemma scrub_spec i k : idx_ok i -> fewer i k (run system (ScrubIdx i) k).
Proof.
  intros Hi. unfold run.
  pose proof (sh_moves (ScrubIdx i) k (idx_safe i Hi)) as Hm. cbn [effect moves] in Hm.
  split; rewrite ?Hm; cbn [kv_fwd kv_links].
  - unfold rules_of. rewrite filter_none; [apply sublist_nil_l|].
    apply Forall_forall. by intros r [? _]%list_elem_of_filter.
  - apply segregated_filter.
  - split; rewrite Hm; cbn [kv_fwd kv_links]; [done|]. intros j Hj. by apply rules_of_filter_ne.
Qed.

Lemma neutral_spec c k :
  cmd_safe c = true -> effect c = ENone ->
  view (system := system) (sh system c k).2 = view k.
Proof. intros Hs He. pose proof (sh_moves c k Hs) as Hm. by rewrite He in Hm. Qed.

Lemma link_up_spec i pid k :
  idx_ok i -> s32 pid = pid ->
  let '(ok, k') := link_up system i pid k in fewer i k k' /\ (ok = true -> i ∈ lk k').
Proof.
  intros Hi Hpid. unfold link_up.
  pose proof (link_add_spec i true k Hi) as H1.
  destruct (sh system (LinkAdd i true) k) as [rc1 k1]. destruct H1 as (F1 & L1 & I1).
  pose proof (fewer_eq i k k1 F1 L1) as W1.
  assert (exists rc2 k2, (if rc1 =? 0 then (0, k1)
      else sh system (LinkAdd i false) (run system (ScrubIdx i) (run system (LinkDel i) k1)))
      = (rc2, k2) /\ fewer i k k2 /\ (rc2 = 0 -> i ∈ lk k2))
    as (rc2 & k2 & -> & F2 & I2).
  { destruct (Z.eqb_spec rc1 0) as [->|]; [by eexists _, _; eauto|].
    destruct (link_del_spec i k1 Hi) as (F3 & _ & L3).
    set (k3 := run system (LinkDel i) k1) in *.
    pose proof (scrub_spec i k3 Hi) as W4. set (k4 := run system (ScrubIdx i) k3) in *.
    pose proof (link_add_spec i false k4 Hi) as H5.
    destruct (sh system (LinkAdd i false) k4) as [rc5 k5]. destruct H5 as (F5 & L5 & I5).
    exists rc5, k5. split_and!; [done| |done].
    etrans; [exact W1|]. etrans; [by apply (fewer_eq i k1 k3)|].
    etrans; [exact W4|]. by apply fewer_eq. }
  assert (Hneutral : forall c k', cmd_safe c = true -> effect c = ENone ->
    fewer i k k' -> (i ∈ lk k') ->
    fewer i k (sh system c k').2 /\ (i ∈ lk (sh system c k').2)).
  { intros c k' Hs He Hf Hin. pose proof (neutral_spec c k' Hs He) as E.
    rewrite E. split; [|done]. etrans; [done|]. apply fewer_eq; [by rewrite E|]. split; by rewrite E. }
  destruct (Z.eqb_spec rc2 0) as [->|]; cbn [negb]; [|done]. specialize (I2 eq_refl).
  pose proof (idx_safe i Hi) as Hs.
  destruct (Hneutral (LinkNetns i pid) k2) as (Fa & Ia);
    [cbn [cmd_safe]; rewrite Hs, Hpid; apply Z.eqb_refl|done|done|done|].
  destruct (sh system (LinkNetns i pid) k2) as [rca ka]. cbn [snd] in *.
  destruct (rca =? 0); cbn [negb]; [|done].
  destruct (Hneutral (AddrAdd (i * 4) i) ka) as (Fb & Ib);
    [cbn [cmd_safe]; rewrite Hs; apply Z.eqb_eq; lia|done|done|done|].
  destruct (sh system (AddrAdd (i * 4) i) ka) as [rcb kb]. cbn [snd] in *.
  destruct (rcb =? 0); cbn [negb]; [|done].
  destruct (Hneutral (LinkUp i) kb) as (Fc & Ic); [done..|].
  destruct (sh system (LinkUp i) kb) as [rcc kc]. cbn [snd] in *.
  by destruct (rcc =? 0).
Qed.

(** ** NAT: only rules that name no veth are added, below every other rule *)

Lemma ensure_spec c r k :
  cmd_safe c = true -> effect c = EEnsure r -> rule_if r = None ->
  (forall i, rules_of (Some i) (fw (run system c k)) = rules_of (Some i) (fw k)) /\
  lk (run system c k) = lk k /\
  (Forall (fun r => rule_if r = None) (fw k) ->
   Forall (fun r => rule_if r = None) (fw (run system c k))).
Proof.
  intros Hs He Hr. unfold run. pose proof (sh_moves c k Hs) as Hm. rewrite He in Hm.
  cbn [moves] in Hm. destruct Hm as [->|[_ ->]]; [|done].
  destruct (decide _); cbn [kv_fwd kv_links]; [done|]. split_and!; [|done|].
  - intros i. rewrite rules_of_cons, decide_False by congruence. done.
  - intros Hf. by constructor.
Qed.

Lemma nat_ensure_spec s :
  (g_nat_on (st_d s) = false -> Forall (fun r => rule_if r = None) (fw (st_k s))) ->
  segregated (fw (st_k s)) ->
  let s' := nat_ensure system s in
  g_netmap (st_d s') = g_netmap (st_d s) /\ g_nets (st_d s') = g_nets (st_d s) /\
  g_nat_on (st_d s') = true /\ lk (st_k s') = lk (st_k s) /\
  (forall i, rules_of (Some i) (fw (st_k s')) = rules_of (Some i) (fw (st_k s))) /\
  segregated (fw (st_k s')).
Proof.
  intros Hn Hg s'. subst s'. unfold nat_ensure.
  destruct (g_nat_on (st_d s)) eqn:En; [done|]. cbn [st_d st_k g_netmap g_nets g_nat_on].
  specialize (Hn eq_refl).
  assert (view (system := system) (run system MasqEnsure (st_k s)) = view (st_k s)) as E0
    by (by apply neutral_spec).
  set (k0 := run system MasqEnsure (st_k s)) in *.
  destruct (ensure_spec SrcEnsure RSrc k0) as (R1 & L1 & N1); [done..|].
  set (k1 := run system SrcEnsure k0) in *.
  destruct (ensure_spec DstEnsure RDst k1) as (R2 & L2 & N2); [done..|].
  set (k2 := run system DstEnsure k1) in *.
  destruct (ensure_spec MetaEnsure RMeta k2) as (R3 & L3 & N3); [done..|].
  split_and!; [done|done|done| | |].
  - by rewrite L3, L2, L1, E0.
  - intros i. by rewrite R3, R2, R1, E0.
  - exists [], (fw (run system MetaEnsure k2)). split_and!; [done|done|].
    apply N3, N2, N1. by rewrite E0.
Qed.

(** ** [net_up] *)

Lemma alter_middle {A} (f : A -> A) l1 x l2 :
  alter f (length l1) (l1 ++ x :: l2) = l1 ++ f x :: l2.
Proof. rewrite <- (Nat.add_0_r (length l1)), alter_app_r. done. Qed.

(** The situation when a slot and an index have been claimed: the state before
    was consistent, only veth [i] was touched since. *)
Record claimed (i : Z) (l1 : list netslot) (c0 : netslot) (l2 : list netslot) (m : list Z)
    (nat0 : bool) (k0 : K) (c : netslot) (s : netst (K := K)) : Prop := {
  cm_inv : net_inv m (l1 ++ c0 :: l2) nat0 k0;
  cm_pid : ns_pid c0 = 0;
  cm_idx : idx_ok i;
  cm_free : netmap_test m i = false;
  cm_map : g_netmap (st_d s) = netmap_set m i;
  cm_nets : g_nets (st_d s) = l1 ++ c :: l2;
  cm_slot : ns_idx c = i;
  cm_frame : lframe i k0 (st_k s);
  cm_seg : segregated (fw (st_k s));
  cm_nat : nat0 = true -> g_nat_on (st_d s) = true
}.

Lemma claimed_unused i l1 c0 l2 m nat0 k0 c s :
  claimed i l1 c0 l2 m nat0 k0 c s -> forall c', live_in (l1 ++ l2) c' -> ns_idx c' <> i.
Proof.
  intros H c' Hc' E. destruct (ni_live _ _ _ _ (cm_inv _ _ _ _ _ _ _ _ _ H) c') as [_ Ht].
  - apply live_in_middle. by right.
  - rewrite E in Ht. pose proof (cm_free _ _ _ _ _ _ _ _ _ H). congruence.
Qed.

(** The rules of the claimed veth while it is being provisioned: the accept
    rules of the recorded pairs, base rules, and what a former cell left. *)
Definition partial_rules (i : Z) (k0 : K) (c : netslot) (k : K) : Prop :=
  Forall (fun e => pair_ok e = true) (ns_eg c) /\
  exists b left, (b `sublist_of` base_rules i) /\
    (left `sublist_of` rules_of (Some i) (fw k0)) /\ cell_chain i (ns_eg c) (b ++ left) (fw k).

(** The rules of an index that is claimed were base rules. *)
Lemma claimed_left i l1 c0 l2 m nat0 k0 c s :
  claimed i l1 c0 l2 m nat0 k0 c s -> base_only i (rules_of (Some i) (fw k0)).
Proof.
  intros Hcl. apply (ni_free _ _ _ _ (cm_inv _ _ _ _ _ _ _ _ _ Hcl)).
  intros c' [[-> Hp]|Hc']%live_in_middle.
  - by rewrite (cm_pid _ _ _ _ _ _ _ _ _ Hcl) in Hp.
  - by eapply claimed_unused.
Qed.

(** The rollback: the state is consistent again, with the slot and the index
    free, no link of the veth and no rule of it that was not there before. *)
Lemma net_fail_inv i l1 c0 l2 m nat0 k0 c s :
  claimed i l1 c0 l2 m nat0 k0 c s -> partial_rules i k0 c (st_k s) ->
  let s' := net_fail system (length l1) i s in
  st_inv s' /\ g_nets (st_d s') = l1 ++ slot_free c :: l2 /\
  (forall j, idx_ok j -> netmap_test (g_netmap (st_d s')) j = netmap_test m j) /\
  (i ∉ lk (st_k s')) /\ lframe i k0 (st_k s') /\
  (rules_of (Some i) (fw (st_k s')) `sublist_of` rules_of (Some i) (fw k0)).
Proof.
  intros Hcl (Hs & b & left & Hb & Hleft & Hc) s'. pose proof (claimed_left _ _ _ _ _ _ _ _ _ Hcl) as Hbo. pose proof (claimed_unused _ _ _ _ _ _ _ _ _ Hcl) as Hun.
  destruct Hcl as [Hi0 Hp Hi Hfree Hm Hn Hsl Hf Hg Hnat].
  pose proof (ni_map _ _ _ _ Hi0) as Hmok.
  assert (Hl : default [] (ns_eg <$> g_nets (st_d s) !! length l1) = ns_eg c)
    by (rewrite Hn, list_lookup_middle by done; done).
  assert (Htest : forall j, idx_ok j ->
    netmap_test (netmap_clear (g_netmap (st_d s)) i) j = netmap_test m j).
  { intros j Hj. rewrite Hm, netmap_test_clear by (auto using netmap_set_ok).
    rewrite netmap_test_set by done. destruct (Z.eqb_spec i j) as [<-|]; [done|]. done. }
  subst s'. unfold net_fail, st_inv. cbv zeta. rewrite Hl.
  cbn [st_d st_k set_slot set_map g_netmap g_nets g_nat_on].
  rewrite Hn, alter_middle.
  destruct (teardown_spec i (ns_eg c) (b ++ left) (st_k s) Hi Hs Hc Hg) as (T1 & T2 & T3 & T4).
  set (k' := run system (LinkDel i) _) in *.
  assert (rules_of (Some i) (fw k') `sublist_of` rules_of (Some i) (fw k0)) as Hsub.
  { rewrite T1. etrans; [by apply base_dropped_app|done]. }
  split_and!; [|done|done|done|by etrans|done].
  eapply (inv_slot i); [exact Hi0| |done| | | |done|done|].
  - right. done.
  - rewrite Hm. by apply netmap_clear_ok, netmap_set_ok.
  - intros j Hj _. by apply Htest.
  - by etrans.
  - right. split_and!; [done|by rewrite Htest|by eapply base_only_sub|].
    intros Hoff. rewrite (ni_off _ _ _ _ Hi0) in Hsub; [by apply sublist_nil_r in Hsub|].
    destruct nat0; [|done]. by rewrite Hnat in Hoff.
Qed.

(** The claim itself. *)
Lemma claim_slot s n i :
  st_inv s -> slot_find (g_nets (st_d s)) = Some n ->
  netmap_find (Z.to_nat 16384) (g_netmap (st_d s)) 0 = Some i ->
  exists l1 c0 l2, g_nets (st_d s) = l1 ++ c0 :: l2 /\ n = length l1 /\
  claimed i l1 c0 l2 (g_netmap (st_d s)) (g_nat_on (st_d s)) (st_k s) (slot_claim i c0)
    (NetSt (set_slot n (slot_claim i) (set_map (netmap_set (g_netmap (st_d s)) i) (st_d s)))
       (st_f s) (st_k s)).
Proof.
  intros Hi Hs Hm. apply slot_find_spec in Hs as (c0 & Hl & Hp).
  apply netmap_find_spec in Hm as (Hr & Ht & _).
  assert (idx_ok i) as Hidx by lia.
  apply list_elem_of_split_length in Hl as (l1 & l2 & El & ->).
  exists l1, c0, l2. split_and!; [done|done|].
  unfold st_inv in Hi. rewrite El in Hi.
  split; cbn [st_d st_k set_slot set_map g_netmap g_nets g_nat_on]; auto.
  - by rewrite El, alter_middle.
  - done.
  - apply Hi.
Qed.

Lemma claimed_kernel i l1 c0 l2 m nat0 k0 c s k' :
  claimed i l1 c0 l2 m nat0 k0 c s -> lframe i (st_k s) k' -> segregated (fw k') ->
  claimed i l1 c0 l2 m nat0 k0 c (NetSt (st_d s) (st_f s) k').
Proof. intros [] Hf Hg. split; auto. by etrans. Qed.

Lemma claimed_slot i l1 c0 l2 m nat0 k0 c s (f : netslot -> netslot) :
  claimed i l1 c0 l2 m nat0 k0 c s -> ns_idx (f c) = i ->
  claimed i l1 c0 l2 m nat0 k0 (f c)
    (NetSt (set_slot (length l1) f (st_d s)) (st_f s) (st_k s)).
Proof. intros [] Hf. split; auto. cbn. by rewrite cm_nets0, alter_middle. Qed.

Lemma no_veth_rules l : (forall i, rules_of (Some i) l = []) -> Forall (fun r => rule_if r = None) l.
Proof.
  intros H0. apply Forall_forall. intros r Hr. destruct (rule_if r) as [j|] eqn:Ej; [|done].
  exfalso. eapply (elem_of_nil r). rewrite <- (H0 j). by apply list_elem_of_filter.
Qed.

Lemma claimed_nat i l1 c0 l2 m nat0 k0 c s :
  claimed i l1 c0 l2 m nat0 k0 c s -> nat0 = g_nat_on (st_d s) -> fewer i k0 (st_k s) ->
  claimed i l1 c0 l2 m nat0 k0 c (nat_ensure system s) /\
  g_nat_on (st_d (nat_ensure system s)) = true /\
  lk (st_k (nat_ensure system s)) = lk (st_k s) /\
  rules_of (Some i) (fw (st_k (nat_ensure system s))) = rules_of (Some i) (fw (st_k s)).
Proof.
  intros Hcl En Ef. destruct (nat_ensure_spec s) as (E1 & E2 & E3 & E4 & E5 & E6).
  - intros Hoff. rewrite <- En in Hoff. apply no_veth_rules. intros j.
    pose proof (ni_off _ _ _ _ (cm_inv _ _ _ _ _ _ _ _ _ Hcl) Hoff) as H0.
    destruct (decide (j = i)) as [->|Hne].
    + apply sublist_nil_r. rewrite <- (H0 i). apply Ef.
    + rewrite (lf_rules _ _ _ (fe_frame _ _ _ Ef)) by done. apply H0.
  - apply Hcl.
  - destruct Hcl. split_and!; auto. split; auto; [congruence|congruence|].
    etrans; [done|]. split; [intros j _; by rewrite E4|done].
Qed.

(** The pairs a request stands for: every address of every host, at its port. *)
Definition requested (dns : Z * Z -> bytes -> list (Z * Z)) (c : netslot) (e : egpair) : Prop :=
  exists h a, h ∈ ns_hosts c /\ host_addr dns (omap ns_addr (ns_ns c)) (eh_host h) a /\
              e = EgPair (inet_ntop a) (eh_port h).

Lemma egress_want_requested dns c want ttl bad :
  hosts_ok (ns_hosts c) -> egress_want dns c = (0, want, ttl, bad) ->
  forall e, e ∈ want <-> requested dns c e.
Proof.
  intros Hh E e. apply want_hosts_spec in E as [H1 _].
  - rewrite H1. unfold requested. split; [intros [He|?]; [by apply elem_of_nil in He|done]|by right].
  - eapply Forall_impl; [exact Hh|]. cbn. intros h [_ Hl]%andb_true_iff. by apply Nat.leb_le.
Qed.

(** Applying a wanted set to a cell that has none yet. *)
Lemma apply_fresh i c want b k :
  idx_ok i -> ns_idx c = i -> ns_eg c = [] -> cell_chain i [] b (fw k) ->
  Forall (fun e => pair_ok e = true) want -> (length want <= MAX_EG_IPS)%nat ->
  let '(failed, c', k') := egress_apply system c want k in
  c' = NetSlot (ns_pid c) i (ns_eg c') (ns_hosts c) (ns_ns c) (ns_next c) /\
  cell_chain i (ns_eg c') b (fw k') /\ kframe system i k k' /\ NoDup (ns_eg c') /\
  Forall (fun e => pair_ok e = true) (ns_eg c') /\
  ((0 <? failed) = false -> forall e, e ∈ ns_eg c' <-> e ∈ want).
Proof.
  intros Hi Hx He Hc Hs Hl. subst i.
  pose proof (egress_apply_spec system c want b k Hi) as Ha. rewrite He in Ha.
  specialize (Ha ltac:(constructor) Hs Hc ltac:(constructor) Hl).
  destruct (egress_apply system c want k) as [[f c'] k'].
  destruct Ha as (E & Hc' & Hf & Hn & Hsub & H0 & Hall & _ & _).
  split_and!; auto.
  - apply Forall_forall. intros e Hin. rewrite Forall_forall in Hs. by apply Hs, Hsub.
  - intros Hz%Z.ltb_ge e. split; [apply Hsub|apply Hall; lia].
Qed.

Lemma net_egress_spec dns now i l1 c0 l2 m nat0 k0 c s :
  (strict = true -> base_reliable system) ->
  claimed i l1 c0 l2 m nat0 k0 c s -> hosts_ok (ns_hosts c) -> ns_hosts c <> [] ->
  ns_eg c = [] -> (rules_of (Some i) (fw (st_k s)) `sublist_of` rules_of (Some i) (fw k0)) ->
  (i ∈ lk (st_k s)) ->
  match net_egress system dns now (length l1) s with
  | inl s' => exists c', claimed i l1 c0 l2 m nat0 k0 c' s' /\ slot_live (st_k s') c' /\
      ns_pid c' = ns_pid c /\ ns_hosts c' = ns_hosts c /\ ns_ns c' = ns_ns c /\
      ns_eg c' <> [] /\ (forall e, e ∈ ns_eg c' <-> requested dns c e) /\
      g_nat_on (st_d s') = g_nat_on (st_d s)
  | inr (_, s') => exists c', claimed i l1 c0 l2 m nat0 k0 c' s' /\
      partial_rules i k0 c' (st_k s')
  end.
Proof.
  intros Hrel Hcl Hh Hne He Hr Hin. pose proof (cm_idx _ _ _ _ _ _ _ _ _ Hcl) as Hi.
  unfold net_egress. rewrite (cm_nets _ _ _ _ _ _ _ _ _ Hcl), list_lookup_middle by done.
  cbn [default]. pose proof (cm_slot _ _ _ _ _ _ _ _ _ Hcl) as Hx.
  change (id c) with c. rewrite Hx.
  destruct (base_ins system strict i (st_k s) Hrel Hi) as [(b & Hb & Hc) Hf].
  pose proof (base_part_sub _ _ _ Hb) as Hbs. pose proof (claimed_left _ _ _ _ _ _ _ _ _ Hcl) as Hbo.
  set (left := rules_of (Some i) (fw (st_k s))) in *.
  set (k1 := egress_base system i true (st_k s)) in *.
  assert (claimed i l1 c0 l2 m nat0 k0 c (NetSt (st_d s) (st_f s) k1)) as Hcl1.
  { apply claimed_kernel; [done|by apply kframe_lframe|]. apply (kf_seg _ _ _ _ Hf), Hcl. }
  assert (Hfail : exists c', claimed i l1 c0 l2 m nat0 k0 c' (NetSt (st_d s) (st_f s) k1) /\
      partial_rules i k0 c' k1).
  { exists c. split; [done|]. unfold partial_rules. rewrite He. split; [done|]. by exists b, left. }
  cbv zeta. pose proof (egress_want_code dns c) as Hcode.
  destruct (egress_want dns c) as [[[r want] ttl] bad] eqn:Ew. cbn in Hcode.
  destruct (Z.eqb_spec r (-2)); [exact Hfail|].
  destruct (Z.ltb_spec r 0); [exact Hfail|]. cbn [orb].
  destruct (Nat.eqb_spec (length want) 0) as [|Hw]; [exact Hfail|].
  assert (r = 0) as -> by lia.
  destruct (egress_want_ok dns c want ttl bad Hh Ew) as [Hs Hlen].
  pose proof (egress_want_requested dns c want ttl bad Hh Ew) as Hreq.
  pose proof (apply_fresh i c want (b ++ left) k1 Hi Hx He Hc Hs Hlen) as Ha.
  destruct (egress_apply system c want k1) as [[f c'] k2].
  destruct Ha as (Ec & Hc2 & Hf2 & Hn2 & Hs2 & Hall).
  assert (Hcl2 : forall c2, ns_idx c2 = i -> claimed i l1 c0 l2 m nat0 k0 c2
    (NetSt (set_slot (length l1) (fun _ => c2) (st_d s)) (st_f s) k2)).
  { intros c2 Hc2x. apply (claimed_slot i l1 c0 l2 m nat0 k0 c (NetSt (st_d s) (st_f s) k2)
                             (fun _ => c2)); [|done].
    apply (claimed_kernel _ _ _ _ _ _ _ _ _ k2 Hcl1); [by apply kframe_lframe|].
    apply (kf_seg _ _ _ _ Hf2), Hcl1. }
  destruct (0 <? f) eqn:Ef.
  - exists c'. split; [apply Hcl2; by rewrite Ec|]. split; [done|]. by exists b, left.
  - specialize (Hall eq_refl). exists (set_next (next_deadline now ttl) c').
    assert (slot_live k2 c') as Hlive.
    { rewrite Ec. split; cbn [ns_idx ns_hosts ns_eg]; auto; [| |done|].
      - eapply nodup_sub_len; [done| |done]. intros e. apply Hall.
      - rewrite (kf_links _ _ _ _ Hf2), (kf_links _ _ _ _ Hf). done.
      - exists (b ++ left). split_and!; [|done|].
        + apply Forall_app_2; [|by eapply base_only_sub].
          eapply base_only_sub; [exact Hbs|apply base_only_rules].
        + intros E _. rewrite E in Hb. cbn [base_part] in Hb. subst b. by apply prefix_app_r. }
    split_and!; [apply Hcl2; by rewrite Ec|by apply slot_live_set_next|by rewrite Ec..| | |done].
    { cbn [set_next ns_eg]. intros E. rewrite E in Hall. destruct want as [|w want]; [done|].
      eapply (elem_of_nil w), Hall. constructor. }
    intros e. cbn [set_next ns_eg]. by rewrite Hall.
Qed.

(** A request's hosts as the slot records them. *)
Definition recorded_hosts (hosts : list (bytes * bytes)) : list eghost :=
  (fun '(h, p) => EgHost (snprintf_s 128 h) (snprintf_s 8 p)) <$> take MAX_EGRESS hosts.

Lemma recorded_hosts_ok hosts : ports_ok hosts -> hosts_ok (recorded_hosts hosts).
Proof.
  intros Hp. unfold recorded_hosts. apply Forall_fmap.
  eapply Forall_impl; [apply Forall_take, Hp|]. by intros [h p].
Qed.

(** A successful [net_up]: a free slot and an unused index now belong to [pid],
    with exactly the requested pairs. *)
Record up_done (dns : Z * Z -> bytes -> list (Z * Z)) (pid : Z) (hosts : list (bytes * bytes))
    (nss : list bytes) (s s' : netst (K := K)) (rep : bytes) : Prop := {
  ud_slot : exists l1 c0 c l2, g_nets (st_d s) = l1 ++ c0 :: l2 /\
    g_nets (st_d s') = l1 ++ c :: l2 /\ ns_pid c0 = 0 /\ ns_pid c = pid /\
    ns_hosts c = recorded_hosts hosts /\ ns_ns c = (snprintf_s 64 <$> take MAX_NS nss) /\
    (forall c', live_in (g_nets (st_d s)) c' -> ns_idx c' <> ns_idx c) /\
    slot_live (st_k s') c /\
    (ns_hosts c <> [] -> ns_eg c <> [] /\ forall e, e ∈ ns_eg c <-> requested dns c e) /\
    (forall j, j <> ns_idx c -> rules_of (Some j) (fw (st_k s')) = rules_of (Some j) (fw (st_k s))) /\
    rep = snprintf_s REPN (net_up_reply c)
}.

(** A failed one: the live slots, the bitmap and the rules of every cell are as
    before, and there is no rule of a veth and no link that was not there. *)
Record up_undone (s s' : netst (K := K)) : Prop := {
  uu_live : forall c, live_in (g_nets (st_d s')) c <-> live_in (g_nets (st_d s)) c;
  uu_map : forall j, idx_ok j ->
    netmap_test (g_netmap (st_d s')) j = netmap_test (g_netmap (st_d s)) j;
  uu_cells : forall c, live_in (g_nets (st_d s)) c ->
    rules_of (Some (ns_idx c)) (fw (st_k s')) = rules_of (Some (ns_idx c)) (fw (st_k s));
  uu_rules : forall i,
    rules_of (Some i) (fw (st_k s')) `sublist_of` rules_of (Some i) (fw (st_k s));
  uu_links : lk (st_k s') ⊆ lk (st_k s)
}.

Lemma net_fail_undone s i l1 c0 l2 c s1 :
  claimed i l1 c0 l2 (g_netmap (st_d s)) (g_nat_on (st_d s)) (st_k s) c s1 ->
  g_nets (st_d s) = l1 ++ c0 :: l2 -> partial_rules i (st_k s) c (st_k s1) ->
  let s' := net_fail system (length l1) i s1 in st_inv s' /\ up_undone s s'.
Proof.
  intros Hcl El Hpr s'. subst s'.
  pose proof (claimed_unused _ _ _ _ _ _ _ _ _ Hcl) as Hun.
  pose proof (cm_pid _ _ _ _ _ _ _ _ _ Hcl) as Hp.
  destruct (net_fail_inv _ _ _ _ _ _ _ _ _ Hcl Hpr) as (Hinv & En & Hm & Hnl & [Hl Hf] & Hr).
  split; [done|]. split.
  - intros c'. rewrite En, El, !live_in_middle. cbn [slot_free ns_pid]. rewrite Hp. tauto.
  - done.
  - intros c'. rewrite El. intros [[-> Hc']|Hc']%live_in_middle; [done|]. by apply Hf, Hun.
  - intros j. destruct (decide (j = i)) as [->|Hne]; [done|]. by rewrite Hf.
  - intros j Hj. destruct (decide (j = i)) as [->|Hne]; [done|]. by apply Hl.
Qed.

(** The final step of a successful [net_up]. *)
Lemma claimed_done i l1 c0 l2 m nat0 k0 c s :
  claimed i l1 c0 l2 m nat0 k0 c s -> ns_pid c <> 0 -> slot_live (st_k s) c ->
  g_nat_on (st_d s) = true -> st_inv s.
Proof.
  intros Hcl Hp Hl Hn. pose proof (claimed_unused _ _ _ _ _ _ _ _ _ Hcl) as Hun.
  destruct Hcl as [Hi0 Hp0 Hi Hfree Hm Hns Hsl Hf Hg Hnat].
  pose proof (ni_map _ _ _ _ Hi0) as Hmok. unfold st_inv. rewrite Hns, Hm.
  eapply (inv_slot i); [exact Hi0|by right|done|by apply netmap_set_ok| |done|done|done|].
  - intros j Hj Hne. rewrite netmap_test_set by done.
    by rewrite (proj2 (Z.eqb_neq i j)) by done.
  - left. split_and!; auto. rewrite netmap_test_set by done. by rewrite Z.eqb_refl.
Qed.

(** The cell of a successful provisioning. *)
Definition provisioned (dns : Z * Z -> bytes -> list (Z * Z)) (pid : Z)
    (hosts : list (bytes * bytes)) (nss : list bytes) (k : K) (c : netslot) : Prop :=
  ns_pid c = pid /\ ns_hosts c = recorded_hosts hosts /\
  ns_ns c = (snprintf_s 64 <$> take MAX_NS nss) /\ slot_live k c /\
  (ns_hosts c <> [] -> ns_eg c <> [] /\ forall e, e ∈ ns_eg c <-> requested dns c e).

Lemma net_provision_spec dns now pid hosts nss i l1 c0 l2 k0 (s s1 : netst (K := K)) :
  (strict = true -> base_reliable system) -> ports_ok hosts ->
  claimed i l1 c0 l2 (g_netmap (st_d s)) (g_nat_on (st_d s)) k0 (slot_claim i c0) s1 ->
  g_nat_on (st_d s) = g_nat_on (st_d s1) -> fewer i k0 (st_k s1) -> (i ∈ lk (st_k s1)) ->
  match net_provision system dns now pid hosts nss (length l1) s1 with
  | inl (rep, s') => exists c,
      claimed i l1 c0 l2 (g_netmap (st_d s)) (g_nat_on (st_d s)) k0 c s' /\
      provisioned dns pid hosts nss (st_k s') c /\ g_nat_on (st_d s') = true /\
      rep = net_up_reply c
  | inr (_, s') => exists c,
      claimed i l1 c0 l2 (g_netmap (st_d s)) (g_nat_on (st_d s)) k0 c s' /\
      partial_rules i k0 c (st_k s')
  end.
Proof.
  intros Hrel Hports Hcl En F1 I1. pose proof (cm_idx _ _ _ _ _ _ _ _ _ Hcl) as Hi.
  destruct (claimed_nat _ _ _ _ _ _ _ _ s1 Hcl En F1) as (Hcl2 & Hnat & El2 & Er2).
  unfold net_provision. set (s2 := nat_ensure system s1) in *.
  apply (claimed_slot _ _ _ _ _ _ _ _ _ (slot_request pid hosts nss)) in Hcl2;
    [|by apply (cm_slot _ _ _ _ _ _ _ _ _ Hcl2)].
  set (s3 := NetSt (set_slot (length l1) (slot_request pid hosts nss) _) _ _) in *.
  set (c3 := slot_request pid hosts nss (slot_claim i c0)) in *. cbv zeta.
  rewrite (cm_nets _ _ _ _ _ _ _ _ _ Hcl2), list_lookup_middle by done. cbn [default].
  change (id c3) with c3.
  assert (rules_of (Some i) (fw (st_k s3)) `sublist_of` rules_of (Some i) (fw k0)) as Hr3
    by (change (st_k s3) with (st_k s2); rewrite Er2; apply F1).
  assert (cell_chain i [] (rules_of (Some i) (fw (st_k s3))) (fw (st_k s3))) as Hch3 by (by exists []).
  assert (hosts_ok (ns_hosts c3)) as Hh3 by (by apply recorded_hosts_ok).
  assert (i ∈ lk (st_k s3)) as Hin3 by (change (st_k s3) with (st_k s2); by rewrite El2).
  destruct (egress_no_resolv (needs_dns c3) (length (ns_ns c3))).
  { exists c3. split; [done|]. split; [constructor|].
    exists [], (rules_of (Some i) (fw (st_k s3))). split_and!; [apply sublist_nil_l|done|done]. }
  destruct (Nat.ltb_spec 0 (length hosts)) as [Hlen|Hlen].
  - assert (ns_hosts c3 <> []) as Hne3.
    { cbn [c3 slot_request ns_hosts]. destruct hosts; [cbn in Hlen; lia|done]. }
    pose proof (net_egress_spec dns now i l1 c0 l2 _ _ _ c3 s3 Hrel Hcl2 Hh3 Hne3 eq_refl Hr3 Hin3)
      as Heg.
    destruct (net_egress system dns now (length l1) s3) as [s4|[rep s4]]; [|exact Heg].
    destruct Heg as (c4 & Hc4 & Hl4 & P4 & H4 & N4 & Ne4 & R4 & Na4).
    exists c4. rewrite (cm_nets _ _ _ _ _ _ _ _ _ Hc4), list_lookup_middle by done.
    split_and!; [done| |by rewrite Na4|done]. split_and!; [by rewrite P4|done|done|done|].
    intros _. split; [done|]. intros e. rewrite R4. unfold requested. by rewrite H4, N4.
  - assert (ns_hosts c3 = []) as Hn3.
    { cbn [c3 slot_request ns_hosts]. destruct hosts; [done|cbn in Hlen; lia]. }
    exists c3. rewrite (cm_nets _ _ _ _ _ _ _ _ _ Hcl2), list_lookup_middle by done.
    split_and!; [done| |done|done]. split_and!; [done|done|done| |by rewrite Hn3].
    split; [done|done|constructor|constructor|cbn; unfold MAX_EG_IPS; lia|done|done|].
    exists (rules_of (Some i) (fw (st_k s3))). split_and!; [|done|done].
    eapply base_only_sub; [exact Hr3|]. by eapply claimed_left.
Qed.

Lemma net_up_spec dns now pid hosts nss s :
  (strict = true -> base_reliable system) ->
  st_inv s -> pid <> 0 -> s32 pid = pid -> ports_ok hosts ->
  let '(rc, rep, s') := net_up system dns now pid hosts nss s in
  st_inv s' /\ (rc = 0 /\ up_done dns pid hosts nss s s' rep \/ rc = -1 /\ up_undone s s').
Proof.
  intros Hrel Hinv Hpid Hp32 Hports. unfold net_up.
  destruct (slot_find (g_nets (st_d s))) as [n|] eqn:Hsf; [|by split; [|right]].
  destruct (netmap_find _ _ 0) as [i|] eqn:Hmf; [|by split; [|right]].
  destruct (claim_slot s n i Hinv Hsf Hmf) as (l1 & c0 & l2 & El & -> & Hcl).
  pose proof (cm_idx _ _ _ _ _ _ _ _ _ Hcl) as Hi.
  pose proof (link_up_spec i pid (st_k s) Hi Hp32) as Hlu.
  destruct (link_up system i pid (st_k s)) as [ok k1]. destruct Hlu as (F1 & I1).
  apply (claimed_kernel _ _ _ _ _ _ _ _ _ k1) in Hcl; [|apply F1|apply F1, Hinv].
  cbn [st_d st_f] in Hcl. cbv zeta. set (s1 := NetSt _ (st_f s) k1) in *.
  destruct ok; cbn [negb].
  - pose proof (net_provision_spec dns now pid hosts nss i l1 c0 l2 _ s s1 Hrel Hports Hcl
                  eq_refl F1 (I1 eq_refl)) as Hpr.
    destruct (net_provision _ _ _ _ _ _ _ _) as [[rep s']|[rep s']].
    + destruct Hpr as (c & Hc & (Hp & Hh & Hn & Hl & Hreq) & Hnat & ->).
      pose proof (claimed_unused _ _ _ _ _ _ _ _ _ Hc) as Hun.
      split; [eapply claimed_done; [exact Hc|congruence|done|done]|]. left. split; [done|].
      split. exists l1, c0, c, l2. split_and!; auto; [by apply Hc|by apply Hc| |].
      2:{ intros j. rewrite (cm_slot _ _ _ _ _ _ _ _ _ Hc). apply (cm_frame _ _ _ _ _ _ _ _ _ Hc). }
      rewrite El. intros c' [[-> Hx]|Hc']%live_in_middle.
      * by rewrite (cm_pid _ _ _ _ _ _ _ _ _ Hc) in Hx.
      * rewrite (cm_slot _ _ _ _ _ _ _ _ _ Hc). by apply Hun.
    + destruct Hpr as (c & Hc & Hch).
      destruct (net_fail_undone s i l1 c0 l2 c s' Hc El Hch). auto.
  - assert (partial_rules i (st_k s) (slot_claim i c0) (st_k s1)) as Hch.
    { split; [constructor|]. exists [], (rules_of (Some i) (fw k1)).
      split_and!; [apply sublist_nil_l|apply F1|by exists []]. }
    destruct (net_fail_undone s i l1 c0 l2 _ s1 Hcl El Hch). auto.
Qed.
End Invariant.
