(* ===== verification/NetSim.v ===== *)
(** * A concrete kernel for the daemon's commands

    [sim_system] reads the text of a command word by word, as the shell would
    split it, and applies it to a FORWARD chain and a set of veth links; it
    refuses to insert the rules of a given list, so that failing [iptables] runs
    can be exhibited too.  [sim_kernel] shows that it has the laws of
    [NetKernel], that is, that these laws can hold for the texts the daemon
    builds. *)

From S2P Require Import Prelude CString Inet Netfilter.
Local Open Scope Z_scope.

(** ** Reading a command *)

(** [vethh<n>]: the number and what follows. *)
Definition veth_of (w : bytes) : option (Z * bytes) :=
  if starts_with (B "vethh") w then scan_int (drop 5 w) else None.
Definition veth_idx (w : bytes) : Z :=
  match veth_of w with Some (i, _) => i | None => -1 end.

(** The rule of the words after [-i]. *)
Definition rule_of_words (ws : list bytes) : option frule :=
  match ws with
  | v :: a :: b :: rest =>
      if decide (a = B "-j") then Some (RDrop (veth_idx v))
      else if decide (a = B "-m") then Some (REst (veth_idx v))
      else if decide (b = B "udp") then Some (RDns (veth_idx v))
      else match rest with
           | _ :: ip :: _ :: port :: _ => Some (RAcc (veth_idx v) ip port)
           | _ => None
           end
  | _ => None
  end.

(** The global rule of the words after the chain's name. *)
Definition global_of_words (ws : list bytes) : option frule :=
  match ws with
  | a :: _ :: b :: _ =>
      if decide (b = B "-d") then Some RMeta
      else if decide (a = B "-s") then Some RSrc
      else Some RDst
  | _ => None
  end.

Definition effect_or (f : frule -> keffect) (r : option frule) : keffect :=
  match r with Some r => f r | None => ENone end.

Definition effect_of_words (ws : list bytes) : keffect :=
  match ws with
  | w0 :: w1 :: w2 :: w3 :: rest =>
      if decide (w0 = B "ip") then
        if decide (w1 = B "-o") then ELinkDelAll
        else if decide (w2 = B "add") then
          if decide (w1 = B "link") then ELinkAdd (veth_idx w3) else ENone
        else if decide (w2 = B "del") then ELinkDel (veth_idx w3)
        else ENone
      else if decide (w0 = B "iptables-save") then
        match rest with
        | _ :: _ :: _ :: v :: _ =>
            match veth_of v with Some (i, _) => EScrub i | None => EScrubAll end
        | _ => ENone
        end
      else if decide (w1 = B "-t") then ENone
      else if decide (w1 = B "-C") then effect_or EEnsure (global_of_words (w3 :: rest))
      else if decide (w1 = B "-I") then
        match rest with _ :: ws => effect_or EIns (rule_of_words ws) | [] => ENone end
      else if decide (w3 = B "-i") then effect_or EDel (rule_of_words rest)
      else effect_or EDel (global_of_words (w3 :: rest))
  | _ => ENone
  end.

(** ** Running it *)

Section Run.
(** The rules [iptables] refuses to insert. *)
Context (refuse : list frule).

Definition sim_run (e : keffect) (v : kview) : Z * kview :=
  match e with
  | EIns r =>
      if decide (r ∈ refuse) then (1, v) else (0, KView (r :: kv_fwd v) (kv_links v))
  | EDel r =>
      (if decide (r ∈ kv_fwd v) then 0 else 1, KView (remove_first r (kv_fwd v)) (kv_links v))
  | EEnsure r =>
      (0, if decide (r ∈ kv_fwd v) then v else KView (r :: kv_fwd v) (kv_links v))
  | EScrub i => (0, KView (filter (fun r => rule_if r <> Some i) (kv_fwd v)) (kv_links v))
  | EScrubAll => (0, KView (filter (fun r => rule_if r = None) (kv_fwd v)) (kv_links v))
  | ELinkAdd i =>
      if decide (i ∈ kv_links v) then (1, v) else (0, KView (kv_fwd v) (i :: kv_links v))
  | ELinkDel i => (0, KView (kv_fwd v) (filter (fun j => j <> i) (kv_links v)))
  | ELinkDelAll => (0, KView (kv_fwd v) [])
  | ENone => (0, v)
  end.

Definition sim_system (cmd : bytes) (v : kview) : Z * kview :=
  sim_run (effect_of_words (strtok SP cmd)) v.

Lemma sim_run_moves e v : moves e v (sim_run e v).1 (sim_run e v).2.
Proof.
  destruct e; cbn [sim_run moves fst snd]; try done.
  - destruct (decide _); [by right|by left].
  - split; [|done]. by destruct (decide _).
  - by left.
  - destruct (decide _); [by right|by left].
Qed.
End Run.

(** ** Splitting a command into words *)

Fixpoint join (ws : list bytes) : bytes :=
  match ws with
  | [] => []
  | [w] => w
  | w :: ws' => w ++ SP :: join ws'
  end.

Definition word (w : bytes) : Prop := w <> [] /\ SP ∉ w.

Lemma tokens_word w cur s :
  SP ∉ w -> tokens_acc SP cur (w ++ s) = tokens_acc SP (rev w ++ cur) s.
Proof.
  revert cur. induction w as [|c w IH]; intros cur Hw; [done|].
  apply not_elem_of_cons in Hw as [Hc Hw]. cbn [app tokens_acc rev].
  rewrite decide_False by congruence. rewrite IH by done. by rewrite <- app_assoc.
Qed.

Lemma rev_nonempty (w : bytes) : w <> [] -> exists x l, rev w = x :: l.
Proof.
  intros Hn. destruct (rev w) as [|x l] eqn:E; [|eauto].
  destruct Hn. by rewrite <- (rev_involutive w), E.
Qed.

Lemma strtok_join ws : Forall word ws -> strtok SP (join ws) = ws.
Proof.
  intros Hw. unfold strtok. induction Hw as [|w ws [Hn Hs] Hw IH]; [done|].
  destruct (rev_nonempty w Hn) as (x & l & E).
  destruct ws as [|w' ws].
  - cbn [join]. rewrite <- (app_nil_r w) at 1. rewrite tokens_word by done.
    rewrite app_nil_r, E. cbn [tokens_acc]. by rewrite <- E, rev_involutive.
  - change (join (w :: w' :: ws)) with (w ++ SP :: join (w' :: ws)).
    rewrite tokens_word, app_nil_r, E by done. cbn [tokens_acc].
    rewrite decide_True by done. by rewrite <- E, rev_involutive, IH.
Qed.

Lemma word_lit s : bool_decide (B s <> [] /\ SP ∉ B s) = true -> word (B s).
Proof. by intros H%bool_decide_eq_true. Qed.

Lemma word_app w1 w2 : word w1 -> SP ∉ w2 -> word (w1 ++ w2).
Proof.
  intros [H1 H2] H3. split.
  - by destruct w1.
  - rewrite elem_of_app. tauto.
Qed.

(** ** The texts of the daemon's commands *)

Lemma cmd_idx_ok_spec i : cmd_idx_ok i = true -> 0 <= i < 16384.
Proof. unfold cmd_idx_ok. intros. zbool. lia. Qed.

Lemma idx_text_length i : cmd_idx_ok i = true -> (length (print_d i) <= 16)%nat.
Proof.
  intros Hi%cmd_idx_ok_spec. apply (print_d_length i 14). lia.
Qed.

(** Every command the daemon runs fits [cmd[512]]. *)
Lemma render_fits c : cmd_safe c = true -> (length (render c) < 512)%nat.
Proof.
  assert (Hx : forall n, (length (print_u (Z.land n 255)) <= 9)%nat).
  { intros n. apply (print_u_length _ 8). change 255 with (Z.ones 8).
    rewrite Z.land_ones by lia. pose proof (Z.mod_pos_bound n (2 ^ 8)). cbn. lia. }
  destruct c; cbn [cmd_safe]; intros Hs; cbn [render];
    repeat match goal with
      | H : (_ && _) = true |- _ => apply andb_true_iff in H as [? ?]
      | H : cmd_idx_ok ?i = true |- _ =>
          pose proof (idx_text_length i H); pose proof (cmd_idx_ok_spec i H); clear H
      | H : (_ <=? _)%nat = true |- _ => apply Nat.leb_le in H
      | H : (_ =? _) = true |- _ => apply Z.eqb_eq in H
      end;
    try (lazymatch goal with |- context [print_d _] => fail | _ => vm_compute; lia end);
    unfold op_text; repeat match goal with |- context [if ?b then _ else _] => destruct b end;
    rewrite ?length_app; cbn [length B list_ascii_of_string QUIET]; try lia.
  - assert (length (print_d pid) <= 34)%nat; [|lia].
    apply (print_d_length pid 32). change (2 ^ Z.of_nat 32) with (2 ^ 32).
    rewrite <- H0. unfold s32. pose proof (Z.mod_pos_bound (pid + 2 ^ 31) (2 ^ 32)). lia.
  - specialize (Hx (b + 1)).
    assert (length (print_u (Z.shiftr (b + 1) 8)) <= 17)%nat; [|lia].
    apply (print_u_length _ 16). rewrite Z.shiftr_div_pow2 by lia. cbn.
    Z.div_mod_to_equations. lia.
Qed.

(** ** The kernel reads the texts as the daemon means them *)

Lemma digit_text_no_sp s : forallb isdigit s = true -> SP ∉ s.
Proof.
  intros Hd Hin. rewrite forallb_forall in Hd. apply list_elem_of_In, Hd in Hin. done.
Qed.

Lemma idx_text i : 0 <= i -> print_d i = print_u i /\ SP ∉ print_d i.
Proof.
  intros Hi. assert (print_d i = print_u i) as E
    by (unfold print_d; by rewrite (proj2 (Z.ltb_ge i 0)) by done).
  split; [done|]. rewrite E. apply digit_text_no_sp. by apply print_u_spec.
Qed.

Lemma veth_of_text i r :
  0 <= i -> stops isdigit r -> veth_of (B "vethh" ++ print_d i ++ r) = Some (i, r).
Proof.
  intros Hi Hr. unfold veth_of. rewrite starts_with_app.
  change (drop 5 (B "vethh" ++ print_d i ++ r)) with (print_d i ++ r).
  destruct (idx_text i Hi) as [-> _]. by apply scan_int_print_u.
Qed.

Lemma veth_idx_text i : 0 <= i -> veth_idx (B "vethh" ++ print_d i) = i.
Proof.
  intros Hi. unfold veth_idx. rewrite <- (app_nil_r (print_d i)).
  by rewrite veth_of_text.
Qed.

Lemma veth_word p i : word p -> 0 <= i -> word (p ++ print_d i).
Proof. intros Hp Hi. apply word_app; [done|]. by apply idx_text. Qed.

Lemma plain_word_word w : plain_word w = true -> word w.
Proof.
  intros [Hn Hc]%andb_true_iff. apply negb_true_iff, bool_decide_eq_false in Hn.
  split; [done|]. intros Hin. rewrite forallb_forall in Hc.
  apply list_elem_of_In, Hc in Hin. done.
Qed.

(** Compare the literal words of a command. *)
Ltac words_eq :=
  repeat first
    [ rewrite decide_True by reflexivity
    | rewrite decide_False by (let E := fresh in intros E; discriminate E) ].

(** Show that each element of a list of words is one. *)
Ltac words_ok :=
  repeat apply Forall_cons_2; try apply Forall_nil_2;
  first [ by apply word_lit | by apply veth_word; [apply word_lit|lia]
        | by apply plain_word_word
        | apply word_app; [by apply word_lit|] ].

Lemma effect_of_join ws : Forall word ws ->
  effect_of_words (strtok SP (join ws)) = effect_of_words ws.
Proof. intros Hw. by rewrite strtok_join. Qed.

Abbreviation vh i := (B "vethh" ++ print_d i).

Lemma link_text i : 0 <= i ->
  effect_of_words (strtok SP (render (LinkAdd i true))) = ELinkAdd i /\
  effect_of_words (strtok SP (render (LinkAdd i false))) = ELinkAdd i /\
  effect_of_words (strtok SP (render (LinkDel i))) = ELinkDel i /\
  effect_of_words (strtok SP (render (LinkUp i))) = ENone.
Proof.
  intros Hi. split_and!.
  - change (render (LinkAdd i true)) with
      (join [B "ip"; B "link"; B "add"; vh i; B "type"; B "veth"; B "peer"; B "name";
             B "vethc" ++ print_d i; B "2>/dev/null"]).
    rewrite effect_of_join by words_ok. unfold effect_of_words. words_eq. by rewrite veth_idx_text.
  - assert (render (LinkAdd i false) =
      join [B "ip"; B "link"; B "add"; vh i; B "type"; B "veth"; B "peer"; B "name";
             B "vethc" ++ print_d i]) as -> by (cbn; by rewrite app_nil_r).
    rewrite effect_of_join by words_ok. unfold effect_of_words. words_eq. by rewrite veth_idx_text.
  - change (render (LinkDel i)) with
      (join [B "ip"; B "link"; B "del"; vh i; B "2>/dev/null"]).
    rewrite effect_of_join by words_ok. unfold effect_of_words. words_eq. by rewrite veth_idx_text.
  - change (render (LinkUp i)) with (join [B "ip"; B "link"; B "set"; vh i; B "up"]).
    rewrite effect_of_join by words_ok. unfold effect_of_words. words_eq. done.
Qed.

Lemma scrub_text i : 0 <= i ->
  effect_of_words (strtok SP (render (ScrubIdx i))) = EScrub i.
Proof.
  intros Hi.
  assert (render (ScrubIdx i) =
    join [B "iptables-save"; B "2>/dev/null"; B "|"; B "grep"; B "-E"; B "--"; B "'-[io]";
           B "vethh" ++ print_d i ++ B "("; B "|$)'"; B "|"; B "sed"; B "'s/^-A/-D/'"; B "|";
           B "while"; B "read"; B "-r"; B "r;"; B "do"; B "iptables"; B "$r"; B "2>/dev/null;";
           B "done"]) as -> by (cbn; by rewrite <- app_assoc).
  rewrite effect_of_join.
  - unfold effect_of_words. words_eq. by rewrite veth_of_text.
  - repeat apply Forall_cons_2; try apply Forall_nil_2; try (by apply word_lit).
    apply word_app; [by apply word_lit|]. rewrite elem_of_app. intros [Hin|Hin].
    + by apply (idx_text i).
    + by apply list_elem_of_singleton in Hin.
Qed.

Lemma print_u_word z : 0 <= z -> word (print_u z).
Proof.
  intros Hz. destruct (print_u_spec z Hz) as (Hd & Hn & _).
  split; [done|]. by apply digit_text_no_sp.
Qed.

Lemma print_d_word z : word (print_d z).
Proof.
  unfold print_d. destruct (Z.ltb_spec z 0); [|by apply print_u_word].
  split; [done|]. destruct (print_u_word (- z)) as [_ Hs]; [lia|].
  by apply not_elem_of_cons.
Qed.

Lemma setup_text i pid : 0 <= i ->
  effect_of_words (strtok SP (render (LinkNetns i pid))) = ENone /\
  effect_of_words (strtok SP (render (AddrAdd (4 * i) i))) = ENone.
Proof.
  intros Hi. split.
  - change (render (LinkNetns i pid)) with
      (join [B "ip"; B "link"; B "set"; B "vethc" ++ print_d i; B "netns"; print_d pid]).
    rewrite effect_of_join; [unfold effect_of_words; words_eq; done|].
    repeat apply Forall_cons_2; try apply Forall_nil_2; try (by apply word_lit).
    + by apply veth_word; [apply word_lit|].
    + apply print_d_word.
  - assert (render (AddrAdd (4 * i) i) =
      join [B "ip"; B "addr"; B "add";
            B "10.200." ++ print_u (Z.shiftr (4 * i + 1) 8) ++
            B "." ++ print_u (Z.land (4 * i + 1) 255) ++ B "/30"; B "dev"; vh i]) as ->.
    { cbn [render join]. rewrite <- !app_assoc. done. }
    rewrite effect_of_join; [unfold effect_of_words; words_eq; done|].
    repeat apply Forall_cons_2; try apply Forall_nil_2; try (by apply word_lit).
    + apply word_app; [by apply word_lit|]. rewrite !not_elem_of_app. split_and!.
      * apply print_u_word. apply Z.shiftr_nonneg. lia.
      * by apply not_elem_of_cons; split; [|apply not_elem_of_nil].
      * apply print_u_word. apply Z.land_nonneg. lia.
      * by apply (word_lit "/30").
    + by apply veth_word; [apply word_lit|].
Qed.

Lemma base_text add i : 0 <= i ->
  effect_of_words (strtok SP (render (BaseDrop add i))) = ins_del add (RDrop i) /\
  effect_of_words (strtok SP (render (BaseEst add i))) = ins_del add (REst i) /\
  effect_of_words (strtok SP (render (BaseDns add i))) = ins_del add (RDns i).
Proof.
  intros Hi.
  set (ops := if add then [B "-I"; B "FORWARD"; B "1"] else [B "-D"; B "FORWARD"]).
  assert (render (BaseDrop add i) =
    join (B "iptables" :: ops ++ [B "-i"; vh i; B "-j"; B "DROP"; B "2>/dev/null"])) as ->
    by (by destruct add).
  assert (render (BaseEst add i) =
    join (B "iptables" :: ops ++ [B "-i"; vh i; B "-m"; B "conntrack"; B "--ctstate";
            B "ESTABLISHED,RELATED"; B "-j"; B "ACCEPT"; B "2>/dev/null"])) as ->
    by (by destruct add).
  assert (render (BaseDns add i) =
    join (B "iptables" :: ops ++ [B "-i"; vh i; B "-p"; B "udp"; B "--dport"; B "53"; B "-j";
            B "ACCEPT"; B "2>/dev/null"])) as -> by (by destruct add).
  destruct add; cbn [app ops]; split_and!; rewrite effect_of_join by words_ok;
    unfold effect_of_words; words_eq; unfold rule_of_words; words_eq; cbn [effect_or ins_del];
    by rewrite veth_idx_text.
Qed.

Lemma accept_text add i ip port :
  0 <= i -> plain_word ip = true -> plain_word port = true ->
  effect_of_words (strtok SP (render (AcceptCmd add i ip port))) = ins_del add (RAcc i ip port).
Proof.
  intros Hi Hip Hport.
  set (ops := if add then [B "-I"; B "FORWARD"; B "1"] else [B "-D"; B "FORWARD"]).
  assert (render (AcceptCmd add i ip port) =
    join (B "iptables" :: ops ++ [B "-i"; vh i; B "-p"; B "tcp"; B "-d"; ip; B "--dport"; port;
            B "-j"; B "ACCEPT"; B "2>/dev/null"])) as -> by (by destruct add).
  destruct add; cbn [app ops]; rewrite effect_of_join by words_ok;
    unfold effect_of_words; words_eq; unfold rule_of_words; words_eq; cbn [effect_or ins_del];
    by rewrite veth_idx_text.
Qed.

Lemma sim_effect c :
  cmd_safe c = true -> effect_of_words (strtok SP (render c)) = effect c.
Proof.
  destruct c as [i q|i|i|i pid|b i|i| | | | | | | | |a i|a i|a i|a i ip port| |]; cbn [cmd_safe];
    intros Hs.
  7-14, 19-20: reflexivity.
  - apply cmd_idx_ok_spec in Hs as [Hi _].
    destruct q; [exact (proj1 (link_text i Hi))|exact (proj1 (proj2 (link_text i Hi)))].
  - apply cmd_idx_ok_spec in Hs as [Hi _]. exact (proj1 (proj2 (proj2 (link_text i Hi)))).
  - apply cmd_idx_ok_spec in Hs as [? _]. by apply scrub_text.
  - apply andb_true_iff in Hs as [[? _]%cmd_idx_ok_spec _]. by apply setup_text.
  - apply andb_true_iff in Hs as [[? _]%cmd_idx_ok_spec ->%Z.eqb_eq]. by apply (setup_text i 0).
  - apply cmd_idx_ok_spec in Hs as [Hi _]. exact (proj2 (proj2 (proj2 (link_text i Hi)))).
  - apply cmd_idx_ok_spec in Hs as [Hi _]. exact (proj1 (base_text a i Hi)).
  - apply cmd_idx_ok_spec in Hs as [Hi _]. exact (proj1 (proj2 (base_text a i Hi))).
  - apply cmd_idx_ok_spec in Hs as [Hi _]. exact (proj2 (proj2 (base_text a i Hi))).
  - rewrite !andb_true_iff in Hs. destruct Hs as [[[[Hi Hip] _] Hport] _].
    apply cmd_idx_ok_spec in Hi as [? _]. by apply accept_text.
Qed.

(** Running a safe command runs its effect. *)
Lemma sim_sh refuse c v :
  cmd_safe c = true -> sh (sim_system refuse) c v = sim_run refuse (effect c) v.
Proof.
  intros Hs. unfold sh, sim_system, snprintf_s.
  rewrite take_ge by (pose proof (render_fits c Hs); lia). by rewrite sim_effect.
Qed.

#[export] Instance sim_kernel refuse : NetKernel kview (sim_system refuse).
Proof.
  refine {| view := fun v => v |}. intros c k Hs. rewrite sim_sh by done. apply sim_run_moves.
Defined.
