(* ===== verification/NetThms.v ===== *)
(** * Network provisioning: theorems

    The daemon as a state machine over [net_up], [net_down] and
    [egress_refresh], what holds in every state it can reach, and what each
    operation does; then the behaviours of the code that its comments do not
    promise. *)

From S2P Require Import Prelude CString Inet Netfilter NetDaemon NetChain NetInv NetSim.
Local Open Scope Z_scope.

(** ** The daemon as a state machine *)

Inductive net_op :=
  | OpUp (dns : Z * Z -> bytes -> list (Z * Z)) (now pid : Z)
         (hosts : list (bytes * bytes)) (nss : list bytes)
  | OpDown (pid : Z)
  | OpRefresh (dns : Z * Z -> bytes -> list (Z * Z)) (now : Z).

(** Requests of real processes whose ports are plain words. *)
Definition op_ok (o : net_op) : Prop :=
  match o with
  | OpUp _ _ pid hosts _ => pid <> 0 /\ s32 pid = pid /\ ports_ok hosts
  | OpDown pid => pid <> 0
  | OpRefresh _ _ => True
  end.

Section Machine.
Context {K : Type} (system : bytes -> K -> Z * K).

Definition net_exec (o : net_op) (s : netst (K := K)) : netst (K := K) :=
  match o with
  | OpUp dns now pid hosts nss => (net_up system dns now pid hosts nss s).2
  | OpDown pid => net_down system pid s
  | OpRefresh dns now =>
      let '(d, k) := egress_refresh system dns now (st_d s) (st_k s) in NetSt d (st_f s) k
  end.

(** The daemon at startup, on any kernel and any files. *)
Definition net_start (f : fwdfiles) (k : K) : netst (K := K) :=
  net_recover_startup system (NetSt netd_init f k).

Inductive net_reach (f : fwdfiles) (k : K) : netst (K := K) -> Prop :=
  | reach_start : net_reach f k (net_start f k)
  | reach_step s o : net_reach f k s -> op_ok o -> net_reach f k (net_exec o s).
End Machine.

Section Theorems.
Context {K : Type} (system : bytes -> K -> Z * K) `{!NetKernel K system} (strict : bool).

Abbreviation fw k := (kv_fwd (view (system := system) k)).
Abbreviation lk k := (kv_links (view (system := system) k)).

(** *** Startup *)

Lemma not_live_init c : ~ live_in (replicate 64 slot_empty) c.
Proof. intros [Hc Hp]. apply elem_of_replicate in Hc as [-> _]. done. Qed.

Lemma netmap_init_test i : netmap_test (replicate 256 0) i = false.
Proof.
  unfold netmap_test.
  assert (default 0 (replicate 256 0 !! Z.to_nat (Z.shiftr i 6)) = 0) as ->; [|by rewrite Z.land_0_l].
  destruct (replicate 256 0 !! _) as [w|] eqn:E; [|done].
  by apply lookup_replicate in E as [-> _].
Qed.

Lemma del_global c r k :
  cmd_safe c = true -> effect c = EDel r -> Forall (fun r => rule_if r = None) (fw k) ->
  Forall (fun r => rule_if r = None) (fw (run system c k)).
Proof.
  intros Hs He Hf. unfold run. destruct (del_spec system c r k Hs He) as [-> _].
  by apply Forall_remove_first.
Qed.

Lemma net_start_globals f k :
  Forall (fun r => rule_if r = None) (fw (st_k (net_start system f k))).
Proof.
  unfold net_start, net_recover_startup. cbn [st_k].
  apply (del_global MetaDel RMeta); [done..|]. apply (del_global DstDel RDst); [done..|].
  apply (del_global SrcDel RSrc); [done..|].
  unfold run at 1. rewrite (neutral_spec system MasqDel) by done.
  unfold run at 1. pose proof (sh_moves StaleRules (run system StaleLinks k) eq_refl) as Hm.
  cbn [effect moves] in Hm. rewrite Hm. cbn [kv_fwd].
  apply Forall_forall. intros r [? _]%list_elem_of_filter. done.
Qed.

Lemma net_start_inv f k : st_inv system strict (net_start system f k).
Proof.
  pose proof (net_start_globals f k) as Hg.
  unfold st_inv. cbn [net_start net_recover_startup st_d netd_init g_netmap g_nets g_nat_on].
  split.
  - split; [done|]. by apply Forall_replicate.
  - done.
  - by intros c Hc%not_live_init.
  - intros l1 c l2 E Hc. exfalso. apply (not_live_init c). split; [|done].
    rewrite E. apply elem_of_app. right. constructor.
  - intros i _ Ht. by rewrite netmap_init_test in Ht.
  - intros i _. unfold rules_of. rewrite filter_none; [constructor|].
    eapply Forall_impl; [exact Hg|]. cbn. congruence.
  - exists [], (fw (st_k (net_start system f k))). done.
  - by intros c Hc%not_live_init.
  - intros _ i. apply filter_none. eapply Forall_impl; [exact Hg|]. cbn. congruence.
Qed.

(** *** Every operation preserves the invariant *)

Lemma net_down_inv pid s :
  st_inv system strict s -> pid <> 0 ->
  let s' := net_down system pid s in
  st_inv system strict s' /\
  (forall i, (forall c, live_in (g_nets (st_d s)) c -> ns_pid c = pid -> ns_idx c <> i) ->
     rules_of (Some i) (fw (st_k s')) = rules_of (Some i) (fw (st_k s)) /\
     ((i ∈ lk (st_k s')) <-> (i ∈ lk (st_k s)))) /\
  (forall c, live_in (g_nets (st_d s)) c -> ns_pid c = pid ->
     (ns_idx c ∉ lk (st_k s')) /\ down_rules system c (st_k s) (st_k s')) /\
  (forall c, live_in (g_nets (st_d s')) c <->
     live_in (g_nets (st_d s)) c /\ ns_pid c <> pid).
Proof.
  intros Hi Hp s'. subst s'. unfold net_down.
  pose proof (down_slots_inv system strict (fun p => p =? pid) slot_free []
                (g_nets (st_d s)) (g_netmap (st_d s)) (g_nat_on (st_d s)) (st_k s)
                ltac:(done) ltac:(apply Z.eqb_neq; lia) Hi) as Hd.
  destruct (down_slots system _ slot_free _ _ _) as [[l m] k]. cbn [app] in Hd.
  destruct Hd as (H1 & H2 & H3 & H4). cbn. split_and!.
  - done.
  - intros i Hfr. apply H2. intros c Hc Hpc%Z.eqb_eq. by apply Hfr.
  - intros c Hc Hpc. apply H3; [done|]. by apply Z.eqb_eq.
  - intros c. rewrite H4, Z.eqb_neq. done.
Qed.

Lemma net_refresh_inv dns now s :
  st_inv system strict s -> st_inv system strict (net_exec system (OpRefresh dns now) s).
Proof.
  intros Hi. cbn [net_exec]. unfold egress_refresh.
  pose proof (refresh_slots_inv system strict dns now [] (g_nets (st_d s)) (g_netmap (st_d s))
                (g_nat_on (st_d s)) (st_k s) Hi) as H.
  by destruct (refresh_slots system dns now (g_nets (st_d s)) (st_k s)) as [l k].
Qed.

Lemma net_exec_inv o s :
  (strict = true -> base_reliable system) -> op_ok o -> st_inv system strict s -> st_inv system strict (net_exec system o s).
Proof.
  intros Hb Ho Hi. destruct o as [dns now pid hosts nss|pid|dns now].
  - destruct Ho as (Hp & Hs & Hports). cbn [net_exec].
    pose proof (net_up_spec system strict dns now pid hosts nss s Hb Hi Hp Hs Hports) as H.
    destruct (net_up system dns now pid hosts nss s) as [[rc rep] s']. by destruct H.
  - by apply net_down_inv.
  - by apply net_refresh_inv.
Qed.

Lemma net_reach_inv f k s :
  (strict = true -> base_reliable system) -> net_reach system f k s -> st_inv system strict s.
Proof.
  intros Hb. induction 1 as [|s o _ IH Ho]; [apply net_start_inv|by apply net_exec_inv].
Qed.

(** *** What a packet of a cell meets *)

(** TCP to a pair of the list. *)
Definition listed (dm : bytes -> Z -> bool) (eg : list egpair) (p : packet) : bool :=
  negb (pk_udp p) && existsb (fun e => bool_decide (inet_pton (eg_ip e) = Some (pk_dst p)) &&
                                       dm (eg_port e) (pk_dport p)) eg.
(** The packets an allowlist lets out: replies, DNS, and TCP to a listed pair. *)
Definition allowed (dm : bytes -> Z -> bool) (eg : list egpair) (p : packet) : bool :=
  pk_est p || (pk_udp p && (pk_dport p =? 53)) || listed dm eg p.

Lemma live_accepts s c dm other p :
  st_inv system strict s -> live_in (g_nets (st_d s)) c -> pk_in p = ns_idx c ->
  listed dm (ns_eg c) p = true -> chain_verdict dm other (fw (st_k s)) p = ACCEPT.
Proof.
  intros Hi Hc Hp [Hu (e & He%list_elem_of_In & Hm)%existsb_exists]%andb_true_iff.
  apply andb_true_iff in Hm as [Hd%bool_decide_eq_true Hm].
  destruct (ni_live _ _ _ _ _ _ Hi c Hc) as [Hl _].
  destruct (sl_chain _ _ _ _ Hl) as (b & _ & (accs & Hperm & Hr) & _).
  eapply chain_verdict_own; [apply Hi|done| |done]. rewrite Hr.
  eapply accs_accept; eauto. by apply negb_true_iff.
Qed.

Lemma live_drops s c dm other p :
  st_inv system strict s -> live_in (g_nets (st_d s)) c -> pk_in p = ns_idx c ->
  (RDrop (ns_idx c) ∈ fw (st_k s)) -> allowed dm (ns_eg c) p = false ->
  chain_verdict dm other (fw (st_k s)) p = DROP.
Proof.
  intros Hi Hc Hp Hdrop [[He Hu]%orb_false_iff Hno]%orb_false_iff.
  destruct (ni_live _ _ _ _ _ _ Hi c Hc) as [Hl _].
  destruct (sl_chain _ _ _ _ Hl) as (b & Hb & (accs & Hperm & Hr) & _).
  eapply chain_verdict_own; [apply Hi|done| |done]. rewrite Hr.
  rewrite (accs_skip _ _ (ns_idx c) accs (ns_eg c)) by done. apply (base_drop _ _ (ns_idx c)); auto.
  assert (RDrop (ns_idx c) ∈ accs ++ b) as [Hin|?]%elem_of_app.
  { rewrite <- Hr. by apply list_elem_of_filter. }
  - rewrite Hperm in Hin. by apply list_elem_of_fmap in Hin as (? & ? & _).
  - done.
Qed.

Lemma live_verdict s c dm other p :
  st_inv system true s -> live_in (g_nets (st_d s)) c -> ns_hosts c <> [] ->
  pk_in p = ns_idx c ->
  chain_verdict dm other (fw (st_k s)) p = if allowed dm (ns_eg c) p then ACCEPT else DROP.
Proof.
  intros Hi Hc Hh Hp. destruct (ni_live _ _ _ _ _ _ Hi c Hc) as [Hl _].
  destruct (sl_chain _ _ _ _ Hl) as (b & _ & (accs & Hperm & Hr) & Hb).
  destruct (Hb eq_refl Hh) as [l ->].
  eapply chain_verdict_own; [apply Hi|done| |by destruct (allowed _ _ _)]. rewrite Hr, app_assoc.
  eapply chain_verdict_app; [|by destruct (allowed _ _ _)]. by apply cell_rules_verdict.
Qed.

(** *** Going down for good *)

Lemma net_cleanup_inv s :
  st_inv system strict s ->
  let s' := net_cleanup_all system s in
  (forall c, ~ live_in (g_nets (st_d s')) c) /\ g_nat_on (st_d s') = false /\
  (forall i, base_only i (rules_of (Some i) (fw (st_k s')))) /\
  (forall c, live_in (g_nets (st_d s)) c ->
     (ns_idx c ∉ lk (st_k s')) /\ down_rules system c (st_k s) (st_k s')) /\
  (g_nat_on (st_d s) = true -> ff_saved (st_f s') = None /\
   (0 <= g_fwd_save (st_d s) -> ff_proc_w (st_f s) = true ->
    ff_proc (st_f s') = Some (print_d (g_fwd_save (st_d s)) ++ [NL]))).
Proof.
  intros Hi s'. subst s'. unfold net_cleanup_all.
  pose proof (down_slots_inv system strict (fun p => negb (p =? 0)) slot_free_keep []
                (g_nets (st_d s)) (g_netmap (st_d s)) (g_nat_on (st_d s)) (st_k s)
                ltac:(done) ltac:(done) Hi) as Hd.
  destruct (down_slots system _ slot_free_keep _ _ _) as [[l m] k]. cbn [app] in Hd.
  destruct Hd as (H1 & _ & H3 & H4).
  assert (Hno : forall c, ~ live_in l c).
  { intros c [[_ Hp] Hn]%H4. apply negb_false_iff, Z.eqb_eq in Hn. done. }
  assert (Hr : forall i, base_only i (rules_of (Some i) (fw k))).
  { intros i. apply (ni_free _ _ _ _ _ _ H1). by intros c Hc%Hno. }
  assert (Hl : forall c, live_in (g_nets (st_d s)) c ->
    (ns_idx c ∉ lk k) /\ down_rules system c (st_k s) k).
  { intros c Hc. apply H3; [done|]. apply negb_true_iff, Z.eqb_neq. apply Hc. }
  unfold nat_teardown. cbn [st_d st_f st_k g_nat_on g_fwd_save].
  destruct (g_nat_on (st_d s)); cbn [negb]; [|by split_and!].
  assert (Hdel : forall c r k', cmd_safe c = true -> effect c = EDel r -> rule_if r = None ->
    (forall i, rules_of (Some i) (fw k') = rules_of (Some i) (fw k)) -> lk k' = lk k ->
    (forall i, rules_of (Some i) (fw (run system c k')) = rules_of (Some i) (fw k)) /\
    lk (run system c k') = lk k).
  { intros c r k' Hs He Hri Hr' Hl'. unfold run.
    destruct (del_spec system c r k' Hs He) as [-> ->]. split; [|done].
    intros i. rewrite rules_of_remove_first, decide_False by congruence. done. }
  assert (view (system := system) (run system MasqDel k) = view k) as E0
    by (by apply (neutral_spec system MasqDel)).
  destruct (Hdel SrcDel RSrc (run system MasqDel k)) as [R1 L1]; [done..|by rewrite E0|by rewrite E0|].
  destruct (Hdel DstDel RDst _ eq_refl eq_refl eq_refl R1 L1) as [R2 L2].
  destruct (Hdel MetaDel RMeta _ eq_refl eq_refl eq_refl R2 L2) as [R3 L3].
  cbn [st_d st_f st_k g_nets g_nat_on]. split_and!; auto.
  - intros i. by rewrite R3.
  - intros c Hc. rewrite L3. destruct (Hl c Hc) as [? Hd]. split; [done|].
    unfold down_rules in *. by rewrite R3.
  - intros _. split; [done|]. intros Hz Hw. rewrite (proj2 (Z.leb_le 0 _)) by done.
    unfold write_proc. by rewrite Hw.
Qed.
End Theorems.

(** *** [ip_forward] *)

Lemma fscan_print v : 0 <= v < 2 ^ 31 -> fscan_d (print_d v ++ [NL]) = Some v.
Proof.
  intros Hv. unfold fscan_d, scan_d, strtol.
  assert (print_d v = print_u v) as -> by (unfold print_d; by rewrite (proj2 (Z.ltb_ge v 0)) by lia).
  rewrite scan_int_print_u by (done || lia). cbn [fmap option_fmap option_map fst].
  rewrite Z.min_r, Z.max_r by (unfold LONG_MAX, LONG_MIN; lia). by rewrite s32_small by lia.
Qed.

Lemma nat_ensure_files {K} (system : bytes -> K -> Z * K) v s :
  0 <= v < 2 ^ 31 -> g_nat_on (st_d s) = false ->
  ff_proc (st_f s) = Some (print_d v ++ [NL]) ->
  ff_proc_w (st_f s) = true -> ff_saved_w (st_f s) = true ->
  let s' := nat_ensure system s in
  st_f s' = FwdFiles (Some (B "1" ++ [NL])) (Some (print_d v ++ [NL])) true true /\
  g_fwd_save (st_d s') = v /\ g_nat_on (st_d s') = true.
Proof.
  intros Hv Hn Hp Hw1 Hw2 s'. subst s'. unfold nat_ensure. rewrite Hn, Hp, fscan_print by done.
  cbn [default st_d st_f g_fwd_save g_nat_on]. change (id v) with v.
  rewrite (proj2 (Z.leb_le 0 v)) by lia. unfold ipfwd_persist, write_proc.
  rewrite Hw2. cbn [ff_proc_w ff_saved_w ff_saved]. by rewrite Hw1.
Qed.

(** ** Main theorems *)

(** C2. In every state the daemon can reach from startup, on any kernel that
    does what the commands say (it may refuse insertions and link creations; a
    deletion fails when the rule is not there), by requests that name a process
    other than 0 and whose ports are plain words, by teardowns and by refreshes: two
    cells never share a veth index; a TCP packet of a cell to an address and
    port on the cell's current list is accepted; where the DROP rule of the cell
    is in the chain, a packet that is no reply, no DNS query and not to the list
    is dropped; when the insertions of base rules succeed, this is the exact
    verdict for every cell with an allowlist, whatever other rules the host has;
    and a rule naming a veth of no cell is one of the three base rules, never an
    ACCEPT to a destination. *)
Theorem daemon_cells_isolated {K} (system : bytes -> K -> Z * K) `{!NetKernel K system} f k s :
  net_reach system f k s ->
  (forall l1 c l2 c', g_nets (st_d s) = l1 ++ c :: l2 -> ns_pid c <> 0 ->
     live_in (l1 ++ l2) c' -> ns_idx c' <> ns_idx c) /\
  (forall c dm other p, live_in (g_nets (st_d s)) c -> pk_in p = ns_idx c ->
     let verdict := chain_verdict dm other (kv_fwd (view (st_k s))) p in
     (listed dm (ns_eg c) p = true -> verdict = ACCEPT) /\
     ((RDrop (ns_idx c) ∈ kv_fwd (view (st_k s))) -> allowed dm (ns_eg c) p = false ->
        verdict = DROP) /\
     (base_reliable system -> ns_hosts c <> [] ->
        verdict = if allowed dm (ns_eg c) p then ACCEPT else DROP)) /\
  (forall i, (forall c, live_in (g_nets (st_d s)) c -> ns_idx c <> i) ->
     Forall (fun r => r ∈ base_rules i) (rules_of (Some i) (kv_fwd (view (st_k s))))).
Proof.
  intros Hr. pose proof (net_reach_inv system false f k s ltac:(done) Hr) as Hi. split_and!.
  - intros l1 c l2 c' E Hc Hc'. by apply (ni_inj _ _ _ _ _ _ Hi l1 c l2).
  - intros c dm other p Hc Hp verdict. split_and!.
    + by apply (live_accepts system false).
    + by apply (live_drops system false).
    + intros Hb Hh. apply live_verdict; auto. by eapply net_reach_inv.
  - apply Hi.
Qed.

(** C10. [net_up] for a process other than 0 whose ports are plain words, in any
    state the daemon can reach ([net_reach]) and whatever insertions and link
    creations the kernel refuses: it either succeeds, and then a free slot and an index no cell uses belong to
    the process, with the recorded hosts and resolvers, exactly the (address,
    port) pairs the resolvers gave for them and, in the chain, exactly their
    accept rules; no rule of another veth moved; and the reply says so.  Or it
    fails with -1, and then the live slots, the bitmap and the rules of every
    cell are as before, and no link and no rule naming a veth is there that was
    not before.  (The NAT rules of [nat_ensure] and [ip_forward] stay.) *)
Theorem net_up_consistent {K} (system : bytes -> K -> Z * K) `{!NetKernel K system}
    f k dns now pid hosts nss s :
  net_reach system f k s -> pid <> 0 -> s32 pid = pid -> ports_ok hosts ->
  let '(rc, rep, s') := net_up system dns now pid hosts nss s in
  st_inv system false s' /\
  (rc = 0 /\ up_done system false dns pid hosts nss s s' rep \/
   rc = -1 /\ up_undone system s s').
Proof.
  intros Hr. intros. apply net_up_spec; auto; [done|]. by eapply net_reach_inv.
Qed.

(** C24. [net_down] of a process other than 0, in any state the daemon can
    reach, frees exactly the cells of the process: every other cell is as
    before, its rules and its link included; the links of the freed ones are
    gone and their indices are free again.  Of a freed cell no accept rule is
    left; when it had pairs and no rule of it was there twice, no rule at all;
    when it had none (its insertions failed at a refresh, or it has no
    allowlist), the base rules it had stay. *)
Theorem net_down_frees {K} (system : bytes -> K -> Z * K) `{!NetKernel K system} f k pid s :
  net_reach system f k s -> pid <> 0 ->
  let s' := net_down system pid s in
  let rules c k := rules_of (Some (ns_idx c)) (kv_fwd (view (system := system) k)) in
  (forall c, live_in (g_nets (st_d s')) c <->
     live_in (g_nets (st_d s)) c /\ ns_pid c <> pid) /\
  (forall c, live_in (g_nets (st_d s')) c ->
     rules c (st_k s') = rules c (st_k s) /\ (ns_idx c ∈ kv_links (view (st_k s')))) /\
  (forall c, live_in (g_nets (st_d s)) c -> ns_pid c = pid ->
     netmap_test (g_netmap (st_d s')) (ns_idx c) = false /\
     (ns_idx c ∉ kv_links (view (st_k s'))) /\
     Forall (fun r => r ∈ base_rules (ns_idx c)) (rules c (st_k s')) /\
     (ns_eg c <> [] -> NoDup (rules c (st_k s)) -> rules c (st_k s') = []) /\
     (ns_eg c = [] -> rules c (st_k s') = rules c (st_k s))).
Proof.
  intros Hr Hp s' rules. pose proof (net_reach_inv system false f k s ltac:(done) Hr) as Hi.
  destruct (net_down_inv system false pid s Hi Hp) as (H1 & H2 & H3 & H4).
  fold s' in H1, H2, H3, H4.
  assert (Hinj : forall c c', live_in (g_nets (st_d s)) c -> live_in (g_nets (st_d s)) c' ->
    ns_pid c' <> ns_pid c -> ns_idx c' <> ns_idx c).
  { intros c c' [Hin Hc0] Hc' Hn. apply list_elem_of_split in Hin as (l1 & l2 & El).
    apply (ni_inj _ _ _ _ _ _ Hi l1 c l2 El Hc0 c').
    rewrite El in Hc'. apply live_in_middle in Hc' as [[-> _]|?]; [congruence|done]. }
  split_and!; [done| |].
  - intros c Hc. split; [|apply (ni_live _ _ _ _ _ _ H1 c Hc)]. apply H4 in Hc as [Hc Hn].
    apply H2. intros c' Hc' E. apply Hinj; [done|done|congruence].
  - intros c Hc Hpc. destruct (H3 c Hc Hpc) as (Hl & Hb & Hsame & Hnil). split_and!; auto.
    destruct (netmap_test _ _) eqn:Et; [|done].
    destruct (ni_live _ _ _ _ _ _ Hi c Hc) as [Hlv _].
    destruct (ni_used _ _ _ _ _ _ H1 (ns_idx c) (sl_idx _ _ _ _ Hlv) Et) as (c' & Hc' & E).
    apply H4 in Hc' as [Hc' Hn]. destruct (Hinj c c'); [done|done|congruence|done].
Qed.

(** C25. A refresh of a cell that is due.  Whatever insertions the kernel
    refuses, the rules of its veth afterwards are the accept rules of exactly the pairs the slot
    records, above the same base rules as before, and nothing else in the chain
    and no link moved; the next refresh is due within a minute.  When its hosts
    resolve, the recorded pairs are pairs its hosts now resolve to, and a
    missing one is a pair whose insertion [iptables] refused; when resolving
    fails the last good set is kept and the kernel untouched. *)
Theorem egress_refresh_exact {K} (system : bytes -> K -> Z * K) `{!NetKernel K system}
    dns now c k :
  slot_live system false k c -> ns_pid c <> 0 -> ns_hosts c <> [] -> ns_next c <= now ->
  let '(c', k') := refresh_slot system dns now c k in
  (now < ns_next c' <= now + 60) /\
  (exists b accs accs',
     rules_of (Some (ns_idx c)) (kv_fwd (view k)) = accs ++ b /\
     rules_of (Some (ns_idx c)) (kv_fwd (view k')) = accs' ++ b /\
     (accs ≡ₚ acc_rule (ns_idx c) <$> ns_eg c) /\ (accs' ≡ₚ acc_rule (ns_idx c) <$> ns_eg c')) /\
  (forall o, o <> Some (ns_idx c) ->
     rules_of o (kv_fwd (view k')) = rules_of o (kv_fwd (view k))) /\
  kv_links (view k') = kv_links (view k) /\
  ((egress_want dns c).1.1.1 = 0 -> (egress_want dns c).1.1.2 <> [] -> forall e,
     (e ∈ ns_eg c' -> requested dns c e) /\
     (requested dns c e -> e ∈ ns_eg c' \/ refused system (ns_idx c) e)) /\
  ((egress_want dns c).1.1.1 <> 0 -> c' = set_next (now + 10) c /\ k' = k).
Proof.
  intros Hl Hp Hh Hdue. unfold refresh_slot. rewrite (proj2 (Z.eqb_neq _ _)) by done.
  destruct (Nat.eqb_spec (length (ns_hosts c)) 0) as [E|_].
  { by apply nil_length_inv in E. }
  cbn [orb]. rewrite (proj2 (Z.ltb_ge _ _)) by lia.
  assert (Hkeep : exists b accs accs',
     rules_of (Some (ns_idx c)) (kv_fwd (view k)) = accs ++ b /\
     rules_of (Some (ns_idx c)) (kv_fwd (view k)) = accs' ++ b /\
     (accs ≡ₚ acc_rule (ns_idx c) <$> ns_eg c) /\ (accs' ≡ₚ acc_rule (ns_idx c) <$> ns_eg c)).
  { destruct (sl_chain _ _ _ _ Hl) as (b & _ & (accs & ? & ?) & _). by exists b, accs, accs. }
  pose proof (egress_want_code dns c) as Hcode.
  destruct (egress_want dns c) as [[[r want] ttl] bad] eqn:Ew. cbn [fst snd] in *.
  assert (Hnext : now < next_deadline now ttl <= now + 60).
  { unfold next_deadline, EG_TTL_CAP. destruct ((0 <? ttl) && (ttl <? 60)) eqn:E; zbool; lia. }
  destruct (Z.eqb_spec r (-2)); [cbn; split_and!; auto; lia|].
  destruct (Z.ltb_spec r 0); [cbn; split_and!; auto; lia|]. cbn [orb].
  destruct (Nat.eqb_spec (length want) 0) as [Ewn%nil_length_inv|Hw].
  { cbn. split_and!; auto; try lia. by intros. }
  assert (r = 0) as -> by lia.
  destruct (egress_want_ok dns c want ttl bad (sl_hosts _ _ _ _ Hl) Ew) as [Hs Hlen].
  pose proof (slot_live_apply system false want c k Hl Hh Hs Hlen) as Happ.
  destruct (egress_apply system c want k) as [[fl c'] k'].
  destruct Happ as (_ & _ & _ & Hfr & Hsub & Hall & b & (accs & Ha & Hr) & (accs' & Ha' & Hr')).
  cbn [set_next ns_next ns_eg]. split_and!; [lia|lia| | | | |done].
  - by exists b, accs, accs'.
  - apply Hfr.
  - apply Hfr.
  - intros _ _ e. rewrite <- (egress_want_requested dns c want ttl bad (sl_hosts _ _ _ _ Hl) Ew e).
    split; [apply Hsub|apply Hall].
Qed.

(** C27. When the daemon exits, from any state it can reach: no slot is in use;
    the links of its cells are gone; a rule that still names a veth is a base
    rule, never an ACCEPT to a destination; of a cell that had pairs and no rule
    twice no rule is left, and a cell without pairs leaves the base rules it
    had; and if the daemon had enabled forwarding then the saved copy of
    [ip_forward] is removed and, where it can be written, it has the value saved
    before. *)
Theorem net_cleanup_clean {K} (system : bytes -> K -> Z * K) `{!NetKernel K system} f k s :
  net_reach system f k s ->
  let s' := net_cleanup_all system s in
  let rules c k := rules_of (Some (ns_idx c)) (kv_fwd (view (system := system) k)) in
  (forall c, ~ live_in (g_nets (st_d s')) c) /\
  (forall i, Forall (fun r => r ∈ base_rules i) (rules_of (Some i) (kv_fwd (view (st_k s'))))) /\
  (forall c, live_in (g_nets (st_d s)) c ->
     (ns_idx c ∉ kv_links (view (st_k s'))) /\
     (ns_eg c <> [] -> NoDup (rules c (st_k s)) -> rules c (st_k s') = []) /\
     (ns_eg c = [] -> rules c (st_k s') = rules c (st_k s))) /\
  (g_nat_on (st_d s) = true -> ff_saved (st_f s') = None /\
   (0 <= g_fwd_save (st_d s) -> ff_proc_w (st_f s) = true ->
    ff_proc (st_f s') = Some (print_d (g_fwd_save (st_d s)) ++ [NL]))).
Proof.
  intros Hr s' rules. pose proof (net_reach_inv system false f k s ltac:(done) Hr) as Hi.
  destruct (net_cleanup_inv system false s Hi) as (H1 & _ & H3 & H4 & H5).
  split_and!; auto. intros c Hc. by destruct (H4 c Hc) as (? & _ & ? & ?).
Qed.

(** C38. The forwarding setting survives: after [nat_ensure] both a normal
    teardown and a crash followed by the recovery of the next start give
    [/proc/sys/net/ipv4/ip_forward] the value it had before the daemon, and
    leave no saved copy. *)
Theorem ip_forward_restored {K} (system : bytes -> K -> Z * K) v s :
  0 <= v < 2 ^ 31 -> g_nat_on (st_d s) = false ->
  ff_proc (st_f s) = Some (print_d v ++ [NL]) ->
  ff_proc_w (st_f s) = true -> ff_saved_w (st_f s) = true ->
  let s1 := nat_ensure system s in
  let restored := FwdFiles (Some (print_d v ++ [NL])) None true true in
  ff_proc (st_f s1) = Some (B "1" ++ [NL]) /\
  st_f (nat_teardown system s1) = restored /\
  st_f (net_recover_startup system (NetSt netd_init (st_f s1) (st_k s1))) = restored.
Proof.
  intros Hv Hn Hp Hw1 Hw2 s1 restored.
  destruct (nat_ensure_files system v s Hv Hn Hp Hw1 Hw2) as (Hf & Hs & Hon).
  fold s1 in Hf, Hs, Hon. split_and!.
  - by rewrite Hf.
  - unfold nat_teardown. rewrite Hon, Hs, Hf. cbn [negb st_f].
    by rewrite (proj2 (Z.leb_le 0 v)) by lia.
  - cbn [net_recover_startup st_f]. rewrite Hf. unfold ipfwd_recover. cbn [ff_saved].
    rewrite fscan_print by done. by rewrite (proj2 (Z.leb_le 0 v)) by lia.
Qed.

(** ** Behaviours outside what the comments promise *)

Definition no_dns (n : Z * Z) (h : bytes) : list (Z * Z) := [].
Definition files0 : fwdfiles := FwdFiles (Some (B "0" ++ [NL])) None true true.
Definition sim0 : netst (K := kview) := net_start (sim_system []) files0 (KView [ROther 7] []).
Definition up_sim (refuse : list frule) (pid : Z) (hosts : list (bytes * bytes))
    (s : netst (K := kview)) : Z * netst (K := kview) :=
  let '(rc, _, s') := net_up (sim_system refuse) no_dns 100 pid hosts [] s in (rc, s').

(** [NETDOWN 0] matches every free slot (their pid is 0): it deletes the link
    of the live cell that has the stale index of a free slot and clears its bit,
    so that the next [NETUP] gives two live cells the same /30 and the same
    veth. *)
Theorem netdown_zero_duplicates_index :
  let s1 := (up_sim [] 100 [] sim0).2 in
  let s2 := net_down (sim_system []) 0 s1 in
  let s3 := (up_sim [] 200 [] s2).2 in
  kv_links (st_k s1) = [0] /\ kv_links (st_k s2) = [] /\
  (ns_pid <$> g_nets (st_d s3) !! 0%nat) = Some 100 /\
  (ns_pid <$> g_nets (st_d s3) !! 1%nat) = Some 200 /\
  (ns_idx <$> g_nets (st_d s3) !! 0%nat) = (ns_idx <$> g_nets (st_d s3) !! 1%nat).
Proof. vm_compute. repeat split. Qed.

(** A host that records every command it runs. *)
Definition rec_system (cmd : bytes) (log : list bytes) : Z * list bytes := (0, cmd :: log).

(** The port of an [EGRESS] request goes to the shell as it came: seven bytes
    are enough for a port that ends the [iptables] command and runs a program of
    the client's choice as root. *)
Theorem netup_port_reaches_shell :
  let hosts := [(B "1.2.3.4", B ";/tmp/x")] in
  let '(rc, _, s) := net_up rec_system no_dns 100 100 hosts []
                       (NetSt netd_init files0 []) in
  rc = 0 /\
  (B "iptables -I FORWARD 1 -i vethh0 -p tcp -d 1.2.3.4 --dport ;/tmp/x -j ACCEPT 2>/dev/null"
     ∈ st_k s).
Proof. vm_compute. split; [done|]. repeat constructor. Qed.

(** The results of the base rules are not tested: when [iptables] refuses the
    DROP rule of a cell, [net_up] still reports success for its allowlist, and a
    packet to an address outside it is accepted by the global rule. *)
Theorem egress_base_failure_open :
  let hosts := [(B "1.2.3.4", B "443")] in
  let '(rc, s) := up_sim [RDrop 0] 100 hosts sim0 in
  let p := Packet 0 false (9 * 2 ^ 24) 25 false in
  rc = 0 /\ allowed (fun w n => atoi w =? n) (default [] (ns_eg <$> g_nets (st_d s) !! 0%nat)) p = false /\
  chain_verdict (fun w n => atoi w =? n) (fun _ _ => None) (kv_fwd (st_k s)) p = ACCEPT.
Proof. vm_compute. repeat split. Qed.

(** A cell whose accept rules all failed at a refresh keeps its base rules
    when it goes down ([net_down] skips [egress_base] when [n_eg] is 0): the next
    cell with that index asks for unrestricted NAT and gets every new connection
    dropped. *)
Theorem net_down_leaks_base_rules :
  let host := B "a.example" in
  let dns1 := fun (_ : Z * Z) (_ : bytes) => [(1 * 2 ^ 24, 5)] in
  let dns2 := fun (_ : Z * Z) (_ : bytes) => [(2 * 2 ^ 24, 5)] in
  let up dns pid hosts nss s := (net_up (sim_system []) dns 100 pid hosts nss s).2 in
  let s1 := up dns1 100 [(host, B "443")] [B "8.8.8.8"] sim0 in
  let s2 := net_exec (sim_system [RAcc 0 (B "2.0.0.0") (B "443")]) (OpRefresh dns2 200) s1 in
  let s3 := net_down (sim_system []) 100 s2 in
  let s4 := up no_dns 200 [] [] s3 in
  rules_of (Some 0) (kv_fwd (st_k s3)) = [RDns 0; REst 0; RDrop 0] /\
  (ns_hosts <$> g_nets (st_d s4) !! 0%nat) = Some [] /\
  chain_verdict (fun w n => atoi w =? n) (fun _ _ => None) (kv_fwd (st_k s4))
    (Packet 0 false (9 * 2 ^ 24) 80 false) = DROP.
Proof. vm_compute. repeat split. Qed.

(** *** Witnesses *)

Lemma sim_base_reliable : base_reliable (sim_system []).
Proof.
  intros i k Hi. pose proof (idx_safe i Hi) as Hs.
  rewrite !sim_sh by done. cbn [effect ins_del sim_run].
  split_and!; by rewrite decide_False by apply not_elem_of_nil.
Qed.

Definition wit_hosts : list (bytes * bytes) := [(B "1.2.3.4", B "443")].
Definition wit_up : net_op := OpUp no_dns 100 42 wit_hosts [].
Definition wit_s : netst (K := kview) := net_exec (sim_system []) wit_up sim0.
Definition wit_cell : netslot := default slot_empty (g_nets (st_d wit_s) !! 0%nat).

Lemma wit_ports_ok : ports_ok wit_hosts.
Proof. by repeat constructor. Qed.

Lemma wit_up_ok : op_ok wit_up.
Proof. split_and!; [done|done|apply wit_ports_ok]. Qed.

Lemma wit_live : live_in (g_nets (st_d wit_s)) wit_cell.
Proof. split; [|by vm_compute]. by apply (list_elem_of_lookup_2 _ 0%nat); vm_compute. Qed.

Lemma wit_reach : net_reach (sim_system []) files0 (KView [ROther 7] []) wit_s.
Proof. exact (reach_step _ _ _ _ wit_up (reach_start _ _ _) wit_up_ok). Qed.

Lemma daemon_cells_isolated_witness :
  chain_verdict (fun w n => atoi w =? n) (fun _ _ => None) (kv_fwd (st_k wit_s))
    (Packet 0 false (1 * 2 ^ 24 + 2 * 2 ^ 16 + 3 * 2 ^ 8 + 4) 443 false) = ACCEPT /\
  chain_verdict (fun w n => atoi w =? n) (fun _ _ => None) (kv_fwd (st_k wit_s))
    (Packet 0 false (9 * 2 ^ 24) 443 false) = DROP.
Proof.
  destruct (daemon_cells_isolated (sim_system []) files0 (KView [ROther 7] []) wit_s wit_reach)
    as (_ & H & _).
  split.
  - exact (proj2 (proj2 (H wit_cell (fun w n => atoi w =? n) (fun _ _ => None)
             (Packet 0 false (1 * 2 ^ 24 + 2 * 2 ^ 16 + 3 * 2 ^ 8 + 4) 443 false)
             wit_live eq_refl)) sim_base_reliable ltac:(by vm_compute)).
  - exact (proj1 (proj2 (H wit_cell (fun w n => atoi w =? n) (fun _ _ => None)
             (Packet 0 false (9 * 2 ^ 24) 443 false) wit_live eq_refl))
             ltac:(vm_compute; repeat constructor) ltac:(by vm_compute)).
Defined.

(** A request that succeeds, and one whose accept rule is refused. *)
Lemma net_up_consistent_witness :
  (exists rep s', net_up (sim_system []) no_dns 100 42 wit_hosts [] sim0 = (0, rep, s') /\
     up_done (sim_system []) false no_dns 42 wit_hosts [] sim0 s' rep) /\
  (exists rep s', net_up (sim_system [RAcc 0 (B "1.2.3.4") (B "443")]) no_dns 100 42 wit_hosts []
     (net_start (sim_system [RAcc 0 (B "1.2.3.4") (B "443")]) files0 (KView [ROther 7] [])) = (-1, rep, s') /\
     rules_of (Some 0) (kv_fwd (st_k s')) `sublist_of` []).
Proof.
  split.
  - pose proof (net_up_consistent (sim_system []) files0 (KView [ROther 7] []) no_dns 100 42
                  wit_hosts [] sim0 (reach_start _ _ _) ltac:(done) ltac:(done) wit_ports_ok) as H.
    destruct (net_up (sim_system []) no_dns 100 42 wit_hosts [] sim0) as [[rc rep] s'] eqn:E.
    destruct H as [_ [[-> H]|[-> _]]]; [by exists rep, s'|]. by vm_compute in E.
  - set (ref := [RAcc 0 (B "1.2.3.4") (B "443")]).
    pose proof (net_up_consistent (sim_system ref) files0 (KView [ROther 7] []) no_dns 100 42
                  wit_hosts [] _ (reach_start _ _ _) ltac:(done) ltac:(done) wit_ports_ok) as H.
    destruct (net_up (sim_system ref) no_dns 100 42 wit_hosts [] _) as [[rc rep] s'] eqn:E.
    destruct H as [_ [[-> _]|[-> H]]]; [by vm_compute in E|]. exists rep, s'. split; [done|].
    exact (uu_rules _ _ _ H 0).
Defined.

Lemma net_down_frees_witness :
  netmap_test (g_netmap (st_d (net_down (sim_system []) 42 wit_s))) 0 = false /\
  rules_of (Some 0) (kv_fwd (st_k (net_down (sim_system []) 42 wit_s))) = [].
Proof.
  destruct (net_down_frees (sim_system []) _ _ 42 wit_s wit_reach ltac:(done)) as (_ & _ & H).
  destruct (H wit_cell wit_live) as (H1 & _ & _ & H2 & _); [by vm_compute|]. split; [exact H1|].
  apply H2; [by vm_compute|]. apply (bool_decide_unpack _). by vm_compute.
Defined.

Lemma egress_refresh_exact_witness :
  exists c' k', refresh_slot (sim_system []) no_dns 1000 wit_cell (st_k wit_s) = (c', k') /\
  forall e, requested no_dns wit_cell e -> e ∈ ns_eg c' \/ refused (sim_system []) 0 e.
Proof.
  pose proof (net_reach_inv (sim_system []) false _ _ _ ltac:(done) wit_reach) as Hi.
  pose proof (egress_refresh_exact (sim_system []) no_dns 1000 wit_cell (st_k wit_s)
    (proj1 (ni_live _ _ _ _ _ _ Hi wit_cell wit_live))
    ltac:(by vm_compute) ltac:(by vm_compute) ltac:(by vm_compute)) as H.
  destruct (refresh_slot (sim_system []) no_dns 1000 wit_cell (st_k wit_s)) as [c' k'].
  exists c', k'. split; [done|]. destruct H as (_ & _ & _ & _ & H & _).
  intros e. apply H; by vm_compute.
Defined.

Lemma net_cleanup_clean_witness :
  ff_proc (st_f (net_cleanup_all (sim_system []) wit_s)) = Some (B "0" ++ [NL]).
Proof.
  destruct (net_cleanup_clean (sim_system []) _ _ wit_s wit_reach) as (_ & _ & _ & H).
  destruct H as [_ H]; [by vm_compute|]. exact (H ltac:(by vm_compute) ltac:(by vm_compute)).
Defined.

Lemma ip_forward_restored_witness :
  st_f (nat_teardown (sim_system []) (nat_ensure (sim_system []) sim0)) = files0.
Proof.
  exact (proj1 (proj2 (ip_forward_restored (sim_system []) 0 sim0 ltac:(lia) eq_refl eq_refl
                         eq_refl eq_refl))).
Defined.
