(* ===== verification/Policy.v ===== *)
(** * The file policy: BPF maps, the daemon's side and the LSM hook

    [agentlsm.c]: [cell_add], [cell_del], [cell_clr] and the listing loop;
    [agentlsm.bpf.c]: [cell_file_open] (its three modes) and the event records it
    and the tracepoints submit.  A BPF hash map is a finite map with a capacity;
    the order in which the kernel walks it is a parameter.  A key's 64-byte,
    zero-filled prefix buffer is the C string in it. *)

From S2P Require Import Prelude CString Arch Cbpf Seccomp.
Local Open Scope Z_scope.

Definition PLEN : nat := 64.
Definition ACT_ALLOW : Z := 1.
Definition ACT_DENY : Z := 2.
Definition EV_DENY : Z := 1.
Definition EV_EXEC : Z := 2.
Definition EV_OPEN : Z := 3.
Definition EV_CONNECT : Z := 4.
Definition EV_TRIP : Z := 5.

(** ** BPF hash maps *)

(** [bpf_map_update_elem(..., BPF_ANY)] on a map of [cap] entries: [None] is a
    failure (the key is new and the map is full). *)
Definition bpf_update {Key : Type} `{Countable Key} (cap : nat) (m : gmap Key Z) (k : Key) (v : Z)
    : option (gmap Key Z) :=
  match m !! k with
  | Some _ => Some (<[k := v]> m)
  | None => if (cap <=? size m)%nat then None else Some (<[k := v]> m)
  end.

(** [bpf_map_delete_elem]: the result and the map. *)
Definition bpf_delete {Key : Type} `{Countable Key} (m : gmap Key Z) (k : Key) : Z * gmap Key Z :=
  match m !! k with Some _ => (0, delete k m) | None => (-1, m) end.

(** ** The daemon's side *)

(** [struct cellkey]. *)
Abbreviation cellkey := (Z * bytes)%type.

Record polmaps := PolMaps { pm_cellpol : gmap cellkey Z; pm_cells : gmap Z Z }.
Definition CELLPOL_MAX : nat := Z.to_nat 4096.
Definition CELLS_MAX : nat := Z.to_nat 256.

Definition cell_key (cgid : Z) (prefix : bytes) : cellkey := (cgid, snprintf_s PLEN prefix).

(** Result (0 or -1) and maps. *)
Definition cell_add (cgid : Z) (prefix : bytes) (m : polmaps) : Z * polmaps :=
  match bpf_update CELLPOL_MAX (pm_cellpol m) (cell_key cgid prefix) ACT_DENY with
  | None => (-1, m)
  | Some p =>
      match bpf_update CELLS_MAX (pm_cells m) cgid 1 with
      | None => (-1, PolMaps p (pm_cells m))
      | Some c => (0, PolMaps p c)
      end
  end.

Definition cell_del (cgid : Z) (prefix : bytes) (m : polmaps) : Z * polmaps :=
  let '(rc, p) := bpf_delete (pm_cellpol m) (cell_key cgid prefix) in
  (rc, PolMaps p (pm_cells m)).

Section Walk.
(** The order in which the kernel walks the map. *)
Context (order : gmap cellkey Z -> list cellkey).

(** The key after [cur] in a walk. *)
Fixpoint key_after (cur : cellkey) (l : list cellkey) : option cellkey :=
  match l with
  | [] => None
  | k :: l' => if decide (k = cur) then head l' else key_after cur l'
  end.

(** [bpf_map_get_next_key]: the first key when [cur] is not in the map. *)
Definition get_next_key (m : gmap cellkey Z) (cur : cellkey) : option cellkey :=
  match m !! cur with
  | None => head (order m)
  | Some _ => key_after cur (order m)
  end.

Definition zero_key : cellkey := (0, []).

(** The loop of [cell_clr]; [None]: out of fuel. *)
Fixpoint clr_loop (fuel : nat) (cgid : Z) (m : gmap cellkey Z) (cur : cellkey)
    : option (gmap cellkey Z) :=
  match fuel with
  | O => None
  | S fuel' =>
      match get_next_key m cur with
      | None => Some m
      | Some nxt =>
          let m := if nxt.1 =? cgid then (bpf_delete m nxt).2 else m in
          clr_loop fuel' cgid m nxt
      end
  end.

(** Each deletion restarts the walk: [(n+1)^2] steps are enough for [n] keys. *)
Definition clr_fuel (m : gmap cellkey Z) : nat := S (size m * size m + size m).

Definition cell_clr (cgid : Z) (m : polmaps) : option (Z * polmaps) :=
  p ← clr_loop (clr_fuel (pm_cellpol m)) cgid (pm_cellpol m) zero_key;
  let '(rc, c) := bpf_delete (pm_cells m) cgid in
  Some (rc, PolMaps p c).

(** The keys the loop of [LIST] visits. *)
Fixpoint list_loop (fuel : nat) (m : gmap cellkey Z) (cur : cellkey) : option (list cellkey) :=
  match fuel with
  | O => None
  | S fuel' =>
      match get_next_key m cur with
      | None => Some []
      | Some nxt => l ← list_loop fuel' m nxt; Some (nxt :: l)
      end
  end.
Definition cell_list (m : polmaps) : option (list cellkey) :=
  list_loop (S (size (pm_cellpol m))) (pm_cellpol m) zero_key.
End Walk.

(** ** Events *)

(** [struct evt] as the programs fill it: the path is what they copied. *)
Record evt := Evt {
  ev_cgid : Z; ev_tgid : Z; ev_type : Z; ev_nr : Z; ev_comm : bytes; ev_path : bytes
}.

(** The process that triggers a program. *)
Record proc := Proc { pr_cgid : Z; pr_pid_tgid : Z; pr_comm : bytes }.

Definition mk_evt (p : proc) (type nr : Z) (path : bytes) : evt :=
  Evt (pr_cgid p) (Z.shiftr (pr_pid_tgid p) 32) type nr (pr_comm p) path.

(** [mon_reserve]: only registered cells, and only if the ring buffer has room. *)
Definition mon_reserve (m : polmaps) (room : bool) (p : proc) (type nr : Z) (path : bytes)
    : option evt :=
  match pm_cells m !! pr_cgid p with
  | None => None
  | Some _ => if room then Some (mk_evt p type nr path) else None
  end.

(** The tracepoints; [path] is what [bpf_probe_read_user(_str)] copies. *)
Definition tp_execve m room p path : option evt := mon_reserve m room p EV_EXEC 59 path.
Definition tp_openat m room p path : option evt := mon_reserve m room p EV_OPEN 257 path.
Definition tp_connect m room p sa : option evt := mon_reserve m room p EV_CONNECT 42 (take 16 sa).

(** [trip_nr]: the [switch] over [AC_TRIP_X]. *)
Definition trip_nr (A : arch) (nr : Z) : bool :=
  existsb (fun n => bool_decide (ac_sys_nr A n = Some nr)) (AC_TRIP_X A).

Definition tp_sys_exit (A : arch) m room p (nr ret : Z) : option evt :=
  if negb (trip_nr A nr) then None
  else if negb (ret =? - EPERM) && negb (ret =? - ENOSYS) then None
  else mon_reserve m room p EV_TRIP (u32 nr) [].

(** ** The LSM hook *)

(** The program's read-only configuration. *)
Record lsmcfg := LsmCfg {
  cf_target : Z; cf_enforce : bool; cf_flat : bool; cf_block_until : Z; cf_block_cgid : Z
}.

(** Longest prefix first: the value of the first key found. *)
Fixpoint longest_match (look : bytes -> option Z) (path : bytes) (len : nat) : option Z :=
  match len with
  | O => None
  | S len' =>
      match look (take len path) with
      | Some a => Some a
      | None => longest_match look path len'
      end
  end.

(** The length loop: at most 63 bytes, up to the first NUL. *)
Definition path_len (path : bytes) : nat := length (take (PLEN - 1) (cstr path)).

Section Hook.
(** [bpf_d_path(&file->f_path, path, 64)] for a file with the given path. *)
Context (d_path : bytes -> option bytes).

(** [cell_file_open]: the return value and the event submitted. *)
Definition cell_file_open (cf : lsmcfg) (m : polmaps) (policy : gmap bytes Z)
    (now : Z) (room : bool) (p : proc) (file : bytes) : Z * option evt :=
  if negb (cf_block_until cf =? 0) then
    if now <? cf_block_until cf then
      if (cf_block_cgid cf =? 0) || (pr_cgid p =? cf_block_cgid cf)
      then (- EPERM, None) else (0, None)
    else (0, None)
  else
    match pm_cells m !! pr_cgid p with
    | Some _ =>
        match d_path file with
        | None => (0, None)
        | Some path =>
            match longest_match (fun q => pm_cellpol m !! (pr_cgid p, q)) path (path_len path) with
            | Some a =>
                if a =? ACT_DENY
                then (- EPERM, if room then Some (mk_evt p EV_DENY 0 path) else None)
                else (0, None)
            | None => (0, None)
            end
        end
    | None =>
        if negb (cf_flat cf) then (0, None)
        else if negb (cf_target cf =? 0) && negb (pr_cgid p =? cf_target cf) then (0, None)
        else
          match d_path file with
          | None => (0, None)
          | Some path =>
              let best := default 0 (longest_match (fun q => policy !! q) path (path_len path)) in
              if best =? ACT_DENY then
                if cf_enforce cf then (- EPERM, None)
                else (0, if room then Some (mk_evt p EV_DENY 0 path) else None)
              else (0, None)
          end
    end.
End Hook.

(** ** Walking a map *)

Section WalkFacts.
Context (order : gmap cellkey Z -> list cellkey).
(** The walk visits every key exactly once (the order itself is the kernel's). *)
Hypothesis order_keys : forall m, order m ≡ₚ (map_to_list m).*1.

Lemma order_elem m k : k ∈ order m <-> is_Some (m !! k).
Proof.
  rewrite order_keys, list_elem_of_fmap. split.
  - intros ([k' v] & -> & Hin). apply elem_of_map_to_list in Hin. eauto.
  - intros [v Hv]. exists (k, v). split; [done|]. by apply elem_of_map_to_list.
Qed.

Lemma order_nodup m : NoDup (order m).
Proof. rewrite order_keys. apply NoDup_fst_map_to_list. Qed.

Lemma order_length m : length (order m) = size m.
Proof. rewrite order_keys, length_fmap. apply length_map_to_list. Qed.

(** Where a walk is: nothing seen yet, or just after [cur]. *)
Definition walk_at (m : gmap cellkey Z) (cur : cellkey) (pre suf : list cellkey) : Prop :=
  (m !! cur = None /\ pre = [] /\ suf = order m) \/
  (exists p, pre = p ++ [cur] /\ order m = pre ++ suf).

Lemma key_after_app p cur suf :
  NoDup (p ++ cur :: suf) -> key_after cur (p ++ cur :: suf) = head suf.
Proof.
  induction p as [|x p IH]; cbn [app key_after].
  - intros _. by rewrite decide_True.
  - intros [Hx Hn]%NoDup_cons. rewrite decide_False; [by apply IH|].
    intros ->. apply Hx, elem_of_app. right. constructor.
Qed.

Lemma get_next_key_walk m cur pre suf :
  walk_at m cur pre suf -> get_next_key order m cur = head suf.
Proof.
  unfold get_next_key. intros [(-> & -> & ->)|(p & -> & Ho)]; [done|].
  rewrite <- app_assoc in Ho. cbn in Ho.
  assert (is_Some (m !! cur)) as [v ->].
  { apply order_elem. rewrite Ho. apply elem_of_app. right. constructor. }
  rewrite Ho. apply key_after_app. rewrite <- Ho. apply order_nodup.
Qed.

Lemma walk_at_next m cur pre k suf :
  walk_at m cur pre (k :: suf) -> walk_at m k (pre ++ [k]) suf.
Proof.
  intros [(_ & -> & E)|(p & -> & Ho)]; right.
  - exists []. by rewrite <- E.
  - exists (p ++ [cur]). rewrite Ho. by rewrite <- !app_assoc.
Qed.

Definition not_of (cgid : Z) (kv : cellkey * Z) : Prop := kv.1.1 <> cgid.
#[local] Instance not_of_dec cgid kv : Decision (not_of cgid kv).
Proof. unfold not_of. apply _. Defined.

(** Walking on, with what was already passed known not to belong to the cell. *)
Lemma clr_loop_walk cgid fuel m cur pre suf :
  walk_at m cur pre suf -> Forall (fun k => k.1 <> cgid) pre ->
  (length suf + size m * size m < fuel)%nat ->
  clr_loop order fuel cgid m cur = Some (filter (not_of cgid) m).
Proof.
  revert m cur pre suf. induction fuel as [|fuel IH]; intros m cur pre suf Hw Hp Hf; [lia|].
  cbn [clr_loop]. rewrite (get_next_key_walk _ _ _ _ Hw). destruct suf as [|k suf]; cbn [head].
  - f_equal. symmetry. apply map_filter_id. intros k v Hk.
    assert (k ∈ order m) as Hin by (apply order_elem; eauto).
    rewrite Forall_forall in Hp. unfold not_of. cbn. apply Hp.
    destruct Hw as [(_ & -> & E)|(p & -> & E)].
    + rewrite <- E in Hin. by apply elem_of_nil in Hin.
    + by rewrite E, app_nil_r in Hin.
  - assert (k ∈ order m) as Hin.
    { destruct Hw as [(_ & _ & <-)|(p & -> & ->)]; [constructor|].
      apply elem_of_app. right. constructor. }
    apply order_elem in Hin as [v Hv]. destruct (Z.eqb_spec k.1 cgid) as [Hk|Hk].
    + unfold bpf_delete. rewrite Hv. cbn [snd].
      assert (size m = S (size (delete k m))) as Hsz
        by (rewrite map_size_delete_Some by eauto; pose proof (map_size_ne_0_lookup_2 m k ltac:(eauto)); lia).
      rewrite (IH (delete k m) k [] (order (delete k m))).
      * f_equal. rewrite map_filter_delete. apply delete_id.
        apply map_lookup_filter_None. right. intros v' _. unfold not_of. cbn. tauto.
      * left. split_and!; [apply lookup_delete_eq|done|done].
      * constructor.
      * rewrite order_length. rewrite Hsz in Hf. cbn [length] in Hf. lia.
    + rewrite (IH m k (pre ++ [k]) suf); [done| | |].
      * by eapply walk_at_next.
      * apply Forall_app. by split; [|constructor].
      * cbn [length] in Hf. lia.
Qed.

(** [cell_clr] ends, removes every rule of the cell and its registration, and
    touches nothing else. *)
Lemma cell_clr_spec cgid m :
  pm_cellpol m !! zero_key = None ->
  cell_clr order cgid m =
  Some (if decide (is_Some (pm_cells m !! cgid)) then 0 else -1,
        PolMaps (filter (not_of cgid) (pm_cellpol m)) (delete cgid (pm_cells m))).
Proof.
  intros Hz. unfold cell_clr.
  rewrite (clr_loop_walk cgid _ _ _ [] (order (pm_cellpol m))).
  - cbn [mbind option_bind]. unfold bpf_delete.
    destruct (pm_cells m !! cgid) as [v|] eqn:E.
    + by rewrite decide_True by eauto.
    + rewrite decide_False by (intros [? ?]; done). by rewrite delete_id.
  - by left.
  - constructor.
  - rewrite order_length. unfold clr_fuel. lia.
Qed.

Lemma list_loop_walk fuel m cur pre suf :
  walk_at m cur pre suf -> (length suf < fuel)%nat ->
  list_loop order fuel m cur = Some suf.
Proof.
  revert cur pre suf. induction fuel as [|fuel IH]; intros cur pre suf Hw Hf; [lia|].
  cbn [list_loop]. rewrite (get_next_key_walk _ _ _ _ Hw). destruct suf as [|k suf]; [done|].
  cbn [head]. rewrite (IH k (pre ++ [k]) suf).
  - done.
  - by eapply walk_at_next.
  - cbn [length] in Hf. lia.
Qed.

Lemma cell_list_spec m :
  pm_cellpol m !! zero_key = None -> cell_list order m = Some (order (pm_cellpol m)).
Proof.
  intros Hz. apply (list_loop_walk _ _ _ [] _); [by left|]. rewrite order_length. lia.
Qed.
End WalkFacts.

(** ** The longest match *)

Lemma longest_match_Some look path len a :
  longest_match look path len = Some a <->
  exists n, (0 < n <= len)%nat /\ look (take n path) = Some a /\
    forall n', (n < n' <= len)%nat -> look (take n' path) = None.
Proof.
  induction len as [|len IH].
  - split; [done|]. intros (n & Hn & _). lia.
  - cbn [longest_match]. destruct (look (take (S len) path)) as [b|] eqn:E.
    + split.
      * intros [= ->]. exists (S len). split_and!; [lia|lia|done|]. intros. lia.
      * intros (n & Hn & Ha & Hl). destruct (decide (n = S len)) as [->|]; [congruence|].
        rewrite Hl in E by lia. done.
    + rewrite IH. split; intros (n & Hn & Ha & Hl).
      * exists n. split_and!; [lia|lia|done|]. intros n' Hn'.
        destruct (decide (n' = S len)) as [->|]; [done|]. apply Hl. lia.
      * destruct (decide (n = S len)) as [->|]; [congruence|].
        exists n. split_and!; [lia|lia|done|]. intros n' Hn'. apply Hl. lia.
Qed.

Lemma longest_match_None look path len :
  longest_match look path len = None <->
  forall n, (0 < n <= len)%nat -> look (take n path) = None.
Proof.
  induction len as [|len IH].
  - split; [intros _ n Hn; lia|done].
  - cbn [longest_match]. destruct (look (take (S len) path)) as [b|] eqn:E.
    + split; [done|]. intros H. rewrite H in E by lia. done.
    + rewrite IH. split; intros H n Hn; [|apply H; lia].
      destruct (decide (n = S len)) as [->|]; [done|]. apply H. lia.
Qed.

(** ** The invariant of the maps *)

(** Every rule denies, its prefix is a non-empty string that fits the key. *)
Definition pol_ok (m : polmaps) : Prop :=
  forall k v, pm_cellpol m !! k = Some v ->
    v = ACT_DENY /\ k.2 <> [] /\ (length k.2 < PLEN)%nat.

Lemma pol_ok_zero m : pol_ok m -> pm_cellpol m !! zero_key = None.
Proof.
  intros Hm. destruct (pm_cellpol m !! zero_key) as [v|] eqn:E; [|done].
  by destruct (Hm _ _ E) as (_ & H & _).
Qed.

Lemma bpf_update_Some {Key} `{Countable Key} cap (m m' : gmap Key Z) k v :
  bpf_update cap m k v = Some m' -> m' = <[k := v]> m.
Proof. unfold bpf_update. repeat case_on_match; congruence. Qed.

Lemma bpf_delete_map {Key} `{Countable Key} (m : gmap Key Z) k : (bpf_delete m k).2 = delete k m.
Proof. unfold bpf_delete. destruct (m !! k) eqn:E; [done|]. cbn. by rewrite delete_id. Qed.

Lemma cell_add_maps cgid prefix m :
  let '(rc, m') := cell_add cgid prefix m in
  (m' = m /\ rc = -1) \/
  (pm_cellpol m' = <[cell_key cgid prefix := ACT_DENY]> (pm_cellpol m) /\
   (pm_cells m' = pm_cells m /\ rc = -1 \/ pm_cells m' = <[cgid := 1]> (pm_cells m) /\ rc = 0)).
Proof.
  unfold cell_add. destruct (bpf_update CELLPOL_MAX _ _ _) as [p|] eqn:E1; [|by cbn; left].
  apply bpf_update_Some in E1. subst p.
  destruct (bpf_update CELLS_MAX _ _ _) as [c|] eqn:E2; cbn; right; [|by eauto].
  apply bpf_update_Some in E2. eauto.
Qed.

Lemma cell_add_ok cgid prefix m :
  prefix <> [] -> pol_ok m -> pol_ok (cell_add cgid prefix m).2.
Proof.
  intros Hp Hm. pose proof (cell_add_maps cgid prefix m) as H.
  destruct (cell_add cgid prefix m) as [rc m']. cbn [snd].
  destruct H as [[-> _]|[E _]]; [done|]. intros k v. rewrite E, lookup_insert_Some.
  intros [[<- <-]|[_ Hk]]; [|by apply Hm]. cbn [cell_key snd]. split_and!; [done| |].
  - destruct prefix; [done|]. by vm_compute.
  - apply snprintf_s_length. unfold PLEN. lia.
Qed.

Lemma cell_del_ok cgid prefix m : pol_ok m -> pol_ok (cell_del cgid prefix m).2.
Proof.
  intros Hm. unfold cell_del. pose proof (bpf_delete_map (pm_cellpol m) (cell_key cgid prefix)) as E.
  destruct (bpf_delete _ _) as [rc p]. cbn in *. subst p.
  intros k v. cbn. rewrite lookup_delete_Some. intros [_ Hk]. by apply Hm.
Qed.

(** ** Decisions of the hook *)

(** The hook's configuration in serve mode. *)
Definition serve_cfg : lsmcfg := LsmCfg 0 true false 0 0.

(** A path the hook sees whole: a C string of at most 63 bytes. *)
Definition short_path (f : bytes) : Prop := no_nul f /\ (length f < PLEN)%nat.

Section Decisions.
Context (d_path : bytes -> option bytes).
(** [bpf_d_path] gives the path when it and its NUL fit the buffer, and fails
    ([-ENAMETOOLONG]) when they do not. *)
Hypothesis d_path_fits : forall f, (length f < PLEN)%nat -> d_path f = Some f.
Hypothesis d_path_long : forall f, (PLEN <= length f)%nat -> d_path f = None.

Lemma path_len_short f : short_path f -> path_len f = length f.
Proof.
  intros [Hn Hl]. unfold path_len. rewrite cstr_no_nul by done.
  rewrite take_ge; [done|]. unfold PLEN in *. lia.
Qed.

(** A rule of the cell applies to a file when its prefix is a prefix of the
    path. *)
Definition rule_applies (m : polmaps) (cgid : Z) (f : bytes) : Prop :=
  exists q, q `prefix_of` f /\ is_Some (pm_cellpol m !! (cgid, q)).

Lemma serve_decision m pol now room p f v :
  pol_ok m -> pm_cells m !! pr_cgid p = Some v -> short_path f ->
  (rule_applies m (pr_cgid p) f ->
   cell_file_open d_path serve_cfg m pol now room p f =
   (- EPERM, if room then Some (mk_evt p EV_DENY 0 f) else None)) /\
  (~ rule_applies m (pr_cgid p) f ->
   cell_file_open d_path serve_cfg m pol now room p f = (0, None)).
Proof.
  intros Hm Hc Hf. unfold cell_file_open. cbn [serve_cfg cf_block_until].
  change (negb (0 =? 0)) with false. cbv iota. rewrite Hc, d_path_fits by apply Hf.
  rewrite path_len_short by done.
  destruct (longest_match _ f (length f)) as [a|] eqn:E.
  - apply longest_match_Some in E as (n & Hn & Ha & _).
    destruct (Hm _ _ Ha) as (-> & _). split; [done|]. intros Hno. destruct Hno.
    exists (take n f). split; [by apply prefix_take|by eauto].
  - rewrite longest_match_None in E. split; [|done]. intros (q & [r ->] & a & Ha).
    destruct (Hm _ _ Ha) as (_ & Hne & _). cbn in Hne.
    specialize (E (length q)). rewrite take_app_length, Ha in E.
    rewrite length_app in E. destruct q; [done|]. cbn in E.
    by discriminate (E ltac:(lia)).
Qed.
End Decisions.

(** ** Reachable policies *)

Section Reach.
Context (order : gmap cellkey Z -> list cellkey).

(** The maps after any sequence of ADD, DEL and CLR requests ([sscanf]'s
    [%63s] never yields an empty prefix). *)
Inductive pol_reach : polmaps -> Prop :=
  | pol_start : pol_reach (PolMaps ∅ ∅)
  | pol_add cgid prefix m : prefix <> [] -> pol_reach m -> pol_reach (cell_add cgid prefix m).2
  | pol_del cgid prefix m : pol_reach m -> pol_reach (cell_del cgid prefix m).2
  | pol_clr cgid m rc m' : cell_clr order cgid m = Some (rc, m') -> pol_reach m -> pol_reach m'.

Hypothesis order_keys : forall m, order m ≡ₚ (map_to_list m).*1.

Lemma pol_reach_ok m : pol_reach m -> pol_ok m.
Proof.
  induction 1 as [|cgid prefix m Hp _ IH|cgid prefix m _ IH|cgid m rc m' E _ IH].
  - intros k v Hk. cbn in Hk. by rewrite lookup_empty in Hk.
  - by apply cell_add_ok.
  - by apply cell_del_ok.
  - rewrite cell_clr_spec in E by (done || by apply pol_ok_zero).
    injection E as _ <-. intros k v. cbn. rewrite map_lookup_filter_Some.
    intros [Hk _]. by apply IH.
Qed.
End Reach.

(** A kernel's walk order, for the witnesses. *)
Definition list_order (m : gmap cellkey Z) : list cellkey := (map_to_list m).*1.
(** A [bpf_d_path] with the documented behaviour. *)
Definition simple_d_path (f : bytes) : option bytes :=
  if (length f <? PLEN)%nat then Some f else None.

(** The value a system call returns when the filter answers [ret]. *)
Definition errno_of (ret : Z) : Z := - Z.land ret SECCOMP_RET_DATA.

(** ** Main theorems *)

(** C7. In serve mode a process of a registered cell is denied a file whose path
    fits the hook's buffer exactly when a prefix registered for its own cell is a
    prefix of the path; the denial is -EPERM and is reported (if the ring buffer
    has room) with the cell, process and path; every other open is allowed
    silently.  This holds in every state ADD, DEL and CLR can produce. *)
Theorem cell_policy_exact order d_path m pol now room p f v :
  (forall m, order m ≡ₚ (map_to_list m).*1) ->
  (forall g, (length g < PLEN)%nat -> d_path g = Some g) ->
  pol_reach order m -> pm_cells m !! pr_cgid p = Some v -> short_path f ->
  (rule_applies m (pr_cgid p) f ->
   cell_file_open d_path serve_cfg m pol now room p f =
   (- EPERM, if room then Some (mk_evt p EV_DENY 0 f) else None)) /\
  (~ rule_applies m (pr_cgid p) f ->
   cell_file_open d_path serve_cfg m pol now room p f = (0, None)).
Proof. intros Ho Hd Hr Hc Hf. eapply serve_decision; eauto. by eapply pol_reach_ok. Qed.

(** C28. [cell_clr] ends after finitely many steps in whatever order the kernel
    walks the map (each deletion restarts the walk), removes every rule of the
    cell and its registration, keeps every rule of every other cell, and reports
    success exactly when the cell was registered. *)
Theorem cell_clr_clears order cgid m :
  (forall m, order m ≡ₚ (map_to_list m).*1) -> pol_reach order m ->
  exists m', cell_clr order cgid m =
    Some (if decide (is_Some (pm_cells m !! cgid)) then 0 else -1, m') /\
  pm_cells m' = delete cgid (pm_cells m) /\
  (forall q, pm_cellpol m' !! (cgid, q) = None) /\
  (forall c q, c <> cgid -> pm_cellpol m' !! (c, q) = pm_cellpol m !! (c, q)).
Proof.
  intros Ho Hr. apply (pol_reach_ok order Ho) in Hr.
  eexists. split; [apply cell_clr_spec; [done|by apply pol_ok_zero]|].
  split_and!; cbn [pm_cells pm_cellpol]; [done| |].
  - intros q. apply map_lookup_filter_None. right. intros v _ Hv. by apply Hv.
  - intros c q Hc. apply option_eq. intros v. rewrite map_lookup_filter_Some.
    unfold not_of. cbn. tauto.
Qed.

(** A successful ADD denies, from then on, every path (that fits the buffer)
    under the prefix to the processes of that cell, and changes no decision for
    any other cell. *)
Theorem cell_add_denies d_path cgid prefix m m' pol now p f :
  (forall g, (length g < PLEN)%nat -> d_path g = Some g) ->
  pol_ok m -> prefix <> [] -> (length prefix < PLEN)%nat ->
  cell_add cgid prefix m = (0, m') -> short_path f ->
  (pr_cgid p = cgid -> prefix `prefix_of` f ->
   (cell_file_open d_path serve_cfg m' pol now false p f).1 = - EPERM) /\
  (pr_cgid p <> cgid ->
   cell_file_open d_path serve_cfg m' pol now false p f =
   cell_file_open d_path serve_cfg m pol now false p f).
Proof.
  intros Hd Hm Hne Hlen Hadd Hf. pose proof (cell_add_maps cgid prefix m) as H.
  pose proof (cell_add_ok cgid prefix m Hne Hm) as Hm'. rewrite Hadd in H, Hm'. cbn in Hm'.
  destruct H as [[_ ?]|(Hp & [[_ ?]|[Hc _]])]; [done|done|]. split.
  - intros <- Hpre. rewrite (proj1 (serve_decision d_path Hd m' pol now false p f 1 Hm'
      ltac:(by rewrite Hc, lookup_insert_eq) Hf)); [done|].
    exists prefix. split; [done|]. rewrite Hp. unfold cell_key.
    assert (snprintf_s PLEN prefix = prefix) as -> by (apply take_ge; unfold PLEN in *; lia).
    rewrite lookup_insert_eq. eauto.
  - intros Hcg. unfold cell_file_open. cbn [serve_cfg cf_block_until cf_flat].
    rewrite Hc, lookup_insert_ne by done. destruct (pm_cells m !! pr_cgid p); [|done].
    rewrite Hp. assert (forall path n, longest_match (fun q =>
        <[cell_key cgid prefix := ACT_DENY]> (pm_cellpol m) !! (pr_cgid p, q)) path n =
      longest_match (fun q => pm_cellpol m !! (pr_cgid p, q)) path n) as Heq.
    { intros path n. induction n as [|n IH]; [done|]. cbn [longest_match].
      rewrite lookup_insert_ne by (unfold cell_key; congruence). by rewrite IH. }
    change (negb (0 =? 0)) with false. cbv iota. destruct (d_path f); [|done]. by rewrite Heq.
Qed.

(** A file whose path does not fit the 64-byte buffer is never denied: under
    any registered prefix, every file deep enough (a path of 64 bytes or more) is
    opened, and nothing is reported. *)
Theorem long_path_not_denied d_path m pol now room p f :
  (forall g, (PLEN <= length g)%nat -> d_path g = None) ->
  is_Some (pm_cells m !! pr_cgid p) -> (PLEN <= length f)%nat ->
  cell_file_open d_path serve_cfg m pol now room p f = (0, None).
Proof.
  intros Hd [v Hv] Hl. unfold cell_file_open. cbn [serve_cfg cf_block_until].
  change (negb (0 =? 0)) with false. cbv iota. by rewrite Hv, Hd.
Qed.

(** C40. For a registered cell whose payload has the filter without [--ask]:
    every call the TRIP probe watches is one the filter refuses with an errno (on
    both architectures), and the value it then returns is one the probe accepts,
    so the refused call is reported, with its number, when the ring has room.
    Refused calls that the probe does not watch are not reported. *)
Theorem trip_calls_reported t m p d :
  is_Some (pm_cells m !! pr_cgid p) -> u32 (sd_arch d) = AC_AUDIT_ARCH (syscalls_h t) ->
  trip_nr (syscalls_h t) (u32 (sd_nr d)) = true ->
  tp_sys_exit (syscalls_h t) m true p (u32 (sd_nr d)) (errno_of (policy (syscalls_h t) false d)) =
  Some (mk_evt p EV_TRIP (u32 (sd_nr d)) []).
Proof.
  intros [v Hv] Ha Ht. unfold tp_sys_exit. rewrite Ht. cbn [negb].
  assert (policy (syscalls_h t) false d = DENY_EPERM \/ policy (syscalls_h t) false d = DENY_ENOSYS)
    as Hpol.
  { unfold policy. rewrite Ha, Z.eqb_refl. cbn [negb]. destruct (_ && _); [by left|].
    case_bool_decide as Hc3; [by right|]. left. rewrite bool_decide_eq_true_2; [done|].
    unfold trip_nr in Ht. apply existsb_exists in Ht as (s & Hs & Hn%bool_decide_eq_true).
    apply list_elem_of_In, trip_listed in Hs as [->|(e & He & <-)]; [congruence|].
    apply list_elem_of_fmap. exists e. split; [|done].
    destruct (tab_entry t e He) as [Hn' _]. congruence. }
  assert (negb (errno_of (policy (syscalls_h t) false d) =? - EPERM) &&
          negb (errno_of (policy (syscalls_h t) false d) =? - ENOSYS) = false) as ->
    by (by destruct Hpol as [->| ->]).
  unfold mon_reserve. rewrite Hv. by rewrite u32_small by apply u32_range.
Qed.

(** *** Witnesses *)

Definition wit_maps : polmaps := (cell_add 7 (B "/etc/shadow") (PolMaps ∅ ∅)).2.
Definition wit_proc : proc := Proc 7 (Z.shiftl 42 32) (B "cat").
Definition wit_deep : bytes :=
  B "/etc/shadow.d/0123456789/0123456789/0123456789/0123456789/0123456789".

Lemma wit_maps_reach : pol_reach list_order wit_maps.
Proof. apply pol_add; [done|constructor]. Qed.

Lemma simple_d_path_fits f : (length f < PLEN)%nat -> simple_d_path f = Some f.
Proof. intros. unfold simple_d_path. by rewrite (proj2 (Nat.ltb_lt _ _)). Qed.

Lemma simple_d_path_long f : (PLEN <= length f)%nat -> simple_d_path f = None.
Proof. intros. unfold simple_d_path. by rewrite (proj2 (Nat.ltb_ge _ _)). Qed.

Lemma shadow_short : short_path (B "/etc/shadow").
Proof. split; [|unfold PLEN; cbn; lia]. by apply (bool_decide_unpack _). Qed.

Lemma cell_policy_exact_witness :
  cell_file_open simple_d_path serve_cfg wit_maps ∅ 0 true wit_proc (B "/etc/shadow") =
  (- EPERM, Some (mk_evt wit_proc EV_DENY 0 (B "/etc/shadow"))).
Proof.
  apply (cell_policy_exact list_order simple_d_path wit_maps ∅ 0 true wit_proc
           (B "/etc/shadow") 1).
  - intros m. reflexivity.
  - apply simple_d_path_fits.
  - apply wit_maps_reach.
  - reflexivity.
  - apply shadow_short.
  - exists (B "/etc/shadow"). split; [done|]. by exists ACT_DENY.
Defined.

Lemma cell_clr_clears_witness :
  exists m', cell_clr list_order 7 wit_maps = Some (0, m') /\
             pm_cellpol m' !! (7, B "/etc/shadow") = None.
Proof.
  destruct (cell_clr_clears list_order 7 wit_maps ltac:(intros m; reflexivity) wit_maps_reach)
    as (m' & H1 & _ & H2 & _).
  exists m'. split; [exact H1|apply H2].
Defined.

Lemma cell_add_denies_witness :
  (cell_file_open simple_d_path serve_cfg wit_maps ∅ 0 false wit_proc (B "/etc/shadow")).1 =
  - EPERM.
Proof.
  apply (cell_add_denies simple_d_path 7 (B "/etc/shadow") (PolMaps ∅ ∅) wit_maps ∅ 0 wit_proc
           (B "/etc/shadow")).
  - apply simple_d_path_fits.
  - apply (pol_reach_ok list_order); [intros m; reflexivity|constructor].
  - done.
  - unfold PLEN. cbn. lia.
  - by vm_compute.
  - apply shadow_short.
  - done.
  - done.
Defined.

Lemma long_path_not_denied_witness :
  (B "/etc/shadow") `prefix_of` wit_deep /\
  cell_file_open simple_d_path serve_cfg wit_maps ∅ 0 true wit_proc wit_deep = (0, None).
Proof.
  split; [by eexists|].
  apply (long_path_not_denied simple_d_path wit_maps ∅ 0 true wit_proc wit_deep).
  - apply simple_d_path_long.
  - by exists 1.
  - unfold PLEN. cbn. lia.
Defined.

Lemma trip_calls_reported_witness :
  tp_sys_exit arch_x86_64 wit_maps true wit_proc 101
    (errno_of (policy arch_x86_64 false (SeccompData 101 AC_AUDIT_ARCH_x86_64 0 []))) =
  Some (mk_evt wit_proc EV_TRIP 101 []).
Proof.
  apply (trip_calls_reported T_x86_64 wit_maps wit_proc
           (SeccompData 101 AC_AUDIT_ARCH_x86_64 0 [])).
  - by exists 1.
  - reflexivity.
  - reflexivity.
Defined.
