(* ===== verification/Control.v ===== *)
(** * The daemon's control protocol

    [agentlsm.c]: the connection table, [fanout] and [on_evt], [serve_line] with
    every request it knows, and the body of the loop of [serve_mode] (accept,
    read, frame into lines, drain an over-long line); [netup_reply.h]:
    [netup_reply] and [drain_resume].  The policy maps ([Policy]) and the network
    state ([NetDaemon]) are part of the state a request moves; what [read],
    [write] and [accept4] answer, DNS and the time are arguments. *)

From S2P Require Import Prelude CString Arch Inet Netfilter NetDaemon Cbpf Seccomp Policy.
Local Open Scope Z_scope.

Definition MAX_WATCH : nat := 64.
Definition BUFSZ : nat := Z.to_nat 4096.

(** [struct conn]: [cn_buf] is the first [len] bytes of [buf]. *)
Record conn := Conn {
  cn_fd : Z; cn_watcher : bool; cn_mask : Z; cn_buf : bytes; cn_drain : bool
}.
Definition conn_free : conn := Conn (-1) false 0 [] false.

(** ** [netup_reply.h] *)

Definition netup_reply (parsed too_many : bool) (rc : Z) (rep : bytes) : bytes :=
  if negb parsed then B "ERR netup" ++ [NL]
  else if too_many then B "ERR egress_too_many_hosts" ++ [NL]
  else if negb (rc =? 0) && bool_decide (rep = []) then B "ERR netup" ++ [NL]
  else rep.

(** How many bytes after the first newline are kept; [None] is -1. *)
Definition drain_resume (data : bytes) : option nat :=
  match strchr NL data with
  | None => None
  | Some i => Some (length data - i - 1)%nat
  end.

(** ** Parsing requests *)

(** [sscanf(s, "%llu %63s", ...)] with both conversions done. *)
Definition scan_cgid_prefix (s : bytes) : option (Z * bytes) :=
  match scan_llu s with
  | Some (cgid, r) => match scan_str 63 r with Some (w, _) => Some (cgid, w) | None => None end
  | None => None
  end.

(** The mask of one class name. *)
Definition class_bit (tok : bytes) : Z :=
  let bit (name : string) ev := if decide (tok = B name) then Z.shiftl 1 ev else 0 in
  Z.lor (bit "deny" EV_DENY) (Z.lor (bit "exec" EV_EXEC) (Z.lor (bit "open" EV_OPEN)
    (Z.lor (Z.lor (bit "net" EV_CONNECT) (bit "connect" EV_CONNECT)) (bit "trip" EV_TRIP)))).
Definition watch_mask (args : bytes) : Z :=
  let toks := strtok "," (skip_while is_sp args) in
  let mask := fold_left (fun m t => Z.lor m (class_bit t)) toks 0 in
  if mask =? 0 then u32 (-1) else mask.

(** The [NETUP] request so far. *)
Record netup := NetUp { nu_hosts : list (bytes * bytes); nu_ns : list bytes; nu_too_many : bool }.

(** Is [p] at keyword [kw] (followed by a space or the end)? *)
Definition at_keyword (kw p : bytes) : bool :=
  starts_with kw p &&
  match drop (length kw) p with [] => true | c :: _ => is_sp c end.

(** The loop over the options of [NETUP]; each turn consumes at least a
    character, so the length of the line is fuel enough. *)
Fixpoint netup_opts (fuel : nat) (p : bytes) (u : netup) : netup :=
  match fuel with
  | O => u
  | S fuel' =>
      match skip_while is_sp p with
      | [] => u
      | p =>
          if at_keyword (B "EGRESS") p then
            match skip_while is_sp (drop 6 p) with
            | [] => u
            | p =>
                if (MAX_EGRESS <=? length (nu_hosts u))%nat
                then NetUp (nu_hosts u) (nu_ns u) true
                else
                  let host := snprintf_s 128 (span_while not_sp p) in
                  match skip_while is_sp (skip_while not_sp p) with
                  | [] => u
                  | p =>
                      let port := snprintf_s 8 (span_while not_sp p) in
                      netup_opts fuel' (skip_while not_sp p)
                        (NetUp (nu_hosts u ++ [(host, port)]) (nu_ns u) (nu_too_many u))
                  end
            end
          else if at_keyword (B "RESOLV") p then
            match skip_while is_sp (drop 6 p) with
            | [] => u
            | p =>
                let u := if (length (nu_ns u) <? MAX_NS)%nat
                         then NetUp (nu_hosts u) (nu_ns u ++ [snprintf_s 64 (span_while not_sp p)])
                                (nu_too_many u)
                         else u in
                netup_opts fuel' (skip_while not_sp p) u
            end
          else u
      end
  end.

(** [pid], whether it was there, and the options. *)
Definition netup_parse (p : bytes) : Z * bool * netup :=
  let '(pid, ok, r) := match strtol p with Some (v, r) => (v, true, r) | None => (0, false, p) end in
  (pid, ok, netup_opts (S (length p)) r (NetUp [] [] false)).

(** ** Connections and requests *)

Section Serve.
Context {K : Type} (system : bytes -> K -> Z * K).
Context (order : gmap cellkey Z -> list cellkey).
(** Whether a [write] to a descriptor succeeds, DNS and the time. *)
Context (can_write : Z -> bool) (dns : Z * Z -> bytes -> list (Z * Z)) (now : Z).

(** What requests move, with the bytes written to each descriptor, in order. *)
Record world := World {
  w_pol : polmaps; w_net : netst (K := K); w_conns : list conn; w_out : list (Z * bytes);
  w_log : list bytes                          (* lines on the daemon's stdout *)
}.

Definition set_conns (l : list conn) (w : world) : world :=
  World (w_pol w) (w_net w) l (w_out w) (w_log w).
Definition conn_drop (i : nat) (w : world) : world :=
  set_conns (alter (fun c => Conn (-1) false 0 (cn_buf c) false) i (w_conns w)) w.

(** [write(g_conn[i].fd, ...)], dropping the connection when it fails. *)
Definition conn_write (i : nat) (data : bytes) (w : world) : world :=
  let fd := default (-1) (cn_fd <$> w_conns w !! i) in
  if can_write fd
  then World (w_pol w) (w_net w) (w_conns w) (w_out w ++ [(fd, data)]) (w_log w)
  else conn_drop i w.

Definition fd_open (i : nat) (w : world) : bool :=
  0 <=? default (-1) (cn_fd <$> w_conns w !! i).

(** One watcher of [fanout]. *)
Definition fanout_one (line : bytes) (classbit : Z) (i : nat) (w : world) : world :=
  match w_conns w !! i with
  | Some c =>
      if (cn_fd c <? 0) || negb (cn_watcher c) then w
      else if Z.land (cn_mask c) classbit =? 0 then w
      else conn_write i line w
  | None => w
  end.
Definition fanout (line : bytes) (classbit : Z) (w : world) : world :=
  let w := if Z.land classbit (Z.lor (Z.shiftl 1 EV_DENY) (Z.shiftl 1 EV_TRIP)) =? 0 then w
           else World (w_pol w) (w_net w) (w_conns w) (w_out w) (w_log w ++ [line]) in
  fold_left (fun w i => fanout_one line classbit i w) (seq 0 MAX_WATCH) w.

(** [%s[%u] ] of the process of an event. *)
Definition who (e : evt) : bytes := cstr (ev_comm e) ++ B "[" ++ print_u (ev_tgid e) ++ B "] ".
Definition le16 (a b : ascii) : Z := code a + 256 * code b.
Definition at_byte (s : bytes) (i : nat) : ascii := default NUL (s !! i).

(** [on_evt]'s text and class; [None] for an unknown type.  [nm] is
    [attempt_name]. *)
Definition evt_info (nm : Z -> bytes) (e : evt) : option (bytes * Z * bytes) :=
  let p := ev_path e in
  if ev_type e =? EV_DENY then
    Some (B "DENY", Z.shiftl 1 EV_DENY, who e ++ cstr p)
  else if ev_type e =? EV_EXEC then
    Some (B "EXEC", Z.shiftl 1 EV_EXEC, who e ++ cstr p)
  else if ev_type e =? EV_OPEN then
    Some (B "OPEN", Z.shiftl 1 EV_OPEN, who e ++ cstr p)
  else if ev_type e =? EV_CONNECT then
    let fam := le16 (at_byte p 0) (at_byte p 1) in
    let ip i := print_u (code (at_byte p (4 + i))) in
    Some (B "NET", Z.shiftl 1 EV_CONNECT,
      if fam =? 2
      then who e ++ B "connect " ++ ip 0%nat ++ B "." ++ ip 1%nat ++ B "." ++ ip 2%nat ++ B "." ++
           ip 3%nat ++ B ":" ++ print_u (le16 (at_byte p 3) (at_byte p 2))
      else who e ++ B "connect family=" ++ print_u fam)
  else if ev_type e =? EV_TRIP then
    Some (B "TRIP", Z.shiftl 1 EV_TRIP,
      who e ++ B "blocked syscall " ++ nm (ev_nr e) ++ B " (" ++ print_u (ev_nr e) ++ B ")")
  else None.

(** [attempt_name]. *)
Definition attempt_name (A : arch) (nr : Z) : bytes :=
  match list_find (fun e => sys_nr e = nr) (AC_SYSCALL_TAB A) with
  | Some (_, e) => B (sys_name e)
  | None => B "?"
  end.

Definition on_evt (A : arch) (e : evt) (w : world) : world :=
  match evt_info (attempt_name A) e with
  | None => w
  | Some (cls, bit, info) =>
      let line := B "EV " ++ print_u (ev_cgid e) ++ SP :: cls ++ SP :: snprintf_s 300 info ++ [NL] in
      fanout (snprintf_s 400 line) bit w
  end.

(** *** [serve_line] *)

Definition OK_NL : bytes := B "OK" ++ [NL].
Definition END_NL : bytes := B "END" ++ [NL].

Definition set_pol (m : polmaps) (w : world) : world :=
  World m (w_net w) (w_conns w) (w_out w) (w_log w).
Definition set_net (s : netst) (w : world) : world :=
  World (w_pol w) s (w_conns w) (w_out w) (w_log w).

(** The lines of [LIST], until a write fails (then the connection is gone). *)
Fixpoint write_keys (ci : nat) (ks : list cellkey) (w : world) : world * bool :=
  match ks with
  | [] => (w, true)
  | k :: ks' =>
      let l := snprintf_s 96 (print_u k.1 ++ SP :: k.2 ++ [NL]) in
      if can_write (default (-1) (cn_fd <$> w_conns w !! ci))
      then write_keys ci ks' (conn_write ci l w)
      else (conn_drop ci w, false)
  end.

(** The reply ([None]: return without one) and the world.  The outer [option] is
    a loop of the policy maps that ran out of fuel. *)
Definition serve_request (ci : nat) (line : bytes) (w : world) : option (option bytes * world) :=
  let line := skip_while is_sp line in
  let err s := B s ++ [NL] in
  if starts_with (B "ADD ") line then
    Some (match scan_cgid_prefix (drop 4 line) with
          | Some (cgid, prefix) =>
              let '(rc, m) := cell_add cgid prefix (w_pol w) in
              (Some (if rc =? 0 then OK_NL else err "ERR add"), set_pol m w)
          | None => (Some (err "ERR add"), w)
          end)
  else if starts_with (B "DEL ") line then
    Some (match scan_cgid_prefix (drop 4 line) with
          | Some (cgid, prefix) =>
              let '(rc, m) := cell_del cgid prefix (w_pol w) in
              (Some (if rc =? 0 then OK_NL else err "ERR del"), set_pol m w)
          | None => (Some (err "ERR del"), w)
          end)
  else if starts_with (B "CLR ") line then
    match scan_llu (drop 4 line) with
    | Some (cgid, _) =>
        '(rc, m) ← cell_clr order cgid (w_pol w);
        Some (Some (if rc =? 0 then OK_NL else err "ERR clr"), set_pol m w)
    | None => Some (Some (err "ERR clr"), w)
    end
  else if decide (line = B "LIST") then
    ks ← cell_list order (w_pol w);
    let '(w, ok) := write_keys ci ks w in
    Some (if ok then Some END_NL else None, w)
  else if starts_with (B "WATCH") line then
    Some (Some OK_NL, set_conns (alter (fun c =>
      Conn (cn_fd c) true (watch_mask (drop 5 line)) (cn_buf c) (cn_drain c)) ci (w_conns w)) w)
  else if starts_with (B "NETUP ") line then
    let '(pid, ok, u) := netup_parse (drop 6 line) in
    let '(rc, rep, s) :=
      if ok && negb (nu_too_many u)
      then net_up system dns now (s32 pid) (nu_hosts u) (nu_ns u) (w_net w)
      else (0, [], w_net w) in
    Some (Some (netup_reply ok (nu_too_many u) rc rep), set_net s w)
  else if starts_with (B "NETDOWN ") line then
    Some (Some OK_NL,
          match scan_ld (drop 8 line) with
          | Some (pid, _) => set_net (net_down system (s32 pid) (w_net w)) w
          | None => w
          end)
  else if decide (line = B "QUIT" \/ line = B "BYE") then Some (None, conn_drop ci w)
  else Some (Some (err "ERR unknown"), w).

Definition serve_line (ci : nat) (line : bytes) (w : world) : option world :=
  '(rep, w) ← serve_request ci line w;
  Some (match rep with Some r => conn_write ci r w | None => w end).

(** *** One turn of the loop of [serve_mode] *)

Definition set_buf (i : nat) (b : bytes) (w : world) : world :=
  set_conns (alter (fun c => Conn (cn_fd c) (cn_watcher c) (cn_mask c) b (cn_drain c)) i
               (w_conns w)) w.
Definition set_drain (i : nat) (b : bytes) (d : bool) (w : world) : world :=
  set_conns (alter (fun c => Conn (cn_fd c) (cn_watcher c) (cn_mask c) b d) i (w_conns w)) w.

(** The complete lines of the buffer, one by one, until the connection is gone;
    each takes at least its newline, so the length of the buffer is fuel enough. *)
Fixpoint line_loop (fuel : nat) (i : nat) (w : world) : option world :=
  match w_conns w !! i with
  | None => Some w
  | Some c =>
      match strchr NL (cstr (cn_buf c)) with
      | None => Some w
      | Some n =>
          match fuel with
          | O => None
          | S fuel' =>
              w ← serve_line i (take n (cn_buf c)) w;
              if fd_open i w
              then line_loop fuel' i (set_buf i (cstr (drop (S n) (cn_buf c))) w)
              else Some w
          end
      end
  end.

Definition TOO_LONG : bytes := B "ERR line_too_long" ++ [NL].

(** The check at the end of a read: a full buffer without a newline. *)
Definition overflow_check (i : nat) (w : world) : world :=
  match w_conns w !! i with
  | Some c =>
      if (0 <=? cn_fd c) && (BUFSZ - 1 <=? length (cn_buf c))%nat
      then set_drain i [] true (conn_write i TOO_LONG w) else w
  | None => w
  end.

(** [read] delivered [chunk] (of what was there: at most the free space). *)
Definition conn_read (i : nat) (chunk : bytes) (w : world) : option world :=
  match w_conns w !! i with
  | None => Some w
  | Some c =>
      let data := take (BUFSZ - 1 - length (cn_buf c)) chunk in
      if cn_drain c then
        match drain_resume data with
        | None => Some w
        | Some keep =>
            Some (overflow_check i (set_drain i (drop (length data - keep) data) false w))
        end
      else
        let buf := cn_buf c ++ data in
        w ← line_loop (length buf) i (set_buf i buf w);
        Some (overflow_check i w)
  end.

(** What [poll] and [read] report for one connection. *)
Inductive cevent := CIdle | CHup | CRead (chunk : bytes).

Definition serve_conn (i : nat) (ev : cevent) (w : world) : option world :=
  if negb (fd_open i w) then Some w
  else match ev with
       | CIdle => Some w
       | CHup => Some (conn_drop i w)
       | CRead [] => Some (conn_drop i w)
       | CRead chunk => conn_read i chunk w
       end.

(** The first free entry. *)
Fixpoint conn_slot (l : list conn) : option nat :=
  match l with
  | [] => None
  | c :: l' => if cn_fd c <? 0 then Some 0%nat else S <$> conn_slot l'
  end.

(** A new client on descriptor [fd] (closed when there is no entry). *)
Definition serve_accept (fd : Z) (w : world) : world :=
  match conn_slot (w_conns w) with
  | None => w
  | Some i => set_conns (alter (fun c => Conn fd false 0 [] (cn_drain c)) i (w_conns w)) w
  end.

Fixpoint serve_conns (n : nat) (i : nat) (evs : nat -> cevent) (w : world) : option world :=
  match n with
  | O => Some w
  | S n' => w ← serve_conn i (evs i) w; serve_conns n' (S i) evs w
  end.

(** One turn: ring-buffer events, refresh, accept, then every connection. *)
Definition serve_turn (A : arch) (rb : list evt) (accepted : option Z) (evs : nat -> cevent)
    (w : world) : option world :=
  let w := fold_left (fun w e => on_evt A e w) rb w in
  let '(d, k) := egress_refresh system dns now (st_d (w_net w)) (st_k (w_net w)) in
  let w := set_net (NetSt d (st_f (w_net w)) k) w in
  let w := match accepted with Some fd => serve_accept fd w | None => w end in
  serve_conns MAX_WATCH 0 evs w.
End Serve.
Arguments World {K}.
Arguments w_pol {K}. Arguments w_net {K}. Arguments w_conns {K}. Arguments w_out {K}.
Arguments w_log {K}.
