(* ===== verification/ControlThms.v ===== *)
(** * The control protocol: theorems

    Framing (requests are the lines of the stream, however it is cut), the
    treatment of over-long lines, event delivery, and that the daemon parses the
    [NETUP] line [sand] builds. *)

From S2P Require Import Prelude CString Arch Inet Netfilter NetDaemon NetChain NetInv NetSim.
From S2P Require Import Cbpf Seccomp Policy Control.
Local Open Scope Z_scope.

(** ** Lines *)

(** The complete lines of a stream, and what follows the last newline. *)
Fixpoint split_lines (cur s : bytes) : list bytes * bytes :=
  match s with
  | [] => ([], cur)
  | c :: s' =>
      if decide (c = NL) then let '(ls, r) := split_lines [] s' in (cur :: ls, r)
      else split_lines (cur ++ [c]) s'
  end.
Abbreviation lines s := (split_lines [] s).1.
Abbreviation tail s := (split_lines [] s).2.

Lemma split_lines_app cur s t :
  split_lines cur (s ++ t) =
  let '(ls, r) := split_lines cur s in
  let '(ls', r') := split_lines r t in (ls ++ ls', r').
Proof.
  revert cur. induction s as [|c s IH]; intros cur; cbn [app split_lines].
  - by destruct (split_lines cur t).
  - destruct (decide (c = NL)).
    + rewrite IH. destruct (split_lines [] s) as [ls r].
      by destruct (split_lines r t).
    + by rewrite IH.
Qed.

Lemma split_lines_no_nl cur s : NL ∉ s -> split_lines cur s = ([], cur ++ s).
Proof.
  revert cur. induction s as [|c s IH]; intros cur; cbn [split_lines].
  - by rewrite app_nil_r.
  - intros [Hc Hs]%not_elem_of_cons. rewrite decide_False by congruence.
    rewrite IH by done. by rewrite <- app_assoc.
Qed.

Lemma split_lines_cons l s :
  NL ∉ l -> split_lines [] (l ++ NL :: s) = (l :: lines s, tail s).
Proof.
  intros Hl. rewrite split_lines_app, split_lines_no_nl by done. cbn [split_lines app].
  rewrite decide_True by done. by destruct (split_lines [] s).
Qed.

(** ** Requests do not look at the buffer of their connection *)

Section Framing.
Context {K : Type} (system : bytes -> K -> Z * K) (order : gmap cellkey Z -> list cellkey).
Context (can_write : Z -> bool) (dns : Z * Z -> bytes -> list (Z * Z)) (now : Z).

Abbreviation world := (world (K := K)).
Abbreviation serve_line := (serve_line system order can_write dns now).
Abbreviation serve_request := (serve_request system order can_write dns now).

Lemma fd_set_buf j i b (w : world) :
  (cn_fd <$> w_conns (set_buf i b w) !! j) = (cn_fd <$> w_conns w !! j).
Proof.
  unfold set_buf, set_conns. cbn [w_conns]. destruct (decide (i = j)) as [->|Hne].
  - rewrite list_lookup_alter_eq. by destruct (w_conns w !! j).
  - by rewrite list_lookup_alter_ne.
Qed.

Lemma fd_open_set_buf i j b (w : world) : fd_open j (set_buf i b w) = fd_open j w.
Proof. unfold fd_open. by rewrite fd_set_buf. Qed.

Lemma alter_comm (f g f' g' : conn -> conn) (i : nat) (l : list conn) :
  (forall c, f (g c) = g' (f' c)) -> alter f i (alter g i l) = alter g' i (alter f' i l).
Proof.
  intros H. rewrite !list_alter_alter_eq. apply list_alter_ext; [|done]. intros c _. apply H.
Qed.

Lemma set_buf_set_buf i b b' (w : world) : set_buf i b (set_buf i b' w) = set_buf i b w.
Proof.
  unfold set_buf, set_conns. cbn [w_conns w_pol w_net w_out w_log]. f_equal.
  rewrite list_alter_alter_eq. apply list_alter_ext; done.
Qed.

Lemma set_buf_empty i c (w : world) :
  w_conns w !! i = Some c -> cn_buf c = [] -> set_buf i [] w = w.
Proof.
  intros Hc Hb. destruct w as [p n l o g]. unfold set_buf, set_conns. cbn in *. f_equal.
  rewrite <- (list_alter_id id l i) at 2 by done. apply list_alter_ext; [|done].
  intros x Hx. rewrite Hc in Hx. injection Hx as <-. rewrite <- Hb. by destruct c.
Qed.

Lemma conn_drop_set_buf i b (w : world) :
  conn_drop i (set_buf i b w) = set_buf i b (conn_drop i w).
Proof.
  unfold conn_drop, set_buf, set_conns. cbn [w_conns w_pol w_net w_out w_log]. f_equal.
  by apply alter_comm.
Qed.

Lemma conn_write_set_buf i b data (w : world) :
  conn_write can_write i data (set_buf i b w) = set_buf i b (conn_write can_write i data w).
Proof.
  unfold conn_write. rewrite fd_set_buf. destruct (can_write _); [done|].
  apply conn_drop_set_buf.
Qed.

Lemma write_keys_set_buf i b ks (w : world) :
  write_keys can_write i ks (set_buf i b w) =
  (set_buf i b (write_keys can_write i ks w).1, (write_keys can_write i ks w).2).
Proof.
  revert w. induction ks as [|k ks IH]; intros w; cbn [write_keys]; [done|].
  rewrite fd_set_buf. destruct (can_write _).
  - rewrite conn_write_set_buf. apply IH.
  - cbn. by rewrite conn_drop_set_buf.
Qed.

(** A request is handled the same whatever its connection has buffered. *)
Lemma serve_request_set_buf i b line (w : world) :
  serve_request i line (set_buf i b w) =
  (fun '(rep, w) => (rep, set_buf i b w)) <$> serve_request i line w.
Proof.
  unfold serve_request. cbv zeta.
  destruct (starts_with (B "ADD ") _).
  { destruct (scan_cgid_prefix _) as [[cgid prefix]|]; [|done]. cbn [set_buf set_conns w_pol].
    by destruct (cell_add cgid prefix (w_pol w)). }
  destruct (starts_with (B "DEL ") _).
  { destruct (scan_cgid_prefix _) as [[cgid prefix]|]; [|done]. cbn [set_buf set_conns w_pol].
    by destruct (cell_del cgid prefix (w_pol w)). }
  destruct (starts_with (B "CLR ") _).
  { destruct (scan_llu _) as [[cgid r]|]; [|done]. cbn [set_buf set_conns w_pol].
    by destruct (cell_clr order cgid (w_pol w)) as [[rc m]|]. }
  destruct (decide _).
  { change (w_pol (set_buf i b w)) with (w_pol w).
    destruct (cell_list order (w_pol w)) as [ks|]; [|done]. cbn [mbind option_bind].
    rewrite write_keys_set_buf. by destruct (write_keys can_write i ks w). }
  destruct (starts_with (B "WATCH") _).
  { cbn [fmap option_fmap option_map]. do 2 f_equal.
    unfold set_buf, set_conns. cbn [w_conns w_pol w_net w_out w_log]. f_equal.
    by apply alter_comm. }
  destruct (starts_with (B "NETUP ") _).
  { destruct (netup_parse _) as [[pid ok] u]. change (w_net (set_buf i b w)) with (w_net w).
    by destruct (if ok && negb (nu_too_many u) then _ else _) as [[rc rep] s]. }
  destruct (starts_with (B "NETDOWN ") _).
  { by destruct (scan_ld _) as [[pid r]|]. }
  destruct (decide _); [|done]. cbn [fmap option_fmap option_map].
  by rewrite conn_drop_set_buf.
Qed.

Lemma serve_line_set_buf i b line (w : world) :
  serve_line i line (set_buf i b w) = set_buf i b <$> serve_line i line w.
Proof.
  unfold serve_line. rewrite serve_request_set_buf.
  destruct (serve_request i line w) as [[[r|] w']|]; cbn; [|done|done].
  by rewrite conn_write_set_buf.
Qed.

(** ** Requests do not start a drain *)

Definition calm (i : nat) (w : world) : Prop :=
  exists c, w_conns w !! i = Some c /\ cn_drain c = false.

Lemma calm_alter i (f : conn -> conn) (w : world) :
  (forall c, cn_drain c = false -> cn_drain (f c) = false) ->
  calm i w -> calm i (set_conns (alter f i (w_conns w)) w).
Proof.
  intros Hf (c & Hc & Hd). exists (f c). cbn. rewrite list_lookup_alter_eq, Hc. auto.
Qed.

Lemma calm_drop i (w : world) : calm i w -> calm i (conn_drop i w).
Proof. by apply calm_alter. Qed.

Lemma calm_write i data (w : world) : calm i w -> calm i (conn_write can_write i data w).
Proof. intros H. unfold conn_write. destruct (can_write _); [exact H|by apply calm_drop]. Qed.

Lemma calm_keys i ks (w : world) : calm i w -> calm i (write_keys can_write i ks w).1.
Proof.
  revert w. induction ks as [|k ks IH]; intros w H; cbn [write_keys]; [done|].
  destruct (can_write _); [apply IH; by apply calm_write|by apply calm_drop].
Qed.

Lemma calm_request i line (w : world) rep w' :
  serve_request i line w = Some (rep, w') -> calm i w -> calm i w'.
Proof.
  intros E Hc. unfold serve_request in E. cbv zeta in E.
  destruct (starts_with (B "ADD ") _).
  { destruct (scan_cgid_prefix _) as [[cgid prefix]|]; [|by injection E as <- <-].
    destruct (cell_add _ _ _) as [rc m]. injection E as <- <-. exact Hc. }
  destruct (starts_with (B "DEL ") _).
  { destruct (scan_cgid_prefix _) as [[cgid prefix]|]; [|by injection E as <- <-].
    destruct (cell_del _ _ _) as [rc m]. injection E as <- <-. exact Hc. }
  destruct (starts_with (B "CLR ") _).
  { destruct (scan_llu _) as [[cgid r]|]; [|by injection E as <- <-].
    destruct (cell_clr _ _ _) as [[rc m]|]; [|done]. cbn in E. injection E as <- <-. exact Hc. }
  destruct (decide _).
  { destruct (cell_list _ _) as [ks|]; [|done]. cbn in E.
    pose proof (calm_keys i ks w Hc) as Hk.
    destruct (write_keys _ _ _ _) as [w1 ok]. by injection E as <- <-. }
  destruct (starts_with (B "WATCH") _).
  { injection E as <- <-. by apply calm_alter. }
  destruct (starts_with (B "NETUP ") _).
  { destruct (netup_parse _) as [[pid ok] u].
    destruct (if ok && negb (nu_too_many u) then _ else _) as [[rc rep1] s].
    injection E as <- <-. exact Hc. }
  destruct (starts_with (B "NETDOWN ") _).
  { destruct (scan_ld _) as [[pid r]|]; injection E as <- <-; exact Hc. }
  destruct (decide _); injection E as <- <-; [by apply calm_drop|done].
Qed.

Lemma calm_line i line (w w' : world) : serve_line i line w = Some w' -> calm i w -> calm i w'.
Proof.
  unfold serve_line. destruct (serve_request i line w) as [[[r|] w1]|] eqn:E; cbn; [| |done].
  - intros [= <-] Hc. apply calm_write. by eapply calm_request.
  - intros [= <-] Hc. by eapply calm_request.
Qed.

(** ** A connection handles the lines of its stream *)

(** Handle lines in order until the connection is gone: the world, and whether
    the connection is still there. *)
Fixpoint serve_seq (i : nat) (ls : list bytes) (w : world) : option (world * bool) :=
  match ls with
  | [] => Some (w, true)
  | l :: ls' =>
      w ← serve_line i l w;
      if fd_open i w then serve_seq i ls' w else Some (w, false)
  end.

Lemma serve_seq_app i l1 l2 (w : world) :
  serve_seq i (l1 ++ l2) w =
  ('(w1, ok) ← serve_seq i l1 w; if (ok : bool) then serve_seq i l2 w1 else Some (w1, false)).
Proof.
  revert w. induction l1 as [|l l1 IH]; intros w; cbn [app serve_seq]; [done|].
  destruct (serve_line i l w) as [w1|]; cbn [mbind option_bind]; [|done].
  destruct (fd_open i w1); [apply IH|done].
Qed.

Lemma calm_seq i ls (w w' : world) ok :
  serve_seq i ls w = Some (w', ok) -> calm i w -> calm i w'.
Proof.
  revert w. induction ls as [|l ls IH]; intros w; cbn [serve_seq]; [by intros [= <- <-]|].
  destruct (serve_line i l w) as [w1|] eqn:E; cbn [mbind option_bind]; [|done].
  intros E2 Hc. pose proof (calm_line _ _ _ _ E Hc) as Hc1.
  destruct (fd_open i w1); [by eapply IH|by injection E2 as <- <-].
Qed.

Lemma set_buf_lookup i b c (w : world) :
  w_conns w !! i = Some c ->
  w_conns (set_buf i b w) !! i =
  Some (Conn (cn_fd c) (cn_watcher c) (cn_mask c) b (cn_drain c)).
Proof. intros Hc. cbn. by rewrite list_lookup_alter_eq, Hc. Qed.

Lemma line_loop_seq fuel i b (w : world) :
  calm i w -> no_nul b -> (length b <= fuel)%nat ->
  match serve_seq i (lines b) w with
  | None => line_loop system order can_write dns now fuel i (set_buf i b w) = None
  | Some (w', true) =>
      line_loop system order can_write dns now fuel i (set_buf i b w) = Some (set_buf i (tail b) w')
  | Some (w', false) => exists b',
      line_loop system order can_write dns now fuel i (set_buf i b w) = Some (set_buf i b' w')
  end.
Proof.
  revert b w. induction fuel as [|fuel IH]; intros b w Hcalm Hb Hf.
  - assert (b = []) as -> by (destruct b; [done|cbn in Hf; lia]). cbn [lines split_lines fst snd serve_seq].
    destruct Hcalm as (c & Hc & _). cbn [line_loop]. by rewrite (set_buf_lookup _ _ _ _ Hc).
  - cbn [line_loop]. pose proof Hcalm as (c & Hc & _). rewrite (set_buf_lookup _ _ _ _ Hc).
    cbn [cn_buf]. rewrite cstr_no_nul by done. destruct (strchr NL b) as [n|] eqn:En.
    + apply strchr_Some in En as (E & Hn & Hnn).
      assert (no_nul (drop (S n) b)) as Hb2.
      { intros Hin. apply Hb. rewrite E. apply elem_of_app. right. by constructor. }
      assert (split_lines [] b = (take n b :: lines (drop (S n) b), tail (drop (S n) b))) as Es.
      { etrans; [|by apply split_lines_cons]. f_equal. exact E. }
      rewrite Es. cbn [fst snd serve_seq]. rewrite serve_line_set_buf.
      destruct (serve_line i (take n b) w) as [w1|] eqn:E1; cbn [fmap option_fmap option_map mbind option_bind];
        [|done].
      rewrite fd_open_set_buf. destruct (fd_open i w1); [|by exists b].
      rewrite set_buf_set_buf, cstr_no_nul by done.
      specialize (IH (drop (S n) b) w1 (calm_line _ _ _ _ E1 Hcalm) Hb2).
      rewrite length_drop in IH. exact (IH ltac:(lia)).
    + apply strchr_None in En. rewrite split_lines_no_nl by done. cbn [fst snd serve_seq app]. done.
Qed.

Lemma serve_seq_open i ls (w w' : world) ok :
  serve_seq i ls w = Some (w', ok) -> fd_open i w = true -> fd_open i w' = ok.
Proof.
  revert w. induction ls as [|l ls IH]; intros w; cbn [serve_seq]; [by intros [= <- <-]|].
  destruct (serve_line i l w) as [w1|]; cbn [mbind option_bind]; [|done].
  destruct (fd_open i w1) eqn:E1; [by intros; eapply IH|]. by intros [= <- <-].
Qed.

Lemma overflow_check_none i b (w : world) :
  (fd_open i w = true -> (length b < BUFSZ - 1)%nat) ->
  overflow_check can_write i (set_buf i b w) = set_buf i b w.
Proof.
  intros Hb. unfold overflow_check.
  destruct (w_conns w !! i) as [c|] eqn:Ec.
  - rewrite (set_buf_lookup _ _ _ _ Ec). cbn [cn_fd cn_buf].
    destruct (0 <=? cn_fd c) eqn:Ef; [|done]. cbn [andb].
    destruct (Nat.leb_spec (BUFSZ - 1) (length b)); [|done].
    unfold fd_open in Hb. rewrite Ec in Hb. cbn in Hb. specialize (Hb Ef). lia.
  - cbn. rewrite list_lookup_alter_eq, Ec. done.
Qed.

(** What one read does, given the lines it completes. *)
Definition read_result (i : nat) (s : bytes) (w : world) (r : option world) : Prop :=
  match serve_seq i (lines s) w with
  | None => r = None
  | Some (w', true) => r = Some (set_buf i (tail s) w')
  | Some (w', false) => exists b', r = Some (set_buf i b' w')
  end.

Lemma conn_read_seq i b chunk (w : world) :
  calm i w -> fd_open i w = true -> no_nul (b ++ chunk) ->
  (length b + length chunk <= BUFSZ - 1)%nat -> (length (tail (b ++ chunk)) < BUFSZ - 1)%nat ->
  read_result i (b ++ chunk) w
    (conn_read system order can_write dns now i chunk (set_buf i b w)).
Proof.
  intros Hc Ho Hn Hl Ht. unfold conn_read, read_result.
  pose proof Hc as (c & Ec & Ed). rewrite (set_buf_lookup _ _ _ _ Ec). cbn [cn_buf cn_drain].
  rewrite Ed, take_ge by lia. rewrite set_buf_set_buf.
  pose proof (line_loop_seq (length (b ++ chunk)) i (b ++ chunk) w Hc Hn ltac:(lia)) as Hloop.
  destruct (serve_seq i (lines (b ++ chunk)) w) as [[w' [|]]|] eqn:Es.
  - rewrite Hloop. cbn [mbind option_bind]. by rewrite overflow_check_none.
  - destruct Hloop as [b' ->]. exists b'. cbn [mbind option_bind].
    rewrite overflow_check_none; [done|]. rewrite (serve_seq_open _ _ _ _ _ Es Ho). done.
  - by rewrite Hloop.
Qed.

(** A fresh connection that gets exactly one line. *)
Lemma serve_one_line i cn l (w w1 : world) :
  w_conns w !! i = Some cn -> 0 <= cn_fd cn -> cn_buf cn = [] -> cn_drain cn = false ->
  no_nul l -> NL ∉ l -> (length l + 1 < BUFSZ)%nat ->
  serve_line i l w = Some w1 -> fd_open i w1 = true ->
  serve_conn system order can_write dns now i (CRead (l ++ [NL])) w = Some (set_buf i [] w1).
Proof.
  intros Hc Hfd Hbuf Hdr Hn Hnl Hlen Hl Ho.
  assert (fd_open i w = true) as Hopen by (unfold fd_open; rewrite Hc; by apply Z.leb_le).
  unfold serve_conn. rewrite Hopen. cbn [negb].
  pose proof (split_lines_cons l [] Hnl) as El. cbn [split_lines fst snd] in El.
  assert (read_result i ([] ++ l ++ [NL]) w
    (conn_read system order can_write dns now i (l ++ [NL]) (set_buf i [] w))) as Hr.
  { apply conn_read_seq; cbn [app]; [by exists cn|done| | |].
    - unfold no_nul. rewrite not_elem_of_app. split; [done|]. by apply (bool_decide_unpack _).
    - rewrite length_app. cbn [length]. lia.
    - rewrite El. cbn [snd length]. unfold BUFSZ. lia. }
  rewrite (set_buf_empty i cn w Hc Hbuf) in Hr. unfold read_result in Hr. cbn [app] in Hr.
  rewrite El in Hr. cbn [fst snd serve_seq] in Hr. rewrite Hl in Hr. cbn [mbind option_bind] in Hr.
  rewrite Ho in Hr. by destruct l.
Qed.

(** A connection fed chunk by chunk. *)
Fixpoint conn_feed (i : nat) (chunks : list bytes) (w : world) : option world :=
  match chunks with
  | [] => Some w
  | c :: cs => w ← serve_conn system order can_write dns now i (CRead c) w; conn_feed i cs w
  end.

(** Every chunk fits the free space, and no line (nor the tail) fills the
    buffer. *)
Fixpoint chunks_fit (cur : bytes) (chunks : list bytes) : Prop :=
  match chunks with
  | [] => True
  | c :: cs =>
      c <> [] /\ no_nul c /\ (length cur + length c <= BUFSZ - 1)%nat /\
      (length (tail (cur ++ c)) < BUFSZ - 1)%nat /\ chunks_fit (tail (cur ++ c)) cs
  end.

Lemma conn_feed_closed i chunks (w : world) : fd_open i w = false -> conn_feed i chunks w = Some w.
Proof.
  intros H. induction chunks as [|c cs IH]; [done|]. cbn [conn_feed].
  unfold serve_conn. rewrite H. exact IH.
Qed.

Lemma tail_no_nl s : NL ∉ tail s.
Proof.
  assert (forall cur, NL ∉ cur -> NL ∉ (split_lines cur s).2) as H; [|apply H, not_elem_of_nil].
  induction s as [|c s IH]; intros cur Hc; cbn [split_lines]; [done|].
  destruct (decide (c = NL)).
  - specialize (IH [] ltac:(apply not_elem_of_nil)). by destruct (split_lines [] s).
  - apply IH. rewrite not_elem_of_app. split; [done|].
    intros Hin%list_elem_of_singleton. congruence.
Qed.

Lemma tail_no_nul s : no_nul s -> no_nul (tail s).
Proof.
  assert (forall cur, NUL ∉ cur -> NUL ∉ s -> NUL ∉ (split_lines cur s).2) as H.
  { induction s as [|c s IH]; intros cur Hc Hs; cbn [split_lines]; [done|].
    apply not_elem_of_cons in Hs as [Hs1 Hs2]. destruct (decide (c = NL)).
    - specialize (IH [] ltac:(apply not_elem_of_nil) Hs2). by destruct (split_lines [] s).
    - apply IH; [|done]. rewrite not_elem_of_app. split; [done|].
      intros Hin%list_elem_of_singleton. congruence. }
  intros Hs. apply H; [apply not_elem_of_nil|done].
Qed.

Lemma conn_feed_seq i chunks b (w : world) :
  calm i w -> fd_open i w = true -> no_nul b -> NL ∉ b -> chunks_fit b chunks ->
  read_result i (b ++ concat chunks) w (conn_feed i chunks (set_buf i b w)).
Proof.
  revert b w. induction chunks as [|c cs IH]; intros b w Hc Ho Hb Hnl Hfit.
  - cbn. unfold read_result. rewrite app_nil_r, split_lines_no_nl by done. done.
  - cbn [chunks_fit] in Hfit. destruct Hfit as (Hne & Hn & Hl & Ht & Hfit).
    assert (no_nul (b ++ c)) as Hbc by (unfold no_nul; rewrite not_elem_of_app; done).
    cbn [conn_feed concat]. unfold serve_conn. rewrite fd_open_set_buf, Ho. cbn [negb].
    pose proof (conn_read_seq i b c w Hc Ho Hbc Hl Ht) as Hr.
    destruct c as [|x c]; [done|]. set (chunk := x :: c) in *.
    unfold read_result in *. rewrite app_assoc, (split_lines_app [] (b ++ chunk)).
    pose proof (tail_no_nl (b ++ chunk)) as Hnl1. pose proof (tail_no_nul _ Hbc) as Hnul1.
    destruct (split_lines [] (b ++ chunk)) as [ls r]. cbn [fst snd] in *.
    specialize (IH r). rewrite split_lines_app, split_lines_no_nl in IH by done.
    cbn [app] in IH. destruct (split_lines r (concat cs)) as [ls' r']. cbn [fst snd app] in *.
    rewrite serve_seq_app. destruct (serve_seq i ls w) as [[w1 [|]]|] eqn:Es.
    + rewrite Hr. cbn [mbind option_bind].
      apply IH; [by eapply calm_seq|by eapply serve_seq_open|done|done|done].
    + destruct Hr as [b' ->]. cbn [mbind option_bind]. exists b'.
      apply conn_feed_closed. rewrite fd_open_set_buf. by eapply serve_seq_open.
    + by rewrite Hr.
Qed.
End Framing.


(** ** Every request is answered: the loops over the maps end *)

Section Total.
Context {K : Type} (system : bytes -> K -> Z * K) (order : gmap cellkey Z -> list cellkey).
Context (can_write : Z -> bool) (dns : Z * Z -> bytes -> list (Z * Z)) (now : Z).
Hypothesis order_keys : forall m, order m ≡ₚ (map_to_list m).*1.

Abbreviation world := (world (K := K)).
Abbreviation serve_line := (serve_line system order can_write dns now).
Abbreviation serve_request := (serve_request system order can_write dns now).

Lemma conn_write_pol i data (w : world) : w_pol (conn_write can_write i data w) = w_pol w.
Proof. unfold conn_write. by destruct (can_write _). Qed.

Lemma write_keys_pol i ks (w : world) : w_pol (write_keys can_write i ks w).1 = w_pol w.
Proof.
  revert w. induction ks as [|k ks IH]; intros w; cbn [write_keys]; [done|].
  destruct (can_write _); [|done]. by rewrite IH, conn_write_pol.
Qed.

Lemma scan_cgid_prefix_nonempty s cgid p : scan_cgid_prefix s = Some (cgid, p) -> p <> [].
Proof.
  unfold scan_cgid_prefix. destruct (scan_llu s) as [[v r]|]; [|done]. unfold scan_str.
  destruct (take 63 _); [done|]. by intros [= <- <-].
Qed.

Lemma serve_request_total i line (w : world) :
  pol_ok (w_pol w) -> exists rep w', serve_request i line w = Some (rep, w') /\ pol_ok (w_pol w').
Proof.
  intros Hm. unfold serve_request. cbv zeta.
  destruct (starts_with (B "ADD ") _).
  { destruct (scan_cgid_prefix _) as [[cgid p]|] eqn:E; [|by eauto].
    apply scan_cgid_prefix_nonempty in E. pose proof (cell_add_ok cgid p (w_pol w) E Hm).
    destruct (cell_add cgid p (w_pol w)). by eauto. }
  destruct (starts_with (B "DEL ") _).
  { destruct (scan_cgid_prefix _) as [[cgid p]|]; [|by eauto].
    pose proof (cell_del_ok cgid p (w_pol w) Hm). destruct (cell_del cgid p (w_pol w)). by eauto. }
  destruct (starts_with (B "CLR ") _).
  { destruct (scan_llu _) as [[cgid r]|]; [|by eauto].
    rewrite cell_clr_spec by (done || by apply pol_ok_zero). do 2 eexists. split; [done|].
    intros k v. cbn. rewrite map_lookup_filter_Some. intros [Hk _]. by apply Hm. }
  destruct (decide _).
  { rewrite cell_list_spec by (done || by apply pol_ok_zero). cbn [mbind option_bind].
    pose proof (write_keys_pol i (order (pm_cellpol (w_pol w))) w) as Ep.
    destruct (write_keys _ _ _ _) as [w1 ok]. do 2 eexists. split; [done|]. cbn in Ep. by rewrite Ep. }
  destruct (starts_with (B "WATCH") _); [by eauto|].
  destruct (starts_with (B "NETUP ") _).
  { destruct (netup_parse _) as [[pid ok] u]. destruct (if _ && _ then _ else _) as [[rc rep] s].
    by eauto. }
  destruct (starts_with (B "NETDOWN ") _); [|destruct (decide _); by eauto].
  do 2 eexists. split; [done|]. by destruct (scan_ld _) as [[pid r]|].
Qed.

Lemma serve_line_total i line (w : world) :
  pol_ok (w_pol w) -> exists w', serve_line i line w = Some w' /\ pol_ok (w_pol w').
Proof.
  intros Hm. unfold serve_line. destruct (serve_request_total i line w Hm) as (rep & w' & -> & Hm').
  destruct rep as [r|]; cbn [mbind option_bind]; eexists; (split; [done|]); [|done].
  by rewrite conn_write_pol.
Qed.

Lemma serve_seq_total i ls (w : world) :
  pol_ok (w_pol w) ->
  exists w' ok, serve_seq system order can_write dns now i ls w = Some (w', ok) /\ pol_ok (w_pol w').
Proof.
  revert w. induction ls as [|l ls IH]; intros w Hm; cbn [serve_seq]; [by eauto|].
  destruct (serve_line_total i l w Hm) as (w1 & -> & Hm1). cbn [mbind option_bind].
  destruct (fd_open i w1); [by apply IH|by eauto].
Qed.
End Total.

(** ** An over-long line *)

Section Overlong.
Context {K : Type} (system : bytes -> K -> Z * K) (order : gmap cellkey Z -> list cellkey).
Context (can_write : Z -> bool) (dns : Z * Z -> bytes -> list (Z * Z)) (now : Z).

Abbreviation world := (world (K := K)).
Abbreviation serve_conn := (serve_conn system order can_write dns now).
Abbreviation conn_feed := (conn_feed system order can_write dns now).

(** The world with connection [i] replaced. *)
Definition with_conn (i : nat) (c : conn) (w : world) : world := set_conns (<[i := c]> (w_conns w)) w.

Lemma alter_insert (f : conn -> conn) i c (l : list conn) :
  l !! i = Some c -> alter f i l = <[i := f c]> l.
Proof.
  intros Hc. rewrite list_insert_alter. apply list_alter_ext; [|done]. intros x Hx. congruence.
Qed.

Lemma with_conn_lookup i c c' (w : world) :
  w_conns w !! i = Some c -> w_conns (with_conn i c' w) !! i = Some c'.
Proof. intros Hc. cbn. apply list_lookup_insert_eq. by apply lookup_lt_Some in Hc. Qed.

Lemma with_conn_twice i c c' (w : world) : with_conn i c (with_conn i c' w) = with_conn i c w.
Proof. unfold with_conn, set_conns. cbn. f_equal. apply list_insert_insert_eq. Qed.

(** The chunk that fills the buffer. *)
Lemma overlong_fill i cn big (w : world) :
  w_conns w !! i = Some cn -> 0 <= cn_fd cn -> cn_drain cn = false -> can_write (cn_fd cn) = true ->
  no_nul (cn_buf cn ++ big) -> NL ∉ cn_buf cn ++ big -> big <> [] ->
  (length (cn_buf cn ++ big) = BUFSZ - 1)%nat ->
  serve_conn i (CRead big) w =
  Some (with_conn i (Conn (cn_fd cn) (cn_watcher cn) (cn_mask cn) [] true)
          (World (w_pol w) (w_net w) (w_conns w) (w_out w ++ [(cn_fd cn, TOO_LONG)]) (w_log w))).
Proof.
  intros Hc Hfd Hdr Hw Hn Hnl Hne Hlen. unfold serve_conn, fd_open. rewrite Hc.
  cbn [fmap option_fmap option_map default]. rewrite (proj2 (Z.leb_le _ _)) by done. cbn [negb].
  destruct big as [|x big]; [done|]. set (chunk := x :: big) in *.
  unfold conn_read. rewrite Hc, Hdr. rewrite length_app in Hlen. rewrite take_ge by lia.
  set (b := cn_buf cn ++ chunk) in *.
  assert (w_conns (set_buf i b w) !! i =
    Some (Conn (cn_fd cn) (cn_watcher cn) (cn_mask cn) b (cn_drain cn))) as Hl
    by (by apply set_buf_lookup).
  assert (line_loop system order can_write dns now (length b) i (set_buf i b w) =
          Some (set_buf i b w)) as ->.
  { destruct (length b); cbn [line_loop]; rewrite Hl; cbn [cn_buf]; rewrite cstr_no_nul by done;
      rewrite (proj2 (strchr_None NL b)) by done; done. }
  cbn [mbind option_bind]. f_equal. unfold overflow_check. rewrite Hl. cbn [cn_fd cn_buf].
  rewrite (proj2 (Z.leb_le _ _)) by done. rewrite (proj2 (Nat.leb_le _ _)); [|unfold b; rewrite length_app; lia].
  cbn [andb]. unfold conn_write. rewrite fd_set_buf, Hc. cbn [fmap option_fmap option_map default].
  change (id ?v) with v. rewrite Hw. unfold set_drain, set_buf, with_conn, set_conns.
  cbn [w_conns w_pol w_net w_out w_log]. f_equal.
  rewrite list_alter_alter_eq. by rewrite (alter_insert _ i cn) by done.
Qed.

(** A chunk of the line after that. *)
Lemma overlong_middle i cn c (w : world) :
  w_conns w !! i = Some cn -> cn_drain cn = true -> cn_buf cn = [] -> NL ∉ c -> c <> [] ->
  0 <= cn_fd cn -> serve_conn i (CRead c) w = Some w.
Proof.
  intros Hc Hdr Hb Hnl Hne Hfd. unfold serve_conn, fd_open. rewrite Hc.
  cbn [fmap option_fmap option_map default]. rewrite (proj2 (Z.leb_le _ _)) by done. cbn [negb].
  destruct c as [|x c]; [done|]. unfold conn_read. rewrite Hc, Hdr. unfold drain_resume.
  rewrite (proj2 (strchr_None NL _)); [done|]. intros Hin. apply Hnl.
  rewrite <- (take_drop (BUFSZ - 1 - length (cn_buf cn)) (x :: c)). apply elem_of_app. by left.
Qed.

(** Its end, with what follows. *)
Lemma overlong_end i cn x y (w : world) :
  w_conns w !! i = Some cn -> cn_drain cn = true -> cn_buf cn = [] -> 0 <= cn_fd cn ->
  NL ∉ x -> (length x + 1 + length y <= BUFSZ - 1)%nat ->
  serve_conn i (CRead (x ++ NL :: y)) w =
  Some (with_conn i (Conn (cn_fd cn) (cn_watcher cn) (cn_mask cn) y false) w).
Proof.
  intros Hc Hdr Hb Hfd Hnl Hlen. unfold serve_conn, fd_open. rewrite Hc.
  cbn [fmap option_fmap option_map default]. rewrite (proj2 (Z.leb_le _ _)) by done. cbn [negb].
  assert (conn_read system order can_write dns now i (x ++ NL :: y) w =
    Some (with_conn i (Conn (cn_fd cn) (cn_watcher cn) (cn_mask cn) y false) w)) as E;
    [|by destruct x].
  unfold conn_read. rewrite Hc, Hdr, Hb. cbn [length].
  rewrite take_ge by (rewrite length_app; cbn [length]; lia). unfold drain_resume.
  assert (strchr NL (x ++ NL :: y) = Some (length x)) as ->.
  { clear -Hnl. induction x as [|c x IH]; cbn; [by rewrite decide_True|].
    apply not_elem_of_cons in Hnl as [H1 H2]. rewrite decide_False by congruence. by rewrite IH. }
  f_equal. set (keep := (length (x ++ NL :: y) - length x - 1)%nat).
  assert (drop (length (x ++ NL :: y) - keep) (x ++ NL :: y) = y) as ->.
  { unfold keep. rewrite length_app. cbn [length].
    replace (length x + S (length y) - (length x + S (length y) - length x - 1))%nat
      with (length (x ++ [NL])) by (rewrite length_app; cbn [length]; lia).
    replace (x ++ NL :: y) with ((x ++ [NL]) ++ y) by (by rewrite <- app_assoc).
    apply drop_app_length. }
  assert (set_drain i y false w =
          with_conn i (Conn (cn_fd cn) (cn_watcher cn) (cn_mask cn) y false) w) as ->.
  { unfold set_drain, with_conn, set_conns. f_equal. by rewrite (alter_insert _ i cn). }
  unfold overflow_check. rewrite (with_conn_lookup _ cn) by done. cbn [cn_fd cn_buf].
  rewrite (proj2 (Nat.leb_gt (BUFSZ - 1) (length y))) by lia. by rewrite andb_false_r.
Qed.

Lemma overlong_middles i cn cs (w : world) :
  w_conns w !! i = Some cn -> cn_drain cn = true -> cn_buf cn = [] -> 0 <= cn_fd cn ->
  Forall (fun c => c <> [] /\ NL ∉ c) cs -> forall rest, conn_feed i (cs ++ rest) w = conn_feed i rest w.
Proof.
  intros Hc Hdr Hb Hfd Hcs rest. induction Hcs as [|c cs [H1 H2] _ IH]; [done|].
  cbn [app conn_feed]. rewrite (overlong_middle i cn) by done. exact IH.
Qed.
End Overlong.

(** ** Event delivery *)

Section Fanout.
Context {K : Type} (can_write : Z -> bool).
Abbreviation world := (world (K := K)).




End Fanout.



(** ** Theorems *)

(** C11. Requests are the lines of the stream, however it is cut.  A connection
    with an empty buffer that is not draining, fed in any chunks (without NUL
    bytes, and such that no line fills the buffer: the case of
    [overlong_line_swallowed]), handles exactly the complete lines of the stream,
    each once and in order, until one of them closes it; what follows the last
    newline stays buffered.  Handling them never gets stuck.  An accepted
    connection is in this state unless the entry it reuses was left draining
    ([stale_drain_swallows_request]). *)
Theorem control_stream_framed {K} (system : bytes -> K -> Z * K) order can_write dns now i cn chunks w :
  (forall m, order m ≡ₚ (map_to_list m).*1) -> pol_ok (w_pol w) ->
  w_conns w !! i = Some cn -> 0 <= cn_fd cn -> cn_buf cn = [] -> cn_drain cn = false ->
  chunks_fit [] chunks ->
  exists w' ok,
    serve_seq system order can_write dns now i (lines (concat chunks)) w = Some (w', ok) /\
    if ok then conn_feed system order can_write dns now i chunks w =
               Some (set_buf i (tail (concat chunks)) w')
    else fd_open i w' = false /\
         exists b, conn_feed system order can_write dns now i chunks w = Some (set_buf i b w').
Proof.
  intros Ho Hm Hc Hfd Hb Hd Hfit.
  assert (fd_open i w = true) as Hopen by (unfold fd_open; rewrite Hc; by apply Z.leb_le).
  pose proof (conn_feed_seq system order can_write dns now i chunks [] w ltac:(by exists cn) Hopen
                ltac:(apply not_elem_of_nil) ltac:(apply not_elem_of_nil) Hfit) as Hf.
  rewrite (set_buf_empty i cn w Hc Hb) in Hf. unfold read_result in Hf. cbn [app] in Hf.
  destruct (serve_seq_total system order can_write dns now Ho i (lines (concat chunks)) w Hm)
    as (w' & ok & E & _). exists w', ok. split; [done|]. rewrite E in Hf.
  destruct ok; [done|]. split; [by eapply serve_seq_open|done].
Qed.

(** C33. An over-long line is refused once and swallowed whole: whatever it
    contains and however it arrives, no part of it is handled as a request, the
    client gets one error, and the connection goes on with the bytes after its
    newline. *)
Theorem overlong_line_swallowed {K} (system : bytes -> K -> Z * K) order can_write dns now
    i cn big mids x y w :
  w_conns w !! i = Some cn -> 0 <= cn_fd cn -> cn_drain cn = false ->
  can_write (cn_fd cn) = true ->
  no_nul (cn_buf cn ++ big) -> NL ∉ cn_buf cn ++ big -> big <> [] ->
  (length (cn_buf cn ++ big) = BUFSZ - 1)%nat ->
  Forall (fun c => c <> [] /\ NL ∉ c) mids -> NL ∉ x ->
  (length x + 1 + length y <= BUFSZ - 1)%nat ->
  conn_feed system order can_write dns now i (big :: mids ++ [x ++ NL :: y]) w =
  Some (with_conn i (Conn (cn_fd cn) (cn_watcher cn) (cn_mask cn) y false)
          (World (w_pol w) (w_net w) (w_conns w) (w_out w ++ [(cn_fd cn, TOO_LONG)]) (w_log w))).
Proof.
  intros Hc Hfd Hd Hw Hn Hnl Hne Hlen Hmids Hx Hy. cbn [conn_feed].
  rewrite (overlong_fill _ _ _ _ _ i cn) by done. cbn [mbind option_bind].
  set (c1 := Conn _ _ _ [] true). set (w1 := World _ _ _ _ _).
  assert (w_conns (with_conn i c1 w1) !! i = Some c1) as Hl by (by eapply with_conn_lookup).
  rewrite (overlong_middles _ _ _ _ _ i c1) by done. cbn [conn_feed].
  rewrite (overlong_end _ _ _ _ _ i c1) by done. cbn [mbind option_bind cn_fd cn_watcher cn_mask c1].
  by rewrite with_conn_twice.
Qed.


(** ** Behaviours the comments do not promise *)

(** A daemon with an empty policy and 64 connections: [cs], then free ones. *)
Definition ctl_world (cs : list conn) : world (K := unit) :=
  World (PolMaps ∅ ∅) (NetSt netd_init (FwdFiles None None true true) tt)
    (cs ++ replicate (MAX_WATCH - length cs) conn_free) [] [].
Definition ctl_system (_ : bytes) (k : unit) : Z * unit := (0, k).
Definition ctl_order (m : gmap cellkey Z) : list cellkey := (map_to_list m).*1.
Definition ctl_dns (_ : Z * Z) (_ : bytes) : list (Z * Z) := [].
Definition ctl_open (fd : Z) : conn := Conn fd false 0 [] false.
Definition ctl_feed := conn_feed ctl_system ctl_order (fun fd => negb (fd =? 5)) ctl_dns 0.
Definition xs (n : nat) : bytes := replicate n "x"%char.

(** A drain outlives its client.  When the error for an over-long line cannot
    be written, [conn_drop] runs before [drain = 1], and [accept4] resets every
    field of the entry but [drain]: the next client (here on descriptor 6) gets no
    answer to its first request, which is swallowed. *)
Theorem stale_drain_swallows_request :
  let w := ctl_feed 0 [xs (BUFSZ - 1)] (ctl_world [ctl_open 5]) in
  let w := serve_accept 6 <$> w in
  (w_conns <$> w) ≫= (fun l => l !! 0%nat) = Some (Conn 6 false 0 [] true) /\
  (w_out <$> (w ≫= ctl_feed 0 [B "LIST" ++ [NL]])) = Some [] /\
  (w_out <$> (w ≫= ctl_feed 0 [B "LIST" ++ [NL]; B "LIST" ++ [NL]])) = Some [(6, END_NL)].
Proof. by vm_compute. Qed.

(** A request that arrives together with the end of an over-long line is not
    handled until the client sends more: after the drain the loop does not look
    for lines in what it kept, so a client that waits for the answer waits for
    ever. *)
Theorem drained_request_waits :
  let w := ctl_feed 0 [xs (BUFSZ - 1); xs 7 ++ NL :: B "LIST" ++ [NL]] (ctl_world [ctl_open 6]) in
  (w_out <$> w) = Some [(6, TOO_LONG)] /\
  ((w_conns <$> w) ≫= (fun l => l !! 0%nat)) =
    Some (Conn 6 false 0 (B "LIST" ++ [NL]) false) /\
  (w_out <$> (w ≫= ctl_feed 0 [B "LIST" ++ [NL]])) =
    Some [(6, TOO_LONG); (6, END_NL); (6, END_NL)].
Proof. by vm_compute. Qed.

(** A watched process can forge events: the path of an exec is copied into the
    line as it is, so a newline in it starts a second line that reads like an
    event of another cell. *)
Theorem evt_path_forges_line :
  w_out (on_evt (fun _ => true) (syscalls_h T_x86_64)
    (Evt 7 100 EV_EXEC 59 (B "sh") (B "/a" ++ NL :: B "EV 9 DENY sh[1] /etc/shadow"))
    (ctl_world [Conn 6 true (u32 (-1)) [] false])) =
  [(6, (B "EV 7 EXEC sh[100] /a" ++ [NL]) ++ (B "EV 9 DENY sh[1] /etc/shadow" ++ [NL]))].
Proof. by vm_compute. Qed.

(** ** Witnesses *)

Lemma ctl_pol_ok cs : pol_ok (w_pol (ctl_world cs)).
Proof. intros k v Hk. cbn in Hk. by rewrite lookup_empty in Hk. Qed.

(** Two requests cut in the middle of a line. *)
Lemma control_stream_framed_witness :
  lines (B "ADD 7 /etc" ++ NL :: B "LIST" ++ [NL]) = [B "ADD 7 /etc"; B "LIST"] /\
  exists w', ctl_feed 0 [B "ADD 7 "; B "/etc" ++ NL :: B "LI"; B "ST" ++ [NL]]
    (ctl_world [ctl_open 6]) = Some w' /\
  w_out w' = [(6, OK_NL); (6, B "7 /etc" ++ [NL]); (6, END_NL)].
Proof.
  destruct (control_stream_framed ctl_system ctl_order (fun fd => negb (fd =? 5)) ctl_dns 0 0
    (ctl_open 6) [B "ADD 7 "; B "/etc" ++ NL :: B "LI"; B "ST" ++ [NL]] (ctl_world [ctl_open 6])
    ltac:(done) (ctl_pol_ok _) eq_refl ltac:(done) eq_refl eq_refl) as (w' & ok & E & H).
  { repeat split; try done; try (by apply (bool_decide_unpack _)); by apply Nat.leb_le. }
  split; [done|].
  vm_compute in E. injection E as <- <-. eexists. split; [exact H|]. done.
Defined.

Lemma overlong_line_swallowed_witness :
  conn_feed ctl_system ctl_order (fun fd => negb (fd =? 5)) ctl_dns 0 0
    (xs (BUFSZ - 1) :: [B "QUIT"] ++ [B "tail" ++ NL :: B "LI"]) (ctl_world [ctl_open 6]) <> None.
Proof.
  rewrite (overlong_line_swallowed ctl_system ctl_order (fun fd => negb (fd =? 5)) ctl_dns 0 0
    (ctl_open 6) (xs (BUFSZ - 1)) [B "QUIT"] (B "tail") (B "LI") (ctl_world [ctl_open 6])
    eq_refl ltac:(done) eq_refl eq_refl); [done|..].
  - by intros [? _]%elem_of_replicate.
  - by intros [? _]%elem_of_replicate.
  - done.
  - done.
  - repeat constructor; [done|by apply (bool_decide_unpack _)].
  - by apply (bool_decide_unpack _).
  - by apply Nat.leb_le.
Defined.

