(* ===== verification/Client.v ===== *)
(** * The daemon's client in [sand]

    [sand.c]: [egress_add], [resolv_add_file], [resolv_collect], [lsm_cmd],
    [lsm_register], [lsm_unregister], [net_veth_register] and
    [net_veth_unregister].  The daemon is what answers a command line: a
    parameter here, and the modelled daemon ([Control]) in the end-to-end
    theorem. *)

From S2P Require Import Prelude CString Arch Inet Netfilter NetDaemon NetChain NetInv NetSim.
From S2P Require Import Cbpf Seccomp Policy Control.
Local Open Scope Z_scope.

Definition MAX_RESOLV : nat := 4.

(** [enum { NET_NONE, NET_HOST, NET_VETH }]. *)
Inductive netmode := NET_NONE | NET_HOST | NET_VETH.
#[export] Instance netmode_eq_dec : EqDecision netmode.
Proof. solve_decision. Defined.

(** The part of [struct cfg] and the globals this code uses. *)
Record netcfg := NetCfg {
  C_egress : list (bytes * bytes);         (* egress_host, egress_port *)
  C_resolv : list bytes;
  C_netmode : netmode;
  C_veth_if : bytes; C_veth_ip : bytes; C_veth_gw : bytes;
  g_veth_on : bool
}.
Definition netcfg0 : netcfg := NetCfg [] [] NET_NONE [] [] [] false.

(** ** [--egress HOST[:PORT]] *)

Definition above_space (c : ascii) : bool := 32 <? code c.

(** Host and port: a numeric suffix after the last colon, or 443. *)
Definition egress_split (spec : bytes) : bytes * bytes :=
  match strrchr COLON spec with
  | Some i =>
      match drop (S i) spec with
      | [] => (spec, B "443")
      | p => if digits_only p then (take i spec, p) else (spec, B "443")
      end
  | None => (spec, B "443")
  end.

Definition egress_add (spec : bytes) (c : netcfg) : Z * netcfg :=
  if (MAX_EGRESS <=? length (C_egress c))%nat || bool_decide (spec = []) then (-1, c)
  else if negb (forallb above_space spec) then (-1, c)
  else
    let '(host, port) := egress_split spec in
    if (length host =? 0)%nat || (128 <=? length host)%nat then (-1, c)
    else if bool_decide (COLON ∈ host) then (-1, c)
    else if existsb (fun e => bool_decide (e.1 = host) && bool_decide (e.2 = port)) (C_egress c)
    then (0, c)
    else (0, NetCfg (C_egress c ++ [(snprintf_s 128 host, snprintf_s 8 port)]) (C_resolv c) NET_VETH
               (C_veth_if c) (C_veth_ip c) (C_veth_gw c) (g_veth_on c)).

(** ** Resolvers *)

Definition is_blank (c : ascii) : bool := bool_decide (c = SP) || bool_decide (c = TAB).

(** One line of [resolv.conf]. *)
Definition resolv_line (line : bytes) (l : list bytes) : list bytes :=
  let p := skip_while is_blank (cstr line) in
  if negb (starts_with (B "nameserver") p) then l
  else match span_while not_space (skip_while is_blank (drop 10 p)) with
       | [] => l
       | w => if bool_decide (w ∈ l) || (MAX_RESOLV <=? length l)%nat then l
              else l ++ [snprintf_s 64 w]
       end.

(** [file]: the contents, [None] when it cannot be opened. *)
Definition resolv_add_file (file : option bytes) (l : list bytes) : list bytes :=
  match file with
  | None => l
  | Some s => fold_left (fun l line => resolv_line line l) (fgets_lines 256 s) l
  end.

Definition resolv_collect (systemd rootfs host : option bytes) (has_rootfs : bool) : list bytes :=
  let l := resolv_add_file systemd [] in
  let l := if (length l =? 0)%nat && has_rootfs then resolv_add_file rootfs l else l in
  if (length l =? 0)%nat then resolv_add_file host l else l.

(** ** Talking to the daemon *)

Section Daemon.
(** What the daemon answers to the bytes sent ([None]: it cannot be reached, the
    write fails or the reply is empty). *)
Context (daemon : bytes -> option bytes).

(** [lsm_cmd]: [None] is -1, otherwise the reply buffer. *)
Definition lsm_cmd (cmd : bytes) (repn : nat) : option bytes :=
  match daemon (snprintf_s (Z.to_nat 4200) (cmd ++ [NL])) with
  | Some [] => None
  | Some r => Some (cstr (take (repn - 1) r))
  | None => None
  end.

(** ** [net_veth_register] *)

Definition CMDSZ : nat := Z.to_nat 4096.

Definition egress_text (e : bytes * bytes) : bytes := B " EGRESS " ++ e.1 ++ SP :: e.2.
Definition resolv_text (r : bytes) : bytes := B " RESOLV " ++ r.

(** Append pieces; [None]: they do not fit. *)
Fixpoint append_all (ps : list bytes) (cmd : bytes) : option bytes :=
  match ps with
  | [] => Some cmd
  | p :: ps' => if (CMDSZ <=? length cmd + length p)%nat then None else append_all ps' (cmd ++ p)
  end.

Definition netup_cmd (child : Z) (c : netcfg) : option bytes :=
  cmd ← append_all (egress_text <$> C_egress c) (B "NETUP " ++ print_d child);
  append_all (resolv_text <$> C_resolv c) cmd.

(** [sscanf(s, "%63s %63s %63s %d %d", ...)]: the strings and numbers assigned. *)
Record fields5 := Fields5 { fs_str : list bytes; fs_num : list Z }.
Fixpoint scan_strs (n : nat) (s : bytes) : list bytes * bytes :=
  match n with
  | O => ([], s)
  | S n' => match scan_str 63 s with
            | Some (w, r) => let '(ws, r') := scan_strs n' r in (w :: ws, r')
            | None => ([], [])
            end
  end.
Definition scan_fields (s : bytes) : fields5 :=
  let '(ws, r) := scan_strs 3 s in
  Fields5 ws
    (if (length ws <? 3)%nat then []
     else match scan_d r with
          | None => []
          | Some (a, r) => match scan_d r with Some (b, _) => [a; b] | None => [a] end
          end).

(** [if (C->n_resolv == 0) resolv_collect(C)]. *)
Definition resolv_init (collected : list bytes) (c : netcfg) : netcfg :=
  if (length (C_resolv c) =? 0)%nat
  then NetCfg (C_egress c) collected (C_netmode c) (C_veth_if c) (C_veth_ip c) (C_veth_gw c)
         (g_veth_on c)
  else c.

(** Result: 0, -1 (no network, none promised) or -2 (fatal). *)
Definition net_veth_register (collected : list bytes) (child : Z) (c : netcfg) : Z * netcfg :=
  let c := resolv_init collected c in
  match netup_cmd child c with
  | None => (-1, c)
  | Some cmd =>
      let f := match lsm_cmd cmd 192 with
               | Some rep => if starts_with (B "OK ") rep then scan_fields (drop 3 rep)
                             else Fields5 [] []
               | None => Fields5 [] []
               end in
      let at_ n d := default d (fs_str f !! n) in
      let c := NetCfg (C_egress c) (C_resolv c) (C_netmode c) (at_ 0%nat (C_veth_if c))
                 (at_ 1%nat (C_veth_ip c)) (at_ 2%nat (C_veth_gw c)) (g_veth_on c) in
      let n_egress := Z.of_nat (length (C_egress c)) in
      let n_hosts := default (-1) (fs_num f !! 0%nat) in
      let n_ips := default (-1) (fs_num f !! 1%nat) in
      let fields := (length (fs_str f) + length (fs_num f))%nat in
      let bad := (fields <? 3)%nat ||
                 ((0 <? n_egress) && negb (fields =? 5)%nat) ||
                 ((0 <? n_egress) && (negb (n_hosts =? n_egress) || (n_ips <=? 0))) in
      if bad then (if 0 <? n_egress then -2 else -1, c)
      else (0, NetCfg (C_egress c) (C_resolv c) (C_netmode c) (C_veth_if c) (C_veth_ip c)
                 (C_veth_gw c) true)
  end.

(** The command sent, if any. *)
Definition net_veth_unregister (child : Z) (c : netcfg) : option bytes * netcfg :=
  if negb (g_veth_on c) then (None, c)
  else (Some (snprintf_s 64 (B "NETDOWN " ++ print_d child)),
        NetCfg (C_egress c) (C_resolv c) (C_netmode c) (C_veth_if c) (C_veth_ip c) (C_veth_gw c)
          false).
End Daemon.

(** ** [lsm_register] and [lsm_unregister] *)

(** The denied prefixes: the caller's, or the two defaults. *)
Definition deny_prefixes (deny : list bytes) : list bytes :=
  match deny with [] => [B "/etc/shadow"; B "/etc/gshadow"] | _ => deny end.

Definition add_cmd (cgid : Z) (pfx : bytes) : bytes :=
  snprintf_s 320 (B "ADD " ++ print_u cgid ++ SP :: pfx).

(** The daemon as the client sees it: what it answers a request, and its state
    afterwards. *)
Section Policy.
Context {S : Type} (daemon : bytes -> S -> bytes * S).

(** The loop of [lsm_register]: the state, and whether every request was
    granted. *)
Fixpoint lsm_adds (cgid : Z) (ps : list bytes) (s : S) : S * bool :=
  match ps with
  | [] => (s, true)
  | p :: ps' =>
      let '(rep, s) := daemon (add_cmd cgid p) s in
      if starts_with (B "OK") rep then lsm_adds cgid ps' s else (s, false)
  end.

(** The state and [g_lsm_on]: [cgid] is [None] when the cgroup cannot be
    examined, [connected] whether [lsm_connect] succeeds. *)
Definition lsm_register (cgid : option Z) (connected : bool) (deny : list bytes) (s : S)
    : S * bool :=
  match cgid with
  | None => (s, false)
  | Some cgid => if negb connected then (s, false) else lsm_adds cgid (deny_prefixes deny) s
  end.

(** The state and [g_lsm_on]. *)
Definition lsm_unregister (on : bool) (cgid : Z) (s : S) : S * bool :=
  if negb on then (s, on)
  else ((daemon (snprintf_s 64 (B "CLR " ++ print_u cgid)) s).2, false).
End Policy.

(** ** The invariant of the configuration *)

(** A word of printable bytes that fits an array of [n]. *)
Definition tok_ok (n : nat) (w : bytes) : bool :=
  negb (bool_decide (w = [])) && forallb above_space w && (length w <? n)%nat.

Lemma tok_ok_spec n w :
  tok_ok n w = true <-> w <> [] /\ forallb above_space w = true /\ (length w < n)%nat.
Proof.
  unfold tok_ok. rewrite !andb_true_iff, negb_true_iff, bool_decide_eq_false, Nat.ltb_lt. tauto.
Qed.

Definition egress_ok (e : bytes * bytes) : bool :=
  tok_ok 128 e.1 && tok_ok 8 e.2 && digits_only e.2.

Record cfg_ok (c : netcfg) : Prop := {
  co_len : (length (C_egress c) <= MAX_EGRESS)%nat;
  co_egress : Forall (fun e => egress_ok e = true) (C_egress c);
  co_rlen : (length (C_resolv c) <= MAX_RESOLV)%nat;
  co_resolv : Forall (fun r => tok_ok 64 r = true) (C_resolv c)
}.

Lemma cfg_ok0 : cfg_ok netcfg0.
Proof. split; cbn; auto with lia; constructor. Qed.

Lemma snprintf_tok n w :
  (1 < n)%nat -> w <> [] -> forallb above_space w = true -> tok_ok n (snprintf_s n w) = true.
Proof.
  intros Hn Hw Ha. apply tok_ok_spec. unfold snprintf_s. split_and!.
  - destruct w; [done|]. destruct (n - 1)%nat eqn:E; [lia|done].
  - by apply forallb_take.
  - rewrite length_take. lia.
Qed.

Lemma egress_split_ok spec :
  forallb above_space spec = true ->
  let '(host, port) := egress_split spec in
  forallb above_space host = true /\ forallb above_space port = true /\
  digits_only port = true /\ port <> [].
Proof.
  intros Ha. unfold egress_split. destruct (strrchr COLON spec) as [i|]; [|done].
  pose proof (forallb_drop above_space (S i) spec Ha) as Hdr.
  destruct (drop (S i) spec) as [|x p]; [done|].
  destruct (digits_only (x :: p)) eqn:Edg; [|done].
  split_and!; auto using forallb_take.
Qed.

Lemma egress_add_ok spec c : cfg_ok c -> cfg_ok (egress_add spec c).2.
Proof.
  intros [Hl He Hrl Hr]. unfold egress_add.
  destruct (_ || _) eqn:E0; [done|]. apply orb_false_iff in E0 as [E0 _].
  apply Nat.leb_gt in E0.
  destruct (forallb above_space spec) eqn:Ea; [|done]. cbn [negb].
  pose proof (egress_split_ok spec Ea) as Hs. destruct (egress_split spec) as [host port].
  destruct Hs as (Hh & Hp & Hd & Hne).
  destruct (_ || _) eqn:E1; [done|]. apply orb_false_iff in E1 as [E1%Nat.eqb_neq E2%Nat.leb_gt].
  destruct (bool_decide _); [done|]. destruct (existsb _ _); [done|].
  split; cbn [snd C_egress C_resolv]; [rewrite length_app; cbn; lia| |done|done].
  apply Forall_app. split; [done|]. constructor; [|constructor].
  unfold egress_ok. cbn [fst snd]. rewrite !andb_true_iff. split_and!.
  - apply snprintf_tok; [lia| |done]. intros ->. cbn in E1. lia.
  - by apply snprintf_tok; [lia|..].
  - by apply forallb_take.
Qed.

(** ** The command line fits and is read back *)

Lemma append_all_fits ps cmd :
  (length cmd + length (concat ps) < CMDSZ)%nat -> append_all ps cmd = Some (cmd ++ concat ps).
Proof.
  revert cmd. induction ps as [|p ps IH]; intros cmd Hl; cbn [append_all concat].
  - by rewrite app_nil_r.
  - cbn [concat] in Hl. rewrite length_app in Hl.
    destruct (Nat.leb_spec CMDSZ (length cmd + length p)); [lia|].
    rewrite IH by (rewrite length_app; lia). by rewrite <- app_assoc.
Qed.

Definition egress_texts (c : netcfg) : bytes := concat (egress_text <$> C_egress c).
Definition resolv_texts (c : netcfg) : bytes := concat (resolv_text <$> C_resolv c).

Lemma concat_length_bound {A} (f : A -> bytes) l n :
  Forall (fun x => (length (f x) <= n)%nat) l -> (length (concat (f <$> l)) <= n * length l)%nat.
Proof.
  induction 1 as [|x l Hx Hl IH]; cbn [fmap list_fmap concat length]; [lia|].
  rewrite length_app. change (list_fmap _ _ f l) with (f <$> l). lia.
Qed.

Lemma netup_cmd_fits child c :
  cfg_ok c -> s32 child = child ->
  netup_cmd child c = Some (B "NETUP " ++ print_d child ++ egress_texts c ++ resolv_texts c) /\
  (length (B "NETUP " ++ print_d child ++ egress_texts c ++ resolv_texts c) < 3000)%nat.
Proof.
  intros [Hl He Hrl Hr] Hs.
  assert (length (print_d child) <= 34)%nat as Hc.
  { apply (print_d_length child 32). change (2 ^ Z.of_nat 32) with (2 ^ 32).
    rewrite <- Hs. unfold s32. pose proof (Z.mod_pos_bound (child + 2 ^ 31) (2 ^ 32)). lia. }
  assert (length (egress_texts c) <= 143 * length (C_egress c))%nat as H1.
  { apply concat_length_bound. eapply Forall_impl; [exact He|]. intros [h p] Hok. cbn in Hok.
    unfold egress_ok in Hok. rewrite !andb_true_iff in Hok.
    destruct Hok as [[(_ & _ & Hh)%tok_ok_spec (_ & _ & Hp)%tok_ok_spec] _].
    unfold egress_text. cbn [fst snd]. rewrite !length_app. cbn [length B list_ascii_of_string] in *.
    cbn in Hh, Hp. lia. }
  assert (length (resolv_texts c) <= 71 * length (C_resolv c))%nat as H2.
  { apply concat_length_bound. eapply Forall_impl; [exact Hr|].
    intros r (_ & _ & Hok)%tok_ok_spec. unfold resolv_text. rewrite length_app. cbn in *. lia. }
  unfold MAX_EGRESS, MAX_RESOLV in *.
  assert (length (B "NETUP ") = 6)%nat as H6 by done.
  assert (length (B "NETUP " ++ print_d child ++ egress_texts c ++ resolv_texts c) < 3000)%nat as Hlen
    by (rewrite !length_app; lia).
  split; [|done]. assert (3000 <= CMDSZ)%nat by (unfold CMDSZ; lia).
  rewrite !length_app in Hlen. unfold netup_cmd.
  rewrite append_all_fits by (fold (egress_texts c); rewrite length_app; lia).
  cbn [mbind option_bind]. fold (egress_texts c).
  rewrite append_all_fits by (fold (resolv_texts c); rewrite !length_app; lia).
  fold (resolv_texts c). by rewrite <- !app_assoc.
Qed.

(** What ends a word: a space, or the end of the line. *)
Definition at_end (r : bytes) : Prop := match r with [] => True | c :: _ => c = SP end.

Lemma at_end_stops r : at_end r -> stops not_sp r.
Proof. destruct r as [|c r]; [done|]. cbn. by intros ->. Qed.

Lemma above_space_not_sp c : above_space c = true -> is_sp c = false /\ not_sp c = true.
Proof.
  intros H. assert (is_sp c = false) as E.
  { apply bool_decide_eq_false. intros ->. done. }
  unfold not_sp. by rewrite E.
Qed.

Lemma word_not_sp w : forallb above_space w = true -> forallb not_sp w = true.
Proof.
  intros H. rewrite forallb_forall in *. intros c Hc. by apply above_space_not_sp, H.
Qed.

Lemma skip_sp_word w r :
  w <> [] -> forallb above_space w = true -> skip_while is_sp (SP :: w ++ r) = w ++ r.
Proof.
  intros Hn Hw. destruct w as [|c w]; [done|]. cbn [forallb] in Hw.
  apply andb_true_iff in Hw as [Hc _]. cbn [skip_while app].
  change (is_sp SP) with true. cbv iota. by rewrite (proj1 (above_space_not_sp c Hc)).
Qed.

Lemma span_word w r : forallb above_space w = true -> at_end r -> span_while not_sp (w ++ r) = w.
Proof. intros Hw Hr. apply span_while_app; [by apply word_not_sp|by apply at_end_stops]. Qed.

Lemma skip_word w r : forallb above_space w = true -> at_end r -> skip_while not_sp (w ++ r) = r.
Proof. intros Hw Hr. apply skip_while_app; [by apply word_not_sp|by apply at_end_stops]. Qed.

(** [match] on a non-empty word applied to a continuation. *)
Lemma match_word {A} (w r : bytes) (a : A) (f : bytes -> A) :
  w <> [] -> match w ++ r with [] => a | c :: s => f (c :: s) end = f (w ++ r).
Proof. by destruct w. Qed.

Lemma netup_opts_egress fuel e rest u :
  egress_ok e = true -> at_end rest -> (length (nu_hosts u) < MAX_EGRESS)%nat ->
  netup_opts (S fuel) (egress_text e ++ rest) u =
  netup_opts fuel rest (NetUp (nu_hosts u ++ [e]) (nu_ns u) (nu_too_many u)).
Proof.
  intros He Hr Hl. destruct e as [h p]. unfold egress_ok in He. rewrite !andb_true_iff in He.
  destruct He as [[(Hh1 & Hh2 & Hh3)%tok_ok_spec (Hp1 & Hp2 & Hp3)%tok_ok_spec] _].
  cbn [fst snd] in *. cbn [netup_opts].
  assert (skip_while is_sp (egress_text (h, p) ++ rest) =
          "E"%char :: B "GRESS" ++ SP :: h ++ SP :: p ++ rest) as ->.
  { unfold egress_text. cbn [fst snd]. rewrite <- !app_assoc. reflexivity. }
  cbv iota.
  change (at_keyword (B "EGRESS") ("E"%char :: B "GRESS" ++ SP :: h ++ SP :: p ++ rest)) with true.
  change (drop 6 ("E"%char :: B "GRESS" ++ SP :: h ++ SP :: p ++ rest))
    with (SP :: h ++ SP :: p ++ rest). cbv iota.
  rewrite skip_sp_word by done.
  rewrite (match_word h (SP :: p ++ rest) u (fun q =>
    if (MAX_EGRESS <=? length (nu_hosts u))%nat then _ else
      match skip_while is_sp (skip_while not_sp q) with [] => u | _ => _ end)) by done.
  rewrite (proj2 (Nat.leb_gt _ _)) by done.
  rewrite skip_word, span_word by done. rewrite skip_sp_word by done.
  rewrite (match_word p rest u (fun q => netup_opts fuel (skip_while not_sp q) _)) by done.
  rewrite skip_word, span_word by done.
  by rewrite (snprintf_s_short 128), (snprintf_s_short 8) by done.
Qed.

Lemma netup_opts_resolv fuel r rest u :
  tok_ok 64 r = true -> at_end rest -> (length (nu_ns u) < MAX_NS)%nat ->
  netup_opts (S fuel) (resolv_text r ++ rest) u =
  netup_opts fuel rest (NetUp (nu_hosts u) (nu_ns u ++ [r]) (nu_too_many u)).
Proof.
  intros (Hr1 & Hr2 & Hr3)%tok_ok_spec Hr Hl. cbn [netup_opts].
  assert (skip_while is_sp (resolv_text r ++ rest) =
          "R"%char :: B "ESOLV" ++ SP :: r ++ rest) as ->.
  { unfold resolv_text. rewrite <- !app_assoc. reflexivity. }
  cbv iota.
  change (at_keyword (B "EGRESS") ("R"%char :: B "ESOLV" ++ SP :: r ++ rest)) with false.
  change (at_keyword (B "RESOLV") ("R"%char :: B "ESOLV" ++ SP :: r ++ rest)) with true.
  change (drop 6 ("R"%char :: B "ESOLV" ++ SP :: r ++ rest)) with (SP :: r ++ rest). cbv iota.
  rewrite skip_sp_word by done.
  rewrite (match_word r rest u (fun q => netup_opts fuel (skip_while not_sp q) _)) by done.
  rewrite (proj2 (Nat.ltb_lt _ _)) by done. rewrite skip_word, span_word by done.
  by rewrite snprintf_s_short by done.
Qed.

Lemma texts_at_end {A} (f : A -> bytes) l r :
  (forall x, exists t, f x = SP :: t) -> at_end r -> at_end (concat (f <$> l) ++ r).
Proof.
  intros Hf Hr. destruct l as [|x l]; [done|]. cbn [fmap list_fmap concat].
  destruct (Hf x) as [t ->]. done.
Qed.

Lemma egress_text_sp e : exists t, egress_text e = SP :: t.
Proof. by eexists. Qed.
Lemma resolv_text_sp r : exists t, resolv_text r = SP :: t.
Proof. by eexists. Qed.

Lemma netup_opts_resolvs fuel rs u :
  Forall (fun r => tok_ok 64 r = true) rs -> (length (nu_ns u) + length rs <= MAX_NS)%nat ->
  (length rs < fuel)%nat ->
  netup_opts fuel (concat (resolv_text <$> rs)) u =
  NetUp (nu_hosts u) (nu_ns u ++ rs) (nu_too_many u).
Proof.
  revert fuel u. induction rs as [|r rs IH]; intros fuel u Hr Hl Hf.
  - destruct fuel; [cbn in Hf; lia|]. cbn. rewrite app_nil_r. by destruct u.
  - destruct fuel as [|fuel]; [cbn in Hf; lia|]. apply Forall_cons in Hr as [Hr Hrs].
    cbn [fmap list_fmap concat length] in *.
    rewrite netup_opts_resolv; [|done| |lia].
    + rewrite IH; [|done|cbn [nu_ns]; rewrite length_app; cbn; lia|lia].
      cbn [nu_hosts nu_ns nu_too_many]. by rewrite <- app_assoc.
    + rewrite <- (app_nil_r (concat _)). apply (texts_at_end resolv_text); [apply resolv_text_sp|done].
Qed.

Lemma netup_opts_egresses fuel es rest u :
  Forall (fun e => egress_ok e = true) es -> at_end rest ->
  (length (nu_hosts u) + length es <= MAX_EGRESS)%nat -> (length es <= fuel)%nat ->
  netup_opts fuel (concat (egress_text <$> es) ++ rest) u =
  netup_opts (fuel - length es) rest (NetUp (nu_hosts u ++ es) (nu_ns u) (nu_too_many u)).
Proof.
  revert fuel u. induction es as [|e es IH]; intros fuel u He Hr Hl Hf.
  - cbn. rewrite Nat.sub_0_r, app_nil_r. by destruct u.
  - destruct fuel as [|fuel]; [cbn in Hf; lia|]. apply Forall_cons in He as [He Hes].
    cbn [fmap list_fmap concat length] in *. rewrite <- app_assoc.
    rewrite netup_opts_egress; [|done| |lia].
    + rewrite IH; [|done|done|cbn [nu_hosts]; rewrite length_app; cbn; lia|lia].
      cbn [nu_hosts nu_ns nu_too_many]. by rewrite <- app_assoc.
    + apply (texts_at_end egress_text); [apply egress_text_sp|done].
Qed.

(** A word of at least one byte per element. *)
Lemma concat_length_ge {A} (f : A -> bytes) l :
  (forall x, exists t, f x = SP :: t) -> (length l <= length (concat (f <$> l)))%nat.
Proof.
  intros Hf. induction l as [|x l IH]; cbn [fmap list_fmap concat length]; [lia|].
  destruct (Hf x) as [t ->]. cbn [app length]. rewrite length_app.
  change (list_fmap _ _ f l) with (f <$> l). lia.
Qed.

Lemma netup_parse_cmd child c :
  cfg_ok c -> 0 <= child < 2 ^ 31 ->
  netup_parse (print_d child ++ egress_texts c ++ resolv_texts c) =
  (child, true, NetUp (C_egress c) (C_resolv c) false).
Proof.
  intros [Hl He Hrl Hr] Hc. unfold netup_parse.
  assert (at_end (egress_texts c ++ resolv_texts c)) as Hend.
  { apply (texts_at_end egress_text); [apply egress_text_sp|].
    rewrite <- (app_nil_r (resolv_texts c)).
    apply (texts_at_end resolv_text); [apply resolv_text_sp|done]. }
  assert (print_d child = print_u child) as Epd
    by (unfold print_d; by rewrite (proj2 (Z.ltb_ge child 0)) by lia).
  assert (strtol (print_d child ++ egress_texts c ++ resolv_texts c) =
          Some (child, egress_texts c ++ resolv_texts c)) as ->.
  { unfold strtol. rewrite Epd, scan_int_print_u; [|lia|].
    - unfold LONG_MAX, LONG_MIN. rewrite Z.min_r, Z.max_r by lia. done.
    - destruct (egress_texts c ++ resolv_texts c) as [|x l]; [done|]. cbn in *. by subst x. }
  f_equal. unfold egress_texts at 2. pose proof (concat_length_ge egress_text (C_egress c) egress_text_sp) as G1.
  pose proof (concat_length_ge resolv_text (C_resolv c) resolv_text_sp) as G2.
  fold (egress_texts c) in G1. fold (resolv_texts c) in G2.
  rewrite netup_opts_egresses; [|done| |cbn [nu_hosts length]; lia|rewrite !length_app; lia].
  - unfold resolv_texts at 2. rewrite netup_opts_resolvs; [done|done|cbn [nu_ns length]; exact Hrl|].
    rewrite !length_app. lia.
  - rewrite <- (app_nil_r (resolv_texts c)).
    apply (texts_at_end resolv_text); [apply resolv_text_sp|done].
Qed.
