(* ===== verification/ClientThms.v ===== *)
(** * [sand] and the daemon together: theorems

    The [NETUP] line fits every buffer on its way and is parsed back to the
    request; the reply is understood; and so registering a cell either gives it
    exactly the network the daemon installed or fails in the documented way. *)

From S2P Require Import Prelude CString Arch Inet Netfilter NetDaemon NetChain NetInv NetSim.
From S2P Require Import NetThms Cbpf Seccomp Policy Control ControlThms Client.
Local Open Scope Z_scope.

(** ** Reading the reply *)

(** A word of the reply, ended by a blank. *)
Definition rword (w : bytes) : Prop :=
  w <> [] /\ forallb above_space w = true /\ (length w <= 63)%nat.
Definition blank_next (r : bytes) : Prop := match r with [] => True | c :: _ => isspace c = true end.

Lemma above_space_not_space c : above_space c = true -> not_space c = true.
Proof.
  unfold above_space, not_space, isspace. intros H. zbool.
  rewrite negb_true_iff, orb_false_iff. split; [|apply Z.eqb_neq; lia].
  apply andb_false_iff. right. apply Z.leb_gt. lia.
Qed.

Lemma scan_str_upto n w r :
  rword w -> blank_next r -> (length w <= n)%nat ->
  scan_str n (SP :: w ++ r) = Some (w, r) /\ scan_str n (w ++ r) = Some (w, r).
Proof.
  intros (Hn & Hw%(forallb_impl _ _ _ above_space_not_space) & _) Hr Hl.
  assert (skip_while isspace (w ++ r) = w ++ r) as E1.
  { destruct w as [|c w]; [done|]. cbn in Hw. apply andb_true_iff in Hw as [Hc _].
    apply skip_while_stops. cbn. unfold not_space in Hc. by apply negb_true_iff. }
  assert (span_while not_space (w ++ r) = w) as E2.
  { apply span_while_app; [done|]. destruct r as [|c r]; [done|]. cbn in *.
    unfold not_space. by rewrite Hr. }
  assert (scan_str n (w ++ r) = Some (w, r)) as E3.
  { unfold scan_str. rewrite E1, E2, take_ge by done. destruct w as [|c w]; [done|].
    by rewrite drop_app_length. }
  split; [|done]. unfold scan_str in *. cbn [skip_while]. change (isspace SP) with true. exact E3.
Qed.

Lemma scan_str_word w r :
  rword w -> blank_next r -> scan_str 63 (SP :: w ++ r) = Some (w, r) /\
                            scan_str 63 (w ++ r) = Some (w, r).
Proof. intros Hw Hr. apply scan_str_upto; [done..|]. apply Hw. Qed.

Lemma scan_d_print v r :
  0 <= v < 2 ^ 31 -> stops isdigit r -> scan_d (SP :: print_d v ++ r) = Some (v, r).
Proof.
  intros Hv Hr. unfold scan_d, strtol. rewrite scan_int_skip_space by done.
  assert (print_d v = print_u v) as -> by (unfold print_d; by rewrite (proj2 (Z.ltb_ge v 0)) by lia).
  rewrite scan_int_print_u by (done || lia).
  unfold LONG_MAX, LONG_MIN. rewrite Z.min_r, Z.max_r by lia. by rewrite s32_small by lia.
Qed.

Lemma isdigit_above c : isdigit c = true -> above_space c = true.
Proof. unfold isdigit, above_space. intros. zbool. apply Z.ltb_lt. lia. Qed.

Lemma print_u_above z : 0 <= z -> forallb above_space (print_u z) = true.
Proof. intros Hz. eapply forallb_impl; [apply isdigit_above|]. by apply print_u_spec. Qed.

Lemma print_d_above z : 0 <= z -> forallb above_space (print_d z) = true.
Proof.
  intros Hz. unfold print_d. rewrite (proj2 (Z.ltb_ge z 0)) by done. by apply print_u_above.
Qed.

Lemma cell_addr_word v : 0 <= v < 2 ^ 16 -> rword (cell_addr v) /\ (length (cell_addr v) <= 40)%nat.
Proof.
  intros Hv.
  assert (0 <= Z.shiftr v 8 < 2 ^ 8).
  { rewrite Z.shiftr_div_pow2 by lia. split; [apply Z.div_pos; lia|apply Z.div_lt_upper_bound; lia]. }
  assert (0 <= Z.land v 255 < 2 ^ 8).
  { change 255 with (Z.ones 8). rewrite Z.land_ones by lia. apply Z.mod_pos_bound. lia. }
  pose proof (print_u_length (Z.shiftr v 8) 8 ltac:(lia)).
  pose proof (print_u_length (Z.land v 255) 8 ltac:(lia)).
  assert (length (cell_addr v) <= 40)%nat.
  { unfold cell_addr. rewrite !length_app. cbn [length B list_ascii_of_string]. lia. }
  split; [|done]. split_and!; [done| |lia]. unfold cell_addr.
  rewrite !forallb_app, !print_u_above by lia. done.
Qed.

Lemma above_no_nul w : forallb above_space w = true -> NUL ∉ w.
Proof. intros H Hin. rewrite forallb_forall in H. apply list_elem_of_In, H in Hin. done. Qed.

(** The reply as words. *)
Lemma net_up_reply_words c :
  net_up_reply c = B "OK " ++ (B "vethc" ++ print_d (ns_idx c)) ++
    SP :: cell_addr (ns_idx c * 4 + 2) ++ SP :: cell_addr (ns_idx c * 4 + 1) ++
    SP :: print_d (Z.of_nat (length (ns_hosts c))) ++
    SP :: print_d (Z.of_nat (length (ns_eg c))) ++ [NL].
Proof. unfold net_up_reply. cbv zeta. rewrite <- !app_assoc. done. Qed.

(** What the client reads from the reply of a successful [net_up]. *)
Lemma scan_reply c :
  0 <= ns_idx c < 16384 -> (length (ns_hosts c) <= MAX_EGRESS)%nat ->
  (length (ns_eg c) <= MAX_EG_IPS)%nat ->
  (length (net_up_reply c) < REPN)%nat /\ no_nul (net_up_reply c) /\
  scan_fields (drop 3 (net_up_reply c)) =
  Fields5 [B "vethc" ++ print_d (ns_idx c); cell_addr (ns_idx c * 4 + 2);
           cell_addr (ns_idx c * 4 + 1)]
          [Z.of_nat (length (ns_hosts c)); Z.of_nat (length (ns_eg c))].
Proof.
  intros Hi Hh He. unfold MAX_EGRESS, MAX_EG_IPS in *.
  destruct (cell_addr_word (ns_idx c * 4 + 2)) as [W2 L2]; [lia|].
  destruct (cell_addr_word (ns_idx c * 4 + 1)) as [W1 L1]; [lia|].
  assert (length (print_d (ns_idx c)) <= 16)%nat as Li by (apply (print_d_length _ 14); lia).
  assert (length (print_d (Z.of_nat (length (ns_hosts c)))) <= 7)%nat as Lh
    by (apply (print_d_length _ 5); lia).
  assert (length (print_d (Z.of_nat (length (ns_eg c)))) <= 10)%nat as Le
    by (apply (print_d_length _ 8); lia).
  assert (rword (B "vethc" ++ print_d (ns_idx c))) as W0.
  { split_and!; [done| |rewrite length_app; cbn [length B list_ascii_of_string]; lia].
    by rewrite forallb_app, print_d_above by lia. }
  rewrite net_up_reply_words. split_and!.
  - unfold REPN. repeat (rewrite ?length_app; cbn [length]).
    cbn [length B list_ascii_of_string]. lia.
  - unfold no_nul. repeat (rewrite ?not_elem_of_app, ?not_elem_of_cons).
    split_and!; try done; try (by apply above_no_nul, print_d_above; lia);
      try (by apply above_no_nul, W1); try (by apply above_no_nul, W2);
      try (by apply (bool_decide_unpack _)).
  - change (drop 3 (B "OK " ++ ?x)) with x. unfold scan_fields. cbn [scan_strs].
    rewrite (proj2 (scan_str_word _ (SP :: _) W0 eq_refl)).
    rewrite (proj1 (scan_str_word _ (SP :: _) W2 eq_refl)).
    rewrite (proj1 (scan_str_word _ (SP :: _) W1 eq_refl)). cbn [length].
    change (3 <? 3)%nat with false. cbv iota.
    rewrite scan_d_print by (done || lia). by rewrite scan_d_print by (done || lia).
Qed.


(** ** The daemon's side *)

Section Daemon.
Context {K : Type} (system : bytes -> K -> Z * K) (order : gmap cellkey Z -> list cellkey).
Context (can_write : Z -> bool) (dns : Z * Z -> bytes -> list (Z * Z)) (now : Z).

Abbreviation world := (world (K := K)).

Lemma net_up_error pid hosts nss s :
  let '(rc, rep, _) := net_up system dns now pid hosts nss s in
  rc = 0 \/ rc = -1 /\ (rep = [] \/ starts_with (B "ERR ") rep = true).
Proof.
  unfold net_up. destruct (slot_find _) as [n|]; [|auto].
  destruct (netmap_find _ _ _) as [i|]; [|auto]. cbv zeta.
  destruct (link_up _ _ _ _) as [ok k]. destruct ok; cbn [negb]; [|auto].
  unfold net_provision. cbv zeta. destruct (egress_no_resolv _ _); [auto|].
  destruct (0 <? length hosts)%nat; [|auto]. unfold net_egress. cbv zeta.
  destruct (egress_want dns _) as [[[r want] ttl] bad].
  destruct (r =? -2); [auto|]. destruct ((r <? 0) || _); [auto|].
  destruct (egress_apply _ _ _ _) as [[f c] k2]. destruct (0 <? f); auto.
Qed.

Lemma serve_request_netup i args (w : world) :
  serve_request system order can_write dns now i (B "NETUP " ++ args) w =
  (let '(pid, ok, u) := netup_parse args in
   let '(rc, rep, s) :=
     if ok && negb (nu_too_many u)
     then net_up system dns now (s32 pid) (nu_hosts u) (nu_ns u) (w_net w)
     else (0, [], w_net w) in
   Some (Some (netup_reply ok (nu_too_many u) rc rep), set_net s w)).
Proof.
  unfold serve_request. change (skip_while is_sp (B "NETUP " ++ args)) with (B "NETUP " ++ args).
  cbv zeta. change (starts_with (B "ADD ") (B "NETUP " ++ args)) with false.
  change (starts_with (B "DEL ") (B "NETUP " ++ args)) with false.
  change (starts_with (B "CLR ") (B "NETUP " ++ args)) with false.
  rewrite decide_False by done.
  change (starts_with (B "WATCH") (B "NETUP " ++ args)) with false.
  change (starts_with (B "NETUP ") (B "NETUP " ++ args)) with true.
  by change (drop 6 (B "NETUP " ++ args)) with args.
Qed.

(** What a command line can hold: no newline, no NUL. *)
Definition from_space (c : ascii) : bool := 32 <=? code c.

Lemma from_space_clean s : forallb from_space s = true -> no_nul s /\ (NL ∉ s).
Proof.
  intros H. rewrite forallb_forall in H.
  split; intros Hin; apply list_elem_of_In, H in Hin; done.
Qed.

Lemma above_from s : forallb above_space s = true -> forallb from_space s = true.
Proof.
  apply forallb_impl. unfold above_space, from_space. intros c ?%Z.ltb_lt. apply Z.leb_le. lia.
Qed.

Lemma netup_cmd_chars child c :
  cfg_ok c -> 0 <= child ->
  forallb from_space (B "NETUP " ++ print_d child ++ egress_texts c ++ resolv_texts c) = true.
Proof.
  intros [_ He _ Hr] Hc. rewrite !forallb_app, !andb_true_iff. split_and!; [done| | |].
  - by apply above_from, print_d_above.
  - apply forallb_concat, Forall_fmap. eapply Forall_impl; [exact He|]. intros [h p] Hok. cbn in *.
    unfold egress_ok in Hok. rewrite !andb_true_iff in Hok.
    destruct Hok as [[(_ & Hh & _)%tok_ok_spec (_ & Hp & _)%tok_ok_spec] _]. cbn [fst snd] in *.
    rewrite forallb_app. cbn [forallb]. by rewrite !above_from.
  - apply forallb_concat, Forall_fmap. eapply Forall_impl; [exact Hr|].
    intros r (_ & Hok & _)%tok_ok_spec. cbn. by rewrite above_from.
Qed.

(** What the daemon writes for bytes that arrive on connection [i]. *)
Definition answer (i : nat) (w : world) (bs : bytes) : option bytes :=
  match serve_conn system order can_write dns now i (CRead bs) w with
  | Some w' => Some (concat (snd <$> drop (length (w_out w)) (w_out w')))
  | None => None
  end.

(** The [NETUP] line of a configuration reaches [net_up] as the request it
    stands for, and its reply goes back. *)
Lemma netup_served i cn child c (w : world) rc rep s :
  w_conns w !! i = Some cn -> 0 <= cn_fd cn -> cn_buf cn = [] -> cn_drain cn = false ->
  can_write (cn_fd cn) = true -> cfg_ok c -> 0 <= child < 2 ^ 31 ->
  net_up system dns now child (C_egress c) (C_resolv c) (w_net w) = (rc, rep, s) ->
  exists cmd w', netup_cmd child c = Some cmd /\ (length cmd < 3000)%nat /\
    serve_conn system order can_write dns now i (CRead (cmd ++ [NL])) w = Some w' /\
    w_net w' = s /\ w_pol w' = w_pol w /\
    answer i w (cmd ++ [NL]) = Some (netup_reply true false rc rep).
Proof.
  intros Hc Hfd Hbuf Hdr Hw Hok Hch Hup.
  assert (s32 child = child) as Hs by (apply s32_small; lia).
  destruct (netup_cmd_fits child c Hok Hs) as [E Hlen].
  pose proof (netup_cmd_chars child c Hok ltac:(lia)) as [Hn Hnl]%from_space_clean.
  pose proof (netup_parse_cmd child c Hok Hch) as Hparse.
  set (args := print_d child ++ egress_texts c ++ resolv_texts c) in *.
  set (cmd := B "NETUP " ++ args) in *.
  set (w1 := conn_write can_write i (netup_reply true false rc rep) (set_net s w)).
  assert (w1 = World (w_pol w) s (w_conns w)
                 (w_out w ++ [(cn_fd cn, netup_reply true false rc rep)]) (w_log w)) as E1.
  { unfold w1, conn_write. cbn [set_net w_conns]. by rewrite Hc; cbn; rewrite Hw. }
  assert (serve_conn system order can_write dns now i (CRead (cmd ++ [NL])) w =
          Some (set_buf i [] w1)) as Hserve.
  { apply (serve_one_line _ _ _ _ _ i cn); auto.
    - assert (3001 <= BUFSZ)%nat by (unfold BUFSZ; lia). lia.
    - unfold serve_line, cmd. rewrite serve_request_netup, Hparse.
      cbn [nu_too_many nu_hosts nu_ns negb andb]. by rewrite Hs, Hup.
    - rewrite E1. unfold fd_open. cbn [w_conns]. rewrite Hc. cbn. by apply Z.leb_le. }
  exists cmd, (set_buf i [] w1). split_and!; [done|done|done|by rewrite E1|by rewrite E1|].
  unfold answer. rewrite Hserve, E1. cbn [set_buf set_conns w_out].
  rewrite drop_app_length. cbn. by rewrite app_nil_r.
Qed.
End Daemon.

(** ** What the client makes of the reply *)

Section Register.
Context (daemon : bytes -> option bytes).

Lemma lsm_cmd_reply cmd r :
  (length cmd < 3000)%nat -> daemon (cmd ++ [NL]) = Some r -> r <> [] ->
  lsm_cmd daemon cmd 192 = Some (cstr (take 191 r)).
Proof.
  intros Hl Hd Hr. unfold lsm_cmd. rewrite snprintf_s_short; [|rewrite length_app; cbn [length]; lia].
  rewrite Hd. by destruct r.
Qed.

(** A refusal. *)
Lemma register_err collected child c cmd r :
  let c1 := resolv_init collected c in
  netup_cmd child c1 = Some cmd -> (length cmd < 3000)%nat ->
  daemon (cmd ++ [NL]) = Some r -> starts_with (B "ERR ") r = true ->
  net_veth_register daemon collected child c =
  (if 0 <? Z.of_nat (length (C_egress c1)) then -2 else -1, c1).
Proof.
  intros c1 Hcmd Hlen Hd Hr. unfold net_veth_register. fold c1. rewrite Hcmd. cbv zeta.
  destruct r as [|x r]; [done|]. cbn in Hr. apply andb_true_iff in Hr as [Hx%bool_decide_eq_true _].
  subst x. rewrite (lsm_cmd_reply cmd _ Hlen Hd) by done.
  change (cstr (take 191 (_ :: r))) with ("E"%char :: cstr (take 190 r)).
  change (starts_with (B "OK ") ("E"%char :: _)) with false.
  cbn [fs_str fs_num length lookup list_lookup default]. change (0 + 0 <? 3)%nat with true.
  cbn [orb]. by destruct c1.
Qed.

(** A grant. *)
Lemma register_ok collected child c cmd cell :
  let c1 := resolv_init collected c in
  netup_cmd child c1 = Some cmd -> (length cmd < 3000)%nat ->
  daemon (cmd ++ [NL]) = Some (net_up_reply cell) ->
  0 <= ns_idx cell < 16384 -> length (ns_hosts cell) = length (C_egress c1) ->
  (length (C_egress c1) <= MAX_EGRESS)%nat -> (length (ns_eg cell) <= MAX_EG_IPS)%nat ->
  (C_egress c1 <> [] -> ns_eg cell <> []) ->
  net_veth_register daemon collected child c =
  (0, NetCfg (C_egress c1) (C_resolv c1) (C_netmode c1) (B "vethc" ++ print_d (ns_idx cell))
        (cell_addr (ns_idx cell * 4 + 2)) (cell_addr (ns_idx cell * 4 + 1)) true).
Proof.
  intros c1 Hcmd Hlen Hd Hi Hh Hm He Hne. unfold net_veth_register. fold c1. rewrite Hcmd. cbv zeta.
  destruct (scan_reply cell Hi ltac:(lia) He) as (Hl & Hn & Hsc).
  rewrite (lsm_cmd_reply cmd _ Hlen Hd); [|done].
  unfold REPN in Hl. rewrite take_ge, cstr_no_nul by (done || lia).
  change (starts_with (B "OK ") (net_up_reply cell)) with true. cbv iota. rewrite Hsc.
  cbn [fs_str fs_num length lookup list_lookup default C_egress C_resolv C_netmode C_veth_if C_veth_ip
       C_veth_gw].
  cbn [Nat.add Nat.ltb Nat.leb Nat.eqb negb orb]. rewrite andb_false_r. cbn [orb].
  change (id ?x) with x. rewrite Hh, Z.eqb_refl. cbn [negb orb].
  destruct (Z.ltb_spec 0 (Z.of_nat (length (C_egress c1)))) as [Hpos|]; [|done].
  assert (ns_eg cell <> []) as He0 by (apply Hne; intros E; rewrite E in Hpos; done).
  destruct (Z.leb_spec (Z.of_nat (length (ns_eg cell))) 0); [|done].
  destruct (ns_eg cell); [done|cbn in *; lia].
Qed.
End Register.

(** ** Policy requests *)

Section PolicyClient.
Context {K : Type} (system : bytes -> K -> Z * K) (order : gmap cellkey Z -> list cellkey).
Context (can_write : Z -> bool) (dns : Z * Z -> bytes -> list (Z * Z)) (now : Z).

Abbreviation world := (world (K := K)).

(** The daemon answering a request of connection [i]. *)
Definition reply_to (i : nat) (cmd : bytes) (w : world) : bytes * world :=
  match serve_request system order can_write dns now i cmd w with
  | Some (Some r, w') => (r, w')
  | _ => ([], w)
  end.

Lemma scan_llu_print v r :
  0 <= v < 2 ^ 64 -> stops isdigit r -> scan_llu (print_u v ++ r) = Some (v, r).
Proof.
  intros Hv Hr. unfold scan_llu. rewrite scan_int_print_u by (done || lia).
  unfold clamp_ull, ULLONG_MAX. rewrite (proj2 (Z.ltb_ge _ _)) by lia.
  unfold u64. by rewrite Z.mod_small by lia.
Qed.

(** An [ADD] line is read back as the cell and the prefix. *)
Lemma add_cmd_served i cgid p (w : world) :
  0 <= cgid < 2 ^ 64 -> rword p ->
  reply_to i (add_cmd cgid p) w =
  (let '(rc, m) := cell_add cgid p (w_pol w) in
   (if rc =? 0 then OK_NL else B "ERR add" ++ [NL], set_pol m w)).
Proof.
  intros Hc Hp. pose proof Hp as (_ & _ & Hl).
  pose proof (print_u_length cgid 64 ltac:(lia)) as Hlc.
  unfold add_cmd. rewrite snprintf_s_short
    by (rewrite !length_app; cbn [length B list_ascii_of_string]; lia).
  unfold reply_to, serve_request.
  change (skip_while is_sp (B "ADD " ++ ?x)) with (B "ADD " ++ x). cbv zeta.
  change (starts_with (B "ADD ") (B "ADD " ++ ?x)) with true. cbv iota.
  change (drop 4 (B "ADD " ++ ?x)) with x. unfold scan_cgid_prefix.
  rewrite scan_llu_print by done. pose proof (proj1 (scan_str_word p [] Hp I)) as Hs.
  rewrite app_nil_r in Hs. rewrite Hs.
  by destruct (cell_add cgid p (w_pol w)).
Qed.

(** A [CLR] line too. *)
Lemma clr_cmd_served i cgid (w : world) :
  0 <= cgid < 2 ^ 64 ->
  (reply_to i (snprintf_s 64 (B "CLR " ++ print_u cgid)) w).2 =
  match cell_clr order cgid (w_pol w) with Some (_, m) => set_pol m w | None => w end.
Proof.
  intros Hc. pose proof (print_u_digits cgid 20 ltac:(lia) ltac:(lia)) as Hlc.
  rewrite snprintf_s_short by (rewrite !length_app; cbn [length B list_ascii_of_string]; lia).
  unfold reply_to, serve_request.
  change (skip_while is_sp (B "CLR " ++ ?x)) with (B "CLR " ++ x). cbv zeta.
  change (starts_with (B "ADD ") (B "CLR " ++ ?x)) with false.
  change (starts_with (B "DEL ") (B "CLR " ++ ?x)) with false.
  change (starts_with (B "CLR ") (B "CLR " ++ ?x)) with true. cbv iota.
  change (drop 4 (B "CLR " ++ ?x)) with x.
  pose proof (scan_llu_print cgid [] ltac:(lia) I) as Hs. rewrite app_nil_r in Hs. rewrite Hs.
  by destruct (cell_clr order cgid (w_pol w)) as [[rc m]|].
Qed.

(** A prefix is denied to a cell. *)
Definition denied (m : polmaps) (cgid : Z) (p : bytes) : Prop :=
  pm_cellpol m !! (cgid, p) = Some ACT_DENY.

(** The maps after some [ADD]s of a cell: nothing of another cell moved. *)
Record pol_grown (cgid : Z) (m m' : polmaps) : Prop := {
  pg_ok : pol_ok m';
  pg_more : forall p, denied m cgid p -> denied m' cgid p;
  pg_reg : is_Some (pm_cells m !! cgid) -> is_Some (pm_cells m' !! cgid);
  pg_cells : forall c, c <> cgid -> pm_cells m' !! c = pm_cells m !! c;
  pg_other : forall c q, c <> cgid -> pm_cellpol m' !! (c, q) = pm_cellpol m !! (c, q)
}.

Lemma pol_grown_add cgid p m :
  pol_ok m -> rword p -> pol_grown cgid m (cell_add cgid p m).2 /\
  ((cell_add cgid p m).1 = 0 -> denied (cell_add cgid p m).2 cgid p /\
   is_Some (pm_cells (cell_add cgid p m).2 !! cgid)).
Proof.
  intros Hm (Hne & _ & Hl). pose proof (cell_add_ok cgid p m Hne Hm) as Hok.
  pose proof (cell_add_maps cgid p m) as H. destruct (cell_add cgid p m) as [rc m'].
  cbn [fst snd] in *. unfold cell_key in H. rewrite snprintf_s_short in H by (unfold PLEN; lia).
  destruct H as [[-> ->]|(Ep & Ec)]; [done|]. split.
  - split; [done| | | |].
    + intros q Hq. unfold denied. rewrite Ep. destruct (decide (p = q)) as [->|].
      * by rewrite lookup_insert_eq.
      * rewrite lookup_insert_ne by congruence. done.
    + intros Hr. destruct Ec as [[-> _]|[-> _]]; [done|]. rewrite lookup_insert_eq. eauto.
    + intros c Hc. destruct Ec as [[-> _]|[-> _]]; [done|]. by rewrite lookup_insert_ne.
    + intros c q Hc. rewrite Ep, lookup_insert_ne by congruence. done.
  - intros ->. destruct Ec as [[_ ?]|[-> _]]; [done|]. unfold denied.
    rewrite Ep, !lookup_insert_eq. by eauto.
Qed.

Lemma pol_grown_trans cgid m1 m2 m3 :
  pol_grown cgid m1 m2 -> pol_grown cgid m2 m3 -> pol_grown cgid m1 m3.
Proof.
  intros [H1 H2 H5 H3 H4] [G1 G2 G5 G3 G4]. split; [done|auto|auto| |].
  - intros c Hc. by rewrite G3, H3.
  - intros c q Hc. by rewrite G4, H4.
Qed.

Lemma lsm_adds_spec i cgid ps (w : world) :
  0 <= cgid < 2 ^ 64 -> Forall rword ps -> pol_ok (w_pol w) ->
  let '(w', on) := lsm_adds (reply_to i) cgid ps w in
  pol_grown cgid (w_pol w) (w_pol w') /\ w_net w' = w_net w /\
  (on = true -> Forall (denied (w_pol w') cgid) ps /\
     (ps <> [] -> is_Some (pm_cells (w_pol w') !! cgid))).
Proof.
  intros Hc Hp. revert w. induction Hp as [|p ps Hp Hps IH]; intros w Hm; cbn [lsm_adds].
  - by split_and!.
  - rewrite (add_cmd_served i cgid p w Hc Hp).
    destruct (pol_grown_add cgid p (w_pol w) Hm Hp) as [Hg Hd].
    destruct (cell_add cgid p (w_pol w)) as [rc m]. cbn [fst snd] in *.
    destruct (Z.eqb_spec rc 0) as [->|]; [|by split_and!].
    change (starts_with (B "OK") OK_NL) with true. cbv iota.
    specialize (IH (set_pol m w) (pg_ok _ _ _ Hg)). destruct (lsm_adds _ _ _ _) as [w' on].
    destruct IH as (Hg2 & Hn & Hall). split_and!; [by eapply pol_grown_trans|done|].
    intros Hon. destruct (Hall Hon) as [Ha Hb]. destruct (Hd eq_refl) as [Hd1 Hd2].
    split; [constructor; [by apply Hg2|done]|]. intros _. by apply Hg2.
Qed.
End PolicyClient.

(** ** Theorems *)

Lemma cfg_ports_ok c : cfg_ok c -> ports_ok (C_egress c).
Proof.
  intros [_ He _ _]. eapply Forall_impl; [exact He|]. intros [h p] Hok.
  unfold egress_ok in Hok. rewrite !andb_true_iff in Hok. cbn [fst snd] in *.
  destruct Hok as [[_ (Hn & Ha & Hl)%tok_ok_spec] Hd].
  rewrite snprintf_s_short by done. unfold port_ok, plain_word.
  rewrite bool_decide_false by done. rewrite (proj2 (Nat.leb_le _ _)) by lia.
  rewrite andb_true_r. eapply forallb_impl; [|exact Hd]. intros x Hx. unfold plain_char. by rewrite Hx.
Qed.

Lemma cfg_recorded c :
  cfg_ok c -> recorded_hosts (C_egress c) = (fun e => EgHost e.1 e.2) <$> C_egress c.
Proof.
  intros [Hl He _ _]. unfold recorded_hosts. rewrite take_ge by done.
  apply list_fmap_ext. intros k [h p] Hk. rewrite Forall_lookup in He. apply He in Hk.
  unfold egress_ok in Hk. rewrite !andb_true_iff in Hk. cbn [fst snd] in *.
  destruct Hk as [[(_ & _ & Hh)%tok_ok_spec (_ & _ & Hp)%tok_ok_spec] _].
  by rewrite !snprintf_s_short.
Qed.

(** C6. Registering a cell's network, end to end.  The line [sand] builds from a
    well-formed configuration fits the buffers of both sides, the daemon runs
    [net_up] on exactly that process, allowlist and resolvers, and what [sand]
    concludes from the reply is what happened: 0 and the veth names of the slot
    the daemon recorded with exactly the requested hosts, or, when [net_up]
    failed, -2 with an allowlist and -1 without, with [g_veth_on] unchanged. *)
Theorem netup_end_to_end {K} (system : bytes -> K -> Z * K) `{!NetKernel K system}
    order can_write dns now i cn collected child c w :
  w_conns w !! i = Some cn -> 0 <= cn_fd cn -> cn_buf cn = [] -> cn_drain cn = false ->
  can_write (cn_fd cn) = true ->
  let c1 := resolv_init collected c in
  cfg_ok c1 -> 0 < child < 2 ^ 31 -> st_inv system false (w_net w) ->
  let '(rc, _, s) := net_up system dns now child (C_egress c1) (C_resolv c1) (w_net w) in
  let '(r, c') := net_veth_register (answer system order can_write dns now i w)
                    collected child c in
  (exists cmd w', netup_cmd child c1 = Some cmd /\
     serve_conn system order can_write dns now i (CRead (cmd ++ [NL])) w = Some w' /\
     w_net w' = s /\ w_pol w' = w_pol w) /\
  (rc = 0 /\ r = 0 /\ g_veth_on c' = true /\
   (exists cell, live_in (g_nets (st_d s)) cell /\ ns_pid cell = child /\
      ns_hosts cell = ((fun e => EgHost e.1 e.2) <$> C_egress c1) /\
      C_veth_if c' = B "vethc" ++ print_d (ns_idx cell) /\
      C_veth_ip c' = cell_addr (ns_idx cell * 4 + 2) /\
      C_veth_gw c' = cell_addr (ns_idx cell * 4 + 1)) \/
   rc = -1 /\ r = (if 0 <? Z.of_nat (length (C_egress c1)) then -2 else -1) /\
   g_veth_on c' = g_veth_on c).
Proof.
  intros Hc Hfd Hbuf Hdr Hw c1 Hok Hch Hinv.
  assert (s32 child = child) as Hs by (apply s32_small; lia).
  pose proof (net_up_spec system false dns now child (C_egress c1) (C_resolv c1) (w_net w)
                ltac:(done) Hinv ltac:(lia) Hs (cfg_ports_ok c1 Hok)) as Hup.
  pose proof (net_up_error system dns now child (C_egress c1) (C_resolv c1) (w_net w)) as Herr.
  destruct (net_up system dns now child (C_egress c1) (C_resolv c1) (w_net w))
    as [[rc rep] s] eqn:E.
  destruct (netup_served system order can_write dns now i cn child c1 w rc rep s
              Hc Hfd Hbuf Hdr Hw Hok ltac:(lia) E) as (cmd & w' & E1 & E2 & E3 & E4 & E5 & E6).
  destruct Hup as [_ [[-> [(l1 & c0 & cell & l2 & _ & En & _ & Hp & Hh & _ & _ & Hl & Hne0 & _ & ->)]]|
                      [-> _]]].
  - assert (length (ns_hosts cell) = length (C_egress c1)) as Hlh
      by (rewrite Hh, cfg_recorded by done; apply length_fmap).
    assert (C_egress c1 <> [] -> ns_eg cell <> []) as Hne.
    { intros Hne. apply Hne0. intros Hz. rewrite Hz in Hlh. by destruct (C_egress c1). }
    destruct (scan_reply cell) as (Hlen & _ & _); [apply Hl|rewrite Hlh; apply Hok|apply Hl|].
    rewrite snprintf_s_short in E6 by done.
    rewrite (register_ok _ collected child c cmd cell E1 E2 E6); [|apply Hl|done|apply Hok|apply Hl|done].
    split; [by exists cmd, w'|]. left. split_and!; [done|done|done|]. exists cell.
    split_and!; [|done|by rewrite Hh, cfg_recorded|done|done|done].
    split; [rewrite En; apply elem_of_app; right; constructor|lia].
  - destruct Herr as [?|[_ Herr]]; [done|].
    assert (starts_with (B "ERR ") (netup_reply true false (-1) rep) = true) as Hr.
    { unfold netup_reply. cbn [negb]. destruct Herr as [->|Hr]; [done|].
      rewrite bool_decide_false; [done|]. intros ->. done. }
    rewrite (register_err _ collected child c cmd _ E1 E2 E6 Hr).
    split; [by exists cmd, w'|]. right. split_and!; [done|done|].
    unfold resolv_init. by destruct (_ =? _)%nat.
Qed.

(** The numbers a scan assigns. *)
Lemma scan_fields_nums s : exists ws,
  scan_fields s = Fields5 ws [] \/ (exists a, scan_fields s = Fields5 ws [a]) \/
  (exists a b, scan_fields s = Fields5 ws [a; b]).
Proof.
  unfold scan_fields. destruct (scan_strs 3 s) as [ws r]. exists ws.
  destruct (_ <? 3)%nat; [by left|]. destruct (scan_d r) as [[a r1]|]; [|by left].
  destruct (scan_d r1) as [[b r2]|]; right; [right|left]; eauto.
Qed.

(** C14. The policy of a [--secure] cell, end to end.  When [sand] reports its
    prefixes armed, the daemon denies the cell each of them (the defaults when
    none is given) and has registered it; when the cell goes, [lsm_unregister]
    leaves no rule and no registration of it.  At no point does anything of
    another cell move. *)
Theorem lsm_lifecycle {K} (system : bytes -> K -> Z * K) order can_write dns now i cgid deny w :
  (forall m, order m ≡ₚ (map_to_list m).*1) -> 0 <= cgid < 2 ^ 64 ->
  Forall rword (deny_prefixes deny) -> pol_ok (w_pol w) ->
  let D := reply_to system order can_write dns now i in
  let '(w1, on) := lsm_register D (Some cgid) true deny w in
  let '(w2, _) := lsm_unregister D on cgid w1 in
  (on = true ->
     Forall (denied (w_pol w1) cgid) (deny_prefixes deny) /\
     is_Some (pm_cells (w_pol w1) !! cgid) /\
     (forall q, pm_cellpol (w_pol w2) !! (cgid, q) = None) /\
     pm_cells (w_pol w2) !! cgid = None) /\
  (forall c q, c <> cgid ->
     pm_cellpol (w_pol w1) !! (c, q) = pm_cellpol (w_pol w) !! (c, q) /\
     pm_cellpol (w_pol w2) !! (c, q) = pm_cellpol (w_pol w) !! (c, q) /\
     pm_cells (w_pol w2) !! c = pm_cells (w_pol w) !! c).
Proof.
  intros Ho Hc Hp Hm D. unfold lsm_register. cbn [negb].
  pose proof (lsm_adds_spec system order can_write dns now i cgid _ w Hc Hp Hm) as Ha.
  fold D in Ha. destruct (lsm_adds D cgid (deny_prefixes deny) w) as [w1 on].
  destruct Ha as (Hg & _ & Hall). unfold lsm_unregister. destruct on; cbn [negb].
  - subst D. rewrite (clr_cmd_served system order can_write dns now i cgid w1 Hc).
    rewrite cell_clr_spec by (done || by apply pol_ok_zero, Hg). cbn [set_pol w_pol pm_cellpol pm_cells].
    destruct (Hall eq_refl) as [Hd Hr]. split.
    + intros _. split_and!; [done|apply Hr; by destruct deny| |by rewrite lookup_delete_eq].
      intros q. apply map_lookup_filter_None. right. intros v _ Hv. by apply Hv.
    + intros c q Hcc. split_and!; [by apply Hg| |rewrite lookup_delete_ne by done; by apply Hg].
      rewrite <- (pg_other _ _ _ Hg c q Hcc). apply option_eq. intros v.
      rewrite map_lookup_filter_Some. unfold not_of. cbn. tauto.
  - split; [done|]. intros c q Hcc. split_and!; by apply Hg.
Qed.

(** C37. What [net_veth_register] never does, whatever the daemon answers: it
    returns 0, -1 or -2; with an allowlist it never falls back to "no network"
    (-1) unless the command did not fit; and it turns the network on exactly when
    it returns 0, which with an allowlist takes a reply that counts as many
    hosts as were asked for and at least one address. *)
Theorem net_veth_register_strict daemon collected child c :
  let c1 := resolv_init collected c in
  let '(r, c') := net_veth_register daemon collected child c in
  (r = 0 \/ r = -1 \/ r = -2) /\ C_egress c' = C_egress c /\
  (r = -1 -> C_egress c = [] \/ netup_cmd child c1 = None) /\
  (r = -2 -> C_egress c <> []) /\ (r <> 0 -> g_veth_on c' = g_veth_on c) /\
  (r = 0 -> g_veth_on c' = true /\ exists cmd rep, netup_cmd child c1 = Some cmd /\
     lsm_cmd daemon cmd 192 = Some rep /\ starts_with (B "OK ") rep = true /\
     (C_egress c <> [] -> exists ws n, (0 < n) /\
        (scan_fields (drop 3 rep) = Fields5 ws [Z.of_nat (length (C_egress c)); n]))).
Proof.
  intros c1. assert (C_egress c1 = C_egress c /\ g_veth_on c1 = g_veth_on c) as [Ee Eg]
    by (unfold c1, resolv_init; by destruct (_ =? _)%nat).
  unfold net_veth_register. fold c1. destruct (netup_cmd child c1) as [cmd|] eqn:Ecmd;
    [|split_and!; auto; lia]. cbv zeta.
  set (f := match lsm_cmd daemon cmd 192 with Some _ => _ | None => _ end).
  assert (f = Fields5 [] [] \/ exists rep, lsm_cmd daemon cmd 192 = Some rep /\
            starts_with (B "OK ") rep = true /\ f = scan_fields (drop 3 rep)) as Hf.
  { subst f. destruct (lsm_cmd daemon cmd 192) as [rep|]; [|by left].
    destruct (starts_with (B "OK ") rep) eqn:Eok; [right; by exists rep|by left]. }
  clearbody f. cbn [C_egress C_resolv C_netmode C_veth_if C_veth_ip C_veth_gw g_veth_on]. rewrite Ee.
  destruct ((_ <? 3)%nat || _ || _) eqn:Ebad.
  - cbn [C_egress g_veth_on]. destruct (C_egress c) as [|e l]; cbn [length].
    + change (0 <? Z.of_nat 0) with false. cbv iota. split_and!; auto; lia.
    + change (0 <? Z.of_nat (S (length l))) with true. cbv iota. split_and!; auto; lia.
  - rewrite !orb_false_iff in Ebad. destruct Ebad as [[Hn3 _] Hcnt]. cbn [C_egress g_veth_on].
    destruct Hf as [->|(rep & Er & Eok & ->)]; [done|].
    split_and!; auto; try lia. intros _. split; [done|]. exists cmd, rep. split_and!; auto.
    intros Hne. assert ((0 <? Z.of_nat (length (C_egress c))) = true) as Hpos
      by (destruct (C_egress c); [done|by apply Z.ltb_lt]).
    rewrite Hpos in Hcnt. cbn [andb] in Hcnt. rewrite orb_false_iff, negb_false_iff in Hcnt.
    destruct Hcnt as [Hh%Z.eqb_eq Hi%Z.leb_gt].
    destruct (scan_fields_nums (drop 3 rep)) as (ws & [E|[(a & E)|(a & b & E)]]);
      rewrite E in Hh, Hi |- *; cbn in Hh, Hi; [lia|lia|].
    exists ws, b. split; [lia|]. by rewrite Hh.
Qed.

(** [--egress] keeps the allowlist well-formed, whatever the argument: at most
    [MAX_EGRESS] entries, each a host of 1 to 127 printable bytes without a colon
    and a numeric port of 1 to 7 digits.  It refuses (-1, nothing changed) or
    succeeds (0), and then the host and port the argument names are listed and
    nothing before was lost. *)
Theorem egress_add_well_formed spec c :
  cfg_ok c -> Forall (fun e => COLON ∉ e.1) (C_egress c) ->
  let '(r, c') := egress_add spec c in
  cfg_ok c' /\ Forall (fun e => COLON ∉ e.1) (C_egress c') /\
  (r = -1 /\ c' = c \/
   r = 0 /\ (C_egress c `prefix_of` C_egress c') /\
   (egress_split spec).1 ∈ (C_egress c').*1 /\
   ((length (egress_split spec).2 < 8)%nat -> egress_split spec ∈ C_egress c')).
Proof.
  intros Hok Hcol. pose proof (egress_add_ok spec c Hok) as Hok'. unfold egress_add in *.
  destruct (_ || _); [by split_and!; auto|].
  destruct (negb _); [by split_and!; auto|]. destruct (egress_split spec) as [host port].
  cbn [fst snd]. destruct (_ || _) eqn:El; [by split_and!; auto|].
  apply orb_false_iff in El as [_ El%Nat.leb_gt].
  destruct (bool_decide (COLON ∈ host)) eqn:Ec; [by split_and!; auto|].
  apply bool_decide_eq_false in Ec. destruct (existsb _ _) eqn:Ee.
  - apply existsb_exists in Ee as ([h p] & Hin%list_elem_of_In & He). cbn in He.
    apply andb_true_iff in He as [->%bool_decide_eq_true ->%bool_decide_eq_true].
    split_and!; [done|done|]. right. split_and!; auto.
    apply list_elem_of_fmap. by exists (host, port).
  - cbn [snd] in Hok'. rewrite (snprintf_s_short 128) in * by lia. cbn [C_egress].
    split_and!; [done|apply Forall_app; split; [done|by constructor]|]. right. split_and!.
    + done.
    + by apply prefix_app_r.
    + rewrite fmap_app. apply elem_of_app. right. by constructor.
    + intros Hp. rewrite snprintf_s_short by done. apply elem_of_app. right. constructor.
Qed.

(** ** Behaviours the comments do not promise *)

(** A daemon that has just started, with one idle connection on descriptor 5. *)
Definition map_order (m : gmap cellkey Z) : list cellkey := (map_to_list m).*1.
Definition conn5 : conn := Conn 5 false 0 [] false.
Definition world0 : world (K := kview) := World (PolMaps ∅ ∅) sim0 [conn5] [] [].
Definition daemon0 : bytes -> world (K := kview) -> bytes * world (K := kview) :=
  reply_to (sim_system []) map_order (fun _ => true) no_dns 100 0%nat.

(** A refused prefix leaks the ones before it: [lsm_register] returns without
    setting [g_lsm_on], so [lsm_unregister] sends nothing and the granted rules
    stay with the daemon after the cell is gone. *)
Theorem lsm_register_leaks_partial :
  let '(w1, on) := lsm_register daemon0 (Some 7) true [B "/etc/ssl"; B " "] world0 in
  let '(w2, _) := lsm_unregister daemon0 on 7 w1 in
  on = false /\ denied (w_pol w2) 7 (B "/etc/ssl") /\ pm_cells (w_pol w2) !! 7 = Some 1.
Proof. by vm_compute. Qed.

(** A prefix with a blank is sent as it is and read as a word: the daemon
    denies the part before the blank, which is a different and wider prefix, and
    [sand] reports success. *)
Theorem lsm_register_splits_prefix :
  let '(w1, on) := lsm_register daemon0 (Some 7) true [B "/home/my keys"] world0 in
  on = true /\ denied (w_pol w1) 7 (B "/home/my") /\
  pm_cellpol (w_pol w1) !! (7, B "/home/my keys") = None.
Proof. by vm_compute. Qed.

(** ** Witnesses *)

Definition cfg_wit : netcfg := NetCfg wit_hosts [B "9.9.9.9"] NET_VETH [] [] [] false.

Lemma cfg_wit_ok : cfg_ok cfg_wit.
Proof. split; [cbn; unfold MAX_EGRESS; lia|by repeat constructor|cbn; unfold MAX_RESOLV; lia|by repeat constructor]. Qed.

Lemma netup_end_to_end_witness :
  let '(r, c') := net_veth_register
    (answer (sim_system []) map_order (fun _ => true) no_dns 100 0%nat world0) [] 42 cfg_wit in
  r = 0 /\ g_veth_on c' = true.
Proof.
  pose proof (netup_end_to_end (sim_system []) map_order (fun _ => true) no_dns 100 0%nat conn5
    [] 42 cfg_wit world0 eq_refl ltac:(done) eq_refl eq_refl eq_refl cfg_wit_ok ltac:(lia)
    (net_start_inv (sim_system []) false files0 (KView [ROther 7] []))) as H.
  cbv zeta in H.
  assert ((net_up (sim_system []) no_dns 100 42 (C_egress cfg_wit) (C_resolv cfg_wit)
             (w_net world0)).1.1 = 0) as E by (by vm_compute).
  change (resolv_init [] cfg_wit) with cfg_wit in H.
  destruct (net_up _ _ _ _ _ _ _) as [[rc rep] s]. cbn in E. subst rc.
  destruct (net_veth_register _ _ _ _) as [r c'].
  destruct H as [_ [(_ & H1 & H2 & _)|(H & _)]]; [done|discriminate H].
Defined.

Lemma lsm_lifecycle_witness :
  Forall (denied (w_pol (lsm_register daemon0 (Some 7) true [] world0).1) 7)
    [B "/etc/shadow"; B "/etc/gshadow"].
Proof.
  pose proof (lsm_lifecycle (sim_system []) map_order (fun _ => true) no_dns 100 0%nat 7 [] world0
    ltac:(done) ltac:(lia) ltac:(repeat constructor; done || (cbn; lia))
    ltac:(intros k v Hk; cbn in Hk; by rewrite lookup_empty in Hk)) as H.
  cbv zeta in H. fold daemon0 in H.
  assert ((lsm_register daemon0 (Some 7) true [] world0).2 = true) as E by (by vm_compute).
  destruct (lsm_register daemon0 (Some 7) true [] world0) as [w1 on]. cbn in E. subst on.
  destruct (lsm_unregister daemon0 true 7 w1) as [w2 on2]. cbn [fst].
  destruct H as [H _]. exact (proj1 (H eq_refl)).
Defined.

Lemma egress_add_well_formed_witness :
  let '(r, c') := egress_add (B "example.com:8443") netcfg0 in
  r = 0 /\ cfg_ok c' /\ ((B "example.com", B "8443") ∈ C_egress c').
Proof.
  pose proof (egress_add_well_formed (B "example.com:8443") netcfg0 cfg_ok0 ltac:(constructor)) as H.
  assert ((egress_add (B "example.com:8443") netcfg0).1 = 0) as E by (by vm_compute).
  destruct (egress_add _ _) as [r c']. cbn in E. subst r. split; [done|].
  destruct H as (H1 & _ & [[H _]|(_ & _ & _ & H)]); [discriminate H|].
  split; [exact H1|]. assert (egress_split (B "example.com:8443") = (B "example.com", B "8443")) as Es
    by (by vm_compute). rewrite Es in H. apply H. vm_compute. lia.
Defined.
