(* ===== verification/Config.v ===== *)
(** * The command line of [sand]

    [sand.c]: [basename_of], [normalize_path], [parse_mem], [env_add],
    [env_file_load], [secret_add], the option loop of [main] and the checks after
    it.  What the file system answers ([slurp], [realpath], [stat]) and the
    conversion of a core count to a quota (floating point) are arguments. *)

From S2P Require Import Prelude CString Client.
Local Open Scope Z_scope.

Definition MAXBIND : nat := 32.
Definition MAX_ENV : nat := 64.
Definition MAX_SECRET : nat := 8.
Definition PATH_MAX : nat := Z.to_nat 4096.

(** ** Paths *)

Definition basename_of (p : bytes) : bytes :=
  match strrchr SLASH p with Some i => drop (S i) p | None => p end.

(** The loop over the tokens of a path. *)
Fixpoint norm_segs (toks segs : list bytes) : list bytes :=
  match toks with
  | [] => segs
  | tok :: toks' =>
      if (128 <=? length segs)%nat then segs
      else if decide (tok = B ".") then norm_segs toks' segs
      else if decide (tok = B "..") then norm_segs toks' (take (length segs - 1) segs)
      else norm_segs toks' (segs ++ [tok])
  end.

(** The path of a list of segments. *)
Definition path_of (segs : list bytes) : bytes :=
  match segs with [] => B "/" | _ => concat ((fun s => SLASH :: s) <$> segs) end.

Definition normalize_path (path : bytes) : bytes := path_of (norm_segs (strtok SLASH path) []).

(** ** Sizes *)

(** [None]: [die]. *)
Definition parse_mem (s : bytes) : option Z :=
  match strtol s with
  | None => None
  | Some (v, r) =>
      match r with
      | [] => Some v
      | c :: _ =>
          if bool_decide (c = "G"%char \/ c = "g"%char) then Some (s64 (Z.shiftl v 30))
          else if bool_decide (c = "M"%char \/ c = "m"%char) then Some (s64 (Z.shiftl v 20))
          else if bool_decide (c = "K"%char \/ c = "k"%char) then Some (s64 (Z.shiftl v 10))
          else None
      end
  end.

(** ** The configuration *)

Record bindspec := BindSpec { b_src : bytes; b_dst : bytes; b_ro : bool }.

Record limits := Limits {
  l_mem : Z; l_cpu : bytes; l_pids : Z; l_rbps : Z; l_wbps : Z; l_timeout : Z
}.
Record fscfg := FsCfg {
  f_workdir : bytes; f_rootfs : bytes; f_ro : list bytes; f_rw : list bytes; f_ov : list bytes;
  f_binds : list bindspec; f_wsize : Z
}.
Record seccfg := SecCfg {
  s_no_landlock : bool; s_no_seccomp : bool; s_ask : bool; s_secure : bool; s_deny : list bytes
}.
Record paycfg := PayCfg {
  p_sock : bytes; p_env : list bytes; p_secrets : list (bytes * bytes); p_argv : list bytes
}.

(** [struct cfg], by topic. *)
Record cfg := Cfg { c_lim : limits; c_fs : fscfg; c_sec : seccfg; c_pay : paycfg; c_net : netcfg }.

Definition set_lim (l : limits) (c : cfg) : cfg := Cfg l (c_fs c) (c_sec c) (c_pay c) (c_net c).
Definition set_fs (f : fscfg) (c : cfg) : cfg := Cfg (c_lim c) f (c_sec c) (c_pay c) (c_net c).
Definition set_sec (s : seccfg) (c : cfg) : cfg := Cfg (c_lim c) (c_fs c) s (c_pay c) (c_net c).
Definition set_pay (p : paycfg) (c : cfg) : cfg := Cfg (c_lim c) (c_fs c) (c_sec c) p (c_net c).
Definition set_cnet (n : netcfg) (c : cfg) : cfg := Cfg (c_lim c) (c_fs c) (c_sec c) (c_pay c) n.

(** The static initialiser, with the default memory [main] computes. *)
Definition cfg0 (mem : Z) : cfg :=
  Cfg (Limits mem (B "200000 100000") 256 0 0 0) (FsCfg [] [] [] [] [] [] 0)
    (SecCfg false false false false []) (PayCfg [] [] [] []) netcfg0.

(** ** Environment and secrets *)

Definition env_add (kv : bytes) (env : list bytes) : list bytes :=
  if (MAX_ENV <=? length env)%nat || negb (bool_decide ("="%char ∈ kv)) then env else env ++ [kv].

(** Blanks and carriage returns cut from the end, blanks from the start. *)
Definition env_trim (line : bytes) : bytes :=
  let blank c := bool_decide (c = CR) || bool_decide (c = SP) in
  skip_while is_sp (rev (skip_while blank (rev line))).

Definition env_line (env : list bytes) (line : bytes) : list bytes :=
  match env_trim line with
  | [] => env
  | c :: l => if decide (c = "#"%char) then env else env_add (c :: l) env
  end.

(** [file]: what [slurp] returns; [None] is -1. *)
Definition env_file_load (file : option bytes) (env : list bytes) : option (list bytes) :=
  match file with
  | None => None
  | Some buf => Some (fold_left env_line (strtok NL (cstr buf)) env)
  end.

(** Result and the secrets; [slurp] reads a host file. *)
Definition secret_add (slurp : bytes -> option bytes) (spec : bytes) (l : list (bytes * bytes))
    : Z * list (bytes * bytes) :=
  if (MAX_SECRET <=? length l)%nat then (-1, l)
  else match strchr "="%char spec with
       | None | Some O => (-1, l)
       | Some dl =>
           if (PATH_MAX <=? dl)%nat then (-1, l)
           else
             let dst := take dl spec in
             if negb (starts_with (B "/tmp/") dst) && negb (starts_with (B "/run/") dst) &&
                negb (starts_with (B "/var/tmp/") dst)
             then (-1, l)
             else match slurp (drop (S dl) spec) with
                  | None => (-1, l)
                  | Some data => (0, l ++ [(snprintf_s PATH_MAX dst, data)])
                  end
       end.

(** ** The options *)

(** What [getopt_long] reports, with the argument. *)
Inductive opt :=
  | OMem (a : bytes) | OCpu (a : bytes) | OPids (a : bytes) | ONet (a : bytes) | ORootfs (a : bytes)
  | OSock (a : bytes) | OWorkdir (a : bytes) | ORo (a : bytes) | ORw (a : bytes) | OOverlay (a : bytes)
  | OBind (ro : bool) (a : bytes) | OTimeout (a : bytes) | ORbps (a : bytes) | OWbps (a : bytes)
  | OEgress (a : bytes) | OEnv (a : bytes) | OEnvFile (a : bytes) | OSecret (a : bytes)
  | OWorkdirSize (a : bytes) | OCapabilities | OAsk | OSecure | ODeny (a : bytes) | ONoLandlock
  | ONoSeccomp | OHelp | OBad.

(** What a step of [main] does: go on, return a status, or [die] (status 1). *)
Inductive outcome := Go (c : cfg) | Exit (rc : Z).

Section Main.
Context (slurp : bytes -> option bytes) (realpath : bytes -> option bytes).
(** [atof] and the quota [(long)(q * 100000)]; [None]: not positive. *)
Context (cpu_quota : bytes -> option Z) (getcwd : option bytes).

Definition die_none {A} (x : option A) (f : A -> cfg) : outcome :=
  match x with Some v => Go (f v) | None => Exit 1 end.

(** Slashes cut from the end of a destination, its first byte excepted. *)
Definition cut_slashes (d : bytes) : bytes :=
  match d with
  | [] => []
  | c :: d' => c :: rev (skip_while (fun x => bool_decide (x = SLASH)) (rev d'))
  end.

(** [--bind SRC:DST]. *)
Definition bind_opt (ro : bool) (a : bytes) (c : cfg) : outcome :=
  let f := c_fs c in
  if (MAXBIND <=? length (f_binds f))%nat then Go c
  else match strchr COLON a with
       | None | Some O => Exit 2
       | Some i =>
           match drop (S i) a with
           | x :: d =>
               if decide (x = SLASH) then
                 die_none (realpath (take i a)) (fun src =>
                   set_fs (FsCfg (f_workdir f) (f_rootfs f) (f_ro f) (f_rw f) (f_ov f)
                     (f_binds f ++ [BindSpec src (cut_slashes (snprintf_s PATH_MAX (x :: d))) ro])
                     (f_wsize f)) c)
               else Exit 2
           | [] => Exit 2
           end
       end.

Definition push_path (a : bytes) (l : list bytes) : list bytes :=
  if (length l <? MAXBIND)%nat then l ++ [a] else l.

Definition main_opt (o : opt) (c : cfg) : outcome :=
  let l := c_lim c in let f := c_fs c in let s := c_sec c in let p := c_pay c in let n := c_net c in
  match o with
  | OMem a => die_none (parse_mem a) (fun v =>
      set_lim (Limits v (l_cpu l) (l_pids l) (l_rbps l) (l_wbps l) (l_timeout l)) c)
  | OCpu a => Go (set_lim (Limits (l_mem l)
      (match cpu_quota a with
       | None => B "max 100000"
       | Some q => snprintf_s 64 (print_d q ++ B " 100000")
       end) (l_pids l) (l_rbps l) (l_wbps l) (l_timeout l)) c)
  | OPids a => Go (set_lim (Limits (l_mem l) (l_cpu l) (atoi a) (l_rbps l) (l_wbps l) (l_timeout l)) c)
  | ONet a =>
      let mode m := Go (set_cnet (NetCfg (C_egress n) (C_resolv n) m (C_veth_if n) (C_veth_ip n)
                                    (C_veth_gw n) (g_veth_on n)) c) in
      if decide (a = B "host") then mode NET_HOST
      else if decide (a = B "veth") then mode NET_VETH
      else if decide (a = B "none") then Go c else Exit 2
  | OWorkdir a => die_none (realpath a) (fun w =>
      set_fs (FsCfg w (f_rootfs f) (f_ro f) (f_rw f) (f_ov f) (f_binds f) (f_wsize f)) c)
  | ORootfs a => die_none (realpath a) (fun r =>
      set_fs (FsCfg (f_workdir f) r (f_ro f) (f_rw f) (f_ov f) (f_binds f) (f_wsize f)) c)
  | ORo a => Go (set_fs (FsCfg (f_workdir f) (f_rootfs f) (push_path a (f_ro f)) (f_rw f) (f_ov f)
                           (f_binds f) (f_wsize f)) c)
  | ORw a => Go (set_fs (FsCfg (f_workdir f) (f_rootfs f) (f_ro f) (push_path a (f_rw f)) (f_ov f)
                           (f_binds f) (f_wsize f)) c)
  | OOverlay a => Go (set_fs (FsCfg (f_workdir f) (f_rootfs f) (f_ro f) (f_rw f)
                                (push_path a (f_ov f)) (f_binds f) (f_wsize f)) c)
  | OBind ro a => bind_opt ro a c
  | OTimeout a => Go (set_lim (Limits (l_mem l) (l_cpu l) (l_pids l) (l_rbps l) (l_wbps l) (atoi a)) c)
  | ORbps a => die_none (parse_mem a) (fun v =>
      set_lim (Limits (l_mem l) (l_cpu l) (l_pids l) v (l_wbps l) (l_timeout l)) c)
  | OWbps a => die_none (parse_mem a) (fun v =>
      set_lim (Limits (l_mem l) (l_cpu l) (l_pids l) (l_rbps l) v (l_timeout l)) c)
  | OSock a =>
      let put s := Go (set_pay (PayCfg (snprintf_s PATH_MAX s) (p_env p) (p_secrets p) (p_argv p)) c) in
      if starts_with (B "/") a then put a
      else match getcwd with Some cwd => put (cwd ++ SLASH :: a) | None => Exit 1 end
  | OEgress a => let '(r, n) := egress_add a n in
                 if r =? 0 then Go (set_cnet n c) else Exit 2
  | OEnv a => Go (set_pay (PayCfg (p_sock p) (env_add a (p_env p)) (p_secrets p) (p_argv p)) c)
  | OEnvFile a => die_none (env_file_load (slurp a) (p_env p)) (fun e =>
      set_pay (PayCfg (p_sock p) e (p_secrets p) (p_argv p)) c)
  | OSecret a => let '(r, l) := secret_add slurp a (p_secrets p) in
                 if r =? 0 then Go (set_pay (PayCfg (p_sock p) (p_env p) l (p_argv p)) c) else Exit 2
  | OWorkdirSize a => die_none (parse_mem a) (fun v =>
      set_fs (FsCfg (f_workdir f) (f_rootfs f) (f_ro f) (f_rw f) (f_ov f) (f_binds f) v) c)
  | OCapabilities => Exit 0
  | OAsk => Go (set_sec (SecCfg (s_no_landlock s) (s_no_seccomp s) true (s_secure s) (s_deny s)) c)
  | OSecure => Go (set_sec (SecCfg (s_no_landlock s) (s_no_seccomp s) (s_ask s) true (s_deny s)) c)
  | ODeny a => Go (set_sec (SecCfg (s_no_landlock s) (s_no_seccomp s) (s_ask s) true
      (if (length (s_deny s) <? MAXBIND)%nat then s_deny s ++ [snprintf_s 256 a] else s_deny s)) c)
  | ONoLandlock => Go (set_sec (SecCfg true (s_no_seccomp s) (s_ask s) (s_secure s) (s_deny s)) c)
  | ONoSeccomp => Go (set_sec (SecCfg (s_no_landlock s) true (s_ask s) (s_secure s) (s_deny s)) c)
  | OHelp => Exit 0
  | OBad => Exit 2
  end.

Fixpoint main_opts (os : list opt) (c : cfg) : outcome :=
  match os with
  | [] => Go c
  | o :: os' => match main_opt o c with Go c => main_opts os' c | e => e end
  end.

(** Every path of a list resolved; [None]: one cannot be. *)
Fixpoint resolve_all (l : list bytes) : option (list bytes) :=
  match l with
  | [] => Some []
  | p :: l' => r ← realpath p; rs ← resolve_all l'; Some (r :: rs)
  end.

(** What follows the loop up to [mkdtemp]: [isdir] whether [--rootfs] is a
    directory, [home] the default workspace (created by [mmkdir_p]). *)
Definition main_checks (serve isdir : bool) (home : bytes) (argv : list bytes) (c : cfg) : outcome :=
  let s := c_sec c in let f := c_fs c in let p := c_pay c in
  if serve && s_ask s then Exit 2
  else
    let s := if s_ask s && s_no_seccomp s
             then SecCfg (s_no_landlock s) (s_no_seccomp s) false (s_secure s) (s_deny s) else s in
    if negb (bool_decide (f_rootfs f = [])) && negb isdir then Exit 2
    else
      let workdir := match f_workdir f with
                     | [] => realpath (snprintf_s PATH_MAX (home ++ B "/agent-work"))
                     | w => Some w
                     end in
      match workdir, resolve_all (f_ro f), resolve_all (f_rw f), resolve_all (f_ov f) with
      | Some w, Some ro, Some rw, Some ov =>
          Go (set_pay (PayCfg (p_sock p) (p_env p) (p_secrets p) argv)
               (set_sec s (set_fs (FsCfg w (f_rootfs f) ro rw ov (f_binds f) (f_wsize f)) c)))
      | _, _, _, _ => Exit 1
      end.
End Main.
