(* ===== verification/ConfigThms.v ===== *)
(** * The command line: theorems

    Path normalisation, sizes, environment files and secrets, and the invariant
    every option sequence keeps. *)

From S2P Require Import Prelude CString Client Config.
Local Open Scope Z_scope.

(** ** Tokens *)

Lemma tokens_acc_clean d cur s :
  d ∉ cur -> Forall (fun t => t <> [] /\ d ∉ t) (tokens_acc d cur s).
Proof.
  assert (forall cur, d ∉ cur -> cur <> [] -> rev cur <> [] /\ d ∉ rev cur) as Hrev.
  { intros l Hd Hn. split.
    - intros E. apply Hn. by rewrite <- (rev_involutive l), E.
    - intros Hin%list_elem_of_In%in_rev. by apply Hd, list_elem_of_In. }
  revert cur. induction s as [|c s IH]; intros cur Hd; cbn [tokens_acc].
  - destruct cur as [|x cur]; [constructor|]. constructor; [by apply Hrev|constructor].
  - destruct (decide (c = d)) as [->|Hc].
    + destruct cur as [|x cur]; [by apply IH|].
      constructor; [by apply Hrev|]. apply IH, not_elem_of_nil.
    + apply IH. apply not_elem_of_cons. done.
Qed.

Lemma strtok_clean d s : Forall (fun t => t <> [] /\ d ∉ t) (strtok d s).
Proof. apply tokens_acc_clean, not_elem_of_nil. Qed.

Lemma tokens_acc_word d cur t s :
  d ∉ t -> tokens_acc d cur (t ++ s) = tokens_acc d (rev t ++ cur) s.
Proof.
  revert cur. induction t as [|c t IH]; intros cur Hd; [done|].
  apply not_elem_of_cons in Hd as [Hc Hd]. cbn [app tokens_acc rev].
  rewrite decide_False by congruence. rewrite IH by done. by rewrite <- app_assoc.
Qed.

(** The tokens of joined words are the words. *)
Lemma strtok_words d ts :
  Forall (fun t => t <> [] /\ d ∉ t) ts -> strtok d (concat ((fun t => d :: t) <$> ts)) = ts.
Proof.
  assert (forall ts, Forall (fun t => t <> [] /\ d ∉ t) ts ->
    tokens_acc d [] (concat ((fun t => d :: t) <$> ts)) = ts /\
    forall cur, cur <> [] -> tokens_acc d cur (concat ((fun t => d :: t) <$> ts)) = rev cur :: ts)
    as H; [|by intros; apply H].
  clear ts. induction 1 as [|t ts [Hn Hd] Hts IH].
  - split; [done|]. intros cur Hc. cbn. by destruct cur.
  - cbn [fmap list_fmap concat]. change (list_fmap _ _ ?f ts) with (f <$> ts). destruct IH as [_ IH].
    assert (rev t <> []) as Hr by (intros E; apply Hn; by rewrite <- (rev_involutive t), E).
    assert (tokens_acc d [] (t ++ concat ((fun t => d :: t) <$> ts)) = t :: ts) as E.
    { rewrite tokens_acc_word by done. rewrite app_nil_r, IH by done. by rewrite rev_involutive. }
    split; [cbn [app tokens_acc]; rewrite decide_True by done; exact E|].
    intros cur Hc. cbn [app tokens_acc]. rewrite decide_True by done.
    destruct cur; [done|]. by rewrite E.
Qed.

(** ** Paths *)

(** A segment a normalised path may have. *)
Definition clean_seg (s : bytes) : Prop := (s <> [] /\ SLASH ∉ s) /\ s <> B "." /\ s <> B "..".

#[export] Instance clean_seg_dec s : Decision (clean_seg s).
Proof. unfold clean_seg. apply _. Defined.

(** The length of the path of some segments. *)
Definition weight (segs : list bytes) : nat :=
  length (concat ((fun s => SLASH :: s) <$> segs)).

Lemma weight_app l1 l2 : weight (l1 ++ l2) = (weight l1 + weight l2)%nat.
Proof. unfold weight. by rewrite fmap_app, concat_app, length_app. Qed.

Lemma weight_cons s l : weight (s :: l) = (S (length s) + weight l)%nat.
Proof. unfold weight. cbn [fmap list_fmap concat]. by rewrite length_app. Qed.

Lemma weight_take n l : (weight (take n l) <= weight l)%nat.
Proof. rewrite <- (take_drop n l) at 2. rewrite weight_app. lia. Qed.

Lemma weight_tokens d cur s :
  (weight (tokens_acc d cur s) <= length cur + length s + 1)%nat.
Proof.
  revert cur. induction s as [|c s IH]; intros cur; cbn [tokens_acc].
  - destruct cur as [|x cur]; [cbn; lia|]. rewrite weight_cons, length_rev. cbn; lia.
  - destruct (decide (c = d)).
    + specialize (IH []). destruct cur as [|x cur]; [cbn [length] in *; lia|].
      rewrite weight_cons, length_rev. cbn [length] in *. lia.
    + specialize (IH (c :: cur)). cbn [length] in *. lia.
Qed.

Lemma norm_segs_weight toks segs : (weight (norm_segs toks segs) <= weight toks + weight segs)%nat.
Proof.
  revert segs. induction toks as [|t toks IH]; intros segs; cbn [norm_segs]; [lia|].
  rewrite weight_cons. destruct (128 <=? length segs)%nat; [lia|].
  destruct (decide (t = B ".")); [specialize (IH segs); lia|].
  destruct (decide (t = B "..")).
  - specialize (IH (take (length segs - 1) segs)). pose proof (weight_take (length segs - 1) segs). lia.
  - specialize (IH (segs ++ [t])). rewrite weight_app, weight_cons in IH. unfold weight in *. cbn in *. lia.
Qed.

Lemma norm_segs_clean toks segs :
  Forall (fun t => t <> [] /\ SLASH ∉ t) toks -> Forall clean_seg segs -> (length segs <= 128)%nat ->
  Forall clean_seg (norm_segs toks segs) /\ (length (norm_segs toks segs) <= 128)%nat.
Proof.
  intros Ht. revert segs. induction Ht as [|t toks Ht Htoks IH]; intros segs Hs Hl; cbn [norm_segs];
    [done|].
  destruct (Nat.leb_spec 128 (length segs)); [done|].
  destruct (decide (t = B ".")); [by apply IH|].
  destruct (decide (t = B "..")).
  - apply IH; [by apply Forall_take|]. rewrite length_take. lia.
  - apply IH; [|rewrite length_app; cbn; lia]. apply Forall_app. split; [done|].
    constructor; [done|constructor].
Qed.

Lemma norm_segs_id toks segs :
  Forall clean_seg toks -> (length segs + length toks <= 128)%nat -> norm_segs toks segs = segs ++ toks.
Proof.
  intros Ht. revert segs. induction Ht as [|t toks (_ & Hd & Hdd) Ht IH]; intros segs Hl; cbn [norm_segs].
  - by rewrite app_nil_r.
  - cbn [length] in Hl. rewrite (proj2 (Nat.leb_gt _ _)) by lia. rewrite !decide_False by done.
    rewrite IH by (rewrite length_app; cbn; lia). by rewrite <- app_assoc.
Qed.

Lemma path_of_length segs : (length (path_of segs) <= Nat.max 1 (weight segs))%nat.
Proof. destruct segs as [|s segs]; [cbn; lia|]. fold (weight (s :: segs)). unfold weight, path_of. lia. Qed.

Lemma strtok_path_of segs :
  Forall clean_seg segs -> strtok SLASH (path_of segs) = segs.
Proof.
  intros Hs. destruct segs as [|s segs]; [done|]. unfold path_of. apply strtok_words.
  eapply Forall_impl; [exact Hs|]. by intros t [H _].
Qed.

(** [normalize_path] gives an absolute path without empty, "." or ".."
    segments; normalising it again changes nothing; and for an absolute path (as
    its only caller passes) the result is not longer than the input, so the copy
    back into the caller's buffer stays inside it. *)
Theorem normalize_path_clean p :
  starts_with (B "/") p = true ->
  let q := normalize_path p in
  starts_with (B "/") q = true /\ Forall clean_seg (strtok SLASH q) /\
  q = path_of (strtok SLASH q) /\ normalize_path q = q /\ (length q <= length p)%nat.
Proof.
  intros Hp q. subst q. unfold normalize_path at 1 2 3 4 6 7.
  destruct (norm_segs_clean (strtok SLASH p) [] (strtok_clean SLASH p) ltac:(constructor)
              ltac:(cbn; lia)) as [Hc Hl].
  set (segs := norm_segs (strtok SLASH p) []) in *. rewrite strtok_path_of by done.
  split_and!; [by destruct segs|done|done| |].
  - unfold normalize_path. rewrite strtok_path_of by done.
    rewrite norm_segs_id by (done || (cbn; lia)). done.
  - destruct p as [|c p]; [done|]. cbn in Hp. rewrite andb_true_r in Hp.
    apply bool_decide_eq_true in Hp. subst c.
    pose proof (norm_segs_weight (strtok SLASH (SLASH :: p)) []) as Hw.
    change (strtok SLASH (SLASH :: p)) with (tokens_acc SLASH [] p) in Hw.
    pose proof (weight_tokens SLASH [] p) as Ht. cbn [length] in *.
    change (norm_segs (tokens_acc SLASH [] p) []) with segs in Hw.
    change (weight []) with 0%nat in Hw. etrans; [exact (path_of_length segs)|]. lia.
Qed.

(** ** Sizes *)

(** The unit of a suffix. *)
Definition unit_of (c : ascii) : option Z :=
  if bool_decide (c = "G"%char \/ c = "g"%char) then Some 30
  else if bool_decide (c = "M"%char \/ c = "m"%char) then Some 20
  else if bool_decide (c = "K"%char \/ c = "k"%char) then Some 10 else None.

Lemma strtol_print n r :
  0 <= n < 2 ^ 63 -> stops isdigit r -> strtol (print_u n ++ r) = Some (n, r).
Proof.
  intros Hn Hr. unfold strtol. rewrite scan_int_print_u by (done || lia).
  unfold LONG_MAX, LONG_MIN. by rewrite Z.min_r, Z.max_r by lia.
Qed.

(** [parse_mem] reads back what [%ld] and a suffix write, exactly, as long as
    the value fits a [long]; without a suffix it is the number itself; it dies
    exactly when there is no number or the byte after it is no suffix. *)
Theorem parse_mem_exact n c r :
  0 <= n < 2 ^ 63 ->
  parse_mem (print_u n) = Some n /\
  (isdigit c = false ->
   match unit_of c with
   | Some k => n * 2 ^ k < 2 ^ 63 -> parse_mem (print_u n ++ c :: r) = Some (n * 2 ^ k)
   | None => parse_mem (print_u n ++ c :: r) = None
   end).
Proof.
  intros Hn. split.
  - pose proof (strtol_print n [] Hn I) as H. rewrite app_nil_r in H. unfold parse_mem. by rewrite H.
  - intros Hc. pose proof (strtol_print n (c :: r) Hn Hc) as H. unfold parse_mem. rewrite H.
    unfold unit_of. destruct (bool_decide (c = "G"%char \/ c = "g"%char)).
    { intros Hb. rewrite Z.shiftl_mul_pow2 by lia. by rewrite s64_small by lia. }
    destruct (bool_decide (c = "M"%char \/ c = "m"%char)).
    { intros Hb. rewrite Z.shiftl_mul_pow2 by lia. by rewrite s64_small by lia. }
    destruct (bool_decide (c = "K"%char \/ c = "k"%char)); [|done].
    intros Hb. rewrite Z.shiftl_mul_pow2 by lia. by rewrite s64_small by lia.
Qed.

(** ** Environment files *)






(** ** Every option sequence keeps the configuration well-formed *)

(** The destinations [--secret] allows. *)
Definition secret_dst (d : bytes) : Prop :=
  starts_with (B "/tmp/") d = true \/ starts_with (B "/run/") d = true \/
  starts_with (B "/var/tmp/") d = true.

Record cfg_wf (c : cfg) : Prop := {
  wf_ro : (length (f_ro (c_fs c)) <= MAXBIND)%nat;
  wf_rw : (length (f_rw (c_fs c)) <= MAXBIND)%nat;
  wf_ov : (length (f_ov (c_fs c)) <= MAXBIND)%nat;
  wf_binds : (length (f_binds (c_fs c)) <= MAXBIND)%nat;
  wf_dst : Forall (fun b => starts_with (B "/") (b_dst b) = true /\ (length (b_dst b) < PATH_MAX)%nat)
             (f_binds (c_fs c));
  wf_deny : (length (s_deny (c_sec c)) <= MAXBIND)%nat;
  wf_denies : Forall (fun d => (length d < 256)%nat) (s_deny (c_sec c));
  wf_secure : s_deny (c_sec c) <> [] -> s_secure (c_sec c) = true;
  wf_env : (length (p_env (c_pay c)) <= MAX_ENV)%nat;
  wf_kv : Forall (fun kv => "="%char ∈ kv) (p_env (c_pay c));
  wf_secrets : (length (p_secrets (c_pay c)) <= MAX_SECRET)%nat;
  wf_sdst : Forall (fun s => secret_dst s.1 /\ (length s.1 < PATH_MAX)%nat) (p_secrets (c_pay c));
  wf_net : cfg_ok (c_net c)
}.

Lemma cfg0_wf mem : cfg_wf (cfg0 mem).
Proof. split; cbn; try lia; try constructor; try done; apply cfg_ok0. Qed.

Lemma set_lim_wf l c : cfg_wf c -> cfg_wf (set_lim l c).
Proof. by intros []. Qed.

Lemma push_path_len a l : (length l <= MAXBIND)%nat -> (length (push_path a l) <= MAXBIND)%nat.
Proof.
  intros Hl. unfold push_path. destruct (Nat.ltb_spec (length l) MAXBIND); [|done].
  rewrite length_app. cbn. lia.
Qed.

Lemma env_add_ok kv env :
  (length env <= MAX_ENV)%nat -> Forall (fun kv => "="%char ∈ kv) env ->
  (length (env_add kv env) <= MAX_ENV)%nat /\ Forall (fun kv => "="%char ∈ kv) (env_add kv env).
Proof.
  intros Hl Hk. unfold env_add. destruct (_ || _) eqn:E; [done|].
  apply orb_false_iff in E as [E1%Nat.leb_gt E2%negb_false_iff%bool_decide_eq_true].
  split; [rewrite length_app; cbn; lia|]. apply Forall_app. split; [done|]. by repeat constructor.
Qed.

Lemma env_line_ok env line :
  (length env <= MAX_ENV)%nat -> Forall (fun kv => "="%char ∈ kv) env ->
  (length (env_line env line) <= MAX_ENV)%nat /\ Forall (fun kv => "="%char ∈ kv) (env_line env line).
Proof.
  intros Hl Hk. unfold env_line. destruct (env_trim line) as [|c l]; [done|].
  destruct (decide _); [done|by apply env_add_ok].
Qed.

Lemma env_file_ok file env env' :
  env_file_load file env = Some env' ->
  (length env <= MAX_ENV)%nat -> Forall (fun kv => "="%char ∈ kv) env ->
  (length env' <= MAX_ENV)%nat /\ Forall (fun kv => "="%char ∈ kv) env'.
Proof.
  destruct file as [buf|]; [|done]. intros [= <-]. generalize (strtok NL (cstr buf)). intros ls.
  revert env. induction ls as [|l ls IH]; intros env Hl Hk; [done|]. cbn [fold_left].
  destruct (env_line_ok env l Hl Hk). by apply IH.
Qed.

(** What [secret_add] does on every branch. *)
Lemma secret_add_spec slurp spec l :
  let '(r, l') := secret_add slurp spec l in
  r = -1 /\ l' = l \/
  r = 0 /\ (length l < MAX_SECRET)%nat /\ exists dst src data,
    spec = dst ++ "="%char :: src /\ ("="%char ∉ dst) /\ dst <> [] /\ secret_dst dst /\
    (length dst < PATH_MAX)%nat /\ slurp src = Some data /\ l' = l ++ [(dst, data)].
Proof.
  unfold secret_add. destruct (Nat.leb_spec MAX_SECRET (length l)); [by left|].
  destruct (strchr "="%char spec) as [[|n]|] eqn:E; [by left| |by left].
  apply strchr_Some in E as (E & Hn & Hd).
  destruct (Nat.leb_spec PATH_MAX (S n)); [by left|]. cbv zeta. set (dst := take (S n) spec) in *.
  destruct (negb _ && negb _ && negb _) eqn:Et; [by left|].
  destruct (slurp (drop (S (S n)) spec)) as [data|] eqn:Es; [|by left]. right.
  assert (length dst = S n) as Hlen by (unfold dst; rewrite length_take; lia).
  split_and!; [done|done|]. exists dst, (drop (S (S n)) spec), data.
  split_and!; try done; [by intros Ez; rewrite Ez in Hlen| |lia|].
  - unfold secret_dst. destruct (starts_with (B "/tmp/") dst); [by left|].
    destruct (starts_with (B "/run/") dst); [by right; left|].
    destruct (starts_with (B "/var/tmp/") dst); [by right; right|]. done.
  - by rewrite snprintf_s_short by lia.
Qed.

Lemma cut_slashes_ok d :
  starts_with (B "/") d = true ->
  starts_with (B "/") (cut_slashes d) = true /\ (length (cut_slashes d) <= length d)%nat.
Proof.
  intros Hd. destruct d as [|c d]; [done|]. cbn in *. split; [done|].
  rewrite length_rev.
  pose proof (skip_while_length (fun x => bool_decide (x = SLASH)) (rev d)) as H.
  rewrite length_rev in H. lia.
Qed.

Lemma bind_opt_wf realpath ro a c c' :
  cfg_wf c -> bind_opt realpath ro a c = Go c' -> cfg_wf c' /\ c_net c' = c_net c.
Proof.
  intros Hw. unfold bind_opt. destruct (Nat.leb_spec MAXBIND (length (f_binds (c_fs c))));
    [by intros [= <-]|].
  destruct (strchr COLON a) as [[|i]|]; [done| |done].
  destruct (drop _ a) as [|x d]; [done|]. destruct (decide (x = SLASH)) as [->|]; [|done].
  unfold die_none. destruct (realpath _) as [src|]; [|done]. intros [= <-]. split; [|done].
  destruct (cut_slashes_ok (snprintf_s PATH_MAX (SLASH :: d))) as [Hs Hl]; [done|].
  assert (0 < PATH_MAX)%nat as Hpm by (unfold PATH_MAX; lia).
  pose proof (snprintf_s_length PATH_MAX (SLASH :: d) Hpm).
  destruct Hw. split; cbn [set_fs c_fs c_sec c_pay c_net f_ro f_rw f_ov f_binds]; auto.
  - rewrite length_app. cbn. lia.
  - apply Forall_app. split; [done|]. constructor; [|constructor]. cbn [b_dst]. split; [done|]. eapply Nat.le_lt_trans; [exact Hl|done].
Qed.

Section Options.
Context (slurp realpath : bytes -> option bytes) (cpu_quota : bytes -> option Z) (getcwd : option bytes).
Abbreviation main_opt := (main_opt slurp realpath cpu_quota getcwd).
Abbreviation main_opts := (main_opts slurp realpath cpu_quota getcwd).

Lemma die_none_Go {A} (x : option A) f c : die_none x f = Go c -> exists v, x = Some v /\ c = f v.
Proof. destruct x as [v|]; [intros [= <-]; eauto|done]. Qed.

Lemma set_pay_env_wf env c :
  cfg_wf c -> (length env <= MAX_ENV)%nat -> Forall (fun kv => "="%char ∈ kv) env ->
  cfg_wf (set_pay (PayCfg (p_sock (c_pay c)) env (p_secrets (c_pay c)) (p_argv (c_pay c))) c).
Proof. intros []. split; auto. Qed.

Lemma main_opt_wf o c c' : cfg_wf c -> main_opt o c = Go c' -> cfg_wf c'.
Proof.
  intros Hw. destruct o; cbn [Config.main_opt]; cbv zeta;
    try discriminate;
    try (by intros [= <-]; apply set_lim_wf);
    try (by intros (v & _ & ->)%die_none_Go; apply set_lim_wf).
  - repeat destruct (decide _); try discriminate; intros [= <-]; destruct Hw; split; auto;
      match goal with H : cfg_ok _ |- _ => destruct H; split; auto end.
  - intros (v & _ & ->)%die_none_Go. by destruct Hw.
  - destruct (starts_with _ _); [intros [= <-]; by destruct Hw|].
    destruct getcwd; [|discriminate]. intros [= <-]. by destruct Hw.
  - intros (v & _ & ->)%die_none_Go. by destruct Hw.
  - intros [= <-]. destruct Hw. split; auto. by apply push_path_len.
  - intros [= <-]. destruct Hw. split; auto. by apply push_path_len.
  - intros [= <-]. destruct Hw. split; auto. by apply push_path_len.
  - intros H. by eapply bind_opt_wf.
  - pose proof (egress_add_ok a (c_net c) (wf_net c Hw)) as Hok.
    destruct (egress_add a (c_net c)) as [r n]. destruct (r =? 0); [|discriminate].
    intros [= <-]. destruct Hw. by split.
  - intros [= <-]. destruct (env_add_ok a (p_env (c_pay c)) (wf_env c Hw) (wf_kv c Hw)).
    by apply set_pay_env_wf.
  - intros (env & E & ->)%die_none_Go.
    destruct (env_file_ok _ _ _ E (wf_env c Hw) (wf_kv c Hw)). by apply set_pay_env_wf.
  - pose proof (secret_add_spec slurp a (p_secrets (c_pay c))) as Hs.
    destruct (secret_add slurp a (p_secrets (c_pay c))) as [r l].
    destruct Hs as [[-> ->]|(-> & Hl & dst & src & data & _ & _ & _ & Hd & Hdl & _ & ->)]; [discriminate|].
    intros [= <-]. destruct Hw. split; auto; cbn [set_pay c_pay p_secrets].
    + rewrite length_app. cbn. lia.
    + apply Forall_app. split; [done|]. constructor; [done|constructor].
  - intros (v & _ & ->)%die_none_Go. by destruct Hw.
  - intros [= <-]. by destruct Hw.
  - intros [= <-]. destruct Hw. split; auto.
  - intros [= <-]. destruct Hw. destruct (Nat.ltb_spec (length (s_deny (c_sec c))) MAXBIND);
      split; auto; cbn [set_sec c_sec s_deny].
    + rewrite length_app. cbn. lia.
    + apply Forall_app. split; [done|]. constructor; [|constructor]. apply snprintf_s_length. lia.
  - intros [= <-]. by destruct Hw.
  - intros [= <-]. by destruct Hw.
Qed.

Lemma main_opts_wf os c c' : cfg_wf c -> main_opts os c = Go c' -> cfg_wf c'.
Proof.
  revert c. induction os as [|o os IH]; intros c Hw; cbn [Config.main_opts]; [by intros [= <-]|].
  destruct (main_opt o c) as [c1|] eqn:E; [|done]. apply IH. by eapply main_opt_wf.
Qed.

(** [--egress] puts the cell on a filtered network, and only [--net host] takes
    it off. *)
Definition filtered (c : cfg) : Prop := C_egress (c_net c) <> [] -> C_netmode (c_net c) = NET_VETH.

Lemma egress_add_mode a n r n' :
  egress_add a n = (r, n') ->
  (C_egress n <> [] -> C_netmode n = NET_VETH) -> C_egress n' <> [] -> C_netmode n' = NET_VETH.
Proof.
  unfold egress_add. intros E Hn. repeat case_in E; simplify_eq; auto.
Qed.

Lemma main_opt_filtered o c c' :
  o <> ONet (B "host") -> filtered c -> main_opt o c = Go c' -> filtered c'.
Proof.
  intros Ho Hf. destruct o; cbn [Config.main_opt]; cbv zeta; try discriminate;
    try (by intros [= <-]); try (by intros (v & _ & ->)%die_none_Go).
  - destruct (decide (a = B "host")) as [->|]; [done|]. destruct (decide (a = B "veth")).
    + intros [= <-] _. done.
    + destruct (decide (a = B "none")); [by intros [= <-]|discriminate].
  - destruct (starts_with _ _); [by intros [= <-]|]. destruct getcwd; [by intros [= <-]|discriminate].
  - unfold bind_opt. repeat case_on_match; try discriminate; try (by intros [= <-]).
    by intros (v & _ & ->)%die_none_Go.
  - destruct (egress_add a (c_net c)) as [r n] eqn:E. destruct (r =? 0); [|discriminate].
    intros [= <-]. unfold filtered. cbn. by eapply egress_add_mode.
  - destruct (secret_add slurp a _) as [r l]. destruct (r =? 0); [by intros [= <-]|discriminate].
Qed.
End Options.

(** C22. Whatever options are given, when the loop of [main] goes on, the
    configuration is well-formed: every array within its bound, every bind
    destination absolute and terminated, every environment entry an assignment,
    every secret destination a text that begins with "/tmp/", "/run/" or
    "/var/tmp/" (which ".." can still leave: [secret_add_traversal]), the allowlist
    as the daemon's client needs it; and unless [--net host] was given, a cell with
    an allowlist is on the filtered network. *)
Theorem main_options_well_formed slurp realpath cpu_quota getcwd mem os c :
  main_opts slurp realpath cpu_quota getcwd os (cfg0 mem) = Go c ->
  cfg_wf c /\ (ONet (B "host") ∉ os -> C_egress (c_net c) <> [] -> C_netmode (c_net c) = NET_VETH).
Proof.
  intros E. split; [eapply main_opts_wf; [apply cfg0_wf|exact E]|].
  intros Hn. assert (filtered (cfg0 mem)) as Hf by (by intros []). revert Hf E. generalize (cfg0 mem).
  induction os as [|o os IH]; intros c0 Hf; cbn [main_opts]; [by intros [= <-]|].
  apply not_elem_of_cons in Hn as [Ho Hn].
  destruct (main_opt slurp realpath cpu_quota getcwd o c0) as [c1|] eqn:E1; [|done].
  apply IH; [done|]. eapply main_opt_filtered; [|exact Hf|exact E1]. congruence.
Qed.

(** Without ".." the segments only grow. *)
Lemma norm_segs_grow toks segs :
  B ".." ∉ toks -> exists r, norm_segs toks segs = segs ++ r.
Proof.
  revert segs. induction toks as [|t toks IH]; intros segs Hd; cbn [norm_segs].
  - exists []. by rewrite app_nil_r.
  - apply not_elem_of_cons in Hd as [Ht Hd].
    destruct (128 <=? length segs)%nat; [exists []; by rewrite app_nil_r|].
    destruct (decide (t = B ".")); [by apply IH|]. rewrite decide_False by congruence.
    destruct (IH (segs ++ [t]) Hd) as [r ->]. exists (t :: r). by rewrite <- app_assoc.
Qed.

Lemma tokens_words d ts s :
  Forall (fun t => t <> [] /\ d ∉ t) ts ->
  tokens_acc d [] (concat ((fun t => d :: t) <$> ts) ++ d :: s) = ts ++ tokens_acc d [] s /\
  forall cur, cur <> [] ->
    tokens_acc d cur (concat ((fun t => d :: t) <$> ts) ++ d :: s) = rev cur :: ts ++ tokens_acc d [] s.
Proof.
  induction 1 as [|t ts [Hn Hd] Hts [_ IH]].
  - cbn [fmap list_fmap concat app]. split; [cbn [tokens_acc]; by rewrite decide_True|].
    intros cur Hc. cbn [tokens_acc]. rewrite decide_True by done. by destruct cur.
  - cbn [fmap list_fmap concat]. change (list_fmap _ _ ?f ts) with (f <$> ts).
    rewrite <- app_assoc. cbn [app].
    assert (rev t <> []) as Hr by (intros E; apply Hn; by rewrite <- (rev_involutive t), E).
    assert (tokens_acc d [] (t ++ concat ((fun t => d :: t) <$> ts) ++ d :: s) =
            t :: ts ++ tokens_acc d [] s) as E.
    { rewrite tokens_acc_word by done. rewrite app_nil_r, IH by done. by rewrite rev_involutive. }
    split; [cbn [tokens_acc]; rewrite decide_True by done; exact E|].
    intros cur Hc. cbn [tokens_acc]. rewrite decide_True by done. destruct cur; [done|]. by rewrite E.
Qed.

Lemma norm_segs_clean_app top toks segs :
  Forall clean_seg top -> (length segs + length top <= 128)%nat ->
  norm_segs (top ++ toks) segs = norm_segs toks (segs ++ top).
Proof.
  intros Ht. revert segs. induction Ht as [|t top (_ & Hd & Hdd) Ht IH]; intros segs Hl; cbn [app norm_segs].
  - by rewrite app_nil_r.
  - cbn [length] in Hl. rewrite (proj2 (Nat.leb_gt _ _)) by lia. rewrite !decide_False by done.
    rewrite IH by (rewrite length_app; cbn; lia). by rewrite <- app_assoc.
Qed.

Lemma norm_below top rest :
  Forall clean_seg top -> (0 < length top <= 128)%nat ->
  let p := concat ((fun s => SLASH :: s) <$> top) ++ SLASH :: rest in
  B ".." ∉ strtok SLASH p ->
  exists r, normalize_path p = concat ((fun s => SLASH :: s) <$> top) ++ r.
Proof.
  intros Ht Hl p Hd. unfold normalize_path.
  assert (strtok SLASH p = top ++ strtok SLASH rest) as E.
  { apply tokens_words. eapply Forall_impl; [exact Ht|]. by intros t [H _]. }
  rewrite E in Hd |- *. rewrite norm_segs_clean_app by (done || (cbn; lia)).
  destruct (norm_segs_grow (strtok SLASH rest) ([] ++ top)) as [r Hr].
  { intros Hin. apply Hd, elem_of_app. by right. }
  rewrite Hr. cbn [app]. exists (concat ((fun s => SLASH :: s) <$> r)). unfold path_of.
  destruct top as [|t top]; [cbn in Hl; lia|]. cbn [app].
  by rewrite app_comm_cons, fmap_app, concat_app.
Qed.

(** A secret whose destination has no ".." segment is written below one of the
    in-memory directories, and holds exactly the file's bytes. *)
Theorem secret_add_confined slurp spec l :
  let '(r, l') := secret_add slurp spec l in
  r = -1 /\ l' = l \/
  r = 0 /\ exists dst src data, spec = dst ++ "="%char :: src /\ slurp src = Some data /\
    l' = l ++ [(dst, data)] /\
    (B ".." ∉ strtok SLASH dst ->
     (exists rest, normalize_path dst = B "/tmp" ++ rest) \/
     (exists rest, normalize_path dst = B "/run" ++ rest) \/
     (exists rest, normalize_path dst = B "/var/tmp" ++ rest)).
Proof.
  pose proof (secret_add_spec slurp spec l) as Hs. destruct (secret_add slurp spec l) as [r l'].
  destruct Hs as [?|(-> & _ & dst & src & data & -> & _ & _ & Hd & _ & Es & ->)]; [by left|].
  right. split; [done|]. exists dst, src, data. split_and!; [done|done|done|]. intros Hdd.
  destruct Hd as [H|[H|H]]; [left|right; left|right; right];
    apply starts_with_spec in H as [rest ->].
  - exact (norm_below [B "tmp"] rest ltac:(by apply (bool_decide_unpack _)) ltac:(cbn; lia) Hdd).
  - exact (norm_below [B "run"] rest ltac:(by apply (bool_decide_unpack _)) ltac:(cbn; lia) Hdd).
  - exact (norm_below [B "var"; B "tmp"] rest ltac:(by apply (bool_decide_unpack _)) ltac:(cbn; lia) Hdd).
Qed.

(** ** Behaviours the comments do not promise *)

Definition no_file (_ : bytes) : option bytes := None.
Definition any_file (_ : bytes) : option bytes := Some (B "token").
Definition same_path (p : bytes) : option bytes := Some p.
Definition no_quota (_ : bytes) : option Z := None.

(** The test of a secret's destination is textual: ".." takes it out of the
    in-memory directories, here into the workspace, which is a bind of a host
    directory. *)
Theorem secret_add_traversal :
  secret_add any_file (B "/tmp/../home/agent/key=/k") [] =
    (0, [(B "/tmp/../home/agent/key", B "token")]) /\
  normalize_path (B "/tmp/../home/agent/key") = B "/home/agent/key".
Proof. by vm_compute. Qed.

(** [--net host] after [--egress] drops the filter but keeps the list: the
    options are accepted and the cell shares the host's network; and [--net none]
    after [--net host] does not take it back. *)
Theorem net_host_drops_egress :
  (exists c, main_opts no_file same_path no_quota None
     [OEgress (B "example.com"); ONet (B "host")] (cfg0 0) = Go c /\
     C_egress (c_net c) = [(B "example.com", B "443")] /\ C_netmode (c_net c) = NET_HOST) /\
  (exists c, main_opts no_file same_path no_quota None
     [ONet (B "host"); ONet (B "none")] (cfg0 0) = Go c /\ C_netmode (c_net c) = NET_HOST).
Proof. split; eexists; (split; [by vm_compute|]); by vm_compute. Qed.

(** [parse_mem] does not notice overflow: 2^33 gigabytes is a negative limit,
    2^34 is no limit at all; and anything may follow the suffix. *)
Theorem parse_mem_overflows :
  parse_mem (B "8589934592G") = Some (- 2 ^ 63) /\ parse_mem (B "17179869184G") = Some 0 /\
  parse_mem (B "1Kelvin") = Some 1024.
Proof. by vm_compute. Qed.

(** ** Witnesses *)

Lemma normalize_path_clean_witness :
  normalize_path (B "/etc/../run/./systemd/resolve/stub-resolv.conf") =
    B "/run/systemd/resolve/stub-resolv.conf" /\
  (length (normalize_path (B "/etc/../run/./systemd/resolve/stub-resolv.conf")) <=
   length (B "/etc/../run/./systemd/resolve/stub-resolv.conf"))%nat.
Proof.
  split; [by vm_compute|].
  exact (proj2 (proj2 (proj2 (proj2
    (normalize_path_clean (B "/etc/../run/./systemd/resolve/stub-resolv.conf") eq_refl))))).
Defined.

Lemma parse_mem_exact_witness : parse_mem (B "512M") = Some (512 * 2 ^ 20).
Proof.
  exact (proj2 (parse_mem_exact 512 "M"%char [] ltac:(lia)) eq_refl ltac:(lia)).
Defined.


Definition wit_opts : list opt :=
  [OEgress (B "example.com:8443"); OBind true (B "/data:/srv//"); OSecret (B "/run/key=/k");
   ODeny (B "/etc/ssl"); OMem (B "1G")].
Definition wit_cfg : cfg :=
  match main_opts any_file same_path no_quota None wit_opts (cfg0 0) with Go c => c | _ => cfg0 0 end.

Lemma main_options_well_formed_witness :
  cfg_wf wit_cfg /\ C_netmode (c_net wit_cfg) = NET_VETH /\
  f_binds (c_fs wit_cfg) = [BindSpec (B "/data") (B "/srv") true].
Proof.
  destruct (main_options_well_formed any_file same_path no_quota None 0 wit_opts wit_cfg)
    as [H1 H2]; [by vm_compute|].
  split_and!; [exact H1| |by vm_compute]. apply H2; [|by vm_compute].
  unfold wit_opts. rewrite !not_elem_of_cons. split_and!; try discriminate. apply not_elem_of_nil.
Defined.
