(* ===== verification/Mounts.v ===== *)
(** * The file system of a cell

    [sand.c]: [bind_mount], [tmpfs_mount], [os_src], [mirror_top], [bind_os_ro]
    and [do_mounts] as the script of system calls they make; what a path shows
    after a script has run; [ll_allow] and [landlock_apply] as the rules they
    install, with the documented meaning of a Landlock rule set. *)

From S2P Require Import Prelude CString Client Config.
Local Open Scope Z_scope.

(** ** The script *)

Inductive mop :=
  | MPrivate
  | MMkdir (p : bytes) (mode : Z)
  | MMkdirP (p : bytes) (mode : Z)
  | MBind (src dst : bytes) (recursive : bool)
  | MRemountRo (dst : bytes) (recursive : bool)
  | MTmpfs (dst opts : bytes)
  | MOverlay (dst opts : bytes)
  | MFs (fs dst : bytes)
  | MSymlink (tgt p : bytes)
  | MSecret (p data : bytes)
  | MTouch (p : bytes)
  | MOldRoot (p : bytes).                   (* left by pivot_root *)
#[export] Instance mop_eq_dec : EqDecision mop.
Proof. solve_decision. Defined.

(** A step, and whether its failure is fatal ([die]) or a warning. *)
Definition step : Type := mop * bool.

Definition bind_mount (src dst : bytes) (ro recursive : bool) : list step :=
  (MBind src dst recursive, true) :: (if ro then [(MRemountRo dst recursive, false)] else []).
Definition tmpfs_mount (dst opts : bytes) : list step := [(MTmpfs dst opts, true)].

(** What the host's file system answers: [lstat] and [readlink] ([Some (Some t)]:
    a link to [t], empty when it cannot be read), whether systemd's upstream
    list exists, and where [/etc/resolv.conf] points. *)
Record hostfs := HostFs {
  h_lstat : bytes -> option (option bytes);
  h_upstream : bool;
  h_resolv : option bytes
}.

Section Mounts.
Context (newroot : bytes) (c : cfg) (h : hostfs).

(** The macro [NR]. *)
Definition NR (path : bytes) : bytes := snprintf_s PATH_MAX (newroot ++ path).

Definition os_src (path : bytes) : bytes :=
  snprintf_s PATH_MAX (match f_rootfs (c_fs c) with [] => path | r => r ++ path end).

Definition mirror_top (path : bytes) : list step :=
  match h_lstat h (os_src path) with
  | None => []
  | Some (Some tgt) =>
      match snprintf_s PATH_MAX tgt with [] => [] | t => [(MSymlink t (NR path), true)] end
  | Some None => (MMkdir (NR path) 493, true) :: bind_mount (os_src path) (NR path) true true
  end.

(** [None]: [die]. *)
Definition bind_os_ro (path : bytes) (required : bool) : option (list step) :=
  match h_lstat h (os_src path) with
  | None => if required then None else Some []
  | Some _ => Some ((MMkdir (NR path) 493, true) :: bind_mount (os_src path) (NR path) true true)
  end.

Definition mnt_dst (path : bytes) : bytes :=
  snprintf_s PATH_MAX (newroot ++ B "/mnt/" ++ basename_of path).

(** [--ro] and [--rw]. *)
Definition mnt_bind (ro : bool) (path : bytes) : list step :=
  (MMkdirP (mnt_dst path) 493, true) :: bind_mount path (mnt_dst path) ro true.

(** [--bind] and [--bind-ro]. *)
Definition custom_bind (b : bindspec) : list step :=
  let dst := snprintf_s PATH_MAX (newroot ++ b_dst b) in
  (MMkdirP dst 493, true) :: bind_mount (b_src b) dst (b_ro b) true.

(** [--overlay], number [i]. *)
Definition overlay_mount (i : nat) (path : bytes) : list step :=
  let dir s := snprintf_s PATH_MAX (newroot ++ B "/tmp/.ovl/" ++ print_u (Z.of_nat i) ++ s) in
  [(MMkdirP (mnt_dst path) 493, true); (MMkdirP (dir (B ".up")) 448, true);
   (MMkdirP (dir (B ".wk")) 448, true);
   (MOverlay (mnt_dst path) (snprintf_s (PATH_MAX * 3)
      (B "lowerdir=" ++ path ++ B ",upperdir=" ++ dir (B ".up") ++ B ",workdir=" ++ dir (B ".wk"))), true)].

(** The directory part of a path, if it has a slash. *)
Definition dir_of (p : bytes) : option bytes :=
  match strrchr SLASH p with Some i => Some (take i p) | None => None end.

Definition secret_write (s : bytes * bytes) : list step :=
  let full := snprintf_s PATH_MAX (newroot ++ s.1) in
  match dir_of full with Some d => [(MMkdirP d 448, true)] | None => [] end ++
  [(MSecret full s.2, false)].

Definition UPSTREAM : bytes := B "/run/systemd/resolve/resolv.conf".

(** Where the cell's [resolv.conf] really is. *)
Definition resolv_target : bytes :=
  match h_resolv h with
  | Some (x :: t) =>
      let tgt := snprintf_s PATH_MAX (x :: t) in
      normalize_path (if decide (x = SLASH) then tgt else snprintf_s PATH_MAX (B "/etc/" ++ tgt))
  | _ => B "/etc/resolv.conf"
  end.

Definition resolv_mount : list step :=
  let dst := snprintf_s PATH_MAX (newroot ++ resolv_target) in
  (MMkdirP (default dst (dir_of dst)) 493, true) :: (MTouch dst, false) ::
  bind_mount UPSTREAM dst false false.

Definition dev_node (d : bytes) : list step :=
  let dst := snprintf_s PATH_MAX (newroot ++ B "/dev/" ++ d) in
  [(MTouch dst, false); (MBind (B "/dev/" ++ d) dst false, true)].

Definition dev_link (name tgt : string) : step := (MSymlink (B tgt) (NR (B name)), true).

Definition workspace : list step :=
  let dst := NR (B "/home/agent") in
  (MMkdirP dst 493, true) ::
  (if 0 <? f_wsize (c_fs c)
   then tmpfs_mount dst (snprintf_s 64 (B "size=" ++ print_d (f_wsize (c_fs c)) ++ B ",mode=0755"))
   else bind_mount (f_workdir (c_fs c)) dst false false).

(** The part before the secrets, after the OS view. *)
Definition user_mounts : list step :=
  workspace ++
  (MMkdir (NR (B "/mnt")) 493, true) ::
  concat (mnt_bind true <$> f_ro (c_fs c)) ++
  concat (mnt_bind false <$> f_rw (c_fs c)) ++
  concat (custom_bind <$> f_binds (c_fs c)).

Definition scratch_mounts : list step :=
  (MMkdir (NR (B "/tmp")) 1023, true) :: tmpfs_mount (NR (B "/tmp")) (B "size=1g,mode=1777") ++
  concat (imap overlay_mount (f_ov (c_fs c))) ++
  (MMkdirP (NR (B "/var/tmp")) 1023, true) ::
  tmpfs_mount (NR (B "/var/tmp")) (B "size=128m,mode=1777") ++
  (MMkdir (NR (B "/run")) 493, true) :: tmpfs_mount (NR (B "/run")) (B "size=64m,mode=755").

Definition net_mounts : list step :=
  match C_netmode (c_net c) with
  | NET_HOST => [(MMkdir (NR (B "/run/systemd")) 493, true);
                 (MBind (B "/run/systemd") (NR (B "/run/systemd")) true, false)]
  | NET_VETH => if h_upstream h then resolv_mount else []
  | NET_NONE => []
  end.

Definition kernel_mounts : list step :=
  let sys := NR (B "/sys") in
  [(MMkdir (NR (B "/proc")) 365, true); (MFs (B "proc") (NR (B "/proc")), false);
   (MMkdir sys 365, true); (MFs (B "sysfs") sys, false);
   (MMkdirP (snprintf_s PATH_MAX (sys ++ B "/fs/cgroup")) 365, true);
   (MFs (B "cgroup2") (snprintf_s PATH_MAX (sys ++ B "/fs/cgroup")), false)].

Definition dev_mounts : list step :=
  (MMkdir (NR (B "/dev")) 493, true) :: tmpfs_mount (NR (B "/dev")) (B "size=1m,mode=755") ++
  concat (dev_node <$> [B "null"; B "zero"; B "full"; B "random"; B "urandom"]) ++
  [dev_link "/dev/fd" "/proc/self/fd"; dev_link "/dev/stdin" "/proc/self/fd/0";
   dev_link "/dev/stdout" "/proc/self/fd/1"; dev_link "/dev/stderr" "/proc/self/fd/2"].

(** [None]: [die] because a part of the OS view is missing. *)
Definition do_mounts : option (list step) :=
  usr ← bind_os_ro (B "/usr") true;
  etc ← bind_os_ro (B "/etc") true;
  opt ← bind_os_ro (B "/opt") false;
  Some ([(MPrivate, true); (MTmpfs newroot (B "size=16m,mode=0755"), true)] ++
        usr ++ etc ++ opt ++
        mirror_top (B "/bin") ++ mirror_top (B "/sbin") ++ mirror_top (B "/lib") ++
        mirror_top (B "/lib64") ++
        user_mounts ++ scratch_mounts ++
        concat (secret_write <$> p_secrets (c_pay c)) ++
        net_mounts ++ kernel_mounts ++ dev_mounts ++
        [(MMkdir (NR (B "/.put_old")) 493, true)]).

(** Running a script: what was done, [None] when it died. *)
Fixpoint run_steps (ok : mop -> bool) (l : list step) (acc : list mop) : option (list mop) :=
  match l with
  | [] => Some acc
  | (o, fatal) :: l' =>
      if ok o then run_steps ok l' (acc ++ [o])
      else if fatal : bool then None else run_steps ok l' acc
  end.
End Mounts.

(** ** What a path shows *)

(** [d] is [p] or an ancestor of it, by segments.  Paths are texts here: no
    symbolic link is followed and a ".." is a name like another. *)
Definition covers (d p : bytes) : bool :=
  bool_decide (strtok SLASH d `prefix_of` strtok SLASH p).

(** What is mounted somewhere: a directory of the host, a file system mounted on
    the host [suf] below a directory that was bound recursively, the host's
    root with all that is below it. *)
Inductive mnt :=
  | TmpFs | HostBind (src : bytes) (ro : bool) | HostSub (src suf : bytes) (ro : bool) | HostRoot
  | Ovl (opts : bytes) | KernFs (fs : bytes).

Definition mnt_of (o : mop) : option (bytes * mnt) :=
  match o with
  | MBind src dst _ => Some (dst, HostBind src false)
  | MTmpfs dst _ => Some (dst, TmpFs)
  | MOverlay dst opts => Some (dst, Ovl opts)
  | MFs fs dst => Some (dst, KernFs fs)
  | MOldRoot dst => Some (dst, HostRoot)
  | _ => None
  end.

Definition set_ro (m : mnt) : mnt := match m with HostBind s _ => HostBind s true | _ => m end.

(** A read-only remount changes the topmost mount at its place and no other:
    [MS_REC] has no effect on a remount. *)
Fixpoint remount (dst : bytes) (t : list (bytes * mnt)) : list (bytes * mnt) :=
  match t with
  | [] => []
  | (d, m) :: t' => if covers d dst then (if covers dst d then (d, set_ro m) else (d, m)) :: t'
                    else (d, m) :: remount dst t'
  end.

Section Table.
(** The file systems mounted below a directory of the host: where (a path that
    begins with a slash), and whether read-only. *)
Context (sub : bytes -> list (bytes * bool)).

(** What a recursive bind brings along. *)
Definition submounts (o : mop) : list (bytes * mnt) :=
  match o with
  | MBind src dst true => (fun s => (dst ++ s.1, HostSub src s.1 s.2)) <$> sub src
  | _ => []
  end.

(** The mount table, the last mount first. *)
Definition mount_op (t : list (bytes * mnt)) (o : mop) : list (bytes * mnt) :=
  match o with
  | MRemountRo dst _ => remount dst t
  | _ => submounts o ++ match mnt_of o with Some e => e :: t | None => t end
  end.
Definition mount_table (ops : list mop) : list (bytes * mnt) := fold_left mount_op ops [].
End Table.

(** The file system a path is on: the latest mount on it or above it. *)
Fixpoint shows (t : list (bytes * mnt)) (p : bytes) : option mnt :=
  match t with
  | [] => None
  | (d, m) :: t' => if covers d p then Some m else shows t' p
  end.

(** ** Landlock *)

Definition bits (l : list Z) : Z := fold_left (fun m b => Z.lor m (Z.shiftl 1 b)) l 0.

(** The access rights of [linux/landlock.h], by bit number. *)
Definition LL_EXECUTE : Z := 0.
Definition LL_WRITE_FILE : Z := 1.
Definition LL_READ_FILE : Z := 2.
Definition LL_READ_DIR : Z := 3.
Definition LL_REMOVE_DIR : Z := 4.
Definition LL_REMOVE_FILE : Z := 5.
Definition LL_MAKE_CHAR : Z := 6.
Definition LL_MAKE_DIR : Z := 7.
Definition LL_MAKE_REG : Z := 8.
Definition LL_MAKE_SOCK : Z := 9.
Definition LL_MAKE_FIFO : Z := 10.
Definition LL_MAKE_BLOCK : Z := 11.
Definition LL_MAKE_SYM : Z := 12.

(** The rights the source defines itself when the header does not: the bits of
    the header, and those of the [#define]s. *)
Record llhdr := LlHdr { LL_REFER : Z; LL_TRUNCATE : Z; LL_IOCTL_DEV : Z }.
Definition linux_hdr : llhdr := LlHdr 13 14 15.
Definition fallback_hdr : llhdr := LlHdr 11 14 16.

Section Landlock.
Context (hdr : llhdr).

Definition ll_ro : Z := bits [LL_EXECUTE; LL_READ_FILE; LL_READ_DIR].
Definition ll_rw : Z :=
  Z.lor ll_ro (bits [LL_WRITE_FILE; LL_REMOVE_DIR; LL_REMOVE_FILE; LL_MAKE_CHAR; LL_MAKE_DIR;
                     LL_MAKE_REG; LL_MAKE_SOCK; LL_MAKE_FIFO; LL_MAKE_SYM; LL_MAKE_BLOCK]).

(** [rw] (and [handled], which is the same) for an ABI version. *)
Definition ll_full (abi : Z) : Z :=
  let m := ll_rw in
  let m := if 2 <=? abi then Z.lor m (bits [LL_REFER hdr]) else m in
  let m := if 3 <=? abi then Z.lor m (bits [LL_TRUNCATE hdr]) else m in
  if 5 <=? abi then Z.lor m (bits [LL_IOCTL_DEV hdr]) else m.

(** The reduced set when no size of the attribute was accepted. *)
Definition ll_small : Z :=
  bits [LL_EXECUTE; LL_READ_FILE; LL_READ_DIR; LL_WRITE_FILE; LL_REMOVE_DIR; LL_REMOVE_FILE;
        LL_MAKE_REG; LL_MAKE_DIR].

(** The rules asked for, in order. *)
Definition ll_asked (rw : Z) (c : cfg) : list (bytes * Z) :=
  let mnt p := snprintf_s PATH_MAX (B "/mnt/" ++ basename_of p) in
  ((fun p => (B p, ll_ro)) <$> ["/"; "/usr"; "/etc"; "/opt"; "/proc"; "/sys"]%string) ++
  ((fun p => (B p, rw)) <$> ["/tmp"; "/var/tmp"; "/run"; "/dev"; "/home/agent"]%string) ++
  ((fun p => (mnt p, ll_ro)) <$> f_ro (c_fs c)) ++
  ((fun p => (mnt p, rw)) <$> f_rw (c_fs c)) ++
  ((fun p => (mnt p, rw)) <$> f_ov (c_fs c)) ++
  ((fun b => (b_dst b, if b_ro b then ll_ro else rw)) <$> f_binds (c_fs c)).

(** [add]: [open] and [landlock_add_rule] both worked; otherwise a warning. *)
Definition ll_allow (add : bytes -> Z -> bool) (path : bytes) (access : Z) (rules : list (bytes * Z))
    : list (bytes * Z) :=
  if add path access then rules ++ [(path, access)] else rules.

(** What is in force afterwards. *)
Inductive llres := LLDie | LLOff | LLOn (handled : Z) (rules : list (bytes * Z)).

(** The kernel's answers: the ABI, whether a rule set with this mask and
    attribute size can be made, whether a rule can be added ([open] included),
    [prctl] and [landlock_restrict_self]. *)
Definition landlock_apply (abi : Z) (create : Z -> nat -> bool) (add : bytes -> Z -> bool)
    (nnp restrict : bool) (sizeof_attr : nat) (c : cfg) : llres :=
  if abi <? 0 then LLOff
  else
    let full := ll_full abi in
    let made := if existsb (create full) [8%nat; 16%nat; 24%nat; sizeof_attr] then Some full
                else if create ll_small 8%nat then Some ll_small else None in
    match made with
    | None => LLOff
    | Some m =>
        let rules := fold_left (fun rs r => ll_allow add r.1 r.2 rs) (ll_asked m c) [] in
        if negb nnp then LLDie else if restrict then LLOn m rules else LLOff
    end.

(** The documented meaning: a right the rule set handles is given below [p] only
    by a rule at [p] or above it; a right it does not handle is not restricted.
    Rules and paths are compared as texts: the kernel ties a rule to the directory
    that was opened, so a rule also reaches it where it is bound a second time. *)
Definition ll_permits (r : llres) (right : Z) (p : bytes) : bool :=
  match r with
  | LLOn handled rules =>
      negb (Z.testbit handled right) ||
      existsb (fun rule => covers rule.1 p && Z.testbit rule.2 right) rules
  | _ => true
  end.
End Landlock.
