(* ===== verification/MountThms.v ===== *)
(** * The file system of a cell: theorems

    What Landlock leaves writable, which host directories a cell can write
    through its mounts, and that secrets land in memory. *)

From S2P Require Import Prelude CString Client Config ConfigThms Mounts.
Local Open Scope Z_scope.

(** ** Landlock *)





Lemma existsb_false {A} (f : A -> bool) l : (forall x, f x = false) -> existsb f l = false.
Proof. intros H. induction l as [|x l IH]; [done|]. cbn. by rewrite H. Qed.











(** The rights a kernel of this ABI knows, and its answer to a rule set. *)
Definition ll_known (abi : Z) : Z :=
  Z.ones (if 5 <=? abi then 16 else if 3 <=? abi then 15 else if 2 <=? abi then 14 else 13).
Definition ll_kernel (abi : Z) (mask : Z) (size : nat) : bool :=
  (Z.land mask (ll_known abi) =? mask) && (size =? 8)%nat.

Ltac abi_cases abi :=
  destruct (Z.leb_spec 2 abi), (Z.leb_spec 3 abi), (Z.leb_spec 5 abi); try lia.

(** With the rights of the kernel's header every right the kernel knows is
    handled, whatever its ABI: nothing is left unrestricted. *)
Theorem landlock_handles_all abi create add nnp restrict sz c m rules :
  (forall mask, Z.land mask (ll_known abi) = mask -> create mask 8%nat = true) ->
  landlock_apply linux_hdr abi create add nnp restrict sz c = LLOn m rules ->
  m = ll_known abi.
Proof.
  intros Hk. assert (ll_full linux_hdr abi = ll_known abi) as E.
  { unfold ll_full, ll_known. abi_cases abi; reflexivity. }
  unfold landlock_apply. rewrite E. cbn [existsb]. rewrite Hk by apply Z.land_diag. cbn [orb].
  intros H. repeat case_in H; by simplify_eq.
Qed.

(** With the fallback [#define]s of the source a kernel of ABI 5 or more refuses
    the rule set at every size, and the reduced one is used: truncating a file of
    the host's [/usr] or making a symbolic link there is not restricted by
    Landlock. *)
Theorem landlock_fallback_reduces abi add nnp restrict sz c m rules :
  5 <= abi ->
  landlock_apply fallback_hdr abi (ll_kernel abi) add nnp restrict sz c = LLOn m rules ->
  m = ll_small /\
  ll_permits (LLOn m rules) (LL_TRUNCATE linux_hdr) (B "/usr/lib/x") = true /\
  ll_permits (LLOn m rules) LL_MAKE_SYM (B "/usr/lib/x") = true.
Proof.
  intros Habi H. assert (ll_known abi = Z.ones 16 /\ ll_full fallback_hdr abi = Z.ones 13 + 2 ^ 14 + 2 ^ 16) as [Ek Ef].
  { unfold ll_known, ll_full. abi_cases abi. by vm_compute. }
  assert (m = ll_small) as ->; [|done].
  revert H. unfold landlock_apply. rewrite Ef. unfold ll_kernel. rewrite Ek. cbn [existsb].
  replace (Z.land (Z.ones 13 + 2 ^ 14 + 2 ^ 16) (Z.ones 16) =? Z.ones 13 + 2 ^ 14 + 2 ^ 16) with false by done.
  cbn [andb orb]. intros H. repeat case_in H; by simplify_eq.
Qed.

(** ** Which host directories can be written through the mounts *)

Lemma run_steps_app ok l1 l2 acc ops :
  run_steps ok (l1 ++ l2) acc = Some ops ->
  exists mid, run_steps ok l1 acc = Some mid /\ run_steps ok l2 mid = Some ops.
Proof.
  revert acc. induction l1 as [|[o fatal] l1 IH]; intros acc H; cbn in *; [eauto|].
  repeat case_in H; eauto; done.
Qed.

Lemma mount_table_snoc sub ops o : mount_table sub (ops ++ [o]) = mount_op sub (mount_table sub ops) o.
Proof. unfold mount_table. by rewrite fold_left_app. Qed.

(** A list of steps keeps a property of the mount table. *)
Definition keeps (sub : bytes -> list (bytes * bool)) (ok : mop -> bool) (I : list (bytes * mnt) -> Prop)
    (l : list step) : Prop :=
  forall acc ops, I (mount_table sub acc) -> run_steps ok l acc = Some ops -> I (mount_table sub ops).

Section Keeps.
Context (sub : bytes -> list (bytes * bool)) (ok : mop -> bool).
Implicit Types I : list (bytes * mnt) -> Prop.

Lemma keeps_nil I : keeps sub ok I [].
Proof. intros acc ops Ha H. by simplify_eq/=. Qed.

Lemma keeps_app I l1 l2 : keeps sub ok I l1 -> keeps sub ok I l2 -> keeps sub ok I (l1 ++ l2).
Proof. intros H1 H2 acc ops Ha H. apply run_steps_app in H as (mid & E1 & E2). eauto. Qed.

Lemma keeps_cons I s l : keeps sub ok I [s] -> keeps sub ok I l -> keeps sub ok I (s :: l).
Proof. apply (keeps_app I [s]). Qed.

Lemma keeps_concat {A} I (f : A -> list step) l :
  (forall x, x ∈ l -> keeps sub ok I (f x)) -> keeps sub ok I (concat (f <$> l)).
Proof.
  induction l as [|x l IH]; intros H; [apply keeps_nil|]. cbn. apply keeps_app.
  - apply H. left.
  - apply IH. intros y Hy. apply H. by right.
Qed.

Lemma keeps_imap {A} I (f : nat -> A -> list step) l :
  (forall i x, x ∈ l -> keeps sub ok I (f i x)) -> keeps sub ok I (concat (imap f l)).
Proof.
  revert f. induction l as [|x l IH]; intros f H; [apply keeps_nil|]. cbn. apply keeps_app.
  - apply H. left.
  - apply IH. intros i y Hy. apply H. by right.
Qed.

(** One step: enough that the operation keeps the property. *)
Lemma keeps_one I o fatal : (forall t, I t -> I (mount_op sub t o)) -> keeps sub ok I [(o, fatal)].
Proof.
  intros Ho acc ops Ha H. cbn in H. repeat case_in H; simplify_eq; [|done].
  rewrite mount_table_snoc. by apply Ho.
Qed.

(** *** Where the mounts of a table come from *)

Lemma remount_in dst t d m : (d, m) ∈ remount dst t -> exists m', (d, m') ∈ t /\ (m = m' \/ m = set_ro m').
Proof.
  induction t as [|[d' x] t IH]; cbn; [by intros ?%elem_of_nil|].
  repeat case_match; intros [[= -> ->]|Hin]%elem_of_cons; eauto using list_elem_of_here, list_elem_of_further.
  destruct (IH Hin) as (m' & ? & ?). eauto using list_elem_of_further.
Qed.

(** A file system of the host below a bound directory came with a recursive bind;
    the host's root with [pivot_root]. *)
Lemma table_origin ops d m :
  (d, m) ∈ mount_table sub ops ->
  match m with
  | HostSub src suf ro => exists dst, d = dst ++ suf /\ (MBind src dst true ∈ ops) /\ ((suf, ro) ∈ sub src)
  | HostRoot => MOldRoot d ∈ ops
  | _ => True
  end.
Proof.
  revert d m. induction ops as [|o ops IH] using rev_ind; intros d m; [by intros ?%elem_of_nil|].
  rewrite mount_table_snoc. intros Hin.
  assert (Hold : forall m', (d, m') ∈ mount_table sub ops -> (m = m' \/ m = set_ro m') ->
    match m with
    | HostSub src suf ro => exists dst, d = dst ++ suf /\ (MBind src dst true ∈ ops ++ [o]) /\ ((suf, ro) ∈ sub src)
    | HostRoot => MOldRoot d ∈ ops ++ [o]
    | _ => True
    end).
  { intros m' Hm E. specialize (IH d m' Hm). destruct m'; destruct E as [->| ->]; cbn; try done;
      try (rewrite elem_of_app; by left);
      destruct IH as (dst & ? & ? & ?); exists dst; rewrite elem_of_app; eauto. }
  assert (Hnew : o ∈ ops ++ [o]) by (apply elem_of_app; right; constructor).
  destruct o as [| | |src dst rec|dst rec|dst opts|dst opts|fs dst| | | |p]; cbn in Hin;
    try (by eapply Hold; eauto).
  - apply elem_of_app in Hin as [Hin|[[= -> ->]|Hin]%elem_of_cons]; [|done|by eapply Hold; eauto].
    destruct rec; [|by apply elem_of_nil in Hin]. apply list_elem_of_fmap in Hin as ([suf ro] & [= -> ->] & Hs).
    exists dst. done.
  - apply remount_in in Hin as (m' & Hm & E). by eapply Hold.
  - apply elem_of_cons in Hin as [[= -> ->]|Hin]; [done|by eapply Hold; eauto].
  - apply elem_of_cons in Hin as [[= -> ->]|Hin]; [done|by eapply Hold; eauto].
  - apply elem_of_cons in Hin as [[= -> ->]|Hin]; [done|by eapply Hold; eauto].
  - apply elem_of_cons in Hin as [[= -> ->]|Hin]; [done|by eapply Hold; eauto].
Qed.
End Keeps.

(** Every mount of the table satisfies [P], with its place. *)
Definition all_mnt (P : bytes -> mnt -> Prop) (t : list (bytes * mnt)) : Prop := Forall (fun e => P e.1 e.2) t.

Lemma remount_all P dst t : (forall d m, P d m -> P d (set_ro m)) -> all_mnt P t -> all_mnt P (remount dst t).
Proof.
  intros Hs. induction 1 as [|[d m] t Hd Ht IH]; cbn; [constructor|].
  repeat case_match; constructor; cbn in *; eauto.
Qed.

(** The host's [src] is bound at [d] without being read-only only if [W src] or
    the read-only remount at [d] was refused; the host's root is not there. *)
Definition writable_only (ok : mop -> bool) (W : bytes -> Prop) (d : bytes) (m : mnt) : Prop :=
  match m with
  | HostBind src false => W src \/ ok (MRemountRo d true) = false
  | HostRoot => False
  | _ => True
  end.

Lemma writable_only_ro ok W d m : writable_only ok W d m -> writable_only ok W d (set_ro m).
Proof. by destruct m. Qed.

Lemma all_op sub ok W o :
  (forall e, mnt_of o = Some e -> writable_only ok W e.1 e.2) ->
  forall t, all_mnt (writable_only ok W) t -> all_mnt (writable_only ok W) (mount_op sub t o).
Proof.
  intros Ho t Ht. destruct o; cbn; try done; try (constructor; [by apply (Ho (_, _))|done]).
  - apply Forall_app. split; [|constructor; [by apply (Ho (_, _))|done]].
    destruct recursive; [|constructor]. by apply Forall_fmap, Forall_forall.
  - apply remount_all; [apply writable_only_ro|done].
Qed.

(** *** Segments *)

Lemma tokens_split d cur a b :
  tokens_acc d cur (a ++ d :: b) = tokens_acc d cur a ++ tokens_acc d [] b.
Proof.
  revert cur. induction a as [|x a IH]; intros cur; cbn.
  - rewrite decide_True by done. by destruct cur.
  - destruct (decide (x = d)); [|apply IH]. destruct cur; [apply IH|]. cbn. by rewrite IH.
Qed.

Lemma strtok_split d a b : strtok d (a ++ d :: b) = strtok d a ++ strtok d b.
Proof. apply tokens_split. Qed.

Section Writable.
Context (sub : bytes -> list (bytes * bool)) (ok : mop -> bool) (W : bytes -> Prop).
(** A mount on the host is below the directory, not at it. *)
Hypothesis below : forall src suf ro, (suf, ro) ∈ sub src -> strtok SLASH suf <> [] /\ head suf = Some SLASH.

Abbreviation keepsW := (keeps sub ok (all_mnt (writable_only ok W))).

Lemma keepsW_op o fatal : (forall e, mnt_of o = Some e -> writable_only ok W e.1 e.2) -> keepsW [(o, fatal)].
Proof. intros H. by apply keeps_one, all_op. Qed.

(** What a recursive bind brings along does not hide the bind itself. *)
Lemma remount_bind src dst rec t :
  remount dst (submounts sub (MBind src dst rec) ++ (dst, HostBind src false) :: t) =
  submounts sub (MBind src dst rec) ++ (dst, HostBind src true) :: t.
Proof.
  assert (Hd : covers dst dst = true) by (by apply bool_decide_eq_true_2).
  assert (forall l, Forall (fun s => strtok SLASH s.1 <> [] /\ head s.1 = Some SLASH) l ->
    remount dst (((fun s => (dst ++ s.1, HostSub src s.1 s.2)) <$> l) ++ (dst, HostBind src false) :: t) =
    ((fun s => (dst ++ s.1, HostSub src s.1 s.2)) <$> l) ++ (dst, HostBind src true) :: t) as H.
  { induction 1 as [|[suf ro] l [Hs Hh] Hl IH]; cbn [fmap list_fmap app remount fst snd]; [by rewrite Hd|].
    rewrite IH. assert (covers (dst ++ suf) dst = false) as ->; [|done].
    destruct suf as [|x suf]; [done|]. injection Hh as ->. unfold covers. rewrite strtok_split.
    apply bool_decide_eq_false_2. intros Hp%prefix_length. rewrite length_app in Hp.
    destruct (strtok SLASH suf) eqn:E; [|cbn in Hp; lia].
    destruct Hs. etrans; [exact (strtok_split SLASH [] suf)|done]. }
  destruct rec; [|cbn; by rewrite Hd]. apply H, Forall_forall. intros [suf ro] Hin. by eapply below.
Qed.

Lemma submounts_W o t : all_mnt (writable_only ok W) t -> all_mnt (writable_only ok W) (submounts sub o ++ t).
Proof.
  intros Ht. apply Forall_app. split; [|done]. destruct o; try constructor. destruct recursive; [|constructor].
  by apply Forall_fmap, Forall_forall.
Qed.

Lemma keepsW_bind src dst ro : (ro = false -> W src) -> forall rec, (ro = true -> rec = true) ->
  keepsW (bind_mount src dst ro rec).
Proof.
  intros Hw rec Hrec. destruct ro; cbn.
  - rewrite Hrec by done. intros acc ops Ha H. cbn in H. destruct (ok (MBind _ _ _)) in H; [|done].
    destruct (ok (MRemountRo dst true)) eqn:Er; simplify_eq; rewrite !mount_table_snoc; unfold mount_op; cbn [mnt_of].
    + rewrite remount_bind. apply submounts_W. by constructor.
    + apply submounts_W. constructor; [by right|done].
  - apply keepsW_op. intros e [= <-]. left. by apply Hw.
Qed.

(** Steps that mount no part of the host. *)
Lemma keepsW_plain o fatal :
  match o with MBind _ _ _ | MOldRoot _ => False | _ => True end -> keepsW [(o, fatal)].
Proof. intros H. apply keepsW_op. intros e He. by destruct o; simplify_eq/=. Qed.

Ltac steps :=
  repeat lazymatch goal with
    | |- keeps _ _ _ [] => apply keeps_nil
    | |- keeps _ _ _ [_] => apply keepsW_plain; exact I
    | |- keeps _ _ _ (tmpfs_mount _ _) => apply keepsW_plain; exact I
    | |- keeps _ _ _ (bind_mount _ _ _ _) => solve [apply keepsW_bind; done]
    | |- keeps _ _ _ (_ ++ _) => apply keeps_app
    | |- keeps _ _ _ (_ :: _) => apply keeps_cons
    end.

Section Parts.
Context (newroot : bytes) (c : cfg) (h : hostfs).
(** What the configuration gives to the cell. *)
Hypothesis give_workdir : f_wsize (c_fs c) <= 0 -> W (f_workdir (c_fs c)).
Hypothesis give_rw : forall p, p ∈ f_rw (c_fs c) -> W p.
Hypothesis give_bind : forall b, b ∈ f_binds (c_fs c) -> b_ro b = false -> W (b_src b).
Hypothesis give_net :
  match C_netmode (c_net c) with
  | NET_HOST => W (B "/run/systemd") | NET_VETH => W UPSTREAM | NET_NONE => True
  end.
Hypothesis give_dev :
  forall d, d ∈ B <$> ["null"; "zero"; "full"; "random"; "urandom"]%string -> W (B "/dev/" ++ d).

Lemma keepsW_os path required l : bind_os_ro newroot c h path required = Some l -> keepsW l.
Proof. unfold bind_os_ro. intros H. repeat case_in H; simplify_eq; steps. Qed.

Lemma keepsW_mirror path : keepsW (mirror_top newroot c h path).
Proof. unfold mirror_top. repeat case_on_match; steps. Qed.

Lemma keepsW_user : keepsW (user_mounts newroot c).
Proof.
  unfold user_mounts, workspace. repeat apply keeps_app; try apply keeps_cons.
  - steps.
  - destruct (Z.ltb_spec 0 (f_wsize (c_fs c))); [steps|]. apply keepsW_bind; [|done]. intros _. by apply give_workdir.
  - steps.
  - repeat apply keeps_app; apply keeps_concat; intros x Hx; (apply keeps_cons; [steps|]);
      apply keepsW_bind; [done|done|eauto|done|eauto|done].
Qed.

Lemma keepsW_scratch : keepsW (scratch_mounts newroot c).
Proof.
  unfold scratch_mounts. apply keeps_cons; [steps|]. apply keeps_app; [steps|].
  apply keeps_app; [|steps]. apply keeps_imap. intros i x _. unfold overlay_mount. steps.
Qed.

Lemma keepsW_secrets : keepsW (concat (secret_write newroot <$> p_secrets (c_pay c))).
Proof.
  apply keeps_concat. intros x _. unfold secret_write. destruct (dir_of _); steps.
Qed.

Lemma keepsW_net : keepsW (net_mounts newroot c h).
Proof.
  unfold net_mounts, resolv_mount. destruct (C_netmode (c_net c)); [steps| |].
  - apply keeps_cons; [steps|]. apply keepsW_op. intros e [= <-]. by left.
  - destruct (h_upstream h); [|steps]. do 2 (apply keeps_cons; [steps|]). by apply keepsW_bind.
Qed.

Lemma keepsW_dev : keepsW (dev_mounts newroot).
Proof.
  unfold dev_mounts. apply keeps_cons; [steps|]. apply keeps_app; [steps|]. apply keeps_app; [|steps].
  apply keeps_concat. intros d Hd. apply keeps_cons; [steps|]. apply keepsW_op. intros e [= <-].
  left. by apply give_dev.
Qed.

Lemma keepsW_kernel : keepsW (kernel_mounts newroot).
Proof. unfold kernel_mounts. steps. Qed.

Lemma keepsW_do_mounts l : do_mounts newroot c h = Some l -> keepsW l.
Proof.
  unfold do_mounts. intros H. apply bind_Some in H as (usr & Hu & H). apply bind_Some in H as (etc & He & H).
  apply bind_Some in H as (opt & Ho & H). apply (inj Some) in H as <-.
  apply keeps_app; [steps|]. do 3 (apply keeps_app; [by eapply keepsW_os|]).
  do 4 (apply keeps_app; [apply keepsW_mirror|]). apply keeps_app; [apply keepsW_user|].
  apply keeps_app; [apply keepsW_scratch|]. apply keeps_app; [apply keepsW_secrets|].
  apply keeps_app; [apply keepsW_net|]. apply keeps_app; [apply keepsW_kernel|].
  apply keeps_app; [apply keepsW_dev|]. steps.
Qed.
End Parts.
End Writable.

(** The host paths a configuration gives to the cell for writing. *)
Definition given (c : cfg) (src : bytes) : Prop :=
  f_wsize (c_fs c) <= 0 /\ src = f_workdir (c_fs c) \/
  src ∈ f_rw (c_fs c) \/
  (exists b, b ∈ f_binds (c_fs c) /\ b_ro b = false /\ src = b_src b) \/
  C_netmode (c_net c) = NET_HOST /\ src = B "/run/systemd" \/
  C_netmode (c_net c) = NET_VETH /\ src = UPSTREAM \/
  src ∈ (B <$> ["/dev/null"; "/dev/zero"; "/dev/full"; "/dev/random"; "/dev/urandom"]%string).

Lemma shows_in t p m : shows t p = Some m -> exists d, (d, m) ∈ t /\ covers d p = true.
Proof.
  induction t as [|[d x] t IH]; cbn; [done|]. destruct (covers d p) eqn:E.
  - intros [= ->]. exists d. split; [left|done].
  - intros (e & He & Hc)%IH. exists e. split; [by right|done].
Qed.

(** What a path of the cell may show of the host: a directory that is not
    read-only was given by the configuration, or its read-only remount was
    refused; a file system mounted on the host below a directory came with a
    recursive bind of it; the host's root never. *)
Definition host_view (sub : bytes -> list (bytes * bool)) (ok : mop -> bool) (ops : list mop) (c : cfg)
    (p : bytes) (m : mnt) : Prop :=
  match m with
  | HostBind src false =>
      given c src \/ exists d, covers d p = true /\ ok (MRemountRo d true) = false
  | HostSub src suf ro =>
      exists dst, covers (dst ++ suf) p = true /\ (MBind src dst true ∈ ops) /\ ((suf, ro) ∈ sub src)
  | HostRoot => False
  | _ => True
  end.

(** The mounts of the host are below the directories they are listed for. *)
Definition sub_below (sub : bytes -> list (bytes * bool)) : Prop :=
  forall src suf ro, (suf, ro) ∈ sub src -> strtok SLASH suf <> [] /\ head suf = Some SLASH.

Lemma host_viewed sub newroot c h l ok ops p m :
  sub_below sub -> do_mounts newroot c h = Some l -> run_steps ok l [] = Some ops ->
  shows (mount_table sub ops) p = Some m -> host_view sub ok ops c p m.
Proof.
  intros Hsub Hl Hr Hs. apply shows_in in Hs as (d & Hin & Hc).
  assert (all_mnt (writable_only ok (given c)) (mount_table sub ops)) as Ha.
  { eapply (keepsW_do_mounts sub ok (given c) Hsub newroot c h); [..|exact Hl| |exact Hr];
      unfold given; [by auto|by auto|by eauto 10| | |by constructor].
    - destruct (C_netmode (c_net c)); auto 10.
    - intros x Hx. do 5 right. revert Hx. rewrite !list_elem_of_fmap.
      intros (y & -> & Hy). exists ("/dev/" +:+ y)%string. split; [done|].
      repeat (apply elem_of_cons in Hy as [->|Hy]; [by apply (bool_decide_unpack _)|]). by apply elem_of_nil in Hy. }
  eapply (proj1 (Forall_forall _ _)) in Ha; [|exact Hin].
  pose proof (table_origin sub ops d m Hin) as Ho.
  destruct m as [|src []|src suf ro| |opts|fs]; try done; cbn in Ha |- *.
  - destruct Ha; eauto.
  - destruct Ho as (dst & -> & ? & ?). eauto.
Qed.

(** C8. The mounts of a cell, whatever the kernel answers and whatever is mounted
    on the host: what a path of the cell shows is the cell's own (tmpfs,
    overlay, a kernel file system), or a read-only bind, or a bind the
    configuration gives for writing (the workspace, [--rw], [--bind], the
    resolver's files, one of the five device nodes), or a bind whose read-only
    remount the kernel refused, or a file system that was mounted on the host
    below a recursively bound directory (which the remount does not reach).
    Paths are texts: no symbolic link is followed and ".." is a name. *)
Theorem host_writable_only_given sub newroot c h l ok ops p m :
  sub_below sub -> do_mounts newroot c h = Some l -> run_steps ok l [] = Some ops ->
  shows (mount_table sub ops) p = Some m -> host_view sub ok ops c p m.
Proof. apply host_viewed. Qed.

(** ** What a path shows *)

(** Below a common root only the rest counts. *)
Lemma covers_below a x y : covers (a ++ SLASH :: x) (a ++ SLASH :: y) = covers x y.
Proof.
  unfold covers. rewrite !strtok_split. apply bool_decide_ext.
  split; [apply prefix_app_inv|apply prefix_app].
Qed.

Lemma covers_roots a x y :
  head x = Some SLASH -> head y = Some SLASH -> covers (a ++ x) (a ++ y) = covers x y.
Proof. destruct x, y; try done. intros [= ->] [= ->]. exact (covers_below a x y). Qed.

(** The first segment decides. *)
Lemma covers_first x y s t xs ys :
  strtok SLASH x = s :: xs -> strtok SLASH y = t :: ys -> s <> t -> covers x y = false.
Proof.
  intros Ex Ey Hne. unfold covers. rewrite Ex, Ey. apply bool_decide_eq_false_2.
  intros H%prefix_cons_inv_1. done.
Qed.

Lemma covers_self x : covers x x = true.
Proof. by apply bool_decide_eq_true_2. Qed.

Lemma covers_child x r : covers x (x ++ SLASH :: r) = true.
Proof. apply bool_decide_eq_true_2. rewrite strtok_split. by apply prefix_app_r. Qed.

(** A mount is what its place shows. *)
Lemma shows_here sub t o e p :
  submounts sub o = [] -> mnt_of o = Some e -> covers e.1 p = true -> shows (mount_op sub t o) p = Some e.2.
Proof.
  intros Hs He Hc. destruct e as [d m]. unfold mount_op. rewrite Hs, He. destruct o; simplify_eq/=; by rewrite Hc.
Qed.

(** Steps that mount nothing on or above [p] keep what [p] shows. *)
Definition away (p : bytes) (o : mop) : Prop :=
  match o with
  | MRemountRo _ _ | MBind _ _ true => False
  | _ => match mnt_of o with Some e => covers e.1 p = false | None => True end
  end.

Lemma away_keeps sub ok p m l :
  Forall (fun s => away p s.1) l -> keeps sub ok (fun t => shows t p = Some m) l.
Proof.
  induction 1 as [|[o fatal] l Ho Hl IH]; [apply keeps_nil|]. apply keeps_cons; [|done].
  apply keeps_one. intros t Ht. cbn in Ho. destruct o; try done; cbn in *; try (by rewrite Ho).
  destruct recursive; [done|]. cbn. by rewrite Ho.
Qed.

(** A fatal mount is there after the script. *)
Lemma here_shows sub ok o e p acc ops :
  submounts sub o = [] -> mnt_of o = Some e -> covers e.1 p = true -> run_steps ok [(o, true)] acc = Some ops ->
  shows (mount_table sub ops) p = Some e.2.
Proof.
  intros Hs He Hc H. cbn in H. destruct (ok o); [|done]. simplify_eq.
  rewrite mount_table_snoc. by apply shows_here.
Qed.

(** A mount, and what follows it does not touch [p]. *)
Lemma mount_stays sub ok l1 o l2 d m p acc ops :
  run_steps ok (l1 ++ (o, true) :: l2) acc = Some ops -> submounts sub o = [] ->
  mnt_of o = Some (d, m) -> covers d p = true -> Forall (fun s => away p s.1) l2 ->
  shows (mount_table sub ops) p = Some m.
Proof.
  intros H Hs He Hc Ha. apply run_steps_app in H as (mid & _ & H).
  apply (run_steps_app _ [(o, true)]) in H as (mid2 & H1 & H2).
  eapply (away_keeps sub ok p m l2 Ha); [|exact H2]. by eapply (here_shows _ _ _ (d, m)).
Qed.

Section Secrets.
Context (newroot : bytes) (c : cfg) (h : hostfs).
(** [mkdtemp] makes a short path. *)
Hypothesis short_root : (length newroot <= 1024)%nat.

Lemma NR_eq path : (length path <= 1024)%nat -> NR newroot path = newroot ++ path.
Proof. intros H. unfold NR. apply snprintf_s_short. rewrite length_app. change PATH_MAX with 4096%nat. lia. Qed.

Lemma mnt_dst_below x : exists b, mnt_dst newroot x = newroot ++ B "/mnt/" ++ b.
Proof.
  unfold mnt_dst, snprintf_s. rewrite take_app_ge by (change PATH_MAX with 4096%nat; lia).
  exists (take (PATH_MAX - 1 - length newroot - 5) (basename_of x)). f_equal.
  rewrite take_app_ge; [done|]. change PATH_MAX with 4096%nat. cbn [length B list_ascii_of_string]. lia.
Qed.

(** Two paths below the root with different first segments. *)
Ltac apart :=
  rewrite covers_roots by reflexivity; eapply covers_first; [reflexivity|reflexivity|done].
Ltac child := rewrite covers_roots by reflexivity; apply covers_child.

Lemma ovl_away r :
  Forall (fun s => away (newroot ++ B "/tmp" ++ SLASH :: r) s.1)
    (concat (imap (overlay_mount newroot) (f_ov (c_fs c)))).
Proof.
  apply Forall_concat, Forall_lookup. intros i l Hl. rewrite list_lookup_imap in Hl.
  apply fmap_Some in Hl as (x & _ & ->). repeat constructor. cbn.
  destruct (mnt_dst_below x) as [b ->]. apart.
Qed.

(** Whatever was there before, the scratch directories are in memory. *)
Lemma scratch_shows sub ok acc ops top r :
  top ∈ [B "/tmp"; B "/run"; B "/var/tmp"] ->
  run_steps ok (scratch_mounts newroot c) acc = Some ops ->
  shows (mount_table sub ops) (newroot ++ top ++ SLASH :: r) = Some TmpFs.
Proof.
  intros Ht H. unfold scratch_mounts, tmpfs_mount in H.
  repeat (apply elem_of_cons in Ht as [->|Ht]); [| | |by apply elem_of_nil in Ht].
  - eapply (mount_stays sub ok [_]); [exact H|reflexivity|reflexivity| |]; [rewrite NR_eq by (cbn; lia); child|].
    apply Forall_app. split; [apply ovl_away|].
    repeat constructor; cbn; rewrite NR_eq by (cbn; lia); apart.
  - rewrite app_comm_cons, app_assoc in H. apply run_steps_app in H as (mid & _ & H).
    eapply (mount_stays sub ok [_; _; _]); [exact H|reflexivity|reflexivity| |constructor].
    rewrite NR_eq by (cbn; lia). child.
  - rewrite app_comm_cons, app_assoc in H. apply run_steps_app in H as (mid & _ & H).
    eapply (mount_stays sub ok [_]); [exact H|reflexivity|reflexivity| |].
    + rewrite NR_eq by (cbn; lia). child.
    + repeat constructor; cbn; rewrite NR_eq by (cbn; lia); apart.
Qed.
End Secrets.

(** C26. Secrets stay in memory: in the script of a well-formed configuration the
    secrets are written right after a part that, when it has run, shows a tmpfs
    at every destination without ".." segments (whatever binds the
    configuration has). *)
Theorem secrets_in_memory newroot c h l :
  cfg_wf c -> (length newroot <= 1024)%nat -> do_mounts newroot c h = Some l ->
  exists pre post, l = pre ++ concat (secret_write newroot <$> p_secrets (c_pay c)) ++ post /\
    forall sub ok ops dst data, run_steps ok pre [] = Some ops -> (dst, data) ∈ p_secrets (c_pay c) ->
      B ".." ∉ strtok SLASH dst -> (length newroot + length dst < PATH_MAX)%nat ->
      last (secret_write newroot (dst, data)) = Some (MSecret (newroot ++ dst) data, false) /\
      shows (mount_table sub ops) (newroot ++ dst) = Some TmpFs.
Proof.
  intros Hwf Hshort H. unfold do_mounts in H.
  apply bind_Some in H as (usr & _ & H). apply bind_Some in H as (etc & _ & H).
  apply bind_Some in H as (opt & _ & H). apply (inj Some) in H as <-.
  do 9 rewrite app_assoc. eexists _, _. split; [reflexivity|]. intros sub ok ops dst data Hr Hin Hdd Hlen.
  apply run_steps_app in Hr as (mid & _ & Hr). split.
  - unfold secret_write. cbn [fst snd]. rewrite last_snoc. by rewrite snprintf_s_short by (rewrite length_app; lia).
  - pose proof (wf_sdst c Hwf) as Hd. rewrite Forall_forall in Hd. destruct (Hd _ Hin) as [Hs _]. cbn in Hs.
    assert (exists top r, top ∈ [B "/tmp"; B "/run"; B "/var/tmp"] /\ dst = top ++ SLASH :: r) as (top & r & Ht & ->).
    { destruct Hs as [Hs|[Hs|Hs]]; apply starts_with_spec in Hs as [r ->]; 
        [exists (B "/tmp"), r|exists (B "/run"), r|exists (B "/var/tmp"), r];
        (split; [by apply (bool_decide_unpack _)|reflexivity]). }
    by eapply scratch_shows.
Qed.

(** ** Behaviours the comments do not promise *)

(** A host with directories only, a kernel that answers yes, and one that cannot
    make a mount read-only. *)
Definition ex_host : hostfs := HostFs (fun _ => Some None) true (Some (B "../run/systemd/resolve/stub-resolv.conf")).
Definition no_sub (_ : bytes) : list (bytes * bool) := [].
Definition yes (_ : mop) : bool := true.
Definition no_remount (o : mop) : bool := match o with MRemountRo _ _ => false | _ => true end.
Definition ex_root : bytes := B "/tmp/sand-x".

Definition ex_cfg (binds : list bindspec) (secrets : list (bytes * bytes)) : cfg :=
  Cfg (c_lim (cfg0 0)) (FsCfg (B "/home/u/agent-work") [] [] [B "/srv/rw"] [B "/srv/repo"] binds 0)
    (c_sec (cfg0 0)) (PayCfg [] [] secrets [B "sh"]) (c_net (cfg0 0)).

Definition ex_shows (ok : mop -> bool) (c : cfg) (p : string) : option mnt :=
  l ← do_mounts ex_root c ex_host; ops ← run_steps ok l []; shows (mount_table no_sub ops) (ex_root ++ B p).

Definition ex_landlock (c : cfg) : llres :=
  landlock_apply linux_hdr 5 (ll_kernel 5) (fun _ _ => true) true true 24 c.

(** A [--bind-ro] below a writable directory whose remount the kernel refuses
    stays writable: Landlock adds the rights of all rules on the path, so the
    read-only rule of the bind does not take back what the workspace's rule
    gives. *)
Theorem bind_ro_stays_writable :
  let c := ex_cfg [BindSpec (B "/data") (B "/home/agent/data") true] [] in
  ex_shows no_remount c "/home/agent/data/f" = Some (HostBind (B "/data") false) /\
  ll_permits (ex_landlock c) LL_WRITE_FILE (B "/home/agent/data/f") = true.
Proof. by vm_compute. Qed.

(** A host with a file system mounted at [/usr/local]. *)
Definition usr_local (src : bytes) : list (bytes * bool) :=
  if decide (src = B "/usr") then [(B "/local", false)] else [].

(** A read-only bind is not read-only below: the remount does not reach a file
    system that is mounted on the host below the directory, although it passes
    [MS_REC]. *)
Theorem ro_bind_submount_writable :
  (l ← do_mounts ex_root (ex_cfg [] []) ex_host; ops ← run_steps yes l [];
   Some (shows (mount_table usr_local ops) (ex_root ++ B "/usr/bin/x"),
         shows (mount_table usr_local ops) (ex_root ++ B "/usr/local/x"))) =
  Some (Some (HostBind (B "/usr") true), Some (HostSub (B "/usr") (B "/local") false)).
Proof. by vm_compute. Qed.

(** A [--bind] below [/tmp], [/var/tmp] or [/run] is hidden by the tmpfs mounted
    afterwards. *)
Theorem bind_below_tmp_hidden :
  ex_shows yes (ex_cfg [BindSpec (B "/data") (B "/tmp/data") false] []) "/tmp/data/f" = Some TmpFs /\
  ex_shows yes (ex_cfg [BindSpec (B "/data") (B "/srv/data") false] []) "/srv/data/f" =
    Some (HostBind (B "/data") false).
Proof. by vm_compute. Qed.

(** ** Witnesses *)


Lemma landlock_handles_all_witness :
  exists rules, ex_landlock (ex_cfg [] []) = LLOn (Z.ones 16) rules.
Proof.
  destruct (ex_landlock (ex_cfg [] [])) as [| |m rules] eqn:E; [discriminate E|discriminate E|].
  exists rules. f_equal. refine (landlock_handles_all 5 (ll_kernel 5) _ _ _ _ _ _ _ _ E).
  intros mask Hm. unfold ll_kernel. by rewrite Hm, Z.eqb_refl.
Defined.

Lemma landlock_fallback_reduces_witness :
  exists rules, landlock_apply fallback_hdr 6 (ll_kernel 6) (fun _ _ => true) true true 24 (ex_cfg [] []) =
    LLOn ll_small rules.
Proof.
  destruct (landlock_apply fallback_hdr 6 (ll_kernel 6) (fun _ _ => true) true true 24 (ex_cfg [] []))
    as [| |m rules] eqn:E; [discriminate E|discriminate E|].
  exists rules. f_equal. exact (proj1 (landlock_fallback_reduces 6 _ _ _ _ _ _ _ ltac:(lia) E)).
Defined.

Lemma usr_local_below : sub_below usr_local.
Proof.
  intros src suf ro. unfold usr_local. destruct (decide _); [|by intros ?%elem_of_nil].
  intros Hin. apply list_elem_of_singleton in Hin. by injection Hin as -> _.
Qed.

Lemma host_writable_only_given_witness :
  ex_shows yes (ex_cfg [] []) "/mnt/rw/f" = Some (HostBind (B "/srv/rw") false) /\
  given (ex_cfg [] []) (B "/srv/rw").
Proof.
  split; [by vm_compute|].
  destruct (host_writable_only_given usr_local ex_root (ex_cfg [] []) ex_host _ yes _ (ex_root ++ B "/mnt/rw/f")
    (HostBind (B "/srv/rw") false) usr_local_below ltac:(vm_compute; reflexivity) ltac:(vm_compute; reflexivity)
    ltac:(by vm_compute)) as [H|(d & _ & H)]; [exact H|discriminate H].
Defined.

Lemma ex_cfg_wf : cfg_wf (ex_cfg [] [(B "/run/key", B "k")]).
Proof.
  split; try apply cfg_ok0; try (vm_compute; lia); try constructor; try done.
  split; [by right; left|]. change PATH_MAX with 4096%nat. cbn. lia.
Qed.

Lemma secrets_in_memory_witness :
  exists pre post,
    do_mounts ex_root (ex_cfg [] [(B "/run/key", B "k")]) ex_host =
      Some (pre ++ concat (secret_write ex_root <$> [(B "/run/key", B "k")]) ++ post).
Proof.
  destruct (do_mounts ex_root (ex_cfg [] [(B "/run/key", B "k")]) ex_host) as [l|] eqn:E; [|discriminate E].
  destruct (secrets_in_memory ex_root _ _ _ ex_cfg_wf ltac:(cbn; lia) E) as (pre & post & -> & _).
  by exists pre, post.
Defined.
