(* ===== verification/Cell.v ===== *)
(** * The life of one cell

    [sand.c]: the message that hands the network over to the child, [child_main]
    up to the payload, the [--ask] supervisor ([ask_handle] and its loop in
    [main]), waiting for the payload with and without [--timeout], and the two
    ends of [serve]: [serve_loop] and [jail_server]. *)

From S2P Require Import Prelude CString Arch Cbpf.
From S2P Require Import Seccomp Wire Client Config Mounts.
Local Open Scope Z_scope.

(** ** The hand-off through the sync pipe *)

Definition SYNCSZ : nat := 160.

(** The message of [main]. *)
Definition sync_msg (n : netcfg) : bytes :=
  if g_veth_on n
  then snprintf_s SYNCSZ (B "x " ++ C_veth_if n ++ SP :: C_veth_ip n ++ SP :: C_veth_gw n)
  else B "x".

(** What the child makes of it: whether it has a veth, and its configuration;
    [None] is [_exit(126)]. *)
Definition child_sync (msg : bytes) (n : netcfg) : option (bool * netcfg) :=
  match take (SYNCSZ - 1) msg with
  | [] => None
  | _ :: rest =>
      match C_netmode n with
      | NET_VETH =>
          let ws := (scan_strs 3 (cstr rest)).1 in
          let at_ k d := default d (ws !! k) in
          Some ((length ws =? 3)%nat,
                NetCfg (C_egress n) (C_resolv n) (C_netmode n) (at_ 0%nat (C_veth_if n))
                  (at_ 1%nat (C_veth_ip n)) (at_ 2%nat (C_veth_gw n)) (g_veth_on n))
      | _ => Some (false, n)
      end
  end.

(** ** The environment *)

Abbreviation environ := (gmap bytes bytes).

(** [setenv(name, value, 1)]: an empty name is refused. *)
Definition setenv (name value : bytes) (e : environ) : environ :=
  match name with [] => e | _ => <[name := value]> e end.

(** [putenv]: without a "=" the variable is removed. *)
Definition putenv (e : environ) (s : bytes) : environ :=
  match strchr "="%char s with
  | Some i => <[take i s := drop (S i) s]> e
  | None => delete s e
  end.

Definition env_defaults : list (bytes * bytes) :=
  (fun p => (B p.1, B p.2)) <$>
  [("HOME", "/home/agent"); ("PATH", "/usr/bin:/bin"); ("TMPDIR", "/tmp");
   ("SHELL", "/bin/bash"); ("LANG", "C.UTF-8"); ("TERM", "xterm-256color")]%string.

Definition env_entry (e : environ) (kv : bytes) : environ :=
  match strchr "="%char kv with Some i => setenv (take i kv) (drop (S i) kv) e | None => e end.

(** [spawn]: [g_spawn_envp]. *)
Definition child_env (spawn : option (list bytes)) (c : cfg) : environ :=
  let base := match spawn with
              | Some es => fold_left putenv es ∅
              | None => fold_left (fun e kv => setenv kv.1 kv.2 e) env_defaults ∅
              end in
  fold_left env_entry (p_env (c_pay c)) base.

(** ** The child *)

(** What the kernel answers on the way. *)
Record kernel := Kernel {
  k_mount : mop -> bool;
  k_chdir_root : bool; k_pivot : bool; k_chdir : bool; k_umount_old : bool; k_root_ro : bool;
  k_ll_abi : Z; k_ll_create : Z -> nat -> bool; k_ll_add : bytes -> Z -> bool;
  k_ll_nnp : bool; k_ll_restrict : bool;
  k_prctl : Z; k_seccomp : Z -> list sock_filter -> Z
}.

Inductive payload := Exec (argv : list bytes) | Server.

(** The cell when the payload starts; its mounts end with the old root when that
    could not be unmounted. *)
Record jail := Jail {
  j_mounts : list mop;
  j_old_gone : bool;
  j_root_ro : bool;
  j_ll : llres;
  j_filter : option (list sock_filter);
  j_listener : option Z;
  j_lo : bool;
  j_veth : option (bytes * bytes * bytes);
  j_env : environ;
  j_payload : payload
}.

Inductive child_res := ChildExit (rc : Z) | ChildDie | Started (j : jail).

Section Child.
Context (hdr : llhdr) (sizeof_attr : nat) (k : kernel) (t : target) (newroot : bytes) (h : hostfs).

(** The filter and its listener; [None] is [die]. *)
Definition child_seccomp (c : cfg) : option (option (list sock_filter) * option Z) :=
  if s_no_seccomp (c_sec c) then Some (None, None)
  else match seccomp_apply (k_prctl k) (k_seccomp k) (syscalls_h t) (s_ask (c_sec c)) filter_init with
       | Installed _ prog _ rc => Some (Some prog, if s_ask (c_sec c) then Some rc else None)
       | _ => None
       end.

Definition child_main (serve : bool) (spawn : option (list bytes)) (msg : bytes) (c : cfg) : child_res :=
  match child_sync msg (c_net c) with
  | None => ChildExit 126
  | Some (have_veth, n) =>
      match (l ← do_mounts newroot c h; run_steps (k_mount k) l []) with
      | None => ChildDie
      | Some ops =>
          if negb (k_chdir_root k && k_pivot k && k_chdir k) then ChildDie
          else
            let ll := if s_no_landlock (c_sec c) then LLOff
                      else landlock_apply hdr (k_ll_abi k) (k_ll_create k) (k_ll_add k) (k_ll_nnp k)
                             (k_ll_restrict k) sizeof_attr c in
            match ll with
            | LLDie => ChildDie
            | _ =>
                match child_seccomp c with
                | None => ChildDie
                | Some (filter, listener) =>
                    let lo := negb (bool_decide (C_netmode (c_net c) = NET_HOST)) in
                    let old := if k_umount_old k then [] else [MOldRoot (NR newroot (B "/.put_old"))] in
                    Started (Jail (ops ++ old) (k_umount_old k) (k_root_ro k) ll filter listener lo
                      (if lo && have_veth then Some (C_veth_if n, C_veth_ip n, C_veth_gw n) else None)
                      (child_env spawn c)
                      (if serve then Server
                       else Exec (match p_argv (c_pay c) with [] => [B "/bin/bash"] | a => a end)))
                end
            end
      end
  end.
End Child.

(** ** [--ask] *)

(** A parked call. *)
Record notif := Notif { nq_id : Z; nq_pid : Z; nq_nr : Z }.

Inductive verdict := Continue | Refuse.
#[export] Instance verdict_eq_dec : EqDecision verdict.
Proof. solve_decision. Defined.
Inductive act := Prompt (pid nr : Z) | KillPayload | Send (id : Z) (v : verdict).
#[export] Instance act_eq_dec : EqDecision act.
Proof. solve_decision. Defined.

(** [g_always]: eight 64-bit words. *)
Definition always0 : list Z := replicate 8 0.
Definition always_ok (nr : Z) : bool := (0 <=? nr) && (nr <? 512).
Definition always_at (al : list Z) (nr : Z) : Z := default 0 (al !! Z.to_nat (Z.shiftr nr 6)).
Definition always_mask (nr : Z) : Z := u64 (Z.shiftl 1 (Z.land nr 63)).
Definition is_always (al : list Z) (nr : Z) : bool :=
  always_ok nr && negb (Z.land (always_at al nr) (always_mask nr) =? 0).
Definition set_always (al : list Z) (nr : Z) : list Z :=
  if always_ok nr then <[Z.to_nat (Z.shiftr nr 6) := Z.lor (always_at al nr) (always_mask nr)]> al
  else al.

(** What the kernel and the terminal answer to one call of [ask_handle]: the
    notification ([None]: gone), what is typed ([None]: no terminal), and
    whether the notification is still valid at the end. *)
Record ask_in := AskIn { ai_req : option notif; ai_tty : option bytes; ai_valid : bool }.

(** The switch on the typed character ([None]: end of file). *)
Definition ask_switch (c : option ascii) (nr : Z) (al : list Z) : verdict * list act * list Z :=
  match c with
  | Some c =>
      if bool_decide (c = "y"%char \/ c = "Y"%char) then (Continue, [], al)
      else if bool_decide (c = "a"%char \/ c = "A"%char) then (Continue, [], set_always al nr)
      else if bool_decide (c = "k"%char \/ c = "K"%char) then (Refuse, [KillPayload], al)
      else (Refuse, [], al)
  | None => (Refuse, [], al)
  end.

Definition ask_handle (i : ask_in) (al : list Z) : list act * list Z :=
  match ai_req i with
  | None => ([], al)
  | Some q =>
      let nr := nq_nr q in
      let '(v, pre, al) :=
        if is_always al nr then (Continue, [], al)
        else match ai_tty i with
             | None => (Refuse, [], al)
             | Some typed => let '(v, acts, al) := ask_switch (head typed) nr al in
                             (v, Prompt (nq_pid q) nr :: acts, al)
             end in
      (pre ++ (if ai_valid i then [Send (nq_id q) v] else []), al)
  end.

(** The calls of [ask_handle] one after the other. *)
Fixpoint ask_run (ins : list ask_in) (al : list Z) : list (list act) :=
  match ins with
  | [] => []
  | i :: ins' => let '(acts, al) := ask_handle i al in acts :: ask_run ins' al
  end.

(** ** Waiting for the payload *)

(** What [main] concludes: the wait status and whether it killed the payload. *)
Record ended := Ended { en_status : Z; en_killed : bool }.

(** [--timeout]: one answer of [waitpid(WNOHANG)] a second ([None]: still
    running); [fin] is the status [waitpid] gives once the payload was killed.
    [None] when the answers end before the loop does. *)
Fixpoint wait_loop (left : Z) (polls : list (option Z)) (fin : Z) : option ended :=
  match polls with
  | [] => None
  | Some st :: _ => Some (Ended st false)
  | None :: ps => if left <=? 0 then Some (Ended fin true) else wait_loop (left - 1) ps fin
  end.

(** One turn of the [--ask] loop: the notification served, if any, the answer
    of [waitpid] and the time. *)
Record ask_tick := AskTick { at_in : option ask_in; at_wait : option Z; at_now : Z }.

Fixpoint ask_loop (t0 timeout : Z) (ts : list ask_tick) (fin : Z) (al : list Z)
    : list act * option ended :=
  match ts with
  | [] => ([], None)
  | t :: ts' =>
      let '(acts, al) := match at_in t with Some i => ask_handle i al | None => ([], al) end in
      match at_wait t with
      | Some st => (acts, Some (Ended st false))
      | None =>
          if (0 <? timeout) && (timeout <=? at_now t - t0)
          then (acts ++ [KillPayload], Some (Ended fin true))
          else let '(more, e) := ask_loop t0 timeout ts' fin al in (acts ++ more, e)
      end
  end.

(** ** [sand serve] *)

(** What one turn of [serve_loop] meets.  A list of turns ends where the loop is
    still waiting in [poll]; a signal that comes after [g_stop] was read and
    before [poll] sleeps is such an end: no turn sees it until something else
    wakes [poll]. *)
Inductive serve_poll := PollIntr | PollFail | PollOk (jail_gone : bool) (client : option Z).
Record serve_tick := ServeTick { st_stop : bool; st_poll : serve_poll; st_reaped : bool }.

(** The supervisor: descriptors handed to the jail, and [g_execs] (the info file
    is rewritten with it each time). *)
Record sup := Sup { su_sent : list Z; su_execs : Z; su_infos : list Z }.

Definition serve_client (client : option Z) (s : sup) : sup :=
  match client with
  | None => s
  | Some fd => let e := su_execs s + 1 in Sup (su_sent s ++ [fd]) e (su_infos s ++ [e])
  end.

(** [true]: the loop was left. *)
Fixpoint serve_loop (ts : list serve_tick) (s : sup) : sup * bool :=
  match ts with
  | [] => (s, false)
  | t :: ts' =>
      if st_stop t then (s, true)
      else match st_poll t with
           | PollIntr => serve_loop ts' s
           | PollFail => (s, true)
           | PollOk true _ => (s, true)
           | PollOk false client =>
               let s := serve_client client s in
               if st_reaped t then (s, true) else serve_loop ts' s
           end
  end.

(** The jail: one message at a time ([None]: the supervisor is gone; [Some None]:
    a message without a descriptor); the connections served. *)
Fixpoint jail_server (msgs : list (option (option Z))) : list Z :=
  match msgs with
  | [] | None :: _ => []
  | Some None :: ms => jail_server ms
  | Some (Some fd) :: ms => fd :: jail_server ms
  end.
