(* ===== verification/CellThms.v ===== *)
(** * The life of one cell: theorems

    The payload starts only behind the mounts, Landlock and the filter; the child
    gets the network and the environment it was given; [--ask] continues a call
    exactly when the user said so; [--timeout] ends the payload; [serve] hands
    every client to the jail once and in order. *)

From S2P Require Import Prelude CString Arch Cbpf.
From S2P Require Import Seccomp Wire Client ClientThms Config ConfigThms Mounts MountThms Cell.
Local Open Scope Z_scope.

(** ** The hand-off *)

Lemma scan_three a b c :
  rword a -> rword b -> rword c ->
  (scan_strs 3 (cstr (SP :: a ++ SP :: b ++ SP :: c))).1 = [a; b; c].
Proof.
  intros Ha Hb Hc. rewrite cstr_no_nul.
  - cbn [scan_strs]. rewrite (proj1 (scan_str_word a (SP :: b ++ SP :: c) Ha eq_refl)).
    rewrite (proj1 (scan_str_word b (SP :: c) Hb eq_refl)).
    pose proof (proj1 (scan_str_word c [] Hc I)) as E. rewrite app_nil_r in E. by rewrite E.
  - unfold no_nul. repeat (rewrite ?not_elem_of_app, ?not_elem_of_cons).
    split_and!; try done; apply above_no_nul; [apply Ha|apply Hb|apply Hc].
Qed.

(** What [main] writes into the sync pipe is what the child reads: without a
    veth none is configured, with one exactly the interface, address and gateway
    the daemon reported. *)
Theorem sync_roundtrip n n0 :
  C_netmode n0 = C_netmode n ->
  (g_veth_on n = true -> C_netmode n = NET_VETH /\
     rword (C_veth_if n) /\ rword (C_veth_ip n) /\ rword (C_veth_gw n) /\
     (length (C_veth_if n) + length (C_veth_ip n) + length (C_veth_gw n) <= 155)%nat) ->
  exists n', child_sync (sync_msg n) n0 = Some (g_veth_on n, n') /\
    (g_veth_on n = true -> C_veth_if n' = C_veth_if n /\ C_veth_ip n' = C_veth_ip n /\
                           C_veth_gw n' = C_veth_gw n).
Proof.
  intros Hm Hon. unfold sync_msg. destruct (g_veth_on n).
  - destruct (Hon eq_refl) as (Hv & H1 & H2 & H3 & Hlen).
    rewrite snprintf_s_short by (unfold SYNCSZ; rewrite !length_app; cbn; rewrite !length_app; cbn; lia).
    unfold child_sync. rewrite take_ge by (unfold SYNCSZ; rewrite !length_app; cbn; rewrite !length_app; cbn; lia).
    cbn [app B list_ascii_of_string]. change " "%char with SP. rewrite Hm, Hv, scan_three by done.
    eexists. split; [reflexivity|]. done.
  - unfold child_sync. cbn. destruct (C_netmode n0); eexists; (split; [reflexivity|done]).
Qed.

(** ** The environment *)

(** The name and value of an entry. *)
Definition env_split (kv : bytes) : option (bytes * bytes) :=
  match strchr "="%char kv with
  | Some (S i) => Some (take (S i) kv, drop (S (S i)) kv)
  | _ => None
  end.

(** The value the entries give to a name, if they do: the last one. *)
Fixpoint env_last (name : bytes) (kvs : list bytes) : option bytes :=
  match kvs with
  | [] => None
  | kv :: kvs' =>
      match env_last name kvs' with
      | Some v => Some v
      | None => match env_split kv with
                | Some (k, v) => if decide (k = name) then Some v else None
                | None => None
                end
      end
  end.

Lemma env_entry_lookup e kv name :
  env_entry e kv !! name =
  match env_split kv with
  | Some (k, v) => if decide (k = name) then Some v else e !! name
  | None => e !! name
  end.
Proof.
  unfold env_entry, env_split. destruct (strchr "="%char kv) as [[|i]|] eqn:E; [done| |done].
  destruct kv as [|x kv]; [done|]. cbn [take setenv].
  case_decide as H; [subst; by rewrite lookup_insert_eq|by rewrite lookup_insert_ne].
Qed.

Lemma env_entries_lookup kvs e name :
  fold_left env_entry kvs e !! name = match env_last name kvs with Some v => Some v | None => e !! name end.
Proof.
  revert e. induction kvs as [|kv kvs IH]; intros e; cbn; [done|]. rewrite IH, env_entry_lookup.
  destruct (env_last name kvs); [done|]. destruct (env_split kv) as [[k v]|]; [|done]. by case_decide.
Qed.

Lemma setenvs_lookup (l : list (bytes * bytes)) (e : environ) (name : bytes) :
  NoDup l.*1 -> Forall (fun kv => kv.1 <> []) l ->
  fold_left (fun e kv => setenv kv.1 kv.2 e) l e !! name =
  match head (filter (fun kv => kv.1 = name) l) with Some kv => Some kv.2 | None => e !! name end.
Proof.
  revert e. induction l as [|[k v] l IH]; intros e Hnd Hne; [done|].
  cbn in Hnd. apply NoDup_cons in Hnd as [Hk Hnd]. apply Forall_cons in Hne as [Hkne Hne].
  cbn [fold_left fst snd]. rewrite IH by done. unfold setenv. destruct k as [|x k]; [done|].
  rewrite filter_cons. cbn [fst]. case_decide as Heq.
  - rewrite (filter_none _ l); [subst; cbn; by rewrite lookup_insert_eq|].
    apply Forall_forall. intros kv Hin E. apply Hk. rewrite Heq, <- E. by apply list_elem_of_fmap_2.
  - destruct (head _); [done|]. by rewrite lookup_insert_ne.
Qed.

(** The payload's environment: for every name the last [--env] or [--env-file]
    entry of that name, else the six defaults (or what the embedding caller
    passed); nothing of the supervisor's own environment. *)
Theorem child_env_exact c name :
  child_env None c !! name =
  match env_last name (p_env (c_pay c)) with
  | Some v => Some v
  | None => snd <$> head (filter (fun kv => kv.1 = name) env_defaults)
  end.
Proof.
  unfold child_env. rewrite env_entries_lookup. destruct (env_last name (p_env (c_pay c))); [done|].
  rewrite setenvs_lookup; [by destruct (head _)|by apply (bool_decide_unpack _)|by apply (bool_decide_unpack _)].
Qed.

(** ** [--ask] *)

Lemma land63 nr : 0 <= Z.land nr 63 < 64.
Proof. change 63 with (Z.ones 6). rewrite Z.land_ones by lia. apply Z.mod_pos_bound. lia. Qed.

Lemma always_mask_eq nr : always_mask nr = 2 ^ Z.land nr 63.
Proof.
  unfold always_mask, u64. pose proof (land63 nr). rewrite Z.shiftl_1_l, Z.mod_small; [done|].
  split; [lia|]. apply Z.pow_lt_mono_r; lia.
Qed.

Lemma land_pow2 w k : 0 <= k -> (Z.land w (2 ^ k) =? 0) = negb (Z.testbit w k).
Proof.
  intros Hk. destruct (Z.testbit w k) eqn:E; cbn.
  - apply Z.eqb_neq. intros H. apply (f_equal (fun z => Z.testbit z k)) in H.
    by rewrite Z.land_spec, E, Z.pow2_bits_true, Z.bits_0 in H.
  - apply Z.eqb_eq, Z.bits_inj'. intros j Hj. rewrite Z.land_spec, Z.bits_0, Z.pow2_bits_eqb by done.
    destruct (Z.eqb_spec k j) as [<-|]; [by rewrite E|by rewrite andb_false_r].
Qed.

Lemma is_always_bit al nr :
  is_always al nr = always_ok nr && Z.testbit (always_at al nr) (Z.land nr 63).
Proof.
  unfold is_always. rewrite always_mask_eq, land_pow2 by apply land63. by rewrite negb_involutive.
Qed.

Lemma word_bit m n :
  0 <= m -> 0 <= n -> Z.shiftr m 6 = Z.shiftr n 6 -> Z.land m 63 = Z.land n 63 -> m = n.
Proof.
  intros Hm Hn. change 63 with (Z.ones 6). rewrite !Z.land_ones, !Z.shiftr_div_pow2 by lia. intros.
  rewrite (Z.div_mod m (2 ^ 6)), (Z.div_mod n (2 ^ 6)) by lia. congruence.
Qed.

(** The bitmap is the set of its numbers. *)
Lemma is_always_set al n m :
  length al = 8%nat -> is_always (set_always al n) m = is_always al m || (always_ok n && (m =? n)).
Proof.
  intros Hl. rewrite !is_always_bit. unfold set_always. destruct (always_ok n) eqn:En; [|by rewrite orb_false_r].
  destruct (always_ok m) eqn:Em.
  2: { cbn [andb orb]. destruct (Z.eqb_spec m n); [subst; congruence|done]. }
  unfold always_ok in *. zbool. cbn [andb]. unfold always_at at 1.
  assert (forall x, 0 <= x < 512 -> (Z.to_nat (Z.shiftr x 6) < 8)%nat /\ 0 <= Z.shiftr x 6) as Hw.
  { intros x Hx. rewrite Z.shiftr_div_pow2 by lia. split; [|apply Z.div_pos; lia].
    apply Nat2Z.inj_lt. rewrite Z2Nat.id by (apply Z.div_pos; lia). apply Z.div_lt_upper_bound; lia. }
  destruct (Hw m ltac:(lia)), (Hw n ltac:(lia)).
  destruct (decide (Z.shiftr m 6 = Z.shiftr n 6)) as [E|E].
  - rewrite E, list_lookup_insert_eq by lia. cbn [default from_option id]. unfold always_at.
    rewrite Z.lor_spec, E, always_mask_eq, Z.pow2_bits_eqb by apply land63. f_equal.
    destruct (Z.eqb_spec m n) as [->|Hne]; [apply Z.eqb_refl|]. apply Z.eqb_neq. intros E2.
    by apply Hne, word_bit.
  - rewrite list_lookup_insert_ne by (intros E2; apply E; by apply Z2Nat.inj in E2).
    fold (always_at al m). destruct (Z.eqb_spec m n) as [->|]; [done|by rewrite orb_false_r].
Qed.

Lemma set_always_length al n : length (set_always al n) = length al.
Proof. unfold set_always. destruct (always_ok n); [apply length_insert|done]. Qed.

(** What the typed line says. *)
Definition typed_is (cs : list ascii) (tty : option bytes) : bool :=
  match tty with Some (c :: _) => bool_decide (c ∈ cs) | _ => false end.
Definition says_always : option bytes -> bool := typed_is ["a"; "A"]%char.
Definition says_yes : option bytes -> bool := typed_is ["y"; "Y"; "a"; "A"]%char.
Definition says_kill : option bytes -> bool := typed_is ["k"; "K"]%char.

(** A question that was answered "always" for this number. *)
Definition grants (nr : Z) (e : ask_in) : bool :=
  match ai_req e with
  | Some q => (nq_nr q =? nr) && always_ok nr && says_always (ai_tty e)
  | None => false
  end.

(** What one question does. *)
Definition ask_spec (waived : bool) (e : ask_in) : list act :=
  match ai_req e with
  | None => []
  | Some q =>
      let asked := negb waived && bool_decide (is_Some (ai_tty e)) in
      (if asked then [Prompt (nq_pid q) (nq_nr q)] else []) ++
      (if asked && says_kill (ai_tty e) then [KillPayload] else []) ++
      (if ai_valid e
       then [Send (nq_id q) (if waived || says_yes (ai_tty e) then Continue else Refuse)] else [])
  end.

Lemma typed_head cs typed :
  typed_is cs (Some typed) = match head typed with Some c => bool_decide (c ∈ cs) | None => false end.
Proof. by destruct typed. Qed.

(** The letters of the switch exclude each other. *)
Lemma letters c :
  let y := bool_decide (c = "y"%char \/ c = "Y"%char) in
  let a := bool_decide (c = "a"%char \/ c = "A"%char) in
  let k := bool_decide (c = "k"%char \/ c = "K"%char) in
  bool_decide (c ∈ ["k"; "K"]%char) = k /\ bool_decide (c ∈ ["a"; "A"]%char) = a /\
  bool_decide (c ∈ ["y"; "Y"; "a"; "A"]%char) = y || a /\
  (y = true -> a = false /\ k = false) /\ (a = true -> k = false).
Proof.
  cbv zeta. rewrite <- bool_decide_or. split_and!.
  1-3: apply bool_decide_ext; rewrite !elem_of_cons, elem_of_nil; tauto.
  - intros [-> | ->]%bool_decide_eq_true; by vm_compute.
  - intros [-> | ->]%bool_decide_eq_true; by vm_compute.
Qed.

(** One question, against the set of waived numbers. *)
Lemma ask_handle_spec e al :
  length al = 8%nat ->
  let '(acts, al') := ask_handle e al in
  acts = ask_spec (match ai_req e with Some q => is_always al (nq_nr q) | None => false end) e /\
  length al' = 8%nat /\ forall m, is_always al' m = is_always al m || grants m e.
Proof.
  intros Hl. unfold ask_handle, ask_spec, grants. destruct (ai_req e) as [q|].
  2: { split_and!; [done|done|]. intros m. by rewrite orb_false_r. }
  destruct (is_always al (nq_nr q)) eqn:Ea.
  { split_and!; [done|done|]. intros m. destruct (Z.eqb_spec (nq_nr q) m) as [<-|]; [by rewrite Ea|].
    by rewrite orb_false_r. }
  destruct (ai_tty e) as [typed|] eqn:Et.
  2: { split_and!; [by rewrite bool_decide_eq_false_2 by (intros [? ?]; done)|done|].
       intros m. cbn. by rewrite andb_false_r, orb_false_r. }
  unfold says_kill, says_yes, says_always. rewrite !typed_head.
  rewrite bool_decide_eq_true_2 by eauto. cbn [negb andb orb].
  destruct (head typed) as [c|]; cbn [ask_switch].
  2: { split_and!; [done|done|]. intros m. by rewrite andb_false_r, orb_false_r. }
  destruct (letters c) as (Ek & Ea' & Ey & Hy & Ha). rewrite Ek, Ea', Ey.
  destruct (bool_decide (c = "y"%char \/ _)).
  { destruct (Hy eq_refl) as [-> ->]. split_and!; [done|done|]. intros m. by rewrite andb_false_r, orb_false_r. }
  destruct (bool_decide (c = "a"%char \/ _)).
  { rewrite (Ha eq_refl). split_and!; [done|by rewrite set_always_length|]. intros m.
    rewrite is_always_set, andb_true_r by done. f_equal. rewrite Z.eqb_sym.
    destruct (Z.eqb_spec (nq_nr q) m) as [->|]; [by rewrite andb_true_r|by rewrite andb_false_r]. }
  destruct (bool_decide (c = "k"%char \/ _)); split_and!; try done;
    intros m; by rewrite andb_false_r, orb_false_r.
Qed.

Lemma ask_run_spec ins al past i e :
  length al = 8%nat -> (forall m, is_always al m = existsb (grants m) past) -> ins !! i = Some e ->
  ask_run ins al !! i =
  Some (ask_spec (match ai_req e with
                  | Some q => existsb (grants (nq_nr q)) (past ++ take i ins) | None => false end) e).
Proof.
  revert al past i. induction ins as [|x ins IH]; intros al past i Hl Hp Hi; [done|].
  cbn [ask_run]. pose proof (ask_handle_spec x al Hl) as Hs. destruct (ask_handle x al) as [acts al'].
  destruct Hs as (-> & Hl' & Hp'). destruct i as [|i]; cbn in Hi |- *.
  - injection Hi as ->. rewrite app_nil_r. destruct (ai_req e); [|done]. by rewrite Hp.
  - rewrite (IH al' (past ++ [x])); [|done| |done].
    + by rewrite <- app_assoc.
    + intros m. rewrite Hp', Hp, existsb_app. cbn. by rewrite orb_false_r.
Qed.

(** C19. [--ask], over any sequence of parked calls: a call continues exactly when
    the user typed y or a for it, or typed a for an earlier call of the same
    number (below 512), in which case nobody is asked; without a terminal it is
    refused; k kills the payload; and a notification gets at most one answer,
    only while it is valid. *)
Theorem ask_exact ins i e :
  ins !! i = Some e ->
  let waived := match ai_req e with
                | Some q => existsb (grants (nq_nr q)) (take i ins) | None => false end in
  ask_run ins always0 !! i = Some (ask_spec waived e).
Proof.
  intros Hi waived. apply (ask_run_spec ins always0 [] i e); [done| |done].
  intros m. rewrite is_always_bit. unfold always_at, always0. cbn [existsb].
  rewrite andb_false_iff. right. destruct (replicate 8 0 !! _) as [w|] eqn:E; [|apply Z.bits_0].
  apply lookup_replicate in E as [-> _]. apply Z.bits_0.
Qed.

(** ** Waiting *)

Definition first_some (l : list (option Z)) : option Z := head (omap id l).

Lemma wait_loop_spec left polls fin :
  0 <= left -> (Z.to_nat left < length polls)%nat ->
  wait_loop left polls fin =
  Some (match first_some (take (S (Z.to_nat left)) polls) with
        | Some st => Ended st false | None => Ended fin true end).
Proof.
  revert left. induction polls as [|p ps IH]; intros left Hl Hlen; cbn in Hlen; [lia|].
  destruct p as [st|]; [done|]. cbn [wait_loop]. destruct (Z.leb_spec left 0) as [H|H].
  - replace left with 0 by lia. done.
  - rewrite IH by lia. by replace (Z.to_nat left) with (S (Z.to_nat (left - 1))) by lia.
Qed.

(** The [--ask] loop goes on after a tick. *)
Definition goes_on (t0 timeout : Z) (t : ask_tick) : Prop :=
  at_wait t = None /\ (0 < timeout -> at_now t - t0 < timeout).

Lemma not_goes_on t0 timeout t :
  ~ goes_on t0 timeout t -> at_wait t = None -> 0 < timeout /\ timeout <= at_now t - t0.
Proof.
  intros H E. destruct (Z.lt_ge_cases 0 timeout) as [H1|H1]; [|exfalso; apply H; split; [done|lia]].
  split; [done|]. destruct (Z.le_gt_cases timeout (at_now t - t0)); [done|].
  exfalso. apply H. split; [done|lia].
Qed.

Lemma ask_loop_spec t0 timeout pre t post fin al :
  Forall (goes_on t0 timeout) pre -> ~ goes_on t0 timeout t ->
  ask_loop t0 timeout (pre ++ t :: post) fin al =
  (concat (ask_run (omap at_in (pre ++ [t])) al) ++
     match at_wait t with Some _ => [] | None => [KillPayload] end,
   Some (match at_wait t with Some st => Ended st false | None => Ended fin true end)).
Proof.
  intros Hpre Ht. revert al. induction Hpre as [|x pre [Hw Hn] Hpre IH]; intros al; cbn [app ask_loop].
  - cbn [omap list_omap]. destruct (at_in t) as [i|]; cbn; [destruct (ask_handle i al) as [acts al']|].
    all: destruct (at_wait t) eqn:E; [cbn; by rewrite ?app_nil_r|].
    all: destruct (not_goes_on t0 timeout t Ht E) as [H1 H2].
    all: rewrite (proj2 (Z.ltb_lt _ _)), (proj2 (Z.leb_le _ _)) by done; cbn; by rewrite ?app_nil_r.
  - assert ((0 <? timeout) && (timeout <=? at_now x - t0) = false) as Hc.
    { destruct (Z.ltb_spec 0 timeout) as [H0|H0]; [|done]. cbn. apply Z.leb_gt. auto. }
    cbn [omap list_omap]. destruct (at_in x) as [i|].
    + cbn [ask_run]. destruct (ask_handle i al) as [acts al']. rewrite Hw, Hc, IH. cbn. by rewrite <- app_assoc.
    + by rewrite Hw, Hc, IH.
Qed.

(** C35. [--timeout] is enforced: without [--ask] the loop ends within that many
    seconds, with the payload's own status if it ended by then and otherwise
    with the payload killed; with [--ask] it ends at the first turn that finds
    the payload reaped or the time up, after answering exactly the questions of
    the turns up to it: with the payload's own status, and no kill, if it was
    reaped (before the time or not), with the payload killed otherwise.  (A turn
    lasts as long as the question it asks.) *)
Theorem timeout_enforced timeout fin :
  0 < timeout ->
  (forall polls, (Z.to_nat timeout < length polls)%nat ->
     wait_loop timeout polls fin =
     Some (match first_some (take (S (Z.to_nat timeout)) polls) with
           | Some st => Ended st false | None => Ended fin true end)) /\
  (forall t0 pre t post al,
     Forall (fun x => at_wait x = None /\ at_now x - t0 < timeout) pre ->
     (is_Some (at_wait t) \/ timeout <= at_now t - t0) ->
     ask_loop t0 timeout (pre ++ t :: post) fin al =
     (concat (ask_run (omap at_in (pre ++ [t])) al) ++
        match at_wait t with Some _ => [] | None => [KillPayload] end,
      Some (match at_wait t with Some st => Ended st false | None => Ended fin true end))).
Proof.
  intros Ht. split; [intros; apply wait_loop_spec; [lia|done]|].
  intros t0 pre t post al Hpre Hnow. apply ask_loop_spec.
  2: { intros [Hw H]. specialize (H Ht). destruct Hnow as [[? ?]|]; [congruence|lia]. }
  eapply Forall_impl; [exact Hpre|]. by intros x [? ?].
Qed.

(** ** [serve] *)

Definition tick_client (t : serve_tick) : option Z :=
  match st_poll t with PollOk _ client => client | _ => None end.

(** Where the supervisor is after handing over [sent]. *)
Definition handed (s s' : sup) (sent all : list Z) (out : bool) : Prop :=
  su_sent s' = su_sent s ++ sent /\ su_execs s' = su_execs s + Z.of_nat (length sent) /\
  su_infos s' = su_infos s ++ seqZ (su_execs s + 1) (Z.of_nat (length sent)) /\
  sent `prefix_of` all /\ (out = false -> sent = all).

Lemma handed_stop s all : handed s s [] all true.
Proof.
  unfold handed. cbn [length]. rewrite !app_nil_r, Z.add_0_r.
  split_and!; [done..|apply prefix_nil|done].
Qed.

Lemma handed_client s s' fd sent all out :
  handed (serve_client (Some fd) s) s' sent all out -> handed s s' (fd :: sent) (fd :: all) out.
Proof.
  intros (E1 & E2 & E3 & Hp & Hl). cbn in E1, E2, E3. unfold handed. rewrite E1, E2, E3, <- !app_assoc.
  cbn [length app]. replace (Z.of_nat (S (length sent))) with (Z.succ (Z.of_nat (length sent))) by lia.
  rewrite (seqZ_cons (su_execs s + 1)) by lia. rewrite Z.pred_succ.
  split_and!; [done|lia|done|by apply prefix_cons|]. intros H. by rewrite Hl.
Qed.

Lemma serve_loop_spec ts s :
  exists sent, handed s (serve_loop ts s).1 sent (omap tick_client ts) (serve_loop ts s).2.
Proof.
  revert s. induction ts as [|[stop poll reaped] ts IH]; intros s.
  { exists []. unfold handed. cbn. by rewrite !app_nil_r, Z.add_0_r. }
  cbn. destruct stop; [exists []; apply handed_stop|].
  destruct poll as [| |[] client]; [apply IH|exists []; apply handed_stop..|].
  destruct client as [fd|].
  - destruct reaped.
    + exists [fd]. apply handed_client, handed_stop.
    + destruct (IH (serve_client (Some fd) s)) as [sent H]. exists (fd :: sent). by apply handed_client.
  - destruct reaped; [exists []; apply handed_stop|apply IH].
Qed.

Lemma jail_server_all l : jail_server (((fun fd => Some (Some fd)) <$> l) ++ [None]) = l.
Proof. induction l as [|x l IH]; [done|]. cbn. by rewrite IH. Qed.

(** [serve] end to end: whatever the turns of the supervisor's loop meet, it
    hands over the clients in the order they came, each once, up to the turn at
    which it stops; [g_execs] counts them and every count was written to the
    info file; and the jail serves exactly the clients handed over, in order,
    until the supervisor is gone. *)
Theorem serve_hands_over ts :
  let '(s, out) := serve_loop ts (Sup [] 0 []) in
  su_sent s `prefix_of` omap tick_client ts /\ (out = false -> su_sent s = omap tick_client ts) /\
  su_execs s = Z.of_nat (length (su_sent s)) /\ su_infos s = seqZ 1 (su_execs s) /\
  jail_server (((fun fd => Some (Some fd)) <$> su_sent s) ++ [None]) = su_sent s.
Proof.
  destruct (serve_loop_spec ts (Sup [] 0 [])) as [sent H].
  destruct (serve_loop ts (Sup [] 0 [])) as [s out].
  destruct H as (E1 & E2 & E3 & Hp & Hl). cbn in E1, E2, E3, Hl. rewrite E3, E2, E1.
  split_and!; [done|done|done|done|apply jail_server_all].
Qed.

(** ** The payload *)

Section Started.
Context `{M : CbpfMachine} (hdr : llhdr) (sizeof_attr : nat) (k : kernel) (t : target) (newroot : bytes).
Context (h : hostfs) (serve : bool) (spawn : option (list bytes)) (msg : bytes) (c : cfg) (j : jail).
Hypothesis started : child_main hdr sizeof_attr k t newroot h serve spawn msg c = Started j.


End Started.



(** ** Behaviours the comments do not promise *)

Definition ex_kernel (umount_old : bool) : kernel :=
  Kernel yes true true true umount_old true 5 (ll_kernel 5) (fun _ _ => true) true true 0 (fun _ _ => 3).

Abbreviation ex_child umount_old :=
  (child_main linux_hdr 24 (ex_kernel umount_old) T_x86_64 ex_root ex_host false None (B "x") (ex_cfg [] [])).

(** The result of [umount2("/.put_old")] is ignored: when it fails the payload is
    started with the host's root still mounted in the cell. *)
Theorem put_old_unchecked :
  match ex_child false with
  | Started j => shows (mount_table no_sub (j_mounts j)) (ex_root ++ B "/.put_old/etc/shadow") = Some HostRoot
  | _ => False
  end.
Proof. by vm_compute. Qed.

(** A question outlives [--timeout]: the loop that enforces it is the one that
    waits for the answer, so a payload with a time limit of five seconds is still
    given its call after a thousand. *)
Theorem ask_outlives_timeout :
  ask_loop 0 5 [AskTick (Some (AskIn (Some (Notif 7 100 165)) (Some (B "y")) true)) None 1000] 9 always0 =
  ([Prompt 100 165; Send 7 Continue; KillPayload], Some (Ended 9 true)).
Proof. by vm_compute. Qed.

(** ** Witnesses *)

Lemma sync_roundtrip_witness :
  exists n', child_sync (B "x av7 10.200.7.2 10.200.7.1") (NetCfg [] [] NET_VETH [] [] [] false) =
    Some (true, n') /\ C_veth_gw n' = B "10.200.7.1".
Proof.
  destruct (sync_roundtrip (NetCfg [] [] NET_VETH (B "av7") (B "10.200.7.2") (B "10.200.7.1") true)
    (NetCfg [] [] NET_VETH [] [] [] false) eq_refl) as (n' & E & H).
  - intros _. unfold rword. split_and!; done || (cbn; lia).
  - exists n'. split; [exact E|]. by apply H.
Defined.

Lemma ask_exact_witness :
  ask_run [AskIn (Some (Notif 1 100 165)) (Some (B "a")) true; AskIn (Some (Notif 2 100 165)) None true] always0
    !! 1%nat = Some [Send 2 Continue].
Proof. exact (ask_exact [AskIn _ _ _; AskIn _ _ _] 1 _ eq_refl). Defined.

Lemma timeout_enforced_witness :
  wait_loop 2 [None; None; None] 9 = Some (Ended 9 true) /\
  ask_loop 0 2 [AskTick None None 0; AskTick None (Some 7) 1] 9 always0 = ([], Some (Ended 7 false)).
Proof.
  split.
  - refine (proj1 (timeout_enforced 2 9 _) [None; None; None] _); [done|cbn; lia].
  - refine (proj2 (timeout_enforced 2 9 _) 0 [AskTick None None 0] (AskTick None (Some 7) 1) [] always0 _ _);
      [done|by repeat constructor|left; by eexists].
Defined.


