(* ===== verification/Info.v ===== *)
(** * Side files and cgroups of a cell

    [sand.c]: the info file beside a cell's socket ([write_info], [cell_info]),
    the cgroup statistics ([cg_stat], [cg_num], [fmt_human]), the listings
    [list_cells] and [top_cells], and [cgroup_setup].  Files are their bytes
    ([None]: cannot be opened), directories the names [readdir] yields. *)

From S2P Require Import Prelude CString Client Config.
Local Open Scope Z_scope.

(** ** The info file *)

Record info := Info {
  in_sup : Z; in_jail : Z; in_started : Z; in_cg : bytes; in_execs : Z; in_secure : Z; in_cgid : Z
}.

(** [in_cg] is [g_cgpath], or "-" without a cgroup. *)
Definition write_info (i : info) : bytes :=
  B "sup=" ++ print_d (in_sup i) ++ NL :: B "jail=" ++ print_d (in_jail i) ++
  NL :: B "started=" ++ print_d (in_started i) ++ NL :: B "cg=" ++ in_cg i ++
  NL :: B "execs=" ++ print_d (in_execs i) ++ NL :: B "secure=" ++ print_d (in_secure i) ++
  NL :: B "cgid=" ++ print_u (in_cgid i) ++ [NL].

(** What [cell_info] fills in. *)
Record cellinfo := CellInfo {
  ci_sup : Z; ci_jail : Z; ci_started : Z; ci_cg : bytes; ci_execs : Z
}.

Definition cell_info_line (cgn : nat) (c : cellinfo) (line : bytes) : cellinfo :=
  if starts_with (B "sup=") line
  then CellInfo (atoi (drop 4 line)) (ci_jail c) (ci_started c) (ci_cg c) (ci_execs c)
  else if starts_with (B "jail=") line
  then CellInfo (ci_sup c) (atoi (drop 5 line)) (ci_started c) (ci_cg c) (ci_execs c)
  else if starts_with (B "started=") line
  then CellInfo (ci_sup c) (ci_jail c) (atol (drop 8 line)) (ci_cg c) (ci_execs c)
  else if starts_with (B "cg=") line
  then CellInfo (ci_sup c) (ci_jail c) (ci_started c) (snprintf_s cgn (drop 3 (chomp line))) (ci_execs c)
  else if starts_with (B "execs=") line
  then CellInfo (ci_sup c) (ci_jail c) (ci_started c) (ci_cg c) (atol (drop 6 line))
  else c.

(** [None]: -1.  [c] holds what the caller's variables had. *)
Definition cell_info (file : option bytes) (cgn : nat) (c : cellinfo) : option cellinfo :=
  match file with
  | None => None
  | Some s =>
      Some (fold_left (cell_info_line cgn) (fgets_lines 256 s)
              (CellInfo (ci_sup c) (ci_jail c) (ci_started c) [] (ci_execs c)))
  end.

(** ** Statistics *)

(** The loop of [cg_stat]; [v] is the variable of the source, which a line with
    another key overwrites too. *)
Fixpoint cg_stat_loop (lines : list bytes) (key : bytes) (v : Z) : Z :=
  match lines with
  | [] => v
  | l :: ls =>
      match scan_str 63 l with
      | None => cg_stat_loop ls key v
      | Some (k, r) =>
          match scan_ld r with
          | None => cg_stat_loop ls key v
          | Some (n, _) => if decide (k = key) then n else cg_stat_loop ls key n
          end
      end
  end.

Definition cg_stat (file : option bytes) (key : bytes) : Z :=
  match file with None => -1 | Some s => cg_stat_loop (fgets_lines 256 s) key (-1) end.

Definition cg_num (file : option bytes) : Z :=
  match file with
  | None => -1
  | Some s => match scan_ld s with Some (v, _) => v | None => -1 end
  end.

(** [n] tenths of [d], ties to even, as ["%.1f"] of an exactly representable
    quotient. *)
Definition tenths (n d : Z) : Z :=
  let q := 10 * n / d in
  let r := (10 * n) mod d in
  if (d <? 2 * r) || ((2 * r =? d) && Z.odd q) then q + 1 else q.

(** [bytes / 1073741824.0] is exact below 2^53, which memory sizes are. *)
Definition fmt_human (n : Z) (size : nat) : bytes :=
  snprintf_s size
    (if n <? 0 then B "-"
     else if n <? 2 ^ 20 then print_d (Z.shiftr n 10) ++ B "K"
     else if n <? 2 ^ 30 then print_d (Z.shiftr n 20) ++ B "M"
     else let t := tenths n (2 ^ 30) in print_d (t / 10) ++ B "." ++ print_d (t mod 10) ++ B "G").

(** ** Listings *)

(** ["%-Ns"] and ["%02ld"]. *)
Definition pad_right (n : nat) (s : bytes) : bytes := s ++ replicate (n - length s) SP.
Definition pad_zero (n : nat) (s : bytes) : bytes := replicate (n - length s) "0"%char ++ s.

(** The name test of the directory loops. *)
Definition is_sock_name (name : bytes) : bool :=
  (5 <=? length name)%nat && bool_decide (drop (length name - 5) name = B ".sock") &&
  starts_with (B "agentcell-") name.

(** What a listing reads of the system. *)
Record hoststate := HostState {
  hs_file : bytes -> option bytes;
  hs_alive : Z -> bool;             (* [kill(pid, 0)] does not fail with [ESRCH] *)
  hs_now : Z
}.

Definition RUNTIME (xdg : option bytes) : bytes := match xdg with Some r => r | None => B "/tmp" end.

Definition cg_file (cg file : bytes) : bytes := snprintf_s PATH_MAX (cg ++ SLASH :: file).

(** One row of [sand cells]; [None]: the entry is skipped. *)
Definition list_row (h : hoststate) (rt name : bytes) : option bytes :=
  if negb (is_sock_name name) then None
  else
    let base := snprintf_s PATH_MAX (rt ++ SLASH :: name) in
    c ← cell_info (hs_file h (snprintf_s PATH_MAX (base ++ B ".info"))) PATH_MAX (CellInfo 0 0 0 [] 0);
    if negb (hs_alive h (ci_sup c)) then None
    else
      let up := hs_now h - ci_started c in
      let has := negb (bool_decide (ci_cg c = [])) && negb (bool_decide (ci_cg c = B "-")) in
      let num f := if has then cg_num (hs_file h (cg_file (ci_cg c) (B f))) else -1 in
      let mem := fmt_human (num "memory.current"%string) 16 in
      let usec := if has then cg_stat (hs_file h (cg_file (ci_cg c) (B "cpu.stat"))) (B "usage_usec")
                  else -1 in
      let pids := num "pids.current"%string in
      Some (pad_right 22 name ++ SP :: pad_right 8 (print_d (ci_sup c)) ++
            SP :: pad_zero 2 (print_d (Z.quot up 3600)) ++ COLON :: pad_zero 2 (print_d (Z.rem (Z.quot up 60) 60)) ++
            COLON :: pad_zero 2 (print_d (Z.rem up 60)) ++ SP :: pad_right 8 (print_d (ci_execs c)) ++
            SP :: pad_right 7 (print_d (if usec <? 0 then -1 else Z.quot usec 1000000)) ++
            SP :: pad_right 7 mem ++ SP :: print_d pids ++ [NL]).

(** Exit status and rows; [names]: [readdir]'s, [None] when [opendir] fails. *)
Definition list_cells (h : hoststate) (xdg : option bytes) (names : option (list bytes)) : Z * list bytes :=
  match names with
  | None => (1, [])
  | Some ns => let rows := omap (list_row h (RUNTIME xdg)) ns in
               (if (length rows =? 0)%nat then 1 else 0, rows)
  end.

(** The path [sand top] derives from its argument; [None]: not a cell socket. *)
Definition top_base (sock : bytes) : option bytes :=
  match strstr (B ".sock") sock with
  | Some i => Some (snprintf_s PATH_MAX (take (i + 5) sock))
  | None => None
  end.

(** One line of [sand top], and the usage it keeps for the next. *)
Definition top_line (h : hoststate) (c : cellinfo) (prev : Z) : bytes * Z :=
  let f x := hs_file h (cg_file (ci_cg c) (B x)) in
  let usec := cg_stat (f "cpu.stat"%string) (B "usage_usec") in
  let pad6 s := replicate (6 - length s) SP ++ s in
  (CR :: B "cpu " ++ pad6 (print_d (Z.quot (usec - prev) 1000)) ++ B "ms/s  mem " ++
     fmt_human (cg_num (f "memory.current"%string)) 16 ++ SLASH :: fmt_human (cg_num (f "memory.max"%string)) 16 ++
     B "  pids " ++ print_d (cg_num (f "pids.current"%string)) ++ B "  execs " ++ print_d (ci_execs c) ++ B "    ",
   usec).

(** [sand top]: a line a second, the info read again after each (a failed read
    keeps the old values). *)
Fixpoint top_loop (base : bytes) (c : cellinfo) (prev : Z) (hs : list hoststate) : list bytes :=
  match hs with
  | [] => []
  | h :: hs' =>
      let '(line, usec) := top_line h c prev in
      let c := default c (cell_info (hs_file h (snprintf_s PATH_MAX (base ++ B ".info"))) PATH_MAX c) in
      line :: top_loop base c usec hs'
  end.
