(* ===== verification/Cgroup.v ===== *)
(** * The cgroup of a cell

    [sand.c]: [cgroup_setup] as the list of file-system calls it makes, from the
    text of [/proc/self/cgroup] and the answers of [mkdir] and [stat]. *)

From S2P Require Import Prelude CString Client Config.
Local Open Scope Z_scope.

(** Calls: [write_file], whose failure is only a warning, and [mkdir]. *)
Inductive cgop := CgWrite (path val : bytes) | CgMkdir (path : bytes).
#[export] Instance cgop_eq_dec : EqDecision cgop.
Proof. solve_decision. Defined.

(** The path after ["0::"], of the last such line. *)
Definition cg_self (file : bytes) : bytes :=
  fold_left (fun self line =>
    if starts_with (B "0::") line then snprintf_s PATH_MAX (drop 3 (chomp line)) else self)
    (fgets_lines 512 file) [].

(** Cut back to the delegated unit. *)
Definition cg_cut (base : bytes) : bytes :=
  match strstr (B ".service") base with
  | Some i =>
      match drop (i + 8) base with
      | c :: _ => if decide (c = SLASH) then take (i + 8) base else base
      | [] => base
      end
  | None =>
      match strstr (B "/user@") base with
      | Some i => match strchr SLASH (drop (i + 1) base) with
                  | Some j => take (i + 1 + j) base
                  | None => base
                  end
      | None => base
      end
  end.

Definition cg_base (self : bytes) : bytes := cg_cut (snprintf_s PATH_MAX (B "/sys/fs/cgroup" ++ self)).

Definition cg_path (dir : bytes) (file : string) : bytes := snprintf_s PATH_MAX (dir ++ SLASH :: B file).

(** The line of [io.max]: [off] is what the previous [snprintf]s returned. *)
Definition io_line (major minor : Z) (l : limits) : bytes :=
  let v := snprintf_s 64 (print_u major ++ COLON :: print_u minor) in
  let v := if l_rbps l =? 0 then v else v ++ snprintf_s (64 - length v) (B " rbps=" ++ print_d (l_rbps l)) in
  if l_wbps l =? 0 then v else v ++ snprintf_s (64 - length v) (B " wbps=" ++ print_d (l_wbps l)).

(** What it did, [g_cgpath] and [g_have_cg].  [file]: [/proc/self/cgroup];
    [dev]: the device of the workspace, [None] when [stat] fails. *)
Definition cgroup_setup (file : option bytes) (pid : Z) (mkdir_ok : bool) (dev : option (Z * Z)) (c : cfg)
    : list cgop * bytes * bool :=
  match file with
  | None => ([], [], false)
  | Some s =>
      match cg_self s with
      | [] => ([], [], false)
      | self =>
          let l := c_lim c in
          let io := negb (l_rbps l =? 0) || negb (l_wbps l =? 0) in
          let base := cg_base self in
          let ctl := cg_path base "cgroup.subtree_control" in
          let arm := CgWrite ctl (B "+cpu +memory +pids") :: (if io then [CgWrite ctl (B "+io")] else []) in
          let cg := snprintf_s PATH_MAX (base ++ B "/agentcell-" ++ print_d pid) in
          if negb mkdir_ok then (arm, cg, false)
          else
            (arm ++ [CgMkdir cg; CgWrite (cg_path cg "cpu.max") (l_cpu l);
                     CgWrite (cg_path cg "memory.max") (snprintf_s 64 (print_d (l_mem l)));
                     CgWrite (cg_path cg "pids.max") (snprintf_s 64 (print_d (l_pids l)))] ++
             match dev with
             | Some (ma, mi) => if io then [CgWrite (cg_path cg "io.max") (io_line ma mi l)] else []
             | None => []
             end, cg, true)
      end
  end.
