(* ===== verification/InfoThms.v ===== *)
(** * Side files and cgroups: theorems

    The info file is read back as it was written, statistics are the values of
    their keys, and a cell's limits are exactly those of its configuration, in a
    cgroup below the delegated unit. *)

From S2P Require Import Prelude CString Client ClientThms Config ConfigThms Info Cgroup.
Local Open Scope Z_scope.

(** ** Lines of a file *)

Lemma strchr_first c l r : c ∉ l -> strchr c (l ++ c :: r) = Some (length l).
Proof.
  induction l as [|x l IH]; intros Hc; cbn; [by rewrite decide_True|].
  apply not_elem_of_cons in Hc as [Hx Hc]. rewrite decide_False by congruence. by rewrite IH.
Qed.

Lemma fgets_fuel_enough n fuel s :
  (1 < n)%nat -> (length s <= fuel)%nat -> fgets_fuel fuel n s = fgets_lines n s.
Proof.
  intros Hn. unfold fgets_lines. remember (length s) as m eqn:Em. revert fuel s Em.
  induction m as [m IH] using lt_wf_ind. intros fuel s -> Hl.
  destruct s as [|c s]; [by destruct fuel|]. destruct fuel as [|fuel]; [cbn in Hl; lia|].
  cbn [fgets_fuel length]. set (k := match strchr NL _ with Some i => S i | None => _ end). f_equal.
  assert (0 < k)%nat as Hk by (unfold k; destruct (strchr _ _); lia).
  assert (length (drop k (c :: s)) <= length s)%nat as Hd by (rewrite length_drop; cbn; lia).
  cbn [length] in Hl. transitivity (fgets_fuel (length (drop k (c :: s))) n (drop k (c :: s))).
  - apply IH; [cbn [length]; lia|done|lia].
  - symmetry. apply IH; [cbn [length]; lia|done|lia].
Qed.

Lemma fgets_line n l rest :
  (1 < n)%nat -> NL ∉ l -> (length l < n - 1)%nat ->
  fgets_lines n (l ++ NL :: rest) = (l ++ [NL]) :: fgets_lines n rest.
Proof.
  intros Hn Hl Hlen.
  assert (strchr NL (take (n - 1) (l ++ NL :: rest)) = Some (length l)) as E.
  { rewrite take_app_ge by lia. destruct (n - 1 - length l)%nat eqn:Ek; [lia|]. by apply strchr_first. }
  assert (exists c s, l ++ NL :: rest = c :: s) as (c & s & Ec) by (destruct l; eauto).
  unfold fgets_lines at 1. rewrite Ec. cbn [length fgets_fuel]. rewrite <- Ec, E.
  replace (S (length l)) with (length (l ++ [NL])) by (rewrite length_app; cbn; lia).
  replace (l ++ NL :: rest) with ((l ++ [NL]) ++ rest) by by rewrite <- app_assoc.
  rewrite take_app_length, drop_app_length. f_equal. apply fgets_fuel_enough; [done|].
  apply (f_equal length) in Ec. rewrite length_app in Ec. cbn in Ec. lia.
Qed.

(** ** The info file *)

Lemma atol_print n r : 0 <= n < 2 ^ 63 -> stops isdigit r -> atol (print_d n ++ r) = n.
Proof.
  intros Hn Hr. unfold atol, print_d. rewrite (proj2 (Z.ltb_ge _ _)) by lia. by rewrite strtol_print.
Qed.

Lemma print_d_no_nl n : 0 <= n -> NL ∉ print_d n.
Proof.
  intros Hn. unfold print_d. rewrite (proj2 (Z.ltb_ge _ _)) by lia.
  destruct (print_u_spec n Hn) as (Hd & _). intros Hin.
  eapply forallb_forall in Hd; [|by apply list_elem_of_In]. done.
Qed.

(** A [key=value] line. *)
Lemma fgets_kv key v rest :
  NL ∉ key -> NL ∉ v -> (length key + length v < 255)%nat ->
  fgets_lines 256 (key ++ v ++ NL :: rest) = (key ++ v ++ [NL]) :: fgets_lines 256 rest.
Proof.
  intros Hk Hv Hl. rewrite !(app_assoc key). apply fgets_line; [lia| |rewrite length_app; lia].
  by apply not_elem_of_app.
Qed.

Lemma fgets_num key n rest :
  NL ∉ key -> (length key <= 16)%nat -> 0 <= n < 2 ^ 64 ->
  fgets_lines 256 (key ++ print_d n ++ NL :: rest) = (key ++ print_d n ++ [NL]) :: fgets_lines 256 rest.
Proof.
  intros Hk Hl Hn. apply fgets_kv; [done|apply print_d_no_nl; lia|].
  pose proof (print_d_length n 64 ltac:(rewrite Z.abs_eq; lia)). lia.
Qed.

Lemma atoi_print n : 0 <= n < 2 ^ 31 -> atoi (print_d n ++ [NL]) = n.
Proof. intros Hn. unfold atoi. rewrite atol_print by (reflexivity || lia). by rewrite s32_small by lia. Qed.

(** Numbers the supervisor writes, and a path that fits the reader's line. *)
Record info_ok (i : info) : Prop := {
  io_sup : 0 <= in_sup i < 2 ^ 31;
  io_jail : 0 <= in_jail i < 2 ^ 31;
  io_started : 0 <= in_started i < 2 ^ 63;
  io_cg : (NL ∉ in_cg i) /\ (length (in_cg i) <= 251)%nat;
  io_execs : 0 <= in_execs i < 2 ^ 63;
  io_secure : 0 <= in_secure i < 2 ^ 31;
  io_cgid : 0 <= in_cgid i < 2 ^ 64
}.

Lemma write_info_lines i :
  info_ok i ->
  fgets_lines 256 (write_info i) =
  [B "sup=" ++ print_d (in_sup i) ++ [NL]; B "jail=" ++ print_d (in_jail i) ++ [NL];
   B "started=" ++ print_d (in_started i) ++ [NL]; B "cg=" ++ in_cg i ++ [NL];
   B "execs=" ++ print_d (in_execs i) ++ [NL]; B "secure=" ++ print_d (in_secure i) ++ [NL];
   B "cgid=" ++ print_d (in_cgid i) ++ [NL]].
Proof.
  intros [? ? ? [Hcg Hlen] ? ? ?]. unfold write_info.
  assert (print_u (in_cgid i) = print_d (in_cgid i)) as ->.
  { unfold print_d. by rewrite (proj2 (Z.ltb_ge _ _)) by lia. }
  rewrite !fgets_num by ((by apply (bool_decide_unpack _)) || (cbn; lia) || lia).
  rewrite fgets_kv by ((by apply (bool_decide_unpack _)) || done || (cbn; lia)).
  by rewrite !fgets_num by ((by apply (bool_decide_unpack _)) || (cbn; lia) || lia).
Qed.

Lemma chomp_line l : NL ∉ l -> chomp (l ++ [NL]) = l.
Proof. intros H. unfold chomp. rewrite strchr_first by done. by rewrite take_app_length. Qed.

(** What each kind of line does. *)
Lemma cell_info_keys n c r :
  cell_info_line n c (B "sup=" ++ r) = CellInfo (atoi r) (ci_jail c) (ci_started c) (ci_cg c) (ci_execs c) /\
  cell_info_line n c (B "jail=" ++ r) = CellInfo (ci_sup c) (atoi r) (ci_started c) (ci_cg c) (ci_execs c) /\
  cell_info_line n c (B "started=" ++ r) = CellInfo (ci_sup c) (ci_jail c) (atol r) (ci_cg c) (ci_execs c) /\
  cell_info_line n c (B "execs=" ++ r) = CellInfo (ci_sup c) (ci_jail c) (ci_started c) (ci_cg c) (atol r) /\
  cell_info_line n c (B "secure=" ++ r) = c /\ cell_info_line n c (B "cgid=" ++ r) = c.
Proof. split_and!; reflexivity. Qed.

Lemma cell_info_cg n c r :
  NL ∉ r -> (length r < n)%nat ->
  cell_info_line n c (B "cg=" ++ r ++ [NL]) = CellInfo (ci_sup c) (ci_jail c) (ci_started c) r (ci_execs c).
Proof.
  intros Hr Hl. unfold cell_info_line. rewrite (app_assoc (B "cg=")), chomp_line.
  - cbn [app B list_ascii_of_string drop]. by rewrite snprintf_s_short.
  - apply not_elem_of_app. split; [by apply (bool_decide_unpack _)|done].
Qed.

(** C30. The info file is read back as it was written, for a cgroup path of at
    most 251 bytes without a newline and values in the range of their types:
    [cell_info] on what [write_info] wrote gives the supervisor's and the jail's
    pid, the start time, the cgroup and the number of execs, whatever the reader's
    variables held.  (The two other fields, [secure] and [cgid], are written and
    not read by it; a longer path is cut: [info_long_cgroup].) *)
Theorem info_roundtrip i n c :
  info_ok i -> (251 < n)%nat ->
  cell_info (Some (write_info i)) n c =
  Some (CellInfo (in_sup i) (in_jail i) (in_started i) (in_cg i) (in_execs i)).
Proof.
  intros Hi Hn. unfold cell_info. rewrite write_info_lines by done. destruct Hi as [? ? ? [Hcg Hlen] ? ? ?].
  cbn [fold_left]. pose proof (cell_info_keys n) as K.
  rewrite (proj1 (K _ _)), (proj1 (proj2 (K _ _))), (proj1 (proj2 (proj2 (K _ _)))).
  rewrite cell_info_cg by (done || lia).
  rewrite (proj1 (proj2 (proj2 (proj2 (K _ _))))), (proj1 (proj2 (proj2 (proj2 (proj2 (K _ _)))))),
    (proj2 (proj2 (proj2 (proj2 (proj2 (K _ _)))))).
  cbn [ci_sup ci_jail ci_started ci_cg ci_execs].
  by rewrite !atoi_print, !atol_print by (reflexivity || lia).
Qed.

(** ** Statistics *)

(** A line of a statistics file. *)
Definition stat_line (e : bytes * Z) : bytes := e.1 ++ SP :: print_d e.2 ++ [NL].
Definition stat_ok (e : bytes * Z) : Prop := rword e.1 /\ (NL ∉ e.1) /\ 0 <= e.2 < 2 ^ 63.

Lemma scan_ld_print n r : 0 <= n < 2 ^ 63 -> stops isdigit r -> scan_ld (SP :: print_d n ++ r) = Some (n, r).
Proof.
  intros Hn Hr. unfold scan_ld, strtol, print_d. rewrite (proj2 (Z.ltb_ge _ _)), scan_int_skip_space by (done || lia).
  rewrite scan_int_print_u by (done || lia). unfold LONG_MAX, LONG_MIN. by rewrite Z.min_r, Z.max_r by lia.
Qed.

Lemma stat_lines es :
  Forall stat_ok es -> fgets_lines 256 (concat (stat_line <$> es)) = stat_line <$> es.
Proof.
  induction 1 as [|[k v] es ((_ & _ & Hl) & Hn & Hv) Hes IH]; [done|]. cbn [fmap list_fmap concat fst snd] in *.
  change (list_fmap _ _ ?f es) with (f <$> es).
  assert (stat_line (k, v) = (k ++ SP :: print_d v) ++ [NL]) as -> by (unfold stat_line; cbn; by rewrite <- app_assoc).
  rewrite <- app_assoc. cbn [app]. rewrite fgets_line; [by rewrite IH|lia| |].
  - rewrite not_elem_of_app, not_elem_of_cons. split_and!; [done|done|apply print_d_no_nl; lia].
  - rewrite length_app. cbn. pose proof (print_d_length v 63 ltac:(rewrite Z.abs_eq; lia)). lia.
Qed.

Lemma cg_stat_loop_spec es key v :
  Forall stat_ok es ->
  cg_stat_loop (stat_line <$> es) key v =
  match list_find (fun e => e.1 = key) es with
  | Some (_, e) => e.2
  | None => default v (snd <$> last es)
  end.
Proof.
  intros Hes. revert v. induction Hes as [|[k n] es (Hk & _ & Hn) Hes IH]; intros v; [done|].
  cbn [fmap list_fmap cg_stat_loop]. change (list_fmap _ _ ?f es) with (f <$> es).
  change (stat_line (k, n)) with (k ++ SP :: print_d n ++ [NL]).
  rewrite (proj2 (scan_str_word k (SP :: print_d n ++ [NL]) Hk eq_refl)), scan_ld_print by done.
  cbn [list_find fst snd]. destruct (decide (k = key)) as [->|]; [done|].
  rewrite IH. destruct (list_find _ es) as [[i e]|]; [done|].
  change (prod_map S id <$> None) with (@None (nat * (bytes * Z))). destruct es as [|e es]; [done|].
  rewrite last_cons_cons. destruct (last (e :: es)) eqn:E; [done|by apply last_None in E].
Qed.

(** [cg_stat] on a statistics file gives the value of the key's first line; but
    without such a line it does not give -1: it gives the last line's value. *)
Theorem cg_stat_exact es key :
  Forall stat_ok es ->
  cg_stat (Some (concat (stat_line <$> es))) key =
  match list_find (fun e => e.1 = key) es with
  | Some (_, e) => e.2
  | None => default (-1) (snd <$> last es)
  end.
Proof. intros Hes. unfold cg_stat. rewrite stat_lines by done. by apply cg_stat_loop_spec. Qed.

(** ** The cgroup *)

(** The files after the calls, from what they held before; [wr]: whether a write
    was accepted (a refused one is only a warning). *)
Definition cg_after (wr : bytes -> bytes -> bool) (m : gmap bytes bytes) (o : cgop) : gmap bytes bytes :=
  match o with CgWrite p v => if wr p v then <[p := v]> m else m | CgMkdir _ => m end.
Definition cg_files (wr : bytes -> bytes -> bool) (ops : list cgop) (old : gmap bytes bytes) : gmap bytes bytes :=
  fold_left (cg_after wr) ops old.

Definition op_path (o : cgop) : bytes := match o with CgWrite p _ | CgMkdir p => p end.

Lemma B_length s : length (B s) = String.length s.
Proof. induction s as [|c s IH]; [done|]. cbn. f_equal. exact IH. Qed.

Lemma B_inj s t : B s = B t -> s = t.
Proof.
  intros E. apply (f_equal string_of_list_ascii) in E. unfold B in E.
  by rewrite !string_of_list_ascii_of_string in E.
Qed.

Lemma cg_path_eq dir f : (length dir + String.length f < 4094)%nat -> cg_path dir f = dir ++ SLASH :: B f.
Proof.
  intros H. unfold cg_path. apply snprintf_s_short. rewrite length_app. cbn [length].
  rewrite B_length. change PATH_MAX with 4096%nat. lia.
Qed.

Lemma print_d_digits n k : 0 <= n < 10 ^ Z.of_nat k -> (0 < k)%nat -> (length (print_d n) <= k)%nat.
Proof. intros Hn Hk. unfold print_d. rewrite (proj2 (Z.ltb_ge _ _)) by lia. by apply print_u_digits. Qed.

Lemma cg_num_print n : 0 <= n < 2 ^ 63 -> cg_num (Some (print_d n)) = n.
Proof.
  intros Hn. unfold cg_num, scan_ld, print_d. rewrite (proj2 (Z.ltb_ge _ _)) by lia.
  pose proof (strtol_print n [] Hn I) as E. rewrite app_nil_r in E. by rewrite E.
Qed.

Lemma triple_inj {A1 A2 A3} (x x' : A1) (y y' : A2) (z z' : A3) :
  (x, y, z) = (x', y', z') -> x = x' /\ y = y' /\ z = z'.
Proof. by intros [= -> -> ->]. Qed.

(** Writes to other files of a directory do not change a file of it. *)
Lemma cg_file_other wr m dir f g v :
  f <> g -> cg_after wr m (CgWrite (dir ++ SLASH :: B g) v) !! (dir ++ SLASH :: B f) = m !! (dir ++ SLASH :: B f).
Proof.
  intros Hne. cbn. destruct (wr _ _); [|done]. apply lookup_insert_ne. intros E. apply app_inv_head in E.
  injection E as E. apply Hne. symmetry. by apply B_inj.
Qed.

Lemma cg_file_here wr m p v : cg_after wr m (CgWrite p v) !! p = if wr p v then Some v else m !! p.
Proof. cbn. destruct (wr p v); [apply lookup_insert_eq|done]. Qed.

(** Arming the controllers does not touch the files of the cell. *)
Lemma cg_files_outside wr ops m q : Forall (fun o => op_path o <> q) ops -> cg_files wr ops m !! q = m !! q.
Proof.
  intros H. revert m. induction H as [|o ops Ho _ IH]; intros m; [done|].
  change (cg_files wr (o :: ops) m) with (cg_files wr ops (cg_after wr m o)). rewrite IH.
  destruct o; cbn in *; [|done]. destruct (wr _ _); [|done]. by apply lookup_insert_ne.
Qed.

(** C31. [cgroup_setup], for non-negative limits: the controllers are armed first;
    without the cell's directory nothing else is done and no cgroup is
    reported; with it only files in it are written, and each of the three
    limits' files then holds the configured limit (the CPU quota as given,
    memory and number of processes as the numbers read back) if the kernel took
    the write, and what it held before if it did not, which is only a warning:
    the cgroup is reported either way. *)
Theorem cgroup_limits_applied s pid mk dev c ops cg have wr old :
  cgroup_setup (Some s) pid mk dev c = (ops, cg, have) ->
  cg_self s <> [] -> 0 <= pid < 2 ^ 31 -> (length (cg_base (cg_self s)) <= 1024)%nat ->
  0 <= l_mem (c_lim c) < 2 ^ 63 -> 0 <= l_pids (c_lim c) < 2 ^ 31 ->
  let base := cg_base (cg_self s) in
  let ctl := base ++ B "/cgroup.subtree_control" in
  let file f := cg_files wr ops old !! (cg ++ B f) in
  have = mk /\ cg = base ++ B "/agentcell-" ++ print_d pid /\
  (mk = false -> Forall (fun o => op_path o = ctl) ops) /\
  (mk = true ->
     (exists arm lims, ops = arm ++ CgMkdir cg :: lims /\
        Forall (fun o => op_path o = ctl) arm /\
        Forall (fun o => starts_with (cg ++ B "/") (op_path o) = true) lims) /\
     exists mem pids, cg_num (Some mem) = l_mem (c_lim c) /\ cg_num (Some pids) = l_pids (c_lim c) /\
     Forall2 (fun f v => file f = if wr (cg ++ B f) v then Some v else old !! (cg ++ B f))
       ["/cpu.max"; "/memory.max"; "/pids.max"]%string [l_cpu (c_lim c); mem; pids]).
Proof.
  intros H Hself Hpid Hlen Hmem Hpids base ctl file. unfold cgroup_setup in H.
  destruct (cg_self s) as [|x self] eqn:Es; [done|]. cbv zeta in H. fold base in H. clear Es Hself.
  assert (length (print_d pid) <= 33)%nat as Hp by (apply print_d_length; rewrite Z.abs_eq; lia).
  assert (snprintf_s PATH_MAX (base ++ B "/agentcell-" ++ print_d pid) =
          base ++ B "/agentcell-" ++ print_d pid) as Ecg.
  { apply snprintf_s_short. rewrite !length_app. change PATH_MAX with 4096%nat. cbn. unfold base. lia. }
  rewrite Ecg in H. set (cg0 := base ++ B "/agentcell-" ++ print_d pid) in *.
  assert (length cg0 <= 2000)%nat as Hcl by (unfold cg0, base; rewrite !length_app; cbn; lia).
  rewrite !cg_path_eq in H by (unfold base; cbn; lia). change (base ++ SLASH :: B _) with ctl in H.
  rewrite !(snprintf_s_short 64) in H by (eapply Nat.le_lt_trans; [apply (print_d_digits _ 19); lia|lia]).
  set (io := negb _ || negb _) in H. set (tail := match dev with Some _ => _ | None => _ end) in H.
  assert (tail = [] \/ exists v, tail = [CgWrite (cg0 ++ SLASH :: B "io.max") v]) as Ht.
  { unfold tail. destruct dev as [[ma mi]|]; [|by left]. destruct io; [right|by left]. eauto. }
  set (arm := CgWrite ctl (B "+cpu +memory +pids") :: (if io then [CgWrite ctl (B "+io")] else [])) in H.
  assert (Forall (fun o => op_path o = ctl) arm) as Harm by (constructor; [done|]; destruct io; repeat constructor).
  clearbody tail. destruct mk; cbn [negb] in H; apply triple_inj in H as (<- & <- & <-);
    (split_and!; [done|done| |]); [done| |done|done].
  intros _. split.
  - exists arm. eexists. split; [reflexivity|]. split; [done|].
    repeat constructor; cbn [op_path]; try (apply starts_with_spec; eexists; by rewrite <- app_assoc).
    destruct Ht as [->|[v ->]]; repeat constructor. cbn [op_path].
    apply starts_with_spec. eexists. by rewrite <- app_assoc.
  - exists (print_d (l_mem (c_lim c))), (print_d (l_pids (c_lim c))).
    split; [by apply cg_num_print|]. split; [apply cg_num_print; lia|].
    assert (forall f, cg_files wr arm old !! (cg0 ++ SLASH :: B f) = old !! (cg0 ++ SLASH :: B f)) as Ho.
    { intros f. apply cg_files_outside. eapply Forall_impl; [exact Harm|]. cbn. intros o -> E.
      unfold ctl, cg0 in E. rewrite <- app_assoc in E. apply app_inv_head in E. discriminate E. }
    unfold file, cg_files in *. rewrite !fold_left_app. set (m1 := fold_left _ arm old) in *. clearbody m1.
    repeat apply Forall2_cons_2; try apply Forall2_nil_2;
      [change (B "/cpu.max") with (SLASH :: B "cpu.max")|change (B "/memory.max") with (SLASH :: B "memory.max")
      |change (B "/pids.max") with (SLASH :: B "pids.max")];
      destruct Ht as [->|[v ->]]; cbn [fold_left];
      change (cg_after wr m1 (CgMkdir cg0)) with m1;
      rewrite ?cg_file_other by done; rewrite cg_file_here; rewrite ?cg_file_other by done; by rewrite Ho.
Qed.

(** The line of [io.max] always fits its 64 bytes for device numbers of Linux
    and non-negative rates: it is the device and the requested rates in full. *)
Theorem io_line_fits ma mi l :
  0 <= ma < 2 ^ 12 -> 0 <= mi < 2 ^ 20 -> 0 <= l_rbps l < 2 ^ 63 -> 0 <= l_wbps l < 2 ^ 63 ->
  (length (io_line ma mi l) < 64)%nat /\
  io_line ma mi l =
    print_u ma ++ COLON :: print_u mi ++
    (if l_rbps l =? 0 then [] else B " rbps=" ++ print_d (l_rbps l)) ++
    (if l_wbps l =? 0 then [] else B " wbps=" ++ print_d (l_wbps l)).
Proof.
  intros Hma Hmi Hr Hw.
  pose proof (print_u_digits ma 4 ltac:(lia) ltac:(lia)). pose proof (print_u_digits mi 7 ltac:(lia) ltac:(lia)).
  pose proof (print_d_digits (l_rbps l) 19 ltac:(lia) ltac:(lia)).
  pose proof (print_d_digits (l_wbps l) 19 ltac:(lia) ltac:(lia)).
  unfold io_line. rewrite (snprintf_s_short 64) by (rewrite length_app; cbn [length]; lia).
  assert (forall x y : bytes, print_u ma ++ COLON :: print_u mi ++ x ++ y = (print_u ma ++ COLON :: print_u mi) ++ x ++ y)
    as -> by (intros; by rewrite <- app_assoc).
  set (a := print_u ma ++ COLON :: print_u mi). set (r := B " rbps=" ++ _). set (w := B " wbps=" ++ _).
  assert (length a <= 12)%nat as Ha by (unfold a; rewrite length_app; cbn [length]; lia).
  assert (length r <= 25)%nat as Hrl by (unfold r; rewrite length_app, B_length; cbn [String.length]; lia).
  assert (length w <= 25)%nat as Hwl by (unfold w; rewrite length_app, B_length; cbn [String.length]; lia).
  clearbody a r w. destruct (l_rbps l =? 0), (l_wbps l =? 0);
    rewrite ?(snprintf_s_short (64 - length a)) by lia;
    rewrite ?(snprintf_s_short (64 - length (a ++ r))) by (rewrite length_app; lia);
    cbn [app]; rewrite ?app_nil_r, ?app_assoc, ?length_app; (split; [lia|done]).
Qed.

(** ** Behaviours the comments do not promise *)

(** A cgroup path of more than 252 bytes is cut when it is read back, and the rest
    of it is read as a line of its own: a directory name can set the pid of the
    supervisor. *)
Definition long_cg : bytes := replicate 252 "a"%char ++ B "sup=1".
Theorem info_long_cgroup :
  (fun c => (ci_sup c, length (ci_cg c))) <$>
    cell_info (Some (write_info (Info 4242 4243 0 long_cg 0 0 0))) 4096 (CellInfo 0 0 0 [] 0) =
  Some (1, 252%nat).
Proof. by vm_compute. Qed.

(** ** Witnesses *)

Lemma info_roundtrip_witness :
  cell_info (Some (B "sup=10
jail=11
started=99
cg=/sys/fs/cgroup/x
execs=3
secure=1
cgid=77
")) 4096 (CellInfo 0 0 0 [] 0) = Some (CellInfo 10 11 99 (B "/sys/fs/cgroup/x") 3).
Proof.
  refine (info_roundtrip (Info 10 11 99 (B "/sys/fs/cgroup/x") 3 1 77) 4096 (CellInfo 0 0 0 [] 0) _ _); [|lia].
  split; cbn; try lia. split; [by apply (bool_decide_unpack _)|cbn; lia].
Defined.

Lemma cg_stat_exact_witness :
  cg_stat (Some (B "usage_usec 1500
user_usec 900
")) (B "usage_usec") = 1500 /\
  cg_stat (Some (B "usage_usec 1500
user_usec 900
")) (B "nr_periods") = 900.
Proof.
  assert (Forall stat_ok [(B "usage_usec", 1500); (B "user_usec", 900)]) as H.
  { repeat constructor; cbn; try lia; try done; by apply (bool_decide_unpack _). }
  split; [exact (cg_stat_exact _ (B "usage_usec") H)|exact (cg_stat_exact _ (B "nr_periods") H)].
Defined.

Definition wit_cgfile : bytes := B "0::/user.slice/user@1000.service/app.slice
".

Lemma cgroup_limits_applied_witness :
  exists ops mem, cgroup_setup (Some wit_cgfile) 42 true None (cfg0 1024) =
    (ops, B "/sys/fs/cgroup/user.slice/user@1000.service/agentcell-42", true) /\
    cg_num (Some mem) = 1024 /\
    cg_files (fun _ _ => true) ops ∅ !! B "/sys/fs/cgroup/user.slice/user@1000.service/agentcell-42/memory.max" = Some mem.
Proof.
  destruct (cgroup_setup (Some wit_cgfile) 42 true None (cfg0 1024)) as [[ops cg] have] eqn:E.
  assert (cg_base (cg_self wit_cgfile) = B "/sys/fs/cgroup/user.slice/user@1000.service") as Eb by (by vm_compute).
  destruct (cgroup_limits_applied wit_cgfile 42 true None (cfg0 1024) ops cg have (fun _ _ => true) ∅ E)
    as (-> & -> & _ & H); [by vm_compute|lia|rewrite Eb; cbn; lia|cbn; lia|cbn; lia|].
  destruct (H eq_refl) as (_ & mem & pids & Hm & _ & Hf). rewrite Eb in Hf |- *.
  apply Forall2_cons_1 in Hf as [_ Hf]. apply Forall2_cons_1 in Hf as [Hf _].
  exists ops, mem. split; [done|]. split; [exact Hm|exact Hf].
Defined.

Lemma io_line_fits_witness :
  io_line 259 3 (Limits 0 [] 0 1048576 0 0) = B "259:3 rbps=1048576".
Proof.
  etrans; [apply (io_line_fits 259 3 (Limits 0 [] 0 1048576 0 0)); cbn; lia|by vm_compute].
Defined.
