(* ===== verification/Cells.v ===== *)
(** * Naming cells, and policy commands for running ones

    [sand.c]: the table of cells from the info files ([build_cell_table],
    [cell_of]), the selector of a command ([resolve_target]), [sand lsm
    deny|allow|reset] ([lsm_ctl_cmd]) and the listing and event stream of [sand
    lsm] ([lsm_status]).  The daemon is an argument with its state. *)

From S2P Require Import Prelude CString Client Config Info.
Local Open Scope Z_scope.

(** ** The table *)

Record cellname := CellName { cn_cgid : Z; cn_name : bytes }.

(** The first [cg=] line of an info file. *)
Fixpoint first_cg (lines : list bytes) : bytes :=
  match lines with
  | [] => []
  | l :: ls => if starts_with (B "cg=") l then snprintf_s PATH_MAX (drop 3 (chomp l)) else first_cg ls
  end.

(** One directory entry; [inode]: [stat] of a cgroup directory. *)
Definition cell_entry (file : bytes -> option bytes) (inode : bytes -> option Z) (rt name : bytes)
    : option cellname :=
  if negb (is_sock_name name) then None
  else
    f ← file (snprintf_s PATH_MAX (rt ++ SLASH :: name ++ B ".info"));
    match first_cg (fgets_lines 256 f) with
    | [] => None
    | cg => ino ← inode cg; Some (CellName ino (snprintf_s 64 name))
    end.

(** [max]: the capacity of the array. *)
Fixpoint build_cell_table (file : bytes -> option bytes) (inode : bytes -> option Z) (rt : bytes)
    (names : list bytes) (max : nat) : list cellname :=
  match max, names with
  | S max', n :: ns =>
      match cell_entry file inode rt n with
      | Some c => c :: build_cell_table file inode rt ns max'
      | None => build_cell_table file inode rt ns max
      end
  | _, _ => []
  end.

Fixpoint cell_of (cells : list cellname) (cgid : Z) : bytes :=
  match cells with
  | [] => B "?"
  | c :: cs => if cn_cgid c =? cgid then cn_name c else cell_of cs cgid
  end.

(** ** The selector *)

(** The loop over the table: the last hit and the number of hits. *)
Fixpoint find_hits (base : bytes) (cells : list cellname) (hit : option cellname) (hits : nat)
    : option cellname * nat :=
  match cells with
  | [] => (hit, hits)
  | c :: cs =>
      if bool_decide (cn_name c = base) || starts_with base (cn_name c)
      then find_hits base cs (Some c) (S hits)
      else find_hits base cs hit hits
  end.

(** [None]: -1, otherwise the cgroup id and the name. *)
Definition resolve_target (sel : bytes) (cells : list cellname) : option (Z * bytes) :=
  if forallb isdigit sel
  then let cgid := strtoull sel in Some (cgid, snprintf_s 64 (cell_of cells cgid))
  else
    match find_hits (basename_of sel) cells None 0 with
    | (Some c, 1%nat) => Some (cn_cgid c, snprintf_s 64 (cn_name c))
    | _ => None
    end.

(** ** [sand lsm deny|allow|reset] *)

Inductive lsm_sub := Deny | Allow | Reset.
Definition sub_name (s : lsm_sub) : bytes :=
  B (match s with Deny => "deny" | Allow => "allow" | Reset => "reset" end).

Section Ctl.
Context {S : Type} (daemon : bytes -> S -> bytes * S).

Definition ctl_cmd (sub : lsm_sub) (cgid : Z) (p : bytes) : bytes :=
  snprintf_s 320 (B (match sub with Deny => "ADD" | _ => "DEL" end) ++ SP :: print_u cgid ++ SP :: p).

(** One request per prefix: the state, what is printed, and the status. *)
Fixpoint ctl_loop (sub : lsm_sub) (cgid : Z) (name : bytes) (ps : list bytes) (s : S)
    : S * list bytes * Z :=
  match ps with
  | [] => (s, [], 0)
  | p :: ps' =>
      let '(rep, s) := daemon (ctl_cmd sub cgid p) s in
      let ok := starts_with (B "OK") rep in
      let '(s, out, rc) := ctl_loop sub cgid name ps' s in
      (s, if ok then (name ++ SP :: sub_name sub ++ SP :: p) :: out else out, if ok then rc else 1)
  end.

(** [args]: the words after the subcommand. *)
Definition lsm_ctl_cmd (sub : lsm_sub) (args : list bytes) (cells : list cellname) (s : S)
    : S * list bytes * Z :=
  match args with
  | [] => (s, [], 2)
  | sel :: ps =>
      let need := match sub with Reset => false | _ => true end in
      if need && bool_decide (ps = []) then (s, [], 2)
      else
        match resolve_target sel cells with
        | None => (s, [], 1)
        | Some (cgid, name) =>
            match sub with
            | Reset =>
                let '(rep, s) := daemon (snprintf_s 320 (B "CLR " ++ print_u cgid)) s in
                if starts_with (B "OK") rep then (s, [name ++ B " reset"], 0) else (s, [], 1)
            | _ => ctl_loop sub cgid name ps s
            end
        end
  end.
End Ctl.

(** ** [sand lsm] and [sand lsm -f] *)

(** The complete lines of a chunk, without their newlines; what follows the last
    newline is lost with the buffer. *)
Fixpoint whole_lines (cur s : bytes) : list bytes :=
  match s with
  | [] => []
  | c :: s' => if decide (c = NL) then rev cur :: whole_lines [] s' else whole_lines (c :: cur) s'
  end.

(** What [read(s, lrep, 319)] leaves as a C string. *)
Definition chunk_lines (chunk : bytes) : list bytes := whole_lines [] (cstr (take 319 chunk)).

(** One line of [LIST]. *)
Definition list_line (cells : list cellname) (l : bytes) : option bytes :=
  match scan_llu l with
  | Some (cgid, r) =>
      match scan_str 255 r with
      | Some (pfx, _) => Some (pad_right 10 (print_u cgid) ++ SP :: pad_right 26 (cell_of cells cgid) ++ SP :: pfx)
      | None => None
      end
  | None => None
  end.

(** The rows of some lines, and whether [END] was among them. *)
Fixpoint list_lines (cells : list cellname) (ls : list bytes) : list bytes * bool :=
  match ls with
  | [] => ([], false)
  | l :: ls' =>
      if starts_with (B "END") l then ([], true)
      else let '(rows, e) := list_lines cells ls' in
           (match list_line cells l with Some r => r :: rows | None => rows end, e)
  end.

(** The rows of the chunks up to [END], and the chunks after. *)
Fixpoint status_list (cells : list cellname) (chunks : list bytes) : list bytes * list bytes :=
  match chunks with
  | [] => ([], [])
  | ch :: chs =>
      let '(rows, e) := list_lines cells (chunk_lines ch) in
      if e then (rows, chs)
      else let '(more, rest) := status_list cells chs in (rows ++ more, rest)
  end.

(** [sscanf(p, "EV %llu %n", ...)]. *)
Definition watch_line (cells : list cellname) (l : bytes) : option bytes :=
  if starts_with (B "EV") l
  then match scan_llu (drop 2 l) with
       | Some (cgid, r) => Some (cell_of cells cgid ++ B "  " ++ skip_while isspace r)
       | None => None
       end
  else None.

(** The request sent for [-f]. *)
Definition watch_cmd (classes : option bytes) : bytes :=
  match classes with
  | Some c => snprintf_s 300 (B "WATCH " ++ c ++ [NL])
  | None => B "WATCH" ++ [NL]
  end.

(** Everything printed; [chunks]: what [read] delivers until it fails. *)
Definition lsm_status (cells : list cellname) (follow : bool) (chunks : list bytes) : list bytes :=
  let '(rows, rest) := status_list cells chunks in
  rows ++ (if follow then concat ((fun ch => omap (watch_line cells) (chunk_lines ch)) <$> rest) else []).
