(* ===== verification/CellsThms.v ===== *)
(** * Naming cells and policy commands: theorems

    A selector names exactly one cell; the hot policy commands do to the daemon's
    maps what they say; the listing shows the policies the daemon wrote. *)

From S2P Require Import Prelude CString Netfilter NetDaemon NetSim NetThms Policy Control ControlThms Client.
From S2P Require Import ClientThms Config ConfigThms Info InfoThms Cells.
Local Open Scope Z_scope.

(** ** Selectors *)

(** The cells whose name starts with what follows the selector's last slash. *)
Definition matching (sel : bytes) (cells : list cellname) : list cellname :=
  filter (fun c => starts_with (basename_of sel) (cn_name c) = true) cells.

Lemma starts_with_refl s : starts_with s s = true.
Proof. pose proof (starts_with_app s []) as H. by rewrite app_nil_r in H. Qed.

Lemma find_hits_spec base cells hit n :
  let ms := filter (fun c => starts_with base (cn_name c) = true) cells in
  find_hits base cells hit n = (match last ms with Some c => Some c | None => hit end, (n + length ms)%nat).
Proof.
  revert hit n. induction cells as [|c cs IH]; intros hit n; cbn [find_hits]; [cbn; by rewrite Nat.add_0_r|].
  cbv zeta in *. rewrite filter_cons.
  assert (bool_decide (cn_name c = base) || starts_with base (cn_name c) = starts_with base (cn_name c)) as ->.
  { destruct (bool_decide_reflect (cn_name c = base)) as [->|]; [by rewrite starts_with_refl|done]. }
  destruct (starts_with base (cn_name c)) eqn:E.
  - rewrite decide_True by done. rewrite IH. set (ms := filter _ cs). cbn [length]. f_equal; [|lia].
    destruct ms as [|m ms]; [done|]. rewrite last_cons_cons. destruct (last (m :: ms)) eqn:El; [done|].
    by apply last_None in El.
  - rewrite decide_False by congruence. apply IH.
Qed.

(** A selector is either a cgroup id in digits, or it names a cell: the one
    running cell whose socket name it is a prefix of (after its last slash); with
    none or several it is refused. *)
Theorem resolve_target_exact sel cells :
  match resolve_target sel cells with
  | Some (cgid, name) =>
      (forallb isdigit sel = true /\ cgid = strtoull sel) \/
      (forallb isdigit sel = false /\
       exists c, matching sel cells = [c] /\ cgid = cn_cgid c /\ name = snprintf_s 64 (cn_name c))
  | None => forallb isdigit sel = false /\ length (matching sel cells) <> 1%nat
  end.
Proof.
  unfold resolve_target. destruct (forallb isdigit sel); [by left|].
  rewrite find_hits_spec. fold (matching sel cells). cbn [Nat.add].
  destruct (matching sel cells) as [|c [|c' ms]]; cbn [length]; [done| |].
  - cbn. right. split; [done|]. by exists c.
  - destruct (last (c :: c' :: ms)); done.
Qed.

(** ** Hot policy commands *)

Section Hot.
Context {K : Type} (system : bytes -> K -> Z * K) (order : gmap cellkey Z -> list cellkey).
Context (can_write : Z -> bool) (dns : Z * Z -> bytes -> list (Z * Z)) (now : Z) (i : nat).
Hypothesis order_ok : forall m, order m ≡ₚ (map_to_list m).*1.

Abbreviation world := (world (K := K)).
Abbreviation D := (reply_to (K := K) system order can_write dns now i).

Lemma ctl_deny cgid p : ctl_cmd Deny cgid p = add_cmd cgid p.
Proof. done. Qed.

(** A [DEL] line is read back as the cell and the prefix. *)
Lemma del_cmd_served sub cgid p (w : world) :
  sub <> Deny -> 0 <= cgid < 2 ^ 64 -> rword p ->
  D (ctl_cmd sub cgid p) w =
  (let '(rc, m) := cell_del cgid p (w_pol w) in
   (if rc =? 0 then OK_NL else B "ERR del" ++ [NL], set_pol m w)).
Proof.
  intros Hsub Hc Hp. pose proof Hp as (_ & _ & Hl).
  pose proof (print_u_length cgid 64 ltac:(lia)) as Hlc.
  assert (ctl_cmd sub cgid p = B "DEL " ++ print_u cgid ++ SP :: p) as ->.
  { unfold ctl_cmd. destruct sub; [done| |]; rewrite snprintf_s_short;
      try done; rewrite !length_app; cbn [length B list_ascii_of_string]; rewrite length_app; cbn [length]; lia. }
  unfold reply_to, serve_request.
  change (skip_while is_sp (B "DEL " ++ ?x)) with (B "DEL " ++ x). cbv zeta.
  change (starts_with (B "ADD ") (B "DEL " ++ ?x)) with false.
  change (starts_with (B "DEL ") (B "DEL " ++ ?x)) with true. cbv iota.
  change (drop 4 (B "DEL " ++ ?x)) with x. unfold scan_cgid_prefix.
  rewrite scan_llu_print by done. pose proof (proj1 (scan_str_word p [] Hp I)) as Hs.
  rewrite app_nil_r in Hs. rewrite Hs. by destruct (cell_del cgid p (w_pol w)).
Qed.

Lemma ctl_loop_deny cgid name ps (w : world) :
  0 <= cgid < 2 ^ 64 -> Forall rword ps -> pol_ok (w_pol w) ->
  let '(w', out, rc) := ctl_loop D Deny cgid name ps w in
  pol_grown cgid (w_pol w) (w_pol w') /\ (rc = 0 \/ rc = 1) /\
  (rc = 0 -> Forall (denied (w_pol w') cgid) ps /\ length out = length ps).
Proof.
  intros Hc Hps. revert w. induction Hps as [|p ps Hp Hps IH]; intros w Hm; cbn [ctl_loop].
  - split_and!; [by split|by left|done].
  - rewrite ctl_deny, (add_cmd_served system order can_write dns now i cgid p w Hc Hp).
    destruct (pol_grown_add cgid p (w_pol w) Hm Hp) as [Hg Hd].
    destruct (cell_add cgid p (w_pol w)) as [rc0 m]. cbn [fst snd] in *.
    specialize (IH (set_pol m w) (pg_ok _ _ _ Hg)).
    destruct (ctl_loop D Deny cgid name ps (set_pol m w)) as [[w' out] rc].
    destruct IH as (Hg2 & Hrc & Hall). split; [by eapply pol_grown_trans|].
    destruct (Z.eqb_spec rc0 0) as [->|].
    + change (starts_with (B "OK") OK_NL) with true. cbv iota. split; [done|].
      intros H0. destruct (Hall H0) as [Ha Hlen]. split; [|cbn; lia].
      constructor; [|done]. apply Hg2, Hd. done.
    + change (starts_with (B "OK") (B "ERR add" ++ [NL])) with false. cbv iota. split; [by right|done].
Qed.

Lemma ctl_loop_allow cgid name ps (w : world) :
  0 <= cgid < 2 ^ 64 -> Forall rword ps ->
  let '(w', _, _) := ctl_loop D Allow cgid name ps w in
  pm_cells (w_pol w') = pm_cells (w_pol w) /\
  forall c q, pm_cellpol (w_pol w') !! (c, q) =
    if bool_decide (c = cgid /\ q ∈ ps) then None else pm_cellpol (w_pol w) !! (c, q).
Proof.
  intros Hc Hps. revert w. induction Hps as [|p ps Hp Hps IH]; intros w; cbn [ctl_loop].
  - split; [done|]. intros c q. rewrite bool_decide_eq_false_2; [done|]. by intros [_ H%elem_of_nil].
  - rewrite del_cmd_served by done. unfold cell_del. pose proof (bpf_delete_map (pm_cellpol (w_pol w)) (cell_key cgid p)) as E.
    destruct (bpf_delete _ _) as [rc0 pol]. cbn [snd] in E. subst pol.
    specialize (IH (set_pol (PolMaps (delete (cell_key cgid p) (pm_cellpol (w_pol w))) (pm_cells (w_pol w))) w)).
    destruct (ctl_loop D Allow cgid name ps _) as [[w' out] rc]. destruct IH as [IH1 IH2]. split; [done|].
    intros c q. rewrite IH2. cbn [set_pol w_pol pm_cellpol]. unfold cell_key.
    rewrite snprintf_s_short by (destruct Hp as (_ & _ & Hl); unfold PLEN; lia).
    destruct (decide (c = cgid /\ q ∈ ps)) as [Hq|Hq].
    + rewrite !bool_decide_eq_true_2; [done|..]; [split; [tauto|right; tauto]|done].
    + rewrite (bool_decide_eq_false_2 (c = cgid /\ q ∈ ps)) by done. destruct (decide ((c, q) = (cgid, p))) as [[= -> ->]|Hne].
      * rewrite lookup_delete_eq, bool_decide_eq_true_2; [done|]. split; [done|left].
      * rewrite lookup_delete_ne by congruence. rewrite bool_decide_eq_false_2; [done|].
        intros [-> [->|H]%elem_of_cons]; [done|]. by apply Hq.
Qed.
End Hot.

(** What a policy command leaves of the maps. *)
Definition ctl_effect (sub : lsm_sub) (cgid : Z) (ps : list bytes) (rc : Z) (m m' : polmaps) : Prop :=
  match sub with
  | Deny => pol_grown cgid m m' /\ (rc = 0 -> Forall (denied m' cgid) ps)
  | Allow => pm_cells m' = pm_cells m /\
      forall c q, pm_cellpol m' !! (c, q) =
        if bool_decide (c = cgid /\ q ∈ ps) then None else pm_cellpol m !! (c, q)
  | Reset => pm_cells m' = delete cgid (pm_cells m) /\
      forall c q, pm_cellpol m' !! (c, q) = if bool_decide (c = cgid) then None else pm_cellpol m !! (c, q)
  end.

(** C17. Policy commands for a running cell, end to end: the selector's cell and no
    other is touched.  [deny] adds, and when it reports success the daemon denies
    the cell every named prefix; [allow] removes exactly the named prefixes and
    keeps the cell registered; [reset] removes all its rules and its
    registration. *)
Theorem hot_policy_exact {K} (system : bytes -> K -> Z * K) order can_write dns now i sub sel ps cells cgid name w :
  (forall m, order m ≡ₚ (map_to_list m).*1) ->
  resolve_target sel cells = Some (cgid, name) -> 0 <= cgid < 2 ^ 64 ->
  (sub <> Reset -> ps <> []) -> Forall rword ps -> pol_ok (w_pol w) ->
  let '(w', _, rc) := lsm_ctl_cmd (reply_to (K := K) system order can_write dns now i) sub (sel :: ps) cells w in
  ctl_effect sub cgid ps rc (w_pol w) (w_pol w').
Proof.
  intros Ho Hsel Hc Hne Hps Hm. unfold lsm_ctl_cmd. rewrite Hsel.
  destruct (_ && bool_decide (ps = [])) eqn:E.
  { apply andb_true_iff in E as [E1 ->%bool_decide_eq_true]. exfalso. destruct sub; [by apply Hne..|done]. }
  clear E. destruct sub.
  - pose proof (ctl_loop_deny system order can_write dns now i cgid name ps w Hc Hps Hm) as H.
    destruct (ctl_loop _ Deny _ _ _ _) as [[w' out] rc]. destruct H as (Hg & _ & Hall). split; [done|].
    intros H0. by apply Hall.
  - pose proof (ctl_loop_allow system order can_write dns now i cgid name ps w Hc Hps) as H.
    by destruct (ctl_loop _ Allow _ _ _ _) as [[w' out] rc].
  - assert (snprintf_s 320 (B "CLR " ++ print_u cgid) = snprintf_s 64 (B "CLR " ++ print_u cgid)) as ->.
    { pose proof (print_u_digits cgid 20 ltac:(lia) ltac:(lia)).
      rewrite !snprintf_s_short; [done|..]; rewrite length_app; cbn [length B list_ascii_of_string]; lia. }
    pose proof (clr_cmd_served system order can_write dns now i cgid w Hc) as H.
    destruct (reply_to _ _ _ _ _ _ _ _) as [rep w']. cbn [snd] in H.
    rewrite cell_clr_spec in H by (done || by apply pol_ok_zero).
    assert (ctl_effect Reset cgid ps 0 (w_pol w) (w_pol w')) as He.
    { subst w'. cbn [set_pol w_pol]. split; [done|]. intros c q. cbn [pm_cellpol].
      destruct (decide (c = cgid)) as [->|Hn].
      - rewrite bool_decide_eq_true_2 by done. apply map_lookup_filter_None. right. intros v _ Hv. by apply Hv.
      - rewrite bool_decide_eq_false_2 by done. apply option_eq. intros v.
        rewrite map_lookup_filter_Some. unfold not_of. cbn. tauto. }
    destruct (starts_with (B "OK") rep); exact He.
Qed.

(** ** The listing *)

Lemma whole_lines_acc cur l s :
  NL ∉ l -> whole_lines cur (l ++ NL :: s) = (rev cur ++ l) :: whole_lines [] s.
Proof.
  revert cur. induction l as [|c l IH]; intros cur Hl; cbn.
  - by rewrite decide_True, app_nil_r.
  - apply not_elem_of_cons in Hl as [Hc Hl]. rewrite decide_False by congruence. rewrite IH by done.
    cbn. by rewrite <- app_assoc.
Qed.

Lemma whole_lines_concat ls :
  Forall (fun l => NL ∉ l) ls -> whole_lines [] (concat ((fun l => l ++ [NL]) <$> ls)) = ls.
Proof.
  induction 1 as [|l ls Hl Hls IH]; [done|]. cbn. rewrite <- app_assoc. cbn.
  rewrite whole_lines_acc by done. cbn. by rewrite IH.
Qed.

(** A key the daemon can hold and print whole, and the line it writes for it. *)
Definition key_ok (k : cellkey) : Prop := 0 <= k.1 < 2 ^ 64 /\ rword k.2.
Definition key_text (k : cellkey) : bytes := print_u k.1 ++ SP :: k.2.
Definition key_row (cells : list cellname) (k : cellkey) : bytes :=
  pad_right 10 (print_u k.1) ++ SP :: pad_right 26 (cell_of cells k.1) ++ SP :: k.2.

(** Every key is a cell's id and a word. *)
Lemma list_line_key cells k : key_ok k -> list_line cells (key_text k) = Some (key_row cells k).
Proof.
  intros [Hc Hw]. unfold list_line, key_text. rewrite scan_llu_print by done.
  destruct (scan_str_upto 255 k.2 [] Hw I) as [E _]; [destruct Hw as (_ & _ & ?); lia|].
  rewrite app_nil_r in E. by rewrite E.
Qed.

(** A byte of a key's line: a digit, a space or a byte above it. *)
Lemma key_text_bytes k c : key_ok k -> c ∈ key_text k -> 32 <= code c.
Proof.
  intros [Hc (_ & Hw & _)] Hin. pose proof (print_u_above k.1 ltac:(lia)) as Hu.
  assert (forall w, forallb above_space w = true -> c ∈ w -> 32 <= code c) as Habove.
  { intros w H Hi. rewrite forallb_forall in H. apply list_elem_of_In, H in Hi.
    unfold above_space in Hi. zbool. lia. }
  apply elem_of_app in Hin as [Hin|[->|Hin]%elem_of_cons]; [|by vm_compute|]; (eapply Habove; [|exact Hin]; done).
Qed.

Lemma key_text_line k : key_ok k -> (NL ∉ key_text k) /\ no_nul (key_text k).
Proof. intros Hk. split; intros H; apply key_text_bytes in H; [|done| |done]; by vm_compute in H. Qed.

Lemma key_text_not_end k : key_ok k -> starts_with (B "END") (key_text k) = false.
Proof.
  intros [[Hk _] _]. unfold key_text. destruct (print_u_spec k.1 Hk) as (Hd & Hne & _).
  destruct (print_u k.1) as [|c r]; [done|]. cbn [forallb] in Hd. apply andb_true_iff in Hd as [Hd _].
  cbn [starts_with B list_ascii_of_string app].
  destruct (bool_decide_reflect ("E"%char = c)) as [<-|]; [by vm_compute in Hd|done].
Qed.

(** Lines as the daemon writes them, read in one piece. *)
Definition nl_line (l : bytes) : bytes := l ++ [NL].

Lemma chunk_lines_whole ls :
  Forall (fun l => (NL ∉ l) /\ no_nul l) ls -> (length (concat (nl_line <$> ls)) <= 319)%nat ->
  chunk_lines (concat (nl_line <$> ls)) = ls.
Proof.
  intros Hls Hlen. unfold chunk_lines. rewrite take_ge by done. rewrite cstr_no_nul.
  - apply whole_lines_concat. eapply Forall_impl; [exact Hls|]. by intros l [? _].
  - unfold no_nul. intros (l & Hl%list_elem_of_In & Hin%list_elem_of_In)%list_elem_of_In%in_concat.
    apply list_elem_of_fmap in Hl as (l0 & -> & Hl0). rewrite Forall_forall in Hls.
    destruct (Hls _ Hl0) as [_ H]. apply elem_of_app in Hin as [|[|[]%elem_of_nil]%elem_of_cons]; done.
Qed.

Lemma list_lines_keys cells ks e :
  Forall key_ok ks ->
  list_lines cells ((key_text <$> ks) ++ (if e : bool then [B "END"] else [])) = (key_row cells <$> ks, e).
Proof.
  induction 1 as [|k ks Hk Hks IH]; [by destruct e|].
  rewrite !fmap_cons, <- app_comm_cons. cbn [list_lines].
  rewrite key_text_not_end by done. rewrite IH. by rewrite list_line_key.
Qed.

(** What the daemon writes for [LIST]. *)
Definition list_pieces (ks : list cellkey) : list bytes := (nl_line <$> (key_text <$> ks)) ++ [END_NL].

Lemma status_list_pieces cells ks groups :
  Forall key_ok ks -> concat groups = list_pieces ks ->
  Forall (fun g => (length (concat g) <= 319)%nat) groups ->
  (status_list cells (concat (A := ascii) <$> groups)).1 = key_row cells <$> ks.
Proof.
  intros Hks E Hg. revert ks Hks E. induction Hg as [|g gs Hlen Hgs IH]; intros ks Hks E.
  { cbn in E. by destruct ks. }
  assert (list_pieces ks = nl_line <$> ((key_text <$> ks) ++ [B "END"])) as Ep
    by (unfold list_pieces; by rewrite fmap_app).
  assert (Forall (fun l => (NL ∉ l) /\ no_nul l) ((key_text <$> ks) ++ [B "END"])) as Hok.
  { apply Forall_app. split; [|repeat constructor; by apply (bool_decide_unpack _)].
    apply Forall_fmap. eapply Forall_impl; [exact Hks|]. intros k Hk. by apply key_text_line. }
  cbn [concat fmap list_fmap] in E |- *. rewrite Ep in E. symmetry in E.
  apply fmap_app_inv in E as (l1 & l2 & -> & E2 & El). cbn [status_list].
  rewrite chunk_lines_whole; [|rewrite El in Hok; by apply Forall_app in Hok as [? _]|done].
  destruct l2 as [|x l2' _] using rev_ind.
  - rewrite app_nil_r in El. subst l1. by rewrite (list_lines_keys cells ks true) by done.
  - rewrite app_assoc in El. apply app_inj_tail in El as [El <-].
    apply fmap_app_inv in El as (k1 & k2 & -> & -> & ->).
    apply Forall_app in Hks as [Hk1 Hk2].
    pose proof (list_lines_keys cells k1 false Hk1) as Hl. rewrite app_nil_r in Hl. rewrite Hl.
    rewrite (surjective_pairing (status_list cells (concat (A := ascii) <$> gs))). cbn [fst].
    rewrite (IH k2 Hk2); [by rewrite fmap_app|]. rewrite E2. unfold list_pieces. by rewrite fmap_app.
Qed.

Lemma write_keys_out {K} can_write i cn ks (w : world (K := K)) :
  w_conns w !! i = Some cn -> can_write (cn_fd cn) = true ->
  exists w', write_keys can_write i ks w = (w', true) /\
    w_out w' = w_out w ++ ((fun k => (cn_fd cn, snprintf_s 96 (print_u k.1 ++ SP :: k.2 ++ [NL]))) <$> ks).
Proof.
  intros Hi Hw. revert w Hi. induction ks as [|k ks IH]; intros w Hi.
  - exists w. cbn. by rewrite app_nil_r.
  - cbn [write_keys]. unfold conn_write. rewrite Hi. cbn [fmap option_fmap option_map default from_option id].
    rewrite Hw. edestruct IH as (w' & -> & Eo); [exact Hi|]. exists w'. split; [done|].
    rewrite Eo. cbn [w_out]. by rewrite <- app_assoc.
Qed.

Lemma key_piece k : key_ok k -> snprintf_s 96 (print_u k.1 ++ SP :: k.2 ++ [NL]) = nl_line (key_text k).
Proof.
  intros [Hc (_ & _ & Hl)]. pose proof (print_u_digits k.1 20 ltac:(lia) ltac:(lia)) as Hd.
  rewrite snprintf_s_short by (rewrite length_app; cbn [length]; rewrite length_app; cbn [length]; lia).
  unfold nl_line, key_text. by rewrite <- app_assoc.
Qed.

(** C29. [sand lsm], both ends: the daemon answers [LIST] with one line per policy
    of its map and [END]; however these writes are grouped into reads that hold
    whole lines, the table printed has exactly one row per policy, in the map's
    order, with the cell's name. *)
Theorem status_lists_policies {K} (system : bytes -> K -> Z * K) order can_write dns now i cn cells
    (w : world (K := K)) groups w' :
  (forall m, order m ≡ₚ (map_to_list m).*1) -> pol_ok (w_pol w) ->
  Forall key_ok (order (pm_cellpol (w_pol w))) ->
  w_conns w !! i = Some cn -> can_write (cn_fd cn) = true ->
  serve_request system order can_write dns now i (B "LIST") w = Some (Some END_NL, w') ->
  concat groups = (snd <$> drop (length (w_out w)) (w_out w')) ++ [END_NL] ->
  Forall (fun g => (length (concat g) <= 319)%nat) groups ->
  lsm_status cells false (concat (A := ascii) <$> groups) = key_row cells <$> order (pm_cellpol (w_pol w)).
Proof.
  intros Ho Hm Hks Hi Hcw E Eg Hg. unfold lsm_status.
  rewrite (surjective_pairing (status_list _ _)), app_nil_r.
  apply status_list_pieces; [done| |done]. rewrite Eg. unfold list_pieces. f_equal.
  change (serve_request system order can_write dns now i (B "LIST") w) with
    (ks ← cell_list order (w_pol w); let '(w, ok) := write_keys can_write i ks w in
     Some (if ok then Some END_NL else None, w)) in E.
  rewrite cell_list_spec in E by (done || by apply pol_ok_zero). cbn [mbind option_bind] in E.
  destruct (write_keys_out can_write i cn (order (pm_cellpol (w_pol w))) w Hi Hcw) as (w1 & Ew & Eo).
  rewrite Ew in E. apply Some_inj, pair_equal_spec in E as [_ <-]. rewrite Eo, drop_app_length, <- !list_fmap_compose.
  apply list_fmap_ext. intros j k Hj. cbn. apply key_piece.
  rewrite Forall_forall in Hks. apply Hks. by eapply list_elem_of_lookup_2.
Qed.

(** ** Behaviours the comments do not promise *)

(** A line that two reads cut is lost, and its tail is taken for a line: the
    policy of cell 1234 is shown as one of cell 34. *)
Theorem list_line_split :
  lsm_status [CellName 34 (B "a.sock")] false [B "12"; B "34 /etc" ++ NL :: END_NL] =
    [key_row [CellName 34 (B "a.sock")] (34, B "/etc")].
Proof. by vm_compute. Qed.

(** The empty selector counts as all digits and names the cgroup id 0. *)
Theorem empty_selector cells :
  resolve_target [] cells = Some (0, snprintf_s 64 (cell_of cells 0)).
Proof. reflexivity. Qed.

(** ** Witnesses *)

Definition cells_two : list cellname :=
  [CellName 7 (B "agentcell-10.sock"); CellName 8 (B "agentcell-22.sock")].

Lemma hot_policy_exact_witness :
  let '(w', _, rc) := lsm_ctl_cmd daemon0 Deny [B "/tmp/agentcell-1"; B "/etc/ssl"] cells_two world0 in
  ctl_effect Deny 7 [B "/etc/ssl"] rc (w_pol world0) (w_pol w') /\ rc = 0.
Proof.
  pose proof (hot_policy_exact (sim_system []) map_order (fun _ => true) no_dns 100 0%nat Deny
    (B "/tmp/agentcell-1") [B "/etc/ssl"] cells_two 7 (B "agentcell-10.sock") world0
    ltac:(done) ltac:(by vm_compute) ltac:(lia) ltac:(done)
    ltac:(constructor; [unfold rword; split_and!; done || (cbn; lia)|constructor])
    ltac:(by intros k v ?)) as H.
  fold daemon0 in H.
  assert ((lsm_ctl_cmd daemon0 Deny [B "/tmp/agentcell-1"; B "/etc/ssl"] cells_two world0).2 = 0) as E
    by (by vm_compute).
  destruct (lsm_ctl_cmd _ _ _ _ _) as [[w' out] rc]. by split.
Defined.

(** The daemon with one policy. *)
Definition world7 : world (K := kview) :=
  set_pol (PolMaps {[(7, B "/etc/ssl") := ACT_DENY]} {[7 := 1]}) world0.

Definition world7' : world (K := kview) := conn_write (fun _ => true) 0 (B "7 /etc/ssl" ++ [NL]) world7.
Definition reads7 : list (list bytes) := [[B "7 /etc/ssl" ++ [NL]; END_NL]].

Lemma status_lists_policies_witness :
  lsm_status cells_two false (concat (A := ascii) <$> reads7) =
  key_row cells_two <$> map_order (pm_cellpol (w_pol world7)).
Proof.
  assert (pm_cellpol (w_pol world7) = {[(7, B "/etc/ssl") := ACT_DENY]}) as Em by reflexivity.
  assert (pol_ok (w_pol world7)) as Hok.
  { intros k v Hk. rewrite Em in Hk. apply lookup_singleton_Some in Hk as [<- <-].
    split_and!; [done|done|by apply (bool_decide_unpack _)]. }
  assert (Forall key_ok (map_order (pm_cellpol (w_pol world7)))) as Hks.
  { rewrite Em. unfold map_order. rewrite map_to_list_singleton. constructor; [|constructor].
    split; [cbn; lia|]. unfold rword. split_and!; done || (cbn; lia). }
  assert (w_conns world7 !! 0%nat = Some conn5) as Hi by reflexivity.
  assert (serve_request (sim_system []) map_order (fun _ => true) no_dns 100 0%nat (B "LIST") world7 =
    Some (Some END_NL, world7')) as Hs by reflexivity.
  assert (concat reads7 = (snd <$> drop (length (w_out world7)) (w_out world7')) ++ [END_NL]) as Hg
    by (by vm_compute).
  assert (Forall (fun g => (length (concat (A := ascii) g) <= 319)%nat) reads7) as Hl
    by (constructor; [by apply (bool_decide_unpack _)|constructor]).
  exact (status_lists_policies (sim_system []) map_order (fun _ => true) no_dns 100 0%nat conn5 cells_two
    world7 reads7 world7' (fun _ => reflexivity _) Hok Hks Hi eq_refl Hs Hg Hl).
Defined.
