(* ===== verification/Life.v ===== *)
(** * Starting, supervising and releasing a cell

    [sand.c]: [main] after the configuration is complete, with [write_uid_maps],
    the two registrations at the daemon, the sync message, [serve_loop] with its
    set-up and clean-up, the waiting and the clean-up; and the interface
    configuration inside the cell ([net_lo_up], [net_veth_up]).  The program is a
    computation in a small state monad that logs the calls it makes. *)

From S2P Require Import Prelude CString Arch Inet Wire Client Config.
From S2P Require Import Mounts Cell Info Cgroup.
Local Open Scope Z_scope.

(** ** The monad *)

(** Calls that change something outside the program.  [SReq]: a line sent to the
    daemon. *)
Inductive sysop :=
  | SMkdtemp (p : bytes) | SCg (o : cgop) | SPipe | SPair | SClone (pid : Z) (newnet : bool)
  | SWrite (p v : bytes) | SReq (line : bytes) | SSync (msg : bytes) | SRecvFd (ok : bool)
  | SBind (p : bytes) | SChmod (p : bytes) | SInfo (p text : bytes) | SSendFd (fd : Z) | SAct (a : act)
  | SKill (pid : Z) | SWait (pid : Z) | SRmdir (p : bytes) | SUnlink (p : bytes).
#[export] Instance act_eq_dec : EqDecision act.
Proof. solve_decision. Defined.
#[export] Instance sysop_eq_dec : EqDecision sysop.
Proof. solve_decision. Defined.

(** The daemon's state, the log and the globals that change: the network part of
    [C] with [g_veth_on], [g_lsm_on] and [g_lsm_cgid]. *)
Record ms {D : Type} := Ms {
  m_dm : D; m_log : list sysop; m_net : netcfg; m_on : bool; m_cgid : Z
}.
Arguments ms : clear implicits.
Arguments Ms {D} _ _ _ _ _.

(** Leaving early: with a status, or not at all within the inputs given. *)
Inductive stop := Exited (rc : Z) | Running.

Definition M (D A : Type) : Type := ms D -> (A + stop) * ms D.

#[export] Instance m_ret {D} : MRet (M D) := fun A a s => (inl a, s).
#[export] Instance m_bind {D} : base.MBind (M D) := fun A A2 f m s =>
  match m s with (inl a, s) => f a s | (inr e, s) => (inr e, s) end.

Section Ops.
Context {D : Type}.

Definition set_log (l : list sysop) (s : ms D) : ms D := Ms (m_dm s) l (m_net s) (m_on s) (m_cgid s).
Definition ops (os : list sysop) : M D unit := fun s => (inl tt, set_log (m_log s ++ os) s).
Definition op (o : sysop) : M D unit := ops [o].
Definition leave {A} (e : stop) : M D A := fun s => (inr e, s).
(** [if (!b) die(...)]. *)
Definition check (b : bool) : M D unit := if b then mret tt else leave (Exited 1).
Definition check_some {A} (x : option A) : M D A :=
  match x with Some a => mret a | None => leave (Exited 1) end.
Definition when (b : bool) (m : M D unit) : M D unit := if b then m else mret tt.
Definition get {A} (f : ms D -> A) : M D A := fun s => (inl (f s), s).

(** ** Requests to the daemon *)

(** [daemon]: the reply to a line, if any, and its state. *)
Context (daemon : bytes -> D -> option bytes * D).

Definition send (line : bytes) (s : ms D) : option bytes * ms D :=
  let '(r, d) := daemon line (m_dm s) in
  (r, Ms d (m_log s ++ [SReq line]) (m_net s) (m_on s) (m_cgid s)).

(** One turn of [lsm_register]'s connection. *)
Definition send_add (cmd : bytes) (s : ms D) : bytes * ms D :=
  let '(r, s) := send (cmd ++ [NL]) s in (default [] r, s).

(** A request through [lsm_cmd]. *)
Definition send_cmd (cmd : bytes) (s : ms D) : bytes * ms D :=
  let '(r, s) := send (snprintf_s (Z.to_nat 4200) (cmd ++ [NL])) s in
  (default [] (lsm_cmd (fun _ => r) cmd 64), s).

(** [lsm_register]: the id is kept even when the daemon refuses. *)
Definition do_lsm_register (cgid : option Z) (connected : bool) (deny : list bytes) : M D unit := fun s =>
  let '(s, on) := lsm_register send_add cgid connected deny s in
  (inl tt, Ms (m_dm s) (m_log s) (m_net s) (m_on s || on) (default (m_cgid s) cgid)).

Definition do_lsm_unregister : M D unit := fun s =>
  let '(s', on) := lsm_unregister send_cmd (m_on s) (m_cgid s) s in
  (inl tt, Ms (m_dm s') (m_log s') (m_net s') on (m_cgid s')).

(** [net_veth_register]: one request when the line fits. *)
Definition do_veth_register (collected : list bytes) (child : Z) : M D Z := fun s =>
  let c := m_net s in
  let '(r, s) := match netup_cmd child (resolv_init collected c) with
                 | Some cmd => send (snprintf_s (Z.to_nat 4200) (cmd ++ [NL])) s
                 | None => (None, s)
                 end in
  let '(rc, c) := net_veth_register (fun _ => r) collected child c in
  (inl rc, Ms (m_dm s) (m_log s) c (m_on s) (m_cgid s)).

Definition do_veth_unregister (child : Z) : M D unit := fun s =>
  let '(cmd, c) := net_veth_unregister child (m_net s) in
  let s := match cmd with Some cmd => (send_cmd cmd s).2 | None => s end in
  (inl tt, Ms (m_dm s) (m_log s) c (m_on s) (m_cgid s)).

(** ** Answers of the host *)

Record sysans := SysAns {
  a_newroot : option bytes;                 (* mkdtemp *)
  a_cgfile : option bytes; a_self : Z; a_mkdir : bool; a_dev : option (Z * Z);   (* cgroup_setup *)
  a_pipe : bool; a_pair : bool; a_ask_pair : bool; a_malloc : bool; a_clone : option Z;
  a_setgroups : bool; a_uid_map : bool; a_gid_map : bool;
  a_uid : Z; a_gid : Z;
  a_cgid : option Z; a_connected : bool; a_resolv : list bytes;
  a_ask_fd : bool                           (* recv_fd *)
}.
Context (a : sysans).

(** ** Launching *)

Definition proc_file (pid : Z) (name : string) : bytes :=
  snprintf_s 128 (B "/proc/" ++ print_d pid ++ SLASH :: B name).

Definition id_map (id : Z) : bytes := snprintf_s 128 (B "0 " ++ print_d id ++ B " 1" ++ [NL]).

Definition write_uid_maps (pid : Z) : M D unit :=
  _ ← when (a_setgroups a) (op (SWrite (proc_file pid "setgroups") (B "deny")));
  _ ← check (a_uid_map a);
  _ ← op (SWrite (proc_file pid "uid_map") (id_map (a_uid a)));
  _ ← check (a_gid_map a);
  op (SWrite (proc_file pid "gid_map") (id_map (a_gid a))).

(** [write_file] of the pid into [cgroup.procs]. *)
Definition park (cg : bytes) (pid : Z) : M D unit :=
  op (SWrite (cg_path cg "cgroup.procs") (snprintf_s 32 (print_d pid))).

Definition do_cgroup_setup (c : cfg) : M D (bytes * bool) :=
  let '(l, cg, have) := cgroup_setup (a_cgfile a) (a_self a) (a_mkdir a) (a_dev a) c in
  _ ← ops (SCg <$> l); mret (cg, have).

(** The running cell as [main] knows it. *)
Record running := Run { r_pid : Z; r_newroot : bytes; r_cg : bytes; r_have_cg : bool }.

Definition new_netns (c : cfg) : bool := negb (bool_decide (C_netmode (c_net c) = NET_HOST)).

(** [main] from [mkdtemp] to the write on the sync pipe. *)
Definition launch (serve : bool) (c : cfg) : M D running :=
  newroot ← check_some (a_newroot a);
  _ ← op (SMkdtemp newroot);
  '(cg, have) ← do_cgroup_setup c;
  _ ← check (a_pipe a); _ ← op SPipe;
  _ ← when serve (_ ← check (a_pair a); op SPair);
  _ ← when (s_ask (c_sec c)) (_ ← check (a_ask_pair a); op SPair);
  _ ← check (a_malloc a);
  pid ← check_some (a_clone a);
  _ ← op (SClone pid (new_netns c));
  _ ← write_uid_maps pid;
  _ ← when have (park cg pid);
  _ ← when (s_secure (c_sec c) && have) (do_lsm_register (a_cgid a) (a_connected a) (s_deny (c_sec c)));
  _ ← when (bool_decide (C_netmode (c_net c) = NET_VETH))
        (vr ← do_veth_register (a_resolv a) pid;
         when (vr =? -2)
           (_ ← op (SKill pid); _ ← op (SWait pid);
            _ ← when (s_secure (c_sec c) && have) do_lsm_unregister;
            _ ← when have (op (SRmdir cg));
            leave (Exited 127)));
  net ← get m_net;
  _ ← op (SSync (sync_msg net));
  mret (Run pid newroot cg have).

(** ** Supervising *)

(** [serve_loop]: set-up, the loop, clean-up.  The socket is bound at what fits
    [sun_path] of the path that is unlinked. *)
Record serveans := ServeAns {
  v_runtime : option bytes; v_listen : bool; v_info : Z -> info; v_ticks : list serve_tick
}.

Definition sock_path (v : serveans) (c : cfg) (jail : Z) : bytes :=
  match p_sock (c_pay c) with
  | [] => snprintf_s PATH_MAX (default (B "/tmp") (v_runtime v) ++ B "/agentcell-" ++ print_d jail ++ B ".sock")
  | p => snprintf_s PATH_MAX p
  end.
(** What fits [sun_path]. *)
Definition sun_path (sock : bytes) : bytes := snprintf_s 108 sock.
Definition info_path (sock : bytes) : bytes := snprintf_s PATH_MAX (sock ++ B ".info").

(** What one client costs: its descriptor is handed over, the info file is
    rewritten with the new count. *)
Definition client_ops (v : serveans) (info : bytes) (fd execs : Z) : list sysop :=
  [SSendFd fd; SInfo info (write_info (v_info v execs))].

Definition do_serve (v : serveans) (c : cfg) (r : running) : M D unit :=
  let sock := sock_path v c (r_pid r) in
  let info := info_path sock in
  _ ← op (SUnlink sock);
  _ ← check (v_listen v); _ ← op (SBind (sun_path sock)); _ ← op (SChmod sock);
  _ ← op (SInfo info (write_info (v_info v 0)));
  let '(sup, ended) := serve_loop (v_ticks v) (Sup [] 0 []) in
  _ ← ops (concat (zip_with (client_ops v info) (su_sent sup) (su_infos sup)));
  _ ← (if ended : bool then mret tt else leave Running);
  _ ← op (SKill (r_pid r)); _ ← op (SWait (r_pid r));
  _ ← do_lsm_unregister;
  _ ← do_veth_unregister (r_pid r);
  _ ← op (SUnlink sock);
  op (SUnlink info).

(** How the payload of a one-shot cell behaves. *)
Record payans := PayAns {
  y_polls : list (option Z);      (* --timeout: waitpid(WNOHANG), one a second *)
  y_ticks : list ask_tick; y_t0 : Z;  (* --ask *)
  y_killed : Z;                   (* its status once it was killed *)
  y_fin : option Z                (* the blocking waitpid; None: it does not return *)
}.

Definition do_wait (y : payans) (c : cfg) (r : running) (asking : bool) : M D Z :=
  let timeout := l_timeout (c_lim c) in
  if asking then
    let '(acts, e) := ask_loop (y_t0 y) timeout (y_ticks y) (y_killed y) always0 in
    _ ← ops (SAct <$> acts);
    match e with
    | Some e => _ ← op (SWait (r_pid r)); mret (en_status e)
    | None => leave Running
    end
  else if 0 <? timeout then
    match wait_loop timeout (y_polls y) (y_killed y) with
    | Some e => _ ← when (en_killed e) (op (SKill (r_pid r))); _ ← op (SWait (r_pid r)); mret (en_status e)
    | None => leave Running
    end
  else match y_fin y with
       | Some st => _ ← op (SWait (r_pid r)); mret st
       | None => leave Running
       end.

(** The value [main] returns. *)
Definition main_status (st : Z) : Z := if WIFEXITED st then WEXITSTATUS st else 128 + WTERMSIG st.

(** ** All of it *)

Definition cleanup (r : running) : M D unit :=
  _ ← when (r_have_cg r) (op (SRmdir (r_cg r)));
  _ ← do_lsm_unregister;
  _ ← do_veth_unregister (r_pid r);
  op (SRmdir (r_newroot r)).

(** [main] once the payload may run.  [serve]: the answers [serve_loop] gets.
    After it the jail is reaped already: the waits of [main] return at once and
    leave the status 0. *)
Definition supervise (serve : option serveans) (y : payans) (c : cfg) (r : running) : M D Z :=
  _ ← when (s_ask (c_sec c)) (op (SRecvFd (a_ask_fd a)));
  st ← match serve with
       | Some v => _ ← do_serve v c r; mret 0
       | None => do_wait y c r (s_ask (c_sec c) && a_ask_fd a)
       end;
  _ ← cleanup r;
  mret (main_status st).

Definition main_run (serve : option serveans) (y : payans) (c : cfg) : M D Z :=
  r ← launch (bool_decide (is_Some serve)) c;
  supervise serve y c r.
End Ops.

(** ** The interface inside the cell *)

(** [ioctl] requests; flags are the interface's before the call. *)
Inductive ioc := IGetFlags (ifn : bytes) | ISetFlags (ifn : bytes) (flags : Z) | ISetAddr (ifn : bytes) (v : Z)
  | ISetMask (ifn : bytes) (v : Z) | IAddRoute (ifn : bytes) (gw : Z).
Definition IFF_UP : Z := 1.

(** The requests made, in order; [flags]: what SIOCGIFFLAGS gives, [ok] what the
    others answer. *)
Definition net_lo_up (sock : bool) (flags : option Z) : list ioc :=
  if negb sock then []
  else IGetFlags (B "lo") ::
       match flags with
       | Some f => if Z.land f IFF_UP =? 0 then [ISetFlags (B "lo") (Z.lor f IFF_UP)] else []
       | None => []
       end.

Definition net_veth_up (sock : bool) (flags : option Z) (ok : ioc -> bool) (ifn ip gw : bytes) : list ioc :=
  if negb sock then []
  else
    let name := snprintf_s 16 ifn in
    match inet_pton ip with
    | None => []
    | Some addr =>
        ISetAddr name addr :: (if negb (ok (ISetAddr name addr)) then [] else
        let mask := default 0 (inet_pton (B "255.255.255.252")) in
        ISetMask name mask :: (if negb (ok (ISetMask name mask)) then [] else
        let route := match inet_pton gw with Some g => [IAddRoute ifn g] | None => [] end in
        IGetFlags name ::
        match flags with
        | Some f => let up := ISetFlags name (Z.lor f IFF_UP) in
                    up :: (if negb (ok up) then [] else route)
        | None => route
        end))
    end.

(** ** Reading a file and making a directory *)

(** The loop of [slurp]: [reads] what each [read] gives ([None] or nothing ends
    it), at most what is missing. *)
Fixpoint slurp_loop (n : nat) (reads : list (option bytes)) (buf : bytes) : bytes :=
  if (n <=? length buf)%nat then buf
  else match reads with
       | Some (c :: b) :: rs => slurp_loop n rs (buf ++ take (n - length buf) (c :: b))
       | _ => buf
       end.

(** [st]: whether the open file is a regular one, and its size; [None]: it cannot
    be opened or examined. *)
Definition slurp (st : option (bool * nat)) (malloc : bool) (reads : list (option bytes)) : option bytes :=
  match st with
  | Some (true, n) => if malloc then Some (slurp_loop n reads []) else None
  | _ => None
  end.

(** The directories [mmkdir_p] makes, in order. *)
Fixpoint mkdirs (pre rest : bytes) : list bytes :=
  match rest with
  | [] => [pre]
  | c :: r => if decide (c = SLASH) then pre :: mkdirs (pre ++ [c]) r else mkdirs (pre ++ [c]) r
  end.
Definition mmkdir_p (path : bytes) : list bytes :=
  match snprintf_s PATH_MAX path with
  | [] => []
  | c :: r => mkdirs [c] r
  end.
