(* ===== verification/LifeThms.v ===== *)
(** * Starting and releasing a cell: theorems

    The payload is held until everything that confines it is in place, and what
    was created for it is released when it ends. *)

From S2P Require Import Prelude CString Arch Inet NetDaemon Wire Client Config.
From S2P Require Import Mounts Cell CellThms Info Cgroup InfoThms Life.
Local Open Scope Z_scope.

(** ** Weakest preconditions *)

Section Wp.
Context {D : Type}.
Implicit Types (s : ms D).

(** [m] from [s] ends in [Q], or leaves in [E]. *)
Definition wp {A} (m : M D A) (Q : A -> ms D -> Prop) (E : stop -> ms D -> Prop) s : Prop :=
  match m s with (inl x, s') => Q x s' | (inr e, s') => E e s' end.

Lemma wp_bind {A A2} (m : M D A) (f : A -> M D A2) Q E s :
  wp m (fun x => wp (f x) Q E) E s -> wp (m ≫= f) Q E s.
Proof. unfold wp, mbind, m_bind. by destruct (m s) as [[x|e] s']. Qed.

Lemma wp_mono {A} (m : M D A) (Q Q' : A -> ms D -> Prop) (E E' : stop -> ms D -> Prop) s :
  wp m Q E s -> (forall x s', Q x s' -> Q' x s') -> (forall e s', E e s' -> E' e s') -> wp m Q' E' s.
Proof. unfold wp. destruct (m s) as [[x|e] s']; eauto. Qed.

Lemma wp_ret {A} (x : A) (Q : A -> ms D -> Prop) E s : Q x s -> wp (mret x) Q E s.
Proof. done. Qed.

Lemma wp_ops os (Q : unit -> ms D -> Prop) E s : Q tt (set_log (m_log s ++ os) s) -> wp (ops os) Q E s.
Proof. done. Qed.

Lemma wp_op o (Q : unit -> ms D -> Prop) E s : Q tt (set_log (m_log s ++ [o]) s) -> wp (op o) Q E s.
Proof. done. Qed.

Lemma wp_check b (Q : unit -> ms D -> Prop) E s :
  (b = true -> Q tt s) -> (b = false -> E (Exited 1) s) -> wp (check b) Q E s.
Proof. unfold check. destruct b; intros H1 H2; [by apply H1|by apply H2]. Qed.

Lemma wp_check_some {A} (x : option A) (Q : A -> ms D -> Prop) E s :
  (forall v, x = Some v -> Q v s) -> (x = None -> E (Exited 1) s) -> wp (check_some x) Q E s.
Proof. unfold check_some. destruct x; intros H1 H2; [by apply H1|by apply H2]. Qed.

Lemma wp_when b m (Q : unit -> ms D -> Prop) E s :
  (b = true -> wp m Q E s) -> (b = false -> Q tt s) -> wp (when b m) Q E s.
Proof. unfold when. destruct b; intros H1 H2; [by apply H1|by apply H2]. Qed.

(** ** Requests only add to the log *)

Context (daemon : bytes -> D -> option bytes * D).

(** The same globals, and requests added to the log. *)
Definition asked (reqs : list bytes) s s' : Prop :=
  m_log s' = m_log s ++ (SReq <$> reqs) /\ m_net s' = m_net s /\ m_on s' = m_on s /\ m_cgid s' = m_cgid s.

Lemma send_asked line s : asked [line] s (send daemon line s).2.
Proof. unfold send. by destruct (daemon line (m_dm s)). Qed.

Lemma asked_trans l1 l2 s1 s2 s3 : asked l1 s1 s2 -> asked l2 s2 s3 -> asked (l1 ++ l2) s1 s3.
Proof.
  intros (E1 & ? & ? & ?) (E2 & ? & ? & ?). split_and!; [|congruence..].
  by rewrite E2, E1, fmap_app, app_assoc.
Qed.

(** The lines of [lsm_register], one a prefix. *)
Definition add_lines (cgid : Z) (ps : list bytes) : list bytes := (fun p => add_cmd cgid p ++ [NL]) <$> ps.

(** The last of the requests was not granted, in the state the daemon was in. *)
Definition refused (reqs : list bytes) : Prop :=
  exists pre line d, reqs = pre ++ [line] /\ starts_with (B "OK") (default [] (daemon line d).1) = false.

(** The requests of [lsm_register]: every prefix up to the first refusal. *)
Lemma lsm_adds_asked cgid ps s :
  let '(s', on) := lsm_adds (send_add daemon) cgid ps s in
  exists reqs rest, asked reqs s s' /\ add_lines cgid ps = reqs ++ rest /\
    (if on then rest = [] else refused reqs).
Proof.
  revert s. induction ps as [|p ps IH]; intros s; cbn [lsm_adds].
  - exists [], []. split_and!; [|done|done]. unfold asked. by rewrite app_nil_r.
  - unfold send_add at 1. pose proof (send_asked (add_cmd cgid p ++ [NL]) s) as Hs.
    destruct (send daemon _ s) as [r s1] eqn:Er. cbn [fst snd] in Hs. destruct (starts_with _ _) eqn:Eok.
    + specialize (IH s1). destruct (lsm_adds _ cgid ps s1) as [s' on]. destruct IH as (reqs & rest & Ha & Hl & Ho).
      exists ((add_cmd cgid p ++ [NL]) :: reqs), rest. split_and!.
      * by apply (asked_trans [_] reqs _ s1).
      * change (add_lines cgid (p :: ps)) with ((add_cmd cgid p ++ [NL]) :: add_lines cgid ps). by rewrite Hl.
      * destruct on; [done|]. destruct Ho as (pre & line & d & -> & Hd). by exists ((add_cmd cgid p ++ [NL]) :: pre), line, d.
    + exists [add_cmd cgid p ++ [NL]], (add_lines cgid ps). split_and!; [done|done|].
      exists [], (add_cmd cgid p ++ [NL]), (m_dm s). split; [done|]. unfold send in Er.
      destruct (daemon _ (m_dm s)) as [r' d']. by injection Er as -> _.
Qed.

(** What [lsm_register] asked for and what came of it: all the prefixes, or those
    up to the first that was refused; nothing when the cgroup cannot be examined
    or the daemon not reached. *)
Definition registered (cgid : option Z) (conn : bool) (deny reqs : list bytes) (on : bool) (g : Z) : Prop :=
  match cgid with
  | Some g' =>
      g = g' /\
      if conn then exists rest, add_lines g (deny_prefixes deny) = reqs ++ rest /\
                   (if on then rest = [] else refused reqs)
      else reqs = [] /\ on = false
  | None => reqs = [] /\ on = false
  end.

Definition clr_line (cgid : Z) : bytes :=
  snprintf_s (Z.to_nat 4200) (snprintf_s 64 (B "CLR " ++ print_u cgid) ++ [NL]).
Definition down_line (pid : Z) : bytes :=
  snprintf_s (Z.to_nat 4200) (snprintf_s 64 (B "NETDOWN " ++ print_d pid) ++ [NL]).

Lemma wp_lsm_register cgid conn deny (Q : unit -> ms D -> Prop) E s :
  m_on s = false ->
  (forall reqs s', m_log s' = m_log s ++ (SReq <$> reqs) -> m_net s' = m_net s ->
     registered cgid conn deny reqs (m_on s') (m_cgid s') -> Q tt s') ->
  wp (do_lsm_register daemon cgid conn deny) Q E s.
Proof.
  intros Hoff H. unfold wp, do_lsm_register, lsm_register. destruct cgid as [g|]; [destruct conn; cbn [negb]|].
  - pose proof (lsm_adds_asked g (deny_prefixes deny) s) as Hl.
    destruct (lsm_adds _ _ _ _) as [s1 on]. destruct Hl as (reqs & rest & (E1 & E2 & E3 & E4) & Hl & Ho).
    apply (H reqs); [done..|]. cbn. rewrite E3, Hoff. split; [done|]. by exists rest.
  - apply (H []); [by rewrite app_nil_r|done|]. cbn. by rewrite Hoff.
  - apply (H []); [by rewrite app_nil_r|done|]. cbn. by rewrite Hoff.
Qed.

Lemma send_cmd_asked cmd s : asked [snprintf_s (Z.to_nat 4200) (cmd ++ [NL])] s (send_cmd daemon cmd s).2.
Proof.
  unfold send_cmd. pose proof (send_asked (snprintf_s (Z.to_nat 4200) (cmd ++ [NL])) s) as H.
  by destruct (send _ _ s).
Qed.

Lemma wp_lsm_unregister (Q : unit -> ms D -> Prop) E s :
  (forall s', m_log s' = m_log s ++ (SReq <$> (if m_on s then [clr_line (m_cgid s)] else [])) ->
     m_net s' = m_net s -> m_on s' = false -> m_cgid s' = m_cgid s -> Q tt s') ->
  wp (do_lsm_unregister daemon) Q E s.
Proof.
  intros H. unfold wp, do_lsm_unregister, lsm_unregister. destruct (m_on s) eqn:Eo; cbn [negb].
  - destruct (send_cmd_asked (snprintf_s 64 (B "CLR " ++ print_u (m_cgid s))) s) as (? & ? & ? & ?).
    by apply H.
  - apply H; [|done..]. cbn. by rewrite app_nil_r.
Qed.

Lemma wp_veth_unregister pid (Q : unit -> ms D -> Prop) E s :
  (forall s', m_log s' = m_log s ++ (SReq <$> (if g_veth_on (m_net s) then [down_line pid] else [])) ->
     g_veth_on (m_net s') = false -> m_on s' = m_on s -> m_cgid s' = m_cgid s -> Q tt s') ->
  wp (do_veth_unregister daemon pid) Q E s.
Proof.
  intros H. unfold wp, do_veth_unregister, net_veth_unregister.
  destruct (g_veth_on (m_net s)) eqn:Eo; cbn [negb].
  - destruct (send_cmd_asked (snprintf_s 64 (B "NETDOWN " ++ print_d pid)) s) as (? & ? & ? & ?). by apply H.
  - apply H; [|done..]. cbn. by rewrite app_nil_r.
Qed.

(** What [net_veth_register] says of the network when it did not fail fatally. *)
Lemma veth_rc d collected child c rc c' :
  net_veth_register d collected child c = (rc, c') -> cfg_ok (resolv_init collected c) ->
  s32 child = child -> C_egress c <> [] -> rc <> -2 -> g_veth_on c' = true.
Proof.
  intros H Hok Hc He Hrc. unfold net_veth_register in H.
  destruct (netup_cmd_fits child _ Hok Hc) as [Ec _]. rewrite Ec in H.
  assert (C_egress (resolv_init collected c) = C_egress c) as Eeg.
  { unfold resolv_init.
    destruct (length (C_resolv c) =? 0)%nat; done. }
  assert ((0 <? Z.of_nat (length (C_egress c))) = true) as Hpos.
  { apply Z.ltb_lt. destruct (C_egress c); [done|]. cbn [length]. lia. }
  cbn [C_egress] in H. rewrite Eeg, Hpos in H. destruct (_ || _ || _);
    apply pair_equal_spec in H as [<- <-]; done.
Qed.

(** The line of [net_veth_register], if it fits. *)
Definition netup_lines (cmd : option bytes) : list bytes :=
  match cmd with Some cmd => [snprintf_s (Z.to_nat 4200) (cmd ++ [NL])] | None => [] end.

Lemma wp_veth_register collected pid (Q : Z -> ms D -> Prop) E s :
  (forall rc s', m_log s' = m_log s ++ (SReq <$> netup_lines (netup_cmd pid (resolv_init collected (m_net s)))) ->
     m_on s' = m_on s -> m_cgid s' = m_cgid s ->
     (exists d, net_veth_register d collected pid (m_net s) = (rc, m_net s')) -> Q rc s') ->
  wp (do_veth_register daemon collected pid) Q E s.
Proof.
  intros H. unfold wp, do_veth_register. destruct (netup_cmd _ _) as [cmd|].
  - pose proof (send_asked (snprintf_s (Z.to_nat 4200) (cmd ++ [NL])) s) as (E1 & E2 & E3 & E4).
    destruct (send _ _ s) as [r s1]. cbn [fst snd] in *.
    destruct (net_veth_register (fun _ => r) collected pid (m_net s)) as [rc c] eqn:Er.
    eapply H; [exact E1|done|done|]. cbn. by exists (fun _ => r).
  - destruct (net_veth_register (fun _ => None) collected pid (m_net s)) as [rc c] eqn:Er.
    apply H; [by rewrite app_nil_r|done|done|]. cbn. by exists (fun _ => None).
Qed.
End Wp.

(** Steps of a program whose binds are explicit. *)
Ltac wp_step :=
  lazymatch goal with
  | |- wp (_ ≫= _) _ _ _ => apply wp_bind
  | |- wp (mret _) _ _ _ => apply wp_ret
  | |- wp (ops _) _ _ _ => apply wp_ops
  | |- wp (op _) _ _ _ => apply wp_op
  | |- wp (check _) _ _ _ => apply wp_check; intros ?
  | |- wp (check_some _) _ _ _ => apply wp_check_some; [intros ? ?|intros ?]
  end.

(** ** What a log leaves behind *)

Section Left.
(** Whether a [rmdir] or an [unlink] succeeds.  (No run makes the same call twice
    after the thing was made: the first [unlink] of a socket's path comes before
    there is one.) *)
Context (ok : sysop -> bool).

Inductive res := RDir (p : bytes) | RProc (pid : Z) | RFile (p : bytes).
#[export] Instance res_eq_dec : EqDecision res.
Proof. solve_decision. Defined.

Definition makes (o : sysop) : list res :=
  match o with
  | SMkdtemp p | SCg (CgMkdir p) => [RDir p]
  | SClone pid _ => [RProc pid]
  | SBind p | SInfo p _ => [RFile p]
  | _ => []
  end.
Definition drops (o : sysop) : list res :=
  match o with
  | SRmdir p => if ok o then [RDir p] else []
  | SWait pid => [RProc pid]
  | SUnlink p => if ok o then [RFile p] else []
  | _ => []
  end.

(** What was made and not dropped since. *)
Fixpoint remains (l : list sysop) : list res :=
  match l with
  | [] => []
  | o :: l' => filter (fun r => r ∉ mjoin (drops <$> l')) (makes o) ++ remains l'
  end.

Lemma remains_app l1 l2 :
  remains (l1 ++ l2) = filter (fun r => r ∉ mjoin (drops <$> l2)) (remains l1) ++ remains l2.
Proof.
  induction l1 as [|o l1 IH]; [done|]. cbn [remains app]. rewrite IH, filter_app, app_assoc. f_equal. f_equal.
  rewrite list_filter_filter. apply list_filter_iff. intros r.
  rewrite fmap_app, join_app, not_elem_of_app. tauto.
Qed.

(** Operations that make nothing. *)
Lemma remains_none l : Forall (fun o => makes o = []) l -> remains l = [].
Proof. induction 1 as [|o l Ho Hl IH]; [done|]. cbn. by rewrite Ho, IH. Qed.

(** The call that takes a thing away. *)
Definition undo (x : res) : sysop :=
  match x with RDir p => SRmdir p | RProc pid => SWait pid | RFile p => SUnlink p end.

(** A directory or a file that was to be removed, but the call failed. *)
Definition kept (l : list sysop) (x : res) : Prop :=
  match x with RProc _ => False | _ => undo x ∈ l /\ ok (undo x) = false end.

Lemma kept_incl l l' x : l ⊆ l' -> kept l x -> kept l' x.
Proof. intros Hi. destruct x; cbn; [|done|]; intros [H ?]; split; auto. Qed.

(** What is taken away is gone, or its removal failed. *)
Lemma undone l x : undo x ∈ l -> x ∉ mjoin (drops <$> l) -> kept l x.
Proof.
  intros Hin Hn. assert (x ∉ drops (undo x)) as Hd.
  { intros H. apply Hn, list_elem_of_join. exists (drops (undo x)). split; [done|]. by apply list_elem_of_fmap_2. }
  destruct x; cbn in *.
  - split; [done|]. destruct (ok _); [|done]. destruct Hd. left.
  - apply Hd. left.
  - split; [done|]. destruct (ok _); [|done]. destruct Hd. left.
Qed.

(** All that a log leaves is what could not be removed, but for [S]. *)
Definition leaves (S : res -> Prop) (l : list sysop) : Prop :=
  forall x, x ∈ remains l -> kept l x \/ S x.

Lemma leaves_none S l : Forall (fun o => makes o = []) l -> leaves S l.
Proof. intros H x Hx. rewrite remains_none in Hx by done. by apply elem_of_nil in Hx. Qed.

(** What follows removes what was there before, or only [S] of it. *)
Lemma leaves_app S l1 l2 :
  (forall x, x ∈ remains l1 -> undo x ∈ l2 \/ kept l1 x \/ S x) -> leaves S l2 -> leaves S (l1 ++ l2).
Proof.
  intros H1 H2 x Hx. rewrite remains_app in Hx. apply elem_of_app in Hx as [Hx|Hx].
  - apply list_elem_of_filter in Hx as [Hn Hx]. destruct (H1 x Hx) as [H|[H|H]]; [left|left|by right].
    + eapply kept_incl; [|by apply undone]. set_solver.
    + eapply kept_incl; [|exact H]. set_solver.
  - destruct (H2 x Hx) as [H|H]; [left|by right]. eapply kept_incl; [|exact H]. set_solver.
Qed.

Lemma remains_sub l r : r ∈ remains l -> exists o, o ∈ l /\ r ∈ makes o.
Proof.
  induction l as [|o l IH]; [by intros ?%elem_of_nil|]. cbn. intros [H|H]%elem_of_app.
  - apply list_elem_of_filter in H as [_ H]. exists o. split; [left|done].
  - destruct (IH H) as (o' & ? & ?). exists o'. split; [by right|done].
Qed.

End Left.

(** A host on which they do. *)
Definition all_ok (o : sysop) : bool := true.

(** ** The trace of a launch *)

Lemma cgmkdir_inj p q : CgMkdir p = CgMkdir q -> p = q.
Proof. by intros [=]. Qed.

(** No call that lets the payload run. *)
Definition is_sync (o : sysop) : bool := match o with SSync _ => true | _ => false end.
Definition no_sync (l : list sysop) : Prop := Forall (fun o => is_sync o = false) l.

Lemma no_sync_fmap {A} (f : A -> sysop) l : (forall x, is_sync (f x) = false) -> no_sync (f <$> l).
Proof. intros Hf. apply Forall_fmap. apply Forall_forall. intros x _. apply Hf. Qed.

Lemma no_sync_app l1 l2 : no_sync l1 -> no_sync l2 -> no_sync (l1 ++ l2).
Proof. intros. by apply Forall_app. Qed.

Ltac quiet :=
  repeat lazymatch goal with
  | |- no_sync (_ ++ _) => apply no_sync_app
  | |- no_sync (_ <$> _) => apply no_sync_fmap; intros ?; reflexivity
  | |- no_sync [] => constructor
  | |- no_sync (_ :: _) => constructor; [reflexivity|]; fold (no_sync)
  | |- Forall _ (_ ++ _) => apply no_sync_app
  | |- Forall _ (_ <$> _) => apply no_sync_fmap; intros ?; reflexivity
  | |- Forall _ [] => constructor
  | |- Forall _ (_ :: _) => constructor; [reflexivity|]
  | |- no_sync (if ?b then _ else _) => destruct b
  end.

Section Launch.
Context {D : Type} (daemon : bytes -> D -> option bytes * D) (a : sysans) (ok : sysop -> bool).
Implicit Types (s : ms D).

(** The calls before the daemon is asked. *)
Definition prepared (serve : bool) (c : cfg) (newroot : bytes) (pid : Z) : list sysop :=
  let '(l, cg, have) := cgroup_setup (a_cgfile a) (a_self a) (a_mkdir a) (a_dev a) c in
  SMkdtemp newroot :: (SCg <$> l) ++ [SPipe] ++ (if serve then [SPair] else []) ++
  (if s_ask (c_sec c) then [SPair] else []) ++ [SClone pid (new_netns c)] ++
  (if a_setgroups a then [SWrite (proc_file pid "setgroups") (B "deny")] else []) ++
  [SWrite (proc_file pid "uid_map") (id_map (a_uid a)); SWrite (proc_file pid "gid_map") (id_map (a_gid a))] ++
  (if have then [SWrite (cg_path cg "cgroup.procs") (snprintf_s 32 (print_d pid))] else []).

(** [g_cgpath] and [g_have_cg]. *)
Definition the_cg (c : cfg) : bytes := (cgroup_setup (a_cgfile a) (a_self a) (a_mkdir a) (a_dev a) c).1.2.
Definition has_cg (c : cfg) : bool := (cgroup_setup (a_cgfile a) (a_self a) (a_mkdir a) (a_dev a) c).2.

(** The state in which the daemon has been asked, before the decision about the
    network. *)
Record armed (serve : bool) (c : cfg) (r : running) (adds ups : list bytes) s : Prop := {
  ar_newroot : a_newroot a = Some (r_newroot r);
  ar_clone : a_clone a = Some (r_pid r);
  ar_maps : a_uid_map a = true /\ a_gid_map a = true;
  ar_cg : r_cg r = the_cg c /\ r_have_cg r = has_cg c;
  ar_log : m_log s = prepared serve c (r_newroot r) (r_pid r) ++ (SReq <$> adds) ++ (SReq <$> ups);
  ar_adds : if s_secure (c_sec c) && has_cg c
    then registered daemon (a_cgid a) (a_connected a) (s_deny (c_sec c)) adds (m_on s) (m_cgid s)
    else adds = [] /\ m_on s = false
}.

Definition start0 (d : D) (c : cfg) : ms D := Ms d [] (c_net c) false 0.

Lemma prepared_quiet serve c newroot pid : no_sync (prepared serve c newroot pid).
Proof. unfold prepared. destruct (cgroup_setup _ _ _ _ _) as [[l cg] have]. quiet. Qed.

(** The only directory [cgroup_setup] makes is the cell's, and only then. *)
Lemma cgroup_made file self mk dev c l cg have o r :
  cgroup_setup file self mk dev c = (l, cg, have) -> o ∈ l -> r ∈ makes (SCg o) ->
  have = true /\ r = RDir cg.
Proof.
  unfold cgroup_setup. destruct file as [f|]; [|by intros [= <- _ _] ?%elem_of_nil].
  destruct (cg_self f) as [|x self'] eqn:Es; [by intros [= <- _ _] ?%elem_of_nil|]. rewrite <- Es. clear Es.
  cbv zeta. intros H Hin Hr. destruct o as [p v|p]; [by apply elem_of_nil in Hr|].
  cbn in Hr. apply list_elem_of_singleton in Hr as ->.
  destruct mk; cbn [negb] in H; apply triple_inj in H as (<- & <- & <-).
  - split; [done|]. f_equal. apply elem_of_app in Hin as [Hin|Hin].
    { by destruct (_ || _); repeat (apply elem_of_cons in Hin as [Hin|Hin]; [done|]); apply elem_of_nil in Hin. }
    apply elem_of_app in Hin as [Hin|Hin].
    + apply elem_of_cons in Hin as [Hin|Hin]; [by apply cgmkdir_inj in Hin|].
      by repeat (apply elem_of_cons in Hin as [Hin|Hin]; [done|]); apply elem_of_nil in Hin.
    + destruct dev as [[ma mi]|]; [destruct (_ || _)|];
        by repeat (apply elem_of_cons in Hin as [Hin|Hin]; [done|]); apply elem_of_nil in Hin.
  - exfalso. by destruct (_ || _); repeat (apply elem_of_cons in Hin as [Hin|Hin]; [done|]); apply elem_of_nil in Hin.
Qed.

(** What is left of a prepared cell: its process and its directories. *)
Lemma prepared_remains serve c newroot pid r :
  r ∈ remains ok (prepared serve c newroot pid) ->
  r = RDir newroot \/ r = RProc pid \/ (has_cg c = true /\ r = RDir (the_cg c)).
Proof.
  intros (o & Ho & Hr)%remains_sub. unfold prepared, has_cg, the_cg in *.
  destruct (cgroup_setup _ _ _ _ _) as [[l cg] have] eqn:Ec. cbn [fst snd].
  apply elem_of_cons in Ho as [->|Ho]; [left; by apply list_elem_of_singleton in Hr|].
  rewrite !elem_of_app in Ho. destruct Ho as [Ho|Ho].
  - apply list_elem_of_fmap in Ho as (x & -> & Hx).
    destruct (cgroup_made _ _ _ _ _ _ _ _ _ _ Ec Hx Hr) as [-> ->]. auto.
  - destruct serve, (s_ask (c_sec c)), (a_setgroups a), have;
      repeat match goal with
      | H : _ \/ _ |- _ => destruct H as [H|H]
      | H : _ ∈ _ :: _ |- _ => apply elem_of_cons in H as [H|H]
      | H : _ ∈ [] |- _ => by apply elem_of_nil in H
      end; subst o; try (by apply elem_of_nil in Hr);
      right; left; by apply list_elem_of_singleton in Hr.
Qed.

(** After the network was decided on: with [--net veth] it was asked for, when the
    request fits its buffer, and the answer was not a fatal one. *)
Definition networked (c : cfg) (r : running) (ups : list bytes) (net : netcfg) : Prop :=
  if decide (C_netmode (c_net c) = NET_VETH)
  then ups = netup_lines (netup_cmd (r_pid r) (resolv_init (a_resolv a) (c_net c))) /\
       exists dd rc, net_veth_register dd (a_resolv a) (r_pid r) (c_net c) = (rc, net) /\ rc <> -2
  else ups = [] /\ net = c_net c.

Definition launched serve c (r : running) s : Prop :=
  exists adds ups s0, armed serve c r adds ups s0 /\ networked c r ups (m_net s0) /\
    s = set_log (m_log s0 ++ [SSync (sync_msg (m_net s0))]) s0.

Definition not_launched c (e : stop) s : Prop :=
  no_sync (m_log s) /\
  (e = Exited 1 \/
   (e = Exited 127 /\ m_on s = false /\
    forall r, r ∈ remains ok (m_log s) ->
      (exists p, a_newroot a = Some p /\ r = RDir p) \/
      (r = RDir (the_cg c) /\ SRmdir (the_cg c) ∈ m_log s /\ ok (SRmdir (the_cg c)) = false))).

(** Killing the payload again. *)
Lemma abort_spec serve c r adds ups s :
  armed serve c r adds ups s ->
  wp (_ ← op (SKill (r_pid r)); _ ← op (SWait (r_pid r));
      _ ← when (s_secure (c_sec c) && r_have_cg r) (do_lsm_unregister daemon);
      _ ← when (r_have_cg r) (op (SRmdir (r_cg r)));
      leave (Exited 127)) (fun (_ : unit) _ => False) (not_launched c) s.
Proof.
  intros Ha. do 4 wp_step.
  assert (forall s1 reqs, m_log s1 = m_log s ++ [SKill (r_pid r); SWait (r_pid r)] ++ (SReq <$> reqs) ->
    m_on s1 = false ->
    wp (_ ← when (r_have_cg r) (op (SRmdir (r_cg r))); leave (Exited 127))
      (fun (_ : unit) _ => False) (not_launched c) s1) as Hrest.
  { intros s1 reqs El Hon. assert (m_log (set_log (m_log s1 ++ (if r_have_cg r then [SRmdir (r_cg r)] else [])) s1) =
      prepared serve c (r_newroot r) (r_pid r) ++ (SReq <$> adds ++ ups) ++
      ([SKill (r_pid r); SWait (r_pid r)] ++ (SReq <$> reqs) ++ (if r_have_cg r then [SRmdir (r_cg r)] else []))) as E2.
    { cbn [m_log set_log]. rewrite El, (ar_log _ _ _ _ _ _ Ha), fmap_app, <- !app_assoc. done. }
    assert (not_launched c (Exited 127) (set_log (m_log s1 ++ (if r_have_cg r then [SRmdir (r_cg r)] else [])) s1)) as Hn.
    { split; [rewrite E2; quiet; apply prepared_quiet|right]. split_and!; [done|done|]. rewrite E2. intros x Hx.
      rewrite app_assoc, remains_app in Hx.
      apply elem_of_app in Hx as [Hx|Hx].
      - apply list_elem_of_filter in Hx as [Hn Hx]. rewrite remains_app in Hx.
        apply elem_of_app in Hx as [Hx|Hx].
        + apply list_elem_of_filter in Hx as [_ Hx]. apply prepared_remains in Hx as [->|[->|[Hc ->]]].
          * left. exists (r_newroot r). split; [apply Ha|done].
          * exfalso. apply Hn. rewrite fmap_app, join_app. apply elem_of_app. left. cbn. left.
          * right. destruct (ar_cg _ _ _ _ _ _ Ha) as [Eg Eh]. rewrite <- Eh in Hc. rewrite <- Eg in Hn |- *.
            split_and!; [done|rewrite Hc, !elem_of_app; right; right; right; right; left|].
            apply not_true_iff_false. intros Hok. apply Hn.
            rewrite Hc, !fmap_app, !join_app, !elem_of_app. right. right. cbn. rewrite Hok. left.
        + rewrite remains_none in Hx; [by apply elem_of_nil in Hx|]. apply Forall_fmap, Forall_true. done.
      - rewrite remains_none in Hx; [by apply elem_of_nil in Hx|].
        repeat constructor. apply Forall_app. split; [apply Forall_fmap, Forall_true; done|].
        destruct (r_have_cg r); repeat constructor. }
    wp_step. apply wp_when; intros Eh; rewrite Eh in Hn.
    - wp_step. exact Hn.
    - rewrite app_nil_r in Hn. by destruct s1. }
  wp_step. apply wp_when; intros Es.
  - apply wp_lsm_unregister. intros s1 El _ Hon _. eapply Hrest; [|done]. rewrite El.
    cbn [m_log set_log]. by rewrite <- !app_assoc.
  - apply (Hrest _ []); [cbn; by rewrite <- app_assoc|].
    destruct (ar_cg _ _ _ _ _ _ Ha) as [_ Eh]. rewrite Eh in Es.
    pose proof (ar_adds _ _ _ _ _ _ Ha) as Hd. rewrite Es in Hd. by destruct Hd.
Qed.

Lemma uid_maps_spec pid (Q : unit -> ms D -> Prop) (E : stop -> ms D -> Prop) s :
  (a_uid_map a = true -> a_gid_map a = true ->
   Q tt (set_log (m_log s ++ (if a_setgroups a then [SWrite (proc_file pid "setgroups") (B "deny")] else []) ++
     [SWrite (proc_file pid "uid_map") (id_map (a_uid a));
      SWrite (proc_file pid "gid_map") (id_map (a_gid a))]) s)) ->
  (forall l, no_sync l -> E (Exited 1) (set_log (m_log s ++ l) s)) ->
  wp (write_uid_maps a pid) Q E s.
Proof.
  intros HQ HE. unfold write_uid_maps. wp_step. apply wp_when; intros Eg; rewrite Eg in HQ.
  - wp_step. wp_step. wp_step; [|apply HE; quiet]. wp_step. wp_step. wp_step. wp_step.
    + wp_step. cbn [m_log set_log]. rewrite <- !app_assoc. by apply HQ.
    + cbn [m_log set_log]. rewrite <- !app_assoc. apply HE. quiet.
  - wp_step. wp_step; [|specialize (HE []); rewrite app_nil_r in HE; destruct s; apply HE; quiet].
    wp_step. wp_step. wp_step. wp_step.
    + wp_step. cbn [m_log set_log]. rewrite <- !app_assoc. by apply HQ.
    + cbn [m_log set_log]. apply HE. quiet.
Qed.

(** One of the two socket pairs. *)
Lemma pair_spec b got l d c :
  no_sync l ->
  wp (when b (_ ← check got; op SPair))
    (fun _ s => s = set_log (l ++ (if b then [SPair] else [])) (start0 d c)) (not_launched c)
    (set_log l (start0 d c)).
Proof.
  intros Hl. apply wp_when; intros ->; [|by rewrite app_nil_r].
  wp_step. wp_step; [wp_step; done|]. split; auto.
Qed.

(** The cell's policy. *)
Lemma arm_spec serve c newroot pid cg d :
  a_newroot a = Some newroot -> a_clone a = Some pid -> a_uid_map a = true -> a_gid_map a = true ->
  the_cg c = cg ->
  wp (when (s_secure (c_sec c) && has_cg c)
        (do_lsm_register daemon (a_cgid a) (a_connected a) (s_deny (c_sec c))))
    (fun _ s => exists adds, armed serve c (Run pid newroot cg (has_cg c)) adds [] s /\ m_net s = c_net c)
    (not_launched c) (set_log (prepared serve c newroot pid) (start0 d c)).
Proof.
  intros Hn Hp Hu Hg <-. apply wp_when; intros Es.
  - apply wp_lsm_register; [done|]. intros reqs s' El En Hon. exists reqs. split; [|done].
    split; cbn; try done; [by rewrite app_nil_r, El|by rewrite Es].
  - exists []. split; [|done]. split; cbn; try done; [by rewrite !app_nil_r|by rewrite Es].
Qed.

(** Its network. *)
Lemma network_spec serve c r adds s :
  armed serve c r adds [] s -> m_net s = c_net c ->
  wp (when (bool_decide (C_netmode (c_net c) = NET_VETH))
        (vr ← do_veth_register daemon (a_resolv a) (r_pid r);
         when (vr =? -2)
           (_ ← op (SKill (r_pid r)); _ ← op (SWait (r_pid r));
            _ ← when (s_secure (c_sec c) && r_have_cg r) (do_lsm_unregister daemon);
            _ ← when (r_have_cg r) (op (SRmdir (r_cg r)));
            leave (Exited 127))))
    (fun _ s => exists ups, armed serve c r adds ups s /\ networked c r ups (m_net s)) (not_launched c) s.
Proof.
  intros Ha En. apply wp_when; intros Ev.
  - apply bool_decide_eq_true in Ev. wp_step. apply wp_veth_register. intros rc s' El Hon Hcg (dd & Hr). rewrite En in El, Hr. set (reqs := netup_lines _) in El.
    assert (armed serve c r adds reqs s') as Ha'.
    { destruct Ha as [? ? ? ? El2 Hadds]. split; try done.
      - rewrite El, El2. cbn. by rewrite app_nil_r, <- app_assoc.
      - by rewrite Hon, Hcg. }
    apply wp_when; intros Erc.
    + eapply wp_mono; [by eapply (abort_spec serve c r)|done|done].
    + exists reqs. split; [done|]. unfold networked. rewrite decide_True by done. split; [done|].
      exists dd, rc. split; [done|]. by apply Z.eqb_neq.
  - apply bool_decide_eq_false in Ev. exists []. split; [done|]. unfold networked. by rewrite decide_False.
Qed.

(** Every launch either reaches the sync message with everything in place, or
    never lets the payload run. *)
Lemma launch_spec serve c d :
  wp (launch daemon a serve c) (launched serve c) (not_launched c) (start0 d c).
Proof.
  assert (forall s, no_sync (m_log s) -> not_launched c (Exited 1) s) as Hdie by (intros s Hs; split; auto).
  unfold launch. wp_step. wp_step; [|apply Hdie; constructor]. rename v into newroot. wp_step. wp_step.
  wp_step. unfold do_cgroup_setup. destruct (cgroup_setup (a_cgfile a) (a_self a) (a_mkdir a) (a_dev a) c)
    as [[l cg] have] eqn:Ecg. wp_step. wp_step. wp_step.
  wp_step. wp_step; [|apply Hdie; cbn; quiet]. wp_step. wp_step.
  cbn [set_log m_log m_dm m_net m_on m_cgid start0 app].
  change (Ms d ?l (c_net c) false 0) with (set_log l (start0 d c)).
  wp_step. eapply wp_mono; [apply pair_spec; quiet|intros ? ? ->|done].
  wp_step. eapply wp_mono; [apply pair_spec; quiet|intros ? ? ->|done].
  set (l3 := (_ ++ _) ++ _). assert (no_sync l3) as Q3 by (unfold l3; quiet; done).
  wp_step. wp_step; [|by apply Hdie]. wp_step. wp_step; [|by apply Hdie]. rename v into pid.
  wp_step. wp_step. wp_step. apply uid_maps_spec; [intros Hu Hg|intros l' Ql'; apply Hdie; cbn; quiet; done].
  wp_step.
  apply (wp_mono _ (fun _ s => s = set_log (prepared serve c newroot pid) (start0 d c)) _ (not_launched c) _ _);
    [|intros ? ? ->|done].
  { assert (forall x, x = prepared serve c newroot pid -> set_log x (start0 d c) =
      set_log (prepared serve c newroot pid) (start0 d c)) as Hx by (by intros ? ->).
    apply wp_when; intros Eh; [unfold park; wp_step|]; cbn [set_log m_log m_dm m_net m_on m_cgid start0]; apply Hx;
      unfold prepared; rewrite Ecg, Eh; unfold l3; rewrite <- ?app_assoc; cbn [app];
      rewrite <- ?app_assoc; by rewrite ?app_nil_r. }
  assert (the_cg c = cg /\ has_cg c = have) as [Egc <-] by (unfold the_cg, has_cg; by rewrite Ecg).
  wp_step. eapply wp_mono; [by apply (arm_spec serve c newroot pid cg)|intros ? s2 (adds & Ha & En)|done].
  wp_step. eapply wp_mono; [by apply (network_spec serve c (Run pid newroot cg (has_cg c)) adds)|intros ? s3 (ups & Ha3 & Hv)|done].
  wp_step. unfold get at 1. unfold wp at 1. wp_step. wp_step. wp_step. by exists adds, ups, s3.
Qed.

(** The same once it may run. *)
Lemma launched_remains serve c r adds ups s m x :
  armed serve c r adds ups s -> x ∈ remains ok (m_log s ++ [SSync m]) ->
  x = RDir (r_newroot r) \/ x = RProc (r_pid r) \/ (r_have_cg r = true /\ x = RDir (r_cg r)).
Proof.
  intros Ha Hx. destruct (ar_cg _ _ _ _ _ _ Ha) as [-> ->]. rewrite (ar_log _ _ _ _ _ _ Ha), <- !app_assoc in Hx.
  rewrite remains_app in Hx. apply elem_of_app in Hx as [Hx|Hx].
  - apply list_elem_of_filter in Hx as [_ Hx]. by apply prepared_remains in Hx.
  - rewrite remains_none in Hx; [by apply elem_of_nil in Hx|].
    repeat (apply Forall_app; split); try (apply Forall_fmap, Forall_true; done). by repeat constructor.
Qed.
End Launch.

(** ** Ending *)

(** The first element with a property. *)
Lemma list_first {A} (P : A -> Prop) `{forall x, Decision (P x)} (l : list A) :
  Exists (fun x => ~ P x) l -> exists pre x post, l = pre ++ x :: post /\ Forall P pre /\ ~ P x.
Proof.
  induction 1 as [x l Hx|x l Hl (pre & y & post & -> & Hpre & Hy)]; [by exists [], x, l|].
  destruct (decide (P x)); [|by exists [], x, (pre ++ y :: post)].
  exists (x :: pre), y, post. split_and!; [done|by constructor|done].
Qed.

(** What makes the supervisor stop: for [serve], a turn that finds the stop flag
    set, that [poll] fails in, or that finds the jail gone; the payload being
    reaped or the time being up at some turn of the [--ask] loop; [--timeout]
    seconds, whatever the payload does; or the payload ending. *)
Definition turn_ends (t : serve_tick) : bool :=
  st_stop t || match st_poll t with
               | PollIntr => false | PollFail => true | PollOk gone _ => gone || st_reaped t
               end.
Definition ends (a : sysans) (serve : option serveans) (y : payans) (c : cfg) : Prop :=
  let timeout := l_timeout (c_lim c) in
  match serve with
  | Some v => Exists (fun t => turn_ends t = true) (v_ticks v)
  | None =>
      if s_ask (c_sec c) && a_ask_fd a
      then Exists (fun t => ~ goes_on (y_t0 y) timeout t) (y_ticks y)
      else if 0 <? timeout then (Z.to_nat timeout < length (y_polls y))%nat
      else is_Some (y_fin y)
  end.

Lemma serve_loop_ends ts s : Exists (fun t => turn_ends t = true) ts -> (serve_loop ts s).2 = true.
Proof.
  intros H. revert s. induction ts as [|[stop poll reaped] ts IH]; intros s; [by apply Exists_nil in H|].
  cbn. destruct stop; [done|]. apply Exists_cons in H as [H|H].
  - unfold turn_ends in H. cbn in H. destruct poll as [| |[] client]; [done|done|done|]. cbn in H. by subst reaped.
  - destruct poll as [| |[] client]; auto. destruct reaped; auto.
Qed.

#[export] Instance goes_on_dec t0 timeout t : Decision (goes_on t0 timeout t).
Proof. unfold goes_on. apply _. Defined.

Lemma ask_loop_ends t0 timeout ts fin al :
  Exists (fun t => ~ goes_on t0 timeout t) ts -> is_Some (ask_loop t0 timeout ts fin al).2.
Proof.
  intros H. destruct (list_first _ ts H) as (pre & t & post & -> & Hpre & Ht).
  rewrite ask_loop_spec; [by eexists|done|done].
Qed.

Section Supervise.
Context {D : Type} (daemon : bytes -> D -> option bytes * D) (a : sysans) (ok : sysop -> bool).
Implicit Types (s : ms D).

(** Calls added that neither let a payload run nor touch the registrations. *)
Definition plain (l : list sysop) s s' : Prop :=
  m_log s' = m_log s ++ l /\ no_sync l /\ m_net s' = m_net s /\ m_on s' = m_on s /\ m_cgid s' = m_cgid s.

Lemma plain_ops l s : no_sync l -> plain l s (set_log (m_log s ++ l) s).
Proof. by intros H. Qed.

Ltac plain_log :=
  unfold plain; cbn [set_log m_log m_net m_on m_cgid]; rewrite <- ?app_assoc, ?app_nil_r;
  split_and!; [reflexivity|quiet|reflexivity..].

(** The payload is waited for, or has not ended. *)
Lemma wait_spec y c r s :
  wp (do_wait y c r (s_ask (c_sec c) && a_ask_fd a))
    (fun _ s' => exists l, plain l s s' /\ SWait (r_pid r) ∈ l /\ Forall (fun o => makes o = []) l)
    (fun e s' => e = Running /\ ~ ends a None y c /\ exists l, plain l s s') s.
Proof.
  unfold do_wait, ends. destruct (s_ask (c_sec c) && a_ask_fd a).
  - pose proof (ask_loop_ends (y_t0 y) (l_timeout (c_lim c)) (y_ticks y) (y_killed y) always0) as He.
    destruct (ask_loop _ _ _ _ _) as [acts e]. cbn [snd] in He. wp_step. wp_step. destruct e as [e|].
    + wp_step. wp_step. wp_step. cbn [set_log m_log]. exists ((SAct <$> acts) ++ [SWait (r_pid r)]). split_and!.
      * plain_log.
      * apply elem_of_app. right. left.
      * apply Forall_app. split; [apply Forall_fmap, Forall_true; done|by repeat constructor].
    + split_and!; [done|by intros H%He%is_Some_None|]. exists (SAct <$> acts). apply plain_ops. quiet.
  - destruct (Z.ltb_spec 0 (l_timeout (c_lim c))) as [Ht|Ht].
    + pose proof (wait_loop_spec (l_timeout (c_lim c)) (y_polls y) (y_killed y) ltac:(lia)) as He.
      destruct (wait_loop _ _ _) as [e|].
      * wp_step. apply wp_when; intros Ek; [wp_step|]; wp_step; wp_step; wp_step.
        -- exists [SKill (r_pid r); SWait (r_pid r)]. split_and!; [plain_log|repeat constructor|by repeat constructor].
        -- exists [SWait (r_pid r)]. split_and!; [plain_log|repeat constructor|by repeat constructor].
      * split_and!; [done|by intros H%He|]. exists []. plain_log.
    + destruct (y_fin y) as [st|].
      * wp_step. wp_step. wp_step. exists [SWait (r_pid r)].
        split_and!; [apply plain_ops; quiet|repeat constructor|by repeat constructor].
      * split_and!; [done|by intros H%is_Some_None|]. exists []. plain_log.
Qed.

(** The registrations of a cell given back. *)
Record freed (pid : Z) (l : list sysop) s s' : Prop := {
  fr_log : m_log s' = m_log s ++ l;
  fr_quiet : no_sync l;
  fr_rules : m_on s = true -> SReq (clr_line (m_cgid s)) ∈ l;
  fr_veth : g_veth_on (m_net s) = true -> SReq (down_line pid) ∈ l;
  fr_off : m_on s' = false /\ g_veth_on (m_net s') = false
}.

Lemma freed_plain pid l1 l2 s1 s2 s3 : plain l1 s1 s2 -> freed pid l2 s2 s3 -> freed pid (l1 ++ l2) s1 s3.
Proof.
  intros (E1 & Q1 & En & Eo & Ec) [E2 Q2 Hr Hv Ho]. rewrite En in Hv. rewrite Eo, Ec in Hr. split.
  - by rewrite E2, E1, app_assoc.
  - quiet; done.
  - intros H. apply elem_of_app. right. auto.
  - intros H. apply elem_of_app. right. auto.
  - done.
Qed.

Lemma plain_freed pid l1 l2 s1 s2 s3 :
  freed pid l1 s1 s2 -> m_log s3 = m_log s2 ++ l2 -> no_sync l2 -> m_on s3 = false ->
  g_veth_on (m_net s3) = false -> freed pid (l1 ++ l2) s1 s3.
Proof.
  intros [E1 Q1 Hr Hv Ho] E2 Q2 H1 H2. split.
  - by rewrite E2, E1, app_assoc.
  - quiet; done.
  - intros H. apply elem_of_app. left. auto.
  - intros H. apply elem_of_app. left. auto.
  - done.
Qed.

Lemma unregister_spec {A} pid (m : M D A) (Q : A -> ms D -> Prop) E s :
  (forall reqs s', freed pid (SReq <$> reqs) s s' -> wp m Q E s') ->
  wp (_ ← do_lsm_unregister daemon; _ ← do_veth_unregister daemon pid; m) Q E s.
Proof.
  intros H. wp_step. apply wp_lsm_unregister. intros s1 El1 En1 Ho1 Ec1.
  wp_step. apply wp_veth_unregister. intros s2 El2 Hv Ho2 Ec2.
  apply (H ((if m_on s then [clr_line (m_cgid s)] else []) ++ (if g_veth_on (m_net s) then [down_line pid] else []))).
  split.
  - rewrite El2, El1, En1, fmap_app, app_assoc. done.
  - quiet.
  - intros ->. cbn. left.
  - intros ->. rewrite fmap_app. apply elem_of_app. right. left.
  - split; [congruence|done].
Qed.

Lemma client_ops_all (P : sysop -> Prop) v info sent infos :
  (forall fd, P (SSendFd fd)) -> (forall t, P (SInfo info t)) ->
  Forall P (concat (zip_with (client_ops v info) sent infos)).
Proof.
  intros H1 H2. revert infos. induction sent as [|x xs IH]; intros [|i js]; [constructor..|].
  cbn [zip_with concat client_ops]. apply Forall_app. split; [by repeat constructor|apply IH].
Qed.

(** A file of [Hx] among the two unlinked. *)
Ltac sock_files Hx :=
  cbn in Hx; first [by apply elem_of_nil in Hx|apply list_elem_of_singleton in Hx as ->; auto].

(** A socket whose path does not fit [sun_path] is bound at another one. *)
Definition cut_socket (serve : option serveans) (c : cfg) (r : running) (x : res) : Prop :=
  exists v, serve = Some v /\ let sock := sock_path v c (r_pid r) in
    x = RFile (sun_path sock) /\ (108 <= length sock)%nat.

(** [serve_loop] cleans up after itself, unless its socket cannot be opened. *)
Lemma serve_spec v y c r s :
  wp (do_serve daemon v c r)
    (fun _ s' => exists l, freed (r_pid r) l s s' /\ SWait (r_pid r) ∈ l /\
       leaves ok (cut_socket (Some v) c r) l)
    (fun e s' => (e = Running /\ ~ ends a (Some v) y c \/ e = Exited 1 /\ v_listen v = false) /\
                 exists l, plain l s s') s.
Proof.
  unfold do_serve, ends. set (sock := sock_path v c (r_pid r)). set (info := info_path sock).
  wp_step. wp_step. wp_step. wp_step; [|split; [by right|]; exists [SUnlink sock]; plain_log].
  do 6 wp_step.
  pose proof (serve_loop_ends (v_ticks v) (Sup [] 0 [])) as He.
  destruct (serve_loop (v_ticks v) (Sup [] 0 [])) as [su e]. cbn [snd] in He. wp_step. wp_step.
  set (cl := concat _). assert (no_sync cl) as Qcl by (by apply client_ops_all).
  assert (Forall (fun o => forall x, x ∈ makes o -> x = RFile info) cl) as Hcl.
  { apply client_ops_all; [by intros ? ? ?%elem_of_nil|by intros ? ? ->%list_elem_of_singleton]. }
  destruct e; wp_step; [wp_step|split;
    [left; split; [done|]; intros Hx; by specialize (He Hx)|];
    exists (SUnlink sock :: SBind (sun_path sock) :: SChmod sock :: SInfo info (write_info (v_info v 0)) :: cl);
    plain_log; done].
  set (l1 := [SUnlink sock; SBind (sun_path sock); SChmod sock; SInfo info (write_info (v_info v 0))] ++ cl ++
             [SKill (r_pid r); SWait (r_pid r)]).
  wp_step. wp_step. wp_step. wp_step.
  apply (unregister_spec (r_pid r)). intros reqs s2 Hf. wp_step. wp_step. wp_step.
  exists (l1 ++ (SReq <$> reqs) ++ [SUnlink sock; SUnlink info]). split_and!.
  - rewrite app_assoc. eapply plain_freed; [eapply freed_plain; [|exact Hf]|..].
    + unfold l1. plain_log; done.
    + cbn. by rewrite <- app_assoc.
    + quiet.
    + apply (fr_off _ _ _ _ Hf).
    + apply (fr_off _ _ _ _ Hf).
  - unfold l1. rewrite !elem_of_app. left. right. right. right. left.
  - apply leaves_app.
    + intros x (o & Ho & Hx)%remains_sub.
      assert (x = RFile (sun_path sock) \/ x = RFile info) as [->| ->].
      { unfold l1 in Ho. rewrite !elem_of_app in Ho. destruct Ho as [Ho|[Ho|Ho]].
        - repeat (apply elem_of_cons in Ho as [->|Ho]; [sock_files Hx|]). by apply elem_of_nil in Ho.
        - rewrite Forall_forall in Hcl. right. by apply (Hcl o).
        - repeat (apply elem_of_cons in Ho as [->|Ho]; [sock_files Hx|]). by apply elem_of_nil in Ho. }
      * destruct (Nat.le_gt_cases 108 (length sock)) as [Hlong|Hshort]; [right; right; by exists v|left].
        cbn [undo]. unfold sun_path. rewrite snprintf_s_short by done. apply elem_of_app. right. left.
      * left. apply elem_of_app. right. right. left.
    + apply leaves_none, Forall_app. split; [apply Forall_fmap, Forall_true; done|by repeat constructor].
Qed.

(** Everything that was made for the cell is asked to go. *)
Definition released (serve : option serveans) (c : cfg) (r : running) s s' : Prop :=
  exists l, freed (r_pid r) l s s' /\ leaves ok (cut_socket serve c r) l /\
    SWait (r_pid r) ∈ l /\ SRmdir (r_newroot r) ∈ l /\ (r_have_cg r = true -> SRmdir (r_cg r) ∈ l).

Definition not_released (serve : option serveans) (y : payans) (c : cfg) (e : stop) s s' : Prop :=
  (e = Running /\ ~ ends a serve y c \/
   e = Exited 1 /\ exists v, serve = Some v /\ v_listen v = false) /\
  exists l, plain l s s'.

Lemma cleanup_spec serve c r (s0 s : ms D) l :
  (freed (r_pid r) l s0 s \/ plain l s0 s) -> SWait (r_pid r) ∈ l -> leaves ok (cut_socket serve c r) l ->
  wp (cleanup daemon r) (fun _ => released serve c r s0) (fun _ _ => False) s.
Proof.
  intros Hs Hw Hrem. unfold cleanup. wp_step.
  apply (wp_mono _ (fun _ s' => exists l', l' = (if r_have_cg r then [SRmdir (r_cg r)] else []) /\
    plain l' s s') _ (fun _ _ => False) _ _); [|intros ? s1 (l' & -> & Hp)|done].
  { apply wp_when; intros Eh; [wp_step|]; eexists; (split; [by rewrite Eh|]); plain_log. }
  apply (unregister_spec (r_pid r)). intros reqs s2 Hf. wp_step.
  pose proof (freed_plain _ _ _ _ _ _ Hp Hf) as Hf2.
  set (cg := if r_have_cg r then _ else _) in *.
  assert (Forall (fun o => makes o = []) cg) as Hcg by (unfold cg; destruct (r_have_cg r); by repeat constructor).
  exists (l ++ (cg ++ (SReq <$> reqs)) ++ [SRmdir (r_newroot r)]). split_and!.
  - rewrite app_assoc. eapply plain_freed; [|reflexivity|quiet|apply Hf..].
    destruct Hs as [Hs|Hs]; [|by eapply freed_plain].
    eapply plain_freed; [exact Hs|apply Hf2|apply Hf2|apply Hf2|apply Hf2].
  - apply leaves_app; [intros z Hz; right; by apply Hrem|]. apply leaves_none.
    repeat (apply Forall_app; split); [done|by apply Forall_fmap, Forall_true|by repeat constructor].
  - apply elem_of_app. by left.
  - rewrite !elem_of_app. right. right. left.
  - intros Hh. unfold cg. rewrite Hh. apply elem_of_app. right. left.
Qed.

Lemma supervise_spec serve y c r s :
  wp (supervise daemon a serve y c r) (fun _ => released serve c r s) (fun e => not_released serve y c e s) s.
Proof.
  unfold supervise. wp_step.
  apply (wp_mono _ (fun _ s' => exists l, plain l s s' /\ Forall (fun o => makes o = []) l) _ (fun _ _ => False) _ _);
    [|intros ? s0 (l0 & Hp0 & Hr0)|done].
  { apply wp_when; intros Ea; [wp_step|].
    - exists [SRecvFd (a_ask_fd a)]. split; [plain_log|by repeat constructor].
    - exists []. split; [plain_log|done]. }
  assert (forall S l, leaves ok S l -> leaves ok S (l0 ++ l)) as Hl0.
  { intros S l Hl. apply leaves_app; [|done]. intros z Hz. rewrite remains_none in Hz by done. by apply elem_of_nil in Hz. }
  assert (forall l s', plain l s0 s' -> exists l', plain l' s s') as Hext.
  { intros l s' Hp. exists (l0 ++ l). destruct Hp0 as (E1 & Q1 & ? & ? & ?), Hp as (E2 & Q2 & ? & ? & ?).
    split_and!; [by rewrite E2, E1, app_assoc|quiet; done|congruence..]. }
  wp_step. destruct serve as [v|].
  - wp_step. eapply wp_mono; [apply (serve_spec v y)|intros ? s1 (l & Hf & Hw & Hr)|].
    + wp_step. wp_step.
      eapply wp_mono; [apply (cleanup_spec (Some v) c r s s1 (l0 ++ l))|intros ? s2 Hrel; by wp_step|done].
      * left. by eapply freed_plain.
      * apply elem_of_app. by right.
      * by apply Hl0.
    + intros e s1 [[H|[-> H]] (l & Hl)]; (split; [|by eapply Hext]); [by left|right; by eauto].
  - eapply wp_mono; [apply wait_spec|intros st s1 (l & Hp & Hw & Hr)|].
    + wp_step. eapply wp_mono; [apply (cleanup_spec None c r s s1 (l0 ++ l))|intros ? s2 Hrel; by wp_step|done].
      * right. destruct Hp0 as (E1 & Q1 & ? & ? & ?), Hp as (E2 & Q2 & ? & ? & ?).
        split_and!; [by rewrite E2, E1, app_assoc|quiet; done|congruence..].
      * apply elem_of_app. by right.
      * by apply Hl0, leaves_none.
    + intros e s1 (-> & H & l & Hl). split; [|by eapply Hext]. by left.
Qed.
End Supervise.

(** ** The theorems *)

Lemma no_sync_split l1 l2 pre m post :
  no_sync l1 -> no_sync l2 -> forall m', l1 ++ SSync m' :: l2 = pre ++ SSync m :: post ->
  l1 = pre /\ m' = m /\ l2 = post.
Proof.
  intros H1 H2 m' E. apply app_eq_inv in E as [(k & -> & E)|(k & -> & E)]; destruct k as [|o k]; cbn in E.
  - injection E as E1 E2. subst. by rewrite app_nil_r.
  - injection E as E1 E2. subst. apply Forall_app in H1 as [_ H1]. by inversion H1.
  - injection E as E1 E2. subst. by rewrite app_nil_r.
  - injection E as E1 E2. subst. apply Forall_app in H2 as [_ H2]. by inversion H2.
Qed.

(** C5. The payload is held until everything is in place.  In every run, whatever
    the kernel and the daemon answer, at most one message releases the payload,
    and the calls before it are exactly these, in this order: the temporary root
    and the cgroup set-up, the clone, the user and group maps (both written), the
    child's pid written to [cgroup.procs] when there is a cgroup; then, with
    [--secure], a cgroup that can be examined and a daemon that can be reached, an
    ADD line for every denied prefix up to the first that is refused, and all of
    them when the policy counts as armed (without these conditions none, and the
    policy is not armed); then, with [--net veth], the NETUP line for the child if
    it fits its buffer.  With an allowlist (of a well-formed configuration) the
    message only goes out when the daemon provided the network. *)
Theorem payload_held {D} (daemon : bytes -> D -> option bytes * D) a serve y c d pre m post :
  m_log (main_run daemon a serve y c (start0 d c)).2 = pre ++ SSync m :: post ->
  no_sync pre /\ no_sync post /\
  exists r adds ups (s : ms D),
    armed daemon a (bool_decide (is_Some serve)) c r adds ups s /\ networked a c r ups (m_net s) /\
    pre = m_log s /\ m = sync_msg (m_net s) /\
    (C_netmode (c_net c) = NET_VETH -> C_egress (c_net c) <> [] ->
     cfg_ok (resolv_init (a_resolv a) (c_net c)) -> s32 (r_pid r) = r_pid r -> g_veth_on (m_net s) = true).
Proof.
  unfold main_run. pose proof (launch_spec daemon a all_ok (bool_decide (is_Some serve)) c d) as H.
  unfold wp in H. unfold mbind, m_bind.
  destruct (launch _ _ _ _ _) as [[r|e] s1]; cbn [snd].
  - destruct H as (adds & ups & s & Ha & Hv & ->). pose proof (supervise_spec daemon a all_ok serve y c r) as Hs.
    specialize (Hs (set_log (m_log s ++ [SSync (sync_msg (m_net s))]) s)). unfold wp in Hs.
    assert (no_sync (m_log s)) as Q1 by (rewrite (ar_log _ _ _ _ _ _ _ _ Ha); quiet; apply prepared_quiet).
    assert (exists l, no_sync l /\ m_log (supervise daemon a serve y c r
      (set_log (m_log s ++ [SSync (sync_msg (m_net s))]) s)).2 = m_log s ++ SSync (sync_msg (m_net s)) :: l)
      as (l & Q2 & ->).
    { destruct (supervise _ _ _ _ _ _ _) as [[rc|e] s2]; cbn [snd].
      - destruct Hs as (l & Hf & _). exists l. split; [apply Hf|]. rewrite (fr_log _ _ _ _ Hf). cbn.
        by rewrite <- app_assoc.
      - destruct Hs as (_ & l & El & Ql & _). exists l. split; [done|]. rewrite El. cbn. by rewrite <- app_assoc. }
    intros E. apply no_sync_split in E as (<- & <- & <-); [|done..]. split_and!; [done|done|].
    exists r, adds, ups, s. split_and!; [done..|]. intros Hm He Hok Hp. unfold networked in Hv.
    rewrite decide_True in Hv by done. destruct Hv as (_ & dd & rc & Hr & Hrc). by eapply veth_rc.
  - intros E. destruct H as [Hq _]. rewrite E in Hq. apply Forall_app in Hq as [_ Hq]. by inversion Hq.
Qed.

(** C9. What was made for a cell is released.  When the launch succeeded, then
    whatever the payload, the clients and the daemon do: [main] returns as soon as
    a turn of its loop finds a reason to stop ([ends]: for [serve] the stop flag
    read by a turn, a failing poll or the jail gone; else [--timeout] seconds or
    the payload being reaped), the process was waited for, the CLR and NETDOWN
    lines were sent if the policy and the network were on, and whatever directory
    or file is left is one whose [rmdir] or [unlink] was called and failed, or a
    socket whose path is too long for [sun_path].  It exits without all this only
    when the [serve] socket cannot be opened.  When the launch failed the payload
    was never let run; if that was because the allowlist's network was refused,
    only the temporary root is left, and the cgroup if its [rmdir] failed. *)
Theorem cell_released {D} (daemon : bytes -> D -> option bytes * D) a (ok : sysop -> bool) serve y c d :
  let run := main_run daemon a serve y c (start0 d c) in
  match launch daemon a (bool_decide (is_Some serve)) c (start0 d c) with
  | (inl r, s1) =>
      match run with
      | (inl _, s2) =>
          m_on s2 = false /\ g_veth_on (m_net s2) = false /\
          exists post, m_log s2 = m_log s1 ++ post /\ SWait (r_pid r) ∈ post /\
            (m_on s1 = true -> SReq (clr_line (m_cgid s1)) ∈ post) /\
            (g_veth_on (m_net s1) = true -> SReq (down_line (r_pid r)) ∈ post) /\
            (forall x, x ∈ remains ok (m_log s2) -> kept ok post x \/ cut_socket serve c r x)
      | (inr Running, _) => ~ ends a serve y c
      | (inr (Exited rc), _) => rc = 1 /\ exists v, serve = Some v /\ v_listen v = false
      end
  | (inr e, s1) => run = (inr e, s1) /\ not_launched a ok c e s1
  end.
Proof.
  intros run. unfold run, main_run, mbind, m_bind.
  pose proof (launch_spec daemon a ok (bool_decide (is_Some serve)) c d) as H. unfold wp in H.
  destruct (launch _ _ _ _ _) as [[r|e] s1]; [|done].
  destruct H as (adds & ups & s & Ha & Hv & ->).
  pose proof (supervise_spec daemon a ok serve y c r (set_log (m_log s ++ [SSync (sync_msg (m_net s))]) s)) as Hs.
  unfold wp in Hs. destruct (supervise _ _ _ _ _ _ _) as [[rc|[rc|]] s2].
  - destruct Hs as (l & Hf & Hr & Hw & Hn & Hc). destruct (fr_off _ _ _ _ Hf) as [Ho1 Ho2].
    split_and!; [done|done|exists l; split_and!; [apply Hf|done|apply Hf|apply Hf|]].
    intros x Hx. rewrite (fr_log _ _ _ _ Hf), remains_app in Hx. apply elem_of_app in Hx as [Hx|Hx]; [|by apply Hr].
    apply list_elem_of_filter in Hx as [Hd Hx]. left. apply undone; [|done].
    destruct (launched_remains _ _ _ _ _ _ _ _ _ _ _ Ha Hx) as [->|[->|[Hh ->]]]; [done|done|by apply Hc].
  - by destruct Hs as [[[? ?]|[[= ->] ?]] _].
  - by destruct Hs as [[[_ ?]|[? ?]] _].
Qed.

(** ** The interface inside the cell *)

(** 10.200.0.0, the network of the cells, and the mask of a /30. *)
Definition CELL_NET : Z := 10 * 2 ^ 24 + 200 * 2 ^ 16.
Definition MASK30 : Z := 2 ^ 32 - 4.

Lemma pton_cell_addr v : 0 <= v < 2 ^ 16 -> inet_pton (cell_addr v) = Some (CELL_NET + v).
Proof.
  intros Hv. rewrite <- inet_pton_ntop by (unfold CELL_NET; lia). f_equal. unfold inet_ntop, cell_addr.
  assert (byte_of (CELL_NET + v) 0 = 10) as ->.
  { unfold byte_of, CELL_NET. rewrite Z.shiftr_div_pow2 by lia. simpl (8 * _). Z.div_mod_to_equations. lia. }
  assert (byte_of (CELL_NET + v) 1 = 200) as ->.
  { unfold byte_of, CELL_NET. rewrite Z.shiftr_div_pow2 by lia. simpl (8 * _). Z.div_mod_to_equations. lia. }
  assert (byte_of (CELL_NET + v) 2 = Z.shiftr v 8) as ->.
  { unfold byte_of, CELL_NET. rewrite !Z.shiftr_div_pow2 by lia. simpl (8 * _). Z.div_mod_to_equations. lia. }
  assert (byte_of (CELL_NET + v) 3 = Z.land v 255) as ->; [|done].
  change 255 with (Z.ones 8). rewrite Z.land_ones by lia. unfold byte_of, CELL_NET.
  rewrite Z.shiftr_div_pow2 by lia. simpl (8 * _). Z.div_mod_to_equations. lia.
Qed.

Lemma land_mask30 v k : 0 <= v < 2 ^ 30 -> 0 <= k < 4 -> Z.land (4 * v + k) MASK30 = 4 * v.
Proof.
  intros Hv Hk. unfold MASK30. change (2 ^ 32 - 4) with (Z.shiftl (Z.ones 30) 2).
  replace (4 * v) with (Z.shiftl v 2) at 2 by (rewrite Z.shiftl_mul_pow2; lia).
  replace (4 * v + k) with (Z.lor (Z.shiftl v 2) k).
  - apply Z.bits_inj'. intros n Hn. rewrite Z.land_spec, Z.lor_spec, !Z.shiftl_spec by done.
    destruct (Z.lt_ge_cases n 2) as [H|H].
    + rewrite !(Z.testbit_neg_r _ (n - 2)) by lia. by rewrite andb_false_r.
    + rewrite Z.testbit_ones_nonneg by lia.
      assert (Z.testbit k n = false) as ->.
      { apply (Z.bits_above_log2 k n); [lia|]. destruct (decide (k = 0)) as [->|]; [cbn; lia|].
        apply Z.log2_lt_pow2; [lia|]. assert (2 ^ 2 <= 2 ^ n) by (apply Z.pow_le_mono_r; lia). lia. }
      rewrite orb_false_r. destruct (Z.ltb_spec (n - 2) 30); [by rewrite andb_true_r|].
      rewrite andb_false_r. symmetry. apply (Z.bits_above_log2 v (n - 2)); [lia|].
      destruct (decide (v = 0)) as [->|]; [cbn; lia|]. apply Z.log2_lt_pow2; [lia|].
      assert (2 ^ 30 <= 2 ^ (n - 2)) by (apply Z.pow_le_mono_r; lia). lia.
  - rewrite <- Z.add_nocarry_lor; [rewrite Z.shiftl_mul_pow2 by lia; lia|].
    apply Z.bits_inj'. intros n Hn. rewrite Z.land_spec, Z.shiftl_spec, Z.bits_0 by done.
    destruct (Z.lt_ge_cases n 2) as [H|H]; [by rewrite (Z.testbit_neg_r _ (n - 2)) by lia|].
    rewrite (Z.bits_above_log2 k n), andb_false_r; [done|lia|].
    destruct (decide (k = 0)) as [->|]; [cbn; lia|].
    apply Z.log2_lt_pow2; [lia|]. assert (2 ^ 2 <= 2 ^ n) by (apply Z.pow_le_mono_r; lia). lia.
Qed.

(** The addresses the daemon hands out are configured as they should: for the
    interface and addresses of any slot, the cell sets its address, the /30 mask
    and the interface up, and routes everything through a gateway that is another
    address of the same /30. *)
Theorem veth_configured ifn idx f :
  (length ifn < 16)%nat -> 0 <= idx < 2 ^ 14 ->
  let addr := CELL_NET + (idx * 4 + 2) in
  let gw := CELL_NET + (idx * 4 + 1) in
  net_veth_up true (Some f) (fun _ => true) ifn (cell_addr (idx * 4 + 2)) (cell_addr (idx * 4 + 1)) =
    [ISetAddr ifn addr; ISetMask ifn MASK30; IGetFlags ifn; ISetFlags ifn (Z.lor f IFF_UP); IAddRoute ifn gw] /\
  Z.land addr MASK30 = Z.land gw MASK30 /\ addr <> gw /\ Z.testbit (Z.lor f IFF_UP) 0 = true.
Proof.
  intros Hl Hi addr gw. split_and!.
  - unfold net_veth_up. rewrite !pton_cell_addr by lia. cbn [negb]. by rewrite snprintf_s_short by done.
  - unfold addr, gw, CELL_NET.
    replace (10 * 2 ^ 24 + 200 * 2 ^ 16 + (idx * 4 + 2)) with (4 * (45219840 + idx) + 2) by lia.
    replace (10 * 2 ^ 24 + 200 * 2 ^ 16 + (idx * 4 + 1)) with (4 * (45219840 + idx) + 1) by lia.
    by rewrite !land_mask30 by lia.
  - unfold addr, gw. lia.
  - rewrite Z.lor_spec. change (Z.testbit IFF_UP 0) with true. by rewrite orb_true_r.
Qed.

(** ** Reading a file and making a directory *)

(** However the file is cut into reads, [slurp] returns all of it. *)
Lemma slurp_whole chunks :
  Forall (fun b => b <> []) chunks ->
  slurp (Some (true, length (concat chunks))) true (Some <$> chunks) = Some (concat chunks).
Proof.
  intros Hc. unfold slurp. f_equal.
  enough (forall buf, slurp_loop (length (buf ++ concat chunks)) (Some <$> chunks) buf = buf ++ concat chunks) as H
    by apply (H []).
  induction Hc as [|b bs Hb Hbs IH]; intros buf; cbn [fmap list_fmap concat].
  - rewrite app_nil_r. cbn [slurp_loop]. by destruct (_ <=? _)%nat.
  - destruct b as [|c b]; [done|]. cbn [slurp_loop]. rewrite (proj2 (Nat.leb_gt _ _)).
    + assert (length (buf ++ (c :: b) ++ concat bs) - length buf = length (c :: b) + length (concat bs))%nat as ->
        by (rewrite !length_app; lia).
      rewrite take_ge by lia. rewrite app_assoc. apply IH.
    + rewrite !length_app. cbn. lia.
Qed.

(** The parents of a directory are made before it, and it is made last. *)
Lemma mkdirs_parents pre rest parent x :
  rest = parent ++ SLASH :: x -> exists l, mkdirs pre rest = l ++ mkdirs (pre ++ parent ++ [SLASH]) x /\ pre ++ parent ∈ l.
Proof.
  intros ->. revert pre. induction parent as [|c parent IH]; intros pre; cbn [app mkdirs].
  - rewrite decide_True by done. exists [pre]. rewrite app_nil_r. split; [done|left].
  - destruct (IH (pre ++ [c])) as (l & E & Hin). rewrite <- app_assoc in E, Hin. cbn in E, Hin.
    destruct (decide (c = SLASH)); [exists (pre :: l)|exists l]; cbn; rewrite E; (split; [done|]); [by right|done].
Qed.

Lemma mkdirs_last pre rest : last (mkdirs pre rest) = Some (pre ++ rest).
Proof.
  revert pre. induction rest as [|c rest IH]; intros pre; cbn [mkdirs]; [by rewrite app_nil_r|].
  destruct (decide (c = SLASH)); [|by rewrite IH, <- app_assoc].
  rewrite last_cons, IH. by rewrite <- app_assoc.
Qed.

(** ** Behaviours the comments do not promise *)

(** A host on which everything works, as far as the arguments say. *)
Definition ok_host (uid_map : bool) : sysans :=
  SysAns (Some (B "/tmp/agentcell-root.a1b2c3")) (Some (B "0::/user.slice" ++ [NL])) 41 true None
    true true true true (Some 42) true uid_map true 1000 1000 (Some 7) true [B "9.9.9.9"] true.

(** A daemon that grants prefixes and refuses networks. *)
Definition no_net_daemon (line : bytes) (n : nat) : option bytes * nat :=
  (Some (if starts_with (B "NETUP") line then B "ERR netup" ++ [NL] else B "OK" ++ [NL]), S n).

(** [--egress example.org --timeout 2]. *)
Definition egress_cfg : cfg :=
  let c := cfg0 100 in
  Cfg (Limits 100 (B "max 100000") 256 0 0 2) (c_fs c) (c_sec c) (c_pay c)
    (NetCfg [(B "example.org", B "443")] [] NET_VETH [] [] [] false).

Definition no_payload : payans := PayAns [None; None; None; None] [] 0 9 None.

(** When the network of an allowlist is refused, the temporary root directory
    stays: this exit does not remove it. *)
Theorem egress_failure_leaves_root :
  let '(e, s) := main_run no_net_daemon (ok_host true) None no_payload egress_cfg (start0 0%nat egress_cfg) in
  e = inr (Exited 127) /\ remains all_ok (m_log s) = [RDir (B "/tmp/agentcell-root.a1b2c3")].
Proof. by vm_compute. Qed.

(** When the maps cannot be written, [die] leaves the cgroup and the directory. *)
Theorem die_leaves_cgroup :
  let c := cfg0 100 in
  let '(e, s) := main_run no_net_daemon (ok_host false) None no_payload c (start0 0%nat c) in
  e = inr (Exited 1) /\
  remains all_ok (m_log s) = [RDir (B "/tmp/agentcell-root.a1b2c3");
                       RDir (B "/sys/fs/cgroup/user.slice/agentcell-41"); RProc 42].
Proof. by vm_compute. Qed.

(** A socket path that does not fit [sun_path]: the socket is bound at its first
    107 bytes, and a [serve] that is stopped leaves it there. *)
Theorem long_socket_left :
  let path := SLASH :: replicate 120 "s"%char in
  let c0 := cfg0 100 in
  let c := Cfg (c_lim c0) (c_fs c0) (c_sec c0) (PayCfg path [] [] []) (c_net c0) in
  let v := ServeAns None true (fun n => Info 41 42 0 (B "-") n 0 0) [ServeTick true PollIntr false] in
  let '(e, s) := main_run no_net_daemon (ok_host true) (Some v) no_payload c (start0 0%nat c) in
  e = inl 0 /\ remains all_ok (m_log s) = [RFile (take 107 path)].
Proof. by vm_compute. Qed.

(** ** Witnesses *)

(** [--secure --timeout 2]. *)
Definition secure_cfg : cfg :=
  Cfg (Limits 100 (B "max 100000") 256 0 0 2) (FsCfg [] [] [] [] [] [] 0)
    (SecCfg false false false true []) (PayCfg [] [] [] []) netcfg0.
Abbreviation secure_run :=
  (main_run no_net_daemon (ok_host true) None no_payload secure_cfg (start0 0%nat secure_cfg)).

Definition sync_at : nat := default 0%nat (fst <$> list_find (fun o => is_sync o = true) (m_log secure_run.2)).

Lemma payload_held_witness :
  no_sync (take sync_at (m_log secure_run.2)) /\
  SReq (add_cmd 7 (B "/etc/shadow") ++ [NL]) ∈ take sync_at (m_log secure_run.2).
Proof.
  assert (m_log secure_run.2 = take sync_at (m_log secure_run.2) ++ SSync (B "x") ::
    drop (S sync_at) (m_log secure_run.2)) as E by (by vm_compute).
  split; [|by apply (bool_decide_unpack _); vm_compute].
  exact (proj1 (payload_held no_net_daemon (ok_host true) None no_payload secure_cfg 0%nat _ _ _ E)).
Defined.

Abbreviation secure_launch :=
  (launch no_net_daemon (ok_host true) false secure_cfg (start0 0%nat secure_cfg)).

Lemma cell_released_witness :
  exists s2, secure_run = (inl 137, s2) /\ m_on secure_launch.2 = true /\
    SReq (clr_line 7) ∈ m_log s2 /\ remains all_ok (m_log s2) = [].
Proof.
  pose proof (cell_released no_net_daemon (ok_host true) all_ok None no_payload secure_cfg 0%nat) as H.
  assert (secure_launch = (inl (Run 42 (B "/tmp/agentcell-root.a1b2c3")
     (B "/sys/fs/cgroup/user.slice/agentcell-41") true), secure_launch.2)) as El by (by vm_compute).
  cbv zeta in H. change (bool_decide (is_Some None)) with false in H. rewrite El in H.
  assert (secure_run.1 = inl 137) as E1 by (by vm_compute).
  destruct secure_run as [o s2] eqn:Er. cbn in E1. subst o. destruct H as (_ & _ & post & Hl & _ & Hc & _ & Hk).
  exists s2. split_and!; [done|by vm_compute|rewrite Hl; apply elem_of_app; right; by apply Hc; vm_compute|].
  apply elem_of_nil_inv. intros x Hx. destruct (Hk x Hx) as [Hx'|(v & ? & _)]; [|done].
  by destruct x; [destruct Hx'|..|destruct Hx'].
Defined.

Lemma veth_configured_witness :
  Z.land (CELL_NET + (3 * 4 + 2)) MASK30 = Z.land (CELL_NET + (3 * 4 + 1)) MASK30.
Proof. apply (veth_configured (B "vethc3") 3 0); [cbn; lia|lia]. Defined.
