(* ===== verification/Lib.v ===== *)
(** * The embedding library

    [libagentcell.c]: [agentcell_spawn], [agentcell_release], the table of cells
    and the mapping of [struct agentcell_config] to the configuration of [sand];
    [agentcell.h]: the configuration.  The launch is the sequence of [sand.c]'s
    own functions, in the monad of the life of a cell; [die] jumps back. *)

From S2P Require Import Prelude CString Client Config Mounts Cell.
From S2P Require Import Info Cgroup Life.
Local Open Scope Z_scope.

(** ** Configuration *)

Definition AGENTCELL_NET_NONE : Z := 0.
Definition AGENTCELL_NET_HOST : Z := 1.
Definition AGENTCELL_NET_VETH : Z := 2.

(** [struct agentcell_config]; [k_cpu] is [(long)(cpu_cores * 100000)] when
    [cpu_cores > 0]. *)
Record agentcell_config := AgentcellConfig {
  k_workdir : option bytes; k_rootfs : option bytes; k_mem : Z; k_cpu : option Z; k_pids : Z; k_net : Z;
  k_egress : option bytes; k_secure : bool; k_no_landlock : bool; k_no_seccomp : bool;
  k_egress_list : option (list bytes)
}.

(** The loop over what [fscanf] reads of [/proc/meminfo]: the last value read, and
    whether it was that of [MemTotal:], which ends the loop. *)
Fixpoint meminfo_loop (fuel : nat) (s : bytes) (v : Z) : Z * bool :=
  match fuel with
  | O => (v, false)
  | S fuel =>
      match scan_str 63 s with
      | None => (v, false)
      | Some (k, s) =>
          match scan_ld s with
          | None => (v, false)
          | Some (v, s) =>
              if decide (k = B "MemTotal:") then (v, true)
              else
                let s := skip_while isspace s in
                meminfo_loop fuel (if starts_with (B "kB") s then drop 2 s
                                   else if starts_with (B "k") s then drop 1 s else s) v
          end
      end
  end.

(** [frac v]: [(long)((double)v * 1024 * 0.6)]. *)
Definition mem_total_frac (frac : Z -> Z) (file : option bytes) : Z :=
  frac (match file with Some s => (meminfo_loop (S (length s)) s 0).1 | None => 0 end).

(** The default of [main] in [sand.c]: what the table says, or 2 GiB. *)
Definition main_mem (frac : Z -> Z) (file : option bytes) : Z :=
  match file with
  | Some s => let '(v, found) := meminfo_loop (S (length s)) s 0 in if found then frac v else 2 * 2 ^ 30
  | None => 2 * 2 ^ 30
  end.

Fixpoint egress_adds (es : list bytes) (n : netcfg) : option netcfg :=
  match es with
  | [] => Some n
  | e :: es' => let '(rc, n) := egress_add e n in if rc =? 0 then egress_adds es' n else None
  end.

Definition set_mode (m : netmode) (n : netcfg) : netcfg :=
  NetCfg (C_egress n) (C_resolv n) m (C_veth_if n) (C_veth_ip n) (C_veth_gw n) (g_veth_on n).

Definition lib_net (k : agentcell_config) : netmode :=
  if k_net k =? AGENTCELL_NET_HOST then NET_HOST
  else if k_net k =? AGENTCELL_NET_VETH then NET_VETH else NET_NONE.

(** The allowlist; [None] is [die]. *)
Definition lib_egress (k : agentcell_config) (n : netcfg) : option netcfg :=
  n ← match k_egress k with
      | Some e => n ← egress_adds [e] n; Some (set_mode NET_VETH n)
      | None => Some n
      end;
  match k_egress_list k with
  | Some es => n ← egress_adds es n; Some (set_mode NET_VETH n)
  | None => Some n
  end.

Section Config.
Context (realpath : bytes -> option bytes) (isdir : bytes -> bool) (home : bytes).

(** [C] after the mapping; [memfrac] is [(long)mem_total_frac(0.6)]. *)
Definition lib_config (memfrac : Z) (k : agentcell_config) (argv : list bytes) : option cfg :=
  workdir ← match k_workdir k with
            | Some w => realpath w
            | None => realpath (snprintf_s PATH_MAX (home ++ B "/agent-work"))
            end;
  rootfs ← match k_rootfs k with
           | Some p => r ← realpath p; if isdir r : bool then Some r else None
           | None => Some []
           end;
  net ← lib_egress k (set_mode (lib_net k) netcfg0);
  Some (Cfg
    (Limits (if k_mem k =? 0 then memfrac else s64 (k_mem k))
       (match k_cpu k with Some q => snprintf_s 64 (print_d q ++ B " 100000") | None => [] end)
       (if k_pids k =? 0 then 256 else s32 (k_pids k)) 0 0 0)
    (FsCfg workdir rootfs [] [] [] [] 0)
    (SecCfg (k_no_landlock k) (k_no_seccomp k) false (k_secure k) [])
    (PayCfg [] [] [] argv) net).
End Config.

(** ** [die] and the child *)

(** [die]: [jmp] is whether [g_die_jmp] is set. *)
Inductive died := Longjmp (e : Z) | ExitProc (rc : Z).
Definition die (jmp : bool) (errno : Z) : died :=
  if jmp then Longjmp (if 0 <? errno then errno else 1) else ExitProc 1.

(** What becomes of the cloned process.  Its copy of [g_die_jmp] is still set in
    the library: the jump ends in its copy of [agentcell_spawn], which returns. *)
Inductive proc_end := ReturnsFromSpawn (rc : Z) | Exits (rc : Z) | Runs (j : jail).
Definition child_end (lib_mode : bool) (r : child_res) (errno : Z) : proc_end :=
  match r with
  | ChildExit rc => Exits rc
  | ChildDie => match die lib_mode errno with Longjmp e => ReturnsFromSpawn (- e) | ExitProc rc => Exits rc end
  | Started j => Runs j
  end.

(** ** The descriptors of the payload *)

(** The [dup2] calls of [child_main]. *)
Definition child_stdio (f0 f1 f2 : Z) : list (Z * Z) :=
  if 0 <=? f0 then [(f0, 0); (f1, 1); (f2, 2)] else [].

(** ** Launching *)

Definition NEWROOT_TEMPLATE : bytes := B "/tmp/agentcell-root.XXXXXX".

Section Spawn.
Context {D : Type} (daemon : bytes -> D -> option bytes * D).

(** [setjmp]: when [m] dies, [h] is done before returning. *)
Definition on_die {A} (m : M D A) (h : list sysop) : M D A := fun s =>
  match m s with
  | (inr e, s) => (inr e, set_log (m_log s ++ h) s)
  | r => r
  end.

Definition LIB_SYNCSZ : nat := 192.
Definition lib_sync_msg (n : netcfg) : bytes :=
  if g_veth_on n
  then snprintf_s LIB_SYNCSZ (B "x " ++ C_veth_if n ++ SP :: C_veth_ip n ++ SP :: C_veth_gw n)
  else B "x".

(** From [mkdtemp] to the write on the sync pipe. *)
Definition spawn_launch (a : sysans) (c : cfg) : M D running :=
  newroot ← on_die (check_some (a_newroot a)) [SRmdir NEWROOT_TEMPLATE];
  _ ← op (SMkdtemp newroot);
  '(cg, have) ← do_cgroup_setup a c;
  on_die
    (_ ← check (a_pipe a); _ ← op SPipe;
     _ ← check (a_malloc a);
     pid ← check_some (a_clone a);
     _ ← op (SClone pid (new_netns c));
     _ ← write_uid_maps a pid;
     _ ← when have (park cg pid);
     _ ← when (s_secure (c_sec c) && have)
           (do_lsm_register daemon (a_cgid a) (a_connected a) (s_deny (c_sec c)));
     _ ← when (bool_decide (C_netmode (c_net c) = NET_VETH))
           (_ ← do_veth_register daemon (a_resolv a) pid; mret tt);
     net ← get m_net;
     _ ← op (SSync (lib_sync_msg net));
     mret (Run pid newroot cg have))
    ((if have : bool then [SRmdir cg] else []) ++ [SRmdir newroot]).

(** ** The table *)

Record cell_rec := CellRec {
  rc_pid : Z; rc_have_cg : bool; rc_cgpath : bytes; rc_cgid : Z; rc_stack : bool
}.
Definition rec0 : cell_rec := CellRec 0 false [] 0 false.
Definition NRECS : nat := 16.

(** The process using the library: the table, the stacks [malloc] gave and [free]
    has not taken back, the daemon and the log of calls. *)
Record lib := Lib { l_recs : list cell_rec; l_stacks : Z; l_dm : D; l_log : list sysop }.
Definition lib0 (d : D) : lib := Lib (replicate NRECS rec0) 0 d [].

Fixpoint free_rec (rs : list cell_rec) : option nat :=
  match rs with
  | [] => None
  | r :: rs' => if rc_pid r =? 0 then Some O else S <$> free_rec rs'
  end.

Definition EINVAL : Z := 22.
Definition EBUSY : Z := 16.

(** Whether [malloc] of the stack was reached and succeeded. *)
Definition got_stack (a : sysans) : bool := bool_decide (is_Some (a_newroot a)) && a_pipe a && a_malloc a.

(** The return value, [*out_pid] and the state.  [bad_args]: a null [cfg], [argv],
    [argv[0]] or [out_pid]; [c]: the mapped configuration; [errno]: what [die]
    reports. *)
Definition agentcell_spawn (bad_args : bool) (fds : Z * Z * Z) (a : sysans) (c : option cfg) (errno : Z) (l : lib)
    : Z * option Z * lib :=
  let '(f0, f1, f2) := fds in
  if bad_args then (- EINVAL, None, l)
  else if (f0 <? -1) || (f1 <? -1) || (f2 <? -1) then (- EINVAL, None, l)
  else match free_rec (l_recs l) with
       | None => (- EBUSY, None, l)
       | Some i =>
           (* [rec->pid = 0; rec->stack = NULL]; a failure leaves [stack] dangling *)
           let put stack := alter (fun r => CellRec 0 (rc_have_cg r) (rc_cgpath r) (rc_cgid r) stack) i (l_recs l) in
           let rc := match die true errno with Longjmp e => - e | ExitProc rc => rc end in
           match c with
           | None => (rc, None, Lib (put false) (l_stacks l) (l_dm l) (l_log l ++ [SRmdir NEWROOT_TEMPLATE]))
           | Some c =>
               match spawn_launch a c (Ms (l_dm l) (l_log l) (c_net c) false 0) with
               | (inl r, s) =>
                   (* memset of the record: its stack is forgotten *)
                   (0, Some (r_pid r),
                    Lib (<[i := CellRec (r_pid r) (r_have_cg r) (snprintf_s PATH_MAX (r_cg r)) (m_cgid s) false]> (l_recs l))
                      (l_stacks l + 1) (m_dm s) (m_log s))
               | (inr _, s) => (rc, None, Lib (put (got_stack a)) (l_stacks l) (m_dm s) (m_log s))
               end
           end
       end.

(** The requests and calls for one record. *)
Definition release_rec (r : cell_rec) (l : lib) : lib :=
  let send cmd (l : lib) :=
    let line := snprintf_s (Z.to_nat 4200) (cmd ++ [NL]) in
    let '(_, d) := daemon line (l_dm l) in
    Lib (l_recs l) (l_stacks l) d (l_log l ++ [SReq line]) in
  let l := send (snprintf_s 64 (B "NETDOWN " ++ print_d (rc_pid r))) l in
  let l := if rc_cgid r =? 0 then l else send (snprintf_s 64 (B "CLR " ++ print_u (rc_cgid r))) l in
  Lib (l_recs l) (if rc_stack r then l_stacks l - 1 else l_stacks l) (l_dm l)
    (l_log l ++ (if rc_have_cg r then [SRmdir (rc_cgpath r)] else [])).

Fixpoint find_pid (pid : Z) (rs : list cell_rec) : option (nat * cell_rec) :=
  match rs with
  | [] => None
  | r :: rs' => if rc_pid r =? pid then Some (O, r)
                else match find_pid pid rs' with Some (i, x) => Some (S i, x) | None => None end
  end.

Definition agentcell_release (pid : Z) (l : lib) : Z * lib :=
  if pid <=? 0 then (- EINVAL, l)
  else match find_pid pid (l_recs l) with
       | None => (0, l)
       | Some (i, r) =>
           let l := release_rec r l in
           (0, Lib (<[i := rec0]> (l_recs l)) (l_stacks l) (l_dm l) (l_log l))
       end.
End Spawn.
Arguments lib : clear implicits.
Arguments Lib {D} _ _ _ _.

Definition agentcell_version : bytes := B "agentcell 0.1.0 (FFI)".
