(* ===== verification/LibThms.v ===== *)
(** * The embedding library: theorems

    A cell spawned through the library is the cell the command line would start;
    the table of cells refines a finite map. *)

From S2P Require Import Prelude CString Client Config ConfigThms.
From S2P Require Import Mounts Cell Info Cgroup InfoThms Life LifeThms Lib.
Local Open Scope Z_scope.

(** ** The same configuration *)

(** The options that say what a configuration says; [quota]: the text of the CPU
    quota. *)
Definition cli_net (m : netmode) : list opt :=
  match m with NET_NONE => [] | NET_HOST => [ONet (B "host")] | NET_VETH => [ONet (B "veth")] end.
Definition cli_egress (k : agentcell_config) : list opt :=
  match k_egress k with Some e => [OEgress e; ONet (B "veth")] | None => [] end ++
  match k_egress_list k with Some es => (OEgress <$> es) ++ [ONet (B "veth")] | None => [] end.
Definition cli_limits (quota : bytes) (k : agentcell_config) : list opt :=
  (if k_mem k =? 0 then [] else [OMem (print_u (k_mem k))]) ++ [OCpu quota] ++
  (if k_pids k =? 0 then [] else [OPids (print_d (k_pids k))]).
Definition cli_sec (k : agentcell_config) : list opt :=
  (if k_secure k then [OSecure] else []) ++ (if k_no_landlock k then [ONoLandlock] else []) ++
  (if k_no_seccomp k then [ONoSeccomp] else []).
Definition cli_fs (k : agentcell_config) : list opt :=
  match k_workdir k with Some w => [OWorkdir w] | None => [] end ++
  match k_rootfs k with Some p => [ORootfs p] | None => [] end.
Definition cli_args (quota : bytes) (k : agentcell_config) : list opt :=
  cli_limits quota k ++ cli_net (lib_net k) ++ cli_sec k ++ cli_fs k ++ cli_egress k.

Section Config.
Context (slurp realpath : bytes -> option bytes) (cpu_quota : bytes -> option Z) (getcwd : option bytes).
Context (isdir : bytes -> bool) (home : bytes).

Abbreviation run := (main_opts slurp realpath cpu_quota getcwd).

Lemma main_opts_app l1 l2 c :
  run (l1 ++ l2) c = match run l1 c with Go c => run l2 c | e => e end.
Proof.
  revert c. induction l1 as [|o l1 IH]; intros c; [done|]. cbn [app main_opts].
  by destruct (main_opt _ _ _ _ o c).
Qed.

Lemma run_egress es c n :
  egress_adds es (c_net c) = Some n -> run (OEgress <$> es) c = Go (set_cnet n c).
Proof.
  revert c. induction es as [|e es IH]; intros c; cbn [egress_adds fmap list_fmap main_opts main_opt].
  - intros [= <-]. by destruct c.
  - destruct (egress_add e (c_net c)) as [rc n']. destruct (rc =? 0); [|done].
    intros H. by rewrite (IH (set_cnet n' c)).
Qed.

Lemma run_mode m c : m <> NET_NONE -> run (cli_net m) c = Go (set_cnet (set_mode m (c_net c)) c).
Proof. by destruct m. Qed.

Lemma run_allowlist k c n :
  lib_egress k (c_net c) = Some n -> run (cli_egress k) c = Go (set_cnet n c).
Proof.
  assert (forall es c n, egress_adds es (c_net c) = Some n ->
    run ((OEgress <$> es) ++ [ONet (B "veth")]) c = Go (set_cnet (set_mode NET_VETH n) c)) as Hes.
  { intros es c0 n0 H. rewrite main_opts_app, (run_egress es c0 n0 H).
    by rewrite (run_mode NET_VETH). }
  unfold lib_egress, cli_egress. rewrite main_opts_app. destruct (k_egress k) as [e|].
  - destruct (egress_adds [e] (c_net c)) as [n1|] eqn:E1; [|done]. cbn [mbind option_bind].
    change [OEgress e; ONet (B "veth")] with ((OEgress <$> [e]) ++ [ONet (B "veth")]).
    rewrite (Hes [e] c n1 E1). destruct (k_egress_list k) as [es|].
    + destruct (egress_adds es (set_mode NET_VETH n1)) as [n2|] eqn:E2; [|done]. intros [= <-].
      by rewrite (Hes es _ n2).
    + by intros [= <-].
  - cbn [mbind option_bind main_opts]. destruct (k_egress_list k) as [es|].
    + destruct (egress_adds es (c_net c)) as [n2|] eqn:E2; [|done]. intros [= <-]. by rewrite (Hes es _ n2).
    + intros [= <-]. by destruct c.
Qed.

Lemma atoi_print_d n : 0 <= n < 2 ^ 31 -> atoi (print_d n) = n.
Proof.
  intros Hn. pose proof (atol_print n [] ltac:(lia) I) as H. rewrite app_nil_r in H.
  unfold atoi. rewrite H. apply s32_small. lia.
Qed.

(** The limits of the library. *)
Definition lib_limits (memfrac q : Z) (k : agentcell_config) : limits :=
  Limits (if k_mem k =? 0 then memfrac else s64 (k_mem k)) (snprintf_s 64 (print_d q ++ B " 100000"))
    (if k_pids k =? 0 then 256 else s32 (k_pids k)) 0 0 0.

Lemma run_limits memfrac quota k q :
  cpu_quota quota = Some q -> 0 <= k_mem k < 2 ^ 63 -> 0 <= k_pids k < 2 ^ 31 ->
  run (cli_limits quota k) (cfg0 memfrac) = Go (set_lim (lib_limits memfrac q k) (cfg0 memfrac)).
Proof.
  intros Hq Hm Hp. pose proof (strtol_print (k_mem k) [] Hm I) as Hpm. rewrite app_nil_r in Hpm.
  pose proof (atoi_print_d (k_pids k) Hp) as Hpp. unfold cli_limits, lib_limits.
  rewrite s64_small, s32_small by lia.
  destruct (k_mem k =? 0), (k_pids k =? 0); cbn [app main_opts main_opt]; rewrite ?Hq, ?Hpp;
    unfold parse_mem; rewrite ?Hpm; cbn [die_none main_opts main_opt]; by rewrite ?Hq, ?Hpp.
Qed.

Lemma run_sec k c :
  c_sec c = SecCfg false false false false [] ->
  run (cli_sec k) c = Go (set_sec (SecCfg (k_no_landlock k) (k_no_seccomp k) false (k_secure k) []) c).
Proof.
  intros E. destruct c as [l f s p n]. cbn in E. subst s. unfold cli_sec.
  by destruct (k_secure k), (k_no_landlock k), (k_no_seccomp k).
Qed.

Lemma run_fs k c w r :
  c_fs c = FsCfg [] [] [] [] [] [] 0 ->
  (forall x, k_workdir k = Some x -> realpath x = Some w) -> (forall x, k_rootfs k = Some x -> realpath x = Some r) ->
  run (cli_fs k) c =
  Go (set_fs (FsCfg (if k_workdir k is Some _ then w else []) (if k_rootfs k is Some _ then r else []) [] [] [] [] 0) c).
Proof.
  intros E Hw Hr. destruct c as [l f s p n]. cbn in E. subst f. unfold cli_fs.
  destruct (k_workdir k) as [x|], (k_rootfs k) as [z|]; cbn [app main_opts main_opt];
    rewrite ?(Hw x), ?(Hr z) by done; cbn [die_none main_opts main_opt]; rewrite ?(Hr z) by done; done.
Qed.

(** The same configuration on both sides. *)
Lemma config_same memfrac quota k argv c q :
  k_cpu k = Some q -> cpu_quota quota = Some q -> 0 <= k_mem k < 2 ^ 63 -> 0 <= k_pids k < 2 ^ 31 ->
  (forall p r, realpath p = Some r -> r <> []) ->
  lib_config realpath isdir home memfrac k argv = Some c ->
  exists c1, run (cli_args quota k) (cfg0 memfrac) = Go c1 /\
    main_checks realpath false (isdir (f_rootfs (c_fs c1))) home argv c1 = Go c.
Proof.
  intros Hq Hq2 Hm Hp Hreal H. unfold lib_config in H. rewrite Hq in H. fold (lib_limits memfrac q k) in H.
  destruct (match k_workdir k with Some _ => _ | None => _ end) as [w|] eqn:Ew; [|done]. cbn [mbind option_bind] in H.
  destruct (match k_rootfs k with Some _ => _ | None => _ end) as [r|] eqn:Er; [|done]. cbn [mbind option_bind] in H.
  destruct (lib_egress k _) as [net|] eqn:En; [|done]. cbn [mbind option_bind] in H. apply Some_inj in H. subst c.
  eexists. split.
  - unfold cli_args. rewrite main_opts_app, (run_limits memfrac quota k q) by done.
    rewrite main_opts_app.
    assert (forall c, c_net c = netcfg0 ->
      run (cli_net (lib_net k)) c = Go (set_cnet (set_mode (lib_net k) netcfg0) c)) as Hnet.
    { intros [? ? ? ? n] Hn. cbn in Hn. subst n. by destruct (lib_net k). }
    rewrite Hnet by done. rewrite main_opts_app, run_sec by done. rewrite main_opts_app, (run_fs k _ w r).
    + by rewrite (run_allowlist k _ net).
    + done.
    + intros x Hx. by rewrite Hx in Ew.
    + intros x Hx. rewrite Hx in Er. destruct (realpath x) as [r'|] eqn:E2; [|done]. cbn in Er.
      destruct (isdir r'); [|done]. congruence.
  - unfold main_checks. cbn [c_sec c_fs c_pay set_cnet set_fs set_sec set_lim s_ask andb f_rootfs f_workdir f_ro f_rw f_ov
      resolve_all f_binds f_wsize set_pay c_lim c_net p_sock p_env p_secrets cfg0].
    destruct (k_rootfs k) as [x|].
    + destruct (realpath x) as [r'|] eqn:E2; [|done]. cbn in Er. destruct (isdir r') eqn:Ed; [|done].
      injection Er as <-. rewrite Ed, andb_false_r. destruct (k_workdir k) as [z|]; [|by rewrite Ew].
      specialize (Hreal _ _ Ew). by destruct w.
    + injection Er as <-. rewrite bool_decide_eq_true_2 by done. cbn [negb andb].
      destruct (k_workdir k) as [z|]; [|by rewrite Ew]. specialize (Hreal _ _ Ew). by destruct w.
Qed.
End Config.

(** ** The same launch *)

(** What the child reads of the two messages. *)
Lemma sync_same n : take (SYNCSZ - 1) (sync_msg n) = take (SYNCSZ - 1) (lib_sync_msg n).
Proof.
  unfold sync_msg, lib_sync_msg. destruct (g_veth_on n); [|done].
  unfold snprintf_s. rewrite !take_take. done.
Qed.

Section Launch.
Context {D : Type} (daemon : bytes -> D -> option bytes * D) (a : sysans).

(** Two states that differ in the last message only, and there beyond what the
    child reads. *)
Definition same_start (s1 s2 : ms D) : Prop :=
  m_dm s1 = m_dm s2 /\ m_net s1 = m_net s2 /\ m_on s1 = m_on s2 /\ m_cgid s1 = m_cgid s2 /\
  exists log m1 m2, m_log s1 = log ++ [SSync m1] /\ m_log s2 = log ++ [SSync m2] /\
    forall n, child_sync m1 n = child_sync m2 n.

Lemma bind_inl {A A2} (m : M D A) (f : A -> M D A2) s x s1 :
  m s = (inl x, s1) -> (m ≫= f) s = f x s1.
Proof. intros H. unfold mbind, m_bind. by rewrite H. Qed.

Lemma bind_inv {A A2} (m : M D A) (f : A -> M D A2) s y s2 :
  (m ≫= f) s = (inl y, s2) -> exists x s1, m s = (inl x, s1) /\ f x s1 = (inl y, s2).
Proof. unfold mbind, m_bind. destruct (m s) as [[x|e] s1]; [eauto|done]. Qed.

Lemma on_die_inl {A} (m : M D A) h s x s1 : m s = (inl x, s1) -> on_die m h s = (inl x, s1).
Proof. intros H. unfold on_die. by rewrite H. Qed.

(** The next call of the run in [H] is the next call of the goal's program, or is
    made by the first program only. *)
Ltac both H x t :=
  let E := fresh "E" in
  apply bind_inv in H as (x & t & E & H); rewrite (bind_inl _ _ _ _ _ E); clear E.

Ltac skip H :=
  let E := fresh "E" in apply bind_inv in H as ([] & ? & E & H); injection E as <-.

Lemma launch_same c s r s1 :
  s_ask (c_sec c) = false -> launch daemon a false c s = (inl r, s1) ->
  exists s2, spawn_launch daemon a c s = (inl r, s2) /\ same_start s1 s2.
Proof.
  intros Hask H. unfold launch in H. unfold spawn_launch. rewrite Hask in H.
  apply bind_inv in H as (newroot & t0 & E & H). rewrite (bind_inl _ _ _ _ _ (on_die_inl _ _ _ _ _ E)). clear E.
  both H u t1. both H cg t2. destruct cg as [cg have].
  enough (exists s2, (_ ← check (a_pipe a); _ ← op SPipe; _ ← check (a_malloc a);
     pid ← check_some (a_clone a); _ ← op (SClone pid (new_netns c)); _ ← write_uid_maps a pid;
     _ ← when have (park cg pid);
     _ ← when (s_secure (c_sec c) && have)
           (do_lsm_register daemon (a_cgid a) (a_connected a) (s_deny (c_sec c)));
     _ ← when (bool_decide (C_netmode (c_net c) = NET_VETH))
           (_ ← do_veth_register daemon (a_resolv a) pid; mret tt);
     net ← get m_net; _ ← op (SSync (lib_sync_msg net)); mret (Run pid newroot cg have)) t2 =
     (inl r, s2) /\ same_start s1 s2) as (s2 & E & Hs) by (exists s2; split; [by apply on_die_inl|done]).
  both H u2 t3. both H u3 t4. skip H. skip H. both H u4 t5. both H pid t6. both H u5 t7. both H u6 t8.
  both H u7 t9. both H w8 t10.
  assert (exists t11, when (bool_decide (C_netmode (c_net c) = NET_VETH))
            (_ ← do_veth_register daemon (a_resolv a) pid; mret tt) t10 = (inl tt, t11) /\
          (net ← get m_net; _ ← op (SSync (sync_msg net)); mret (Run pid newroot cg have)) t11 = (inl r, s1))
    as (t11 & E & H2).
  { apply bind_inv in H as ([] & t & E & H). exists t. split; [|done].
    destruct (bool_decide _); [|done]. cbn [when] in E |- *. apply bind_inv in E as (vr & t' & E & E2).
    rewrite (bind_inl _ _ _ _ _ E). destruct (vr =? -2); [|done]. exfalso. cbn [when] in E2.
    do 4 apply bind_inv in E2 as (? & ? & _ & E2). done. }
  rewrite (bind_inl _ _ _ _ _ E). clear E H. cbn in H2. injection H2 as <- <-.
  eexists. split; [reflexivity|]. split_and!; [done..|]. exists (m_log t11), (sync_msg (m_net t11)), (lib_sync_msg (m_net t11)).
  split_and!; [done..|]. intros n. unfold child_sync. by rewrite sync_same.
Qed.
End Launch.

(** C12. "Identical to the [sand] CLI": for a configuration with a CPU quota, the
    options that say the same give the command line the very configuration the
    library uses, and a launch that succeeds on the command line makes the same
    calls and the same requests in the library, in the same order and with the
    same state after, down to what the child reads from the sync pipe. *)
Theorem spawn_equals_cli {D} (daemon : bytes -> D -> option bytes * D) a
    slurp realpath cpu_quota getcwd isdir home memfrac quota k argv c q :
  k_cpu k = Some q -> cpu_quota quota = Some q -> 0 <= k_mem k < 2 ^ 63 -> 0 <= k_pids k < 2 ^ 31 ->
  (forall p r, realpath p = Some r -> r <> []) ->
  lib_config realpath isdir home memfrac k argv = Some c ->
  (exists c1, main_opts slurp realpath cpu_quota getcwd (cli_args quota k) (cfg0 memfrac) = Go c1 /\
     main_checks realpath false (isdir (f_rootfs (c_fs c1))) home argv c1 = Go c) /\
  (forall d r s1, launch daemon a false c (start0 d c) = (inl r, s1) ->
     exists s2, spawn_launch daemon a c (start0 d c) = (inl r, s2) /\ same_start s1 s2).
Proof.
  intros Hq Hq2 Hm Hp Hreal Hc. split; [by eapply config_same|].
  intros d r s1. apply launch_same. unfold lib_config in Hc.
  do 3 (apply bind_Some in Hc as (? & _ & Hc)). by apply Some_inj in Hc as <-.
Qed.

(** ** The table *)

Definition live_recs (rs : list cell_rec) : list cell_rec := filter (fun r => rc_pid r <> 0) rs.

(** The cells that have been spawned and not released, by process id. *)
Definition cells_of {D} (l : lib D) : gmap Z cell_rec :=
  list_to_map ((fun r => (rc_pid r, r)) <$> live_recs (l_recs l)).












Section Table.
Context {D : Type} (daemon : bytes -> D -> option bytes * D).
Implicit Types (l : lib D).














End Table.


(** ** Behaviours the header does not promise *)

Definition lib_one : Z * option Z * lib nat :=
  agentcell_spawn no_net_daemon false (-1, -1, -1) (ok_host true) (Some secure_cfg) 0 (lib0 0%nat).

(** After spawn, the caller's wait and release, the temporary root directory and
    the stack of the child are still there. *)
Theorem release_leaks :
  let l := (agentcell_release no_net_daemon 42
              (Lib (l_recs lib_one.2) (l_stacks lib_one.2) (l_dm lib_one.2) (l_log lib_one.2 ++ [SWait 42]))).2 in
  lib_one.1 = (0, Some 42) /\ remains all_ok (l_log l) = [RDir (B "/tmp/agentcell-root.a1b2c3")] /\ l_stacks l = 1.
Proof. by vm_compute. Qed.

(** A refused allowlist is not an error for the library: the cell starts, with no
    network, where the command line gives up. *)
Theorem lib_ignores_egress_failure :
  (agentcell_spawn no_net_daemon false (-1, -1, -1) (ok_host true) (Some egress_cfg) 0 (lib0 0%nat)).1 = (0, Some 42) /\
  (launch no_net_daemon (ok_host true) false egress_cfg (start0 0%nat egress_cfg)).1 = inr (Exited 127).
Proof. by vm_compute. Qed.

(** A failure after [clone] returns an error and leaves the child. *)
Theorem lib_failure_leaves_child :
  let '(rc, out, l) :=
    agentcell_spawn no_net_daemon false (-1, -1, -1) (ok_host false) (Some secure_cfg) 1 (lib0 0%nat) in
  rc = -1 /\ out = None /\ remains all_ok (l_log l) = [RProc 42].
Proof. by vm_compute. Qed.

(** A child whose set-up fails does not exit: in its process the call to
    [agentcell_spawn] returns to the caller's code a second time. *)
Theorem child_failure_returns_to_caller errno :
  0 < errno -> child_end true ChildDie errno = ReturnsFromSpawn (- errno) /\ child_end false ChildDie errno = Exits 1.
Proof. intros H. cbn. by rewrite (proj2 (Z.ltb_lt _ _)). Qed.

(** Without [cpu_cores] the quota is the empty string, not the default. *)
Theorem lib_no_default_quota :
  (l_cpu <$> (c_lim <$> lib_config Some (fun _ => true) (B "/home/u") 100
     (AgentcellConfig None None 0 None 0 0 None false false false None) [B "/bin/true"])) = Some [] /\
  l_cpu (c_lim (cfg0 100)) = B "200000 100000".
Proof. by vm_compute. Qed.

(** Without a standard input the other two descriptors are ignored. *)
Theorem stdout_needs_stdin : child_stdio (-1) 5 6 = [] /\ child_stdio 0 5 6 = [(0, 0); (5, 1); (6, 2)].
Proof. done. Qed.

(** The cgroup is named after the calling process: while a first cell lives the
    directory of a second one exists already, and the second cell starts without
    limits and, although it asks for them, without rules. *)
Definition second_host : sysans :=
  SysAns (Some (B "/tmp/agentcell-root.d4e5f6")) (Some (B "0::/user.slice" ++ [NL])) 41 false None
    true true true true (Some 43) true true true 1000 1000 (Some 7) true [] true.

Theorem second_cell_unlimited :
  let '(rc, out, l) := agentcell_spawn no_net_daemon false (-1, -1, -1) second_host (Some secure_cfg) 0 lib_one.2 in
  (RDir (the_cg second_host secure_cfg) ∈ remains all_ok (l_log lib_one.2)) /\ the_cg second_host secure_cfg = the_cg (ok_host true) secure_cfg /\
  (rc, out) = (0, Some 43) /\ (rc_have_cg <$> cells_of l !! 43) = Some false /\ s_secure (c_sec secure_cfg) = true.
Proof.
  assert (RDir (the_cg second_host secure_cfg) ∈ remains all_ok (l_log lib_one.2)) as H.
  { apply (bool_decide_unpack _). by vm_compute. }
  destruct (agentcell_spawn no_net_daemon false (-1, -1, -1) second_host (Some secure_cfg) 0 lib_one.2) as [[rc out] l] eqn:E.
  assert ((rc, out) = (0, Some 43)) as E1 by (change (rc, out) with (rc, out, l).1; rewrite <- E; by vm_compute).
  assert ((rc_have_cg <$> cells_of l !! 43) = Some false) as E2
    by (change l with (rc, out, l).2; rewrite <- E; by vm_compute).
  split_and!; [done|by vm_compute|done|done|done].
Qed.

(** ** Witnesses *)

Definition lib_conf : agentcell_config :=
  AgentcellConfig (Some (B "/w")) None (2 ^ 30) (Some 150000) 64 AGENTCELL_NET_NONE (Some (B "example.org"))
    true false false None.

Lemma spawn_equals_cli_witness :
  exists c, lib_config Some (fun _ => true) (B "/home/u") 100 lib_conf [B "/bin/true"] = Some c /\
  exists c1, main_opts (fun _ => None) Some (fun _ => Some 150000) None (cli_args (B "1.5") lib_conf) (cfg0 100) = Go c1.
Proof.
  destruct (lib_config Some (fun _ => true) (B "/home/u") 100 lib_conf [B "/bin/true"]) as [c|] eqn:E;
    [|by vm_compute in E].
  exists c. split; [done|].
  assert (forall p r : bytes, (if decide (p = []) then None else Some p) = Some r -> r <> []) as Hreal.
  { intros p r H. destruct (decide (p = [])); [done|]. by injection H as <-. }
  assert (lib_config (fun p => if decide (p = []) then None else Some p) (fun _ => true) (B "/home/u") 100 lib_conf
    [B "/bin/true"] = Some c) as E2 by (rewrite <- E; by vm_compute).
  destruct (spawn_equals_cli no_net_daemon (ok_host true) (fun _ => None)
    (fun p => if decide (p = []) then None else Some p) (fun _ => Some 150000) None (fun _ => true) (B "/home/u")
    100 (B "1.5") lib_conf [B "/bin/true"] c 150000 eq_refl eq_refl ltac:(cbn; lia) ltac:(cbn; lia) Hreal E2)
    as [(c1 & E1 & _) _].
  exists c1. rewrite <- E1. by vm_compute.
Defined.

