(* ===== verification/Load.v ===== *)
(** * Loading the BPF objects

    [agentlsm.c]: [bpf_load_attach] and [bpf_detach]; the constants that
    [agentlsm.bpf.c] and [agentmon.bpf.c] read from their [.rodata], which the
    loaders write as one block of bytes before the object is loaded.  What libbpf
    answers is an argument; what it is asked to do is a list of calls. *)

From S2P Require Import Prelude CString Arch Policy.
Local Open Scope Z_scope.

(** ** Constants in memory (both architectures are little-endian) *)

Fixpoint le_bytes (n : nat) (z : Z) : bytes :=
  match n with O => [] | S n => chr z :: le_bytes n (z / 256) end.
Fixpoint le_val (s : bytes) : Z :=
  match s with [] => 0 | c :: s => code c + 256 * le_val s end.

(** Where the compiler puts variables of these sizes, in order, each at the next
    multiple of its size: offset and size. *)
Fixpoint rodata_layout (off : nat) (sizes : list nat) : list (nat * nat) :=
  match sizes with
  | [] => []
  | n :: ns => let off := (Nat.div (off + (n - 1)) n * n)%nat in (off, n) :: rodata_layout (off + n) ns
  end.
Definition rodata_size (sizes : list nat) : nat :=
  match last (rodata_layout 0 sizes) with Some (off, n) => (off + n)%nat | None => 0%nat end.

(** The value of the [i]-th variable. *)
Definition rodata_var (sizes : list nat) (s : bytes) (i : nat) : Z :=
  match rodata_layout 0 sizes !! i with Some (off, n) => le_val (take n (drop off s)) | None => 0 end.

(** ** The constants of [agentlsm.bpf.c] *)

(** [target_cgid], [enforce], [mode], [block_until_ns], [block_cgid]. *)
Definition lsm_consts : list nat := [8; 4; 4; 8; 8]%nat.
Definition MODE_SERVE : Z := 0.
Definition MODE_FLAT : Z := 1.

(** What the program finds in them: [enforce] is tested against 0, [mode] against
    [MODE_FLAT]. *)
Definition lsm_rodata (s : bytes) : lsmcfg :=
  let v := rodata_var lsm_consts s in
  LsmCfg (v 0%nat) (negb (v 1%nat =? 0)) (v 2%nat =? MODE_FLAT) (v 3%nat) (v 4%nat).

(** The packed [cfg] of [bpf_load_attach]. *)
Definition cfg_image (target_cgid enforce block_until_ns block_cgid mode : Z) : bytes :=
  le_bytes 8 target_cgid ++ le_bytes 4 enforce ++ le_bytes 4 mode ++
  le_bytes 8 block_until_ns ++ le_bytes 8 block_cgid.

(** ** libbpf *)

(** Its answers: opening the object, finding [.rodata] and setting it, loading,
    attaching a program, and the descriptor of a map. *)
Record libbpf := LibBpf {
  lb_open : bool; lb_rodata : bool; lb_set : bool; lb_load : bool;
  lb_attach : string -> bool; lb_fd : string -> Z
}.

(** What was done to the object. *)
Inductive bcall := BSet (v : bytes) | BLoad | BAttach (prog : string) | BClose.
#[global] Instance bcall_eq_dec : EqDecision bcall.
Proof. solve_decision. Defined.

(** [bpf_object__for_each_program]: whether all were attached. *)
Fixpoint attach_all (lib : libbpf) (progs : list string) : bool * list bcall :=
  match progs with
  | [] => (true, [])
  | p :: ps => if lb_attach lib p then let '(ok, l) := attach_all lib ps in (ok, BAttach p :: l) else (false, [])
  end.

(** Up to the attached programs; both loaders do this. *)
Definition load_object (lib : libbpf) (progs : list string) (img : bytes) : bool * list bcall :=
  if negb (lb_open lib) then (false, [])
  else if negb (lb_rodata lib) || negb (lb_set lib) then (false, [])
  else if negb (lb_load lib) then (false, [BSet img])
  else let '(ok, l) := attach_all lib progs in (ok, BSet img :: BLoad :: l).

(** The programs of [agentlsm.bpf.c]. *)
Definition lsm_progs : list string :=
  ["tp_execve"; "tp_openat"; "tp_connect"; "tp_sys_exit"; "cell_file_open"]%string.

(** [bpf_load_attach]: its value, the calls, and whether [g_obj] was set. *)
Definition bpf_load_attach (lib : libbpf) (target_cgid enforce block_until_ns block_cgid mode : Z)
    : Z * list bcall * bool :=
  let '(ok, l) := load_object lib lsm_progs (cfg_image target_cgid enforce block_until_ns block_cgid mode) in
  if negb ok then (-1, l, false)
  else if (lb_fd lib "cells" <? 0) || (lb_fd lib "cellpol" <? 0) then (-1, l, true)
  else (0, l, true).

Definition bpf_detach (g_obj : bool) : list bcall := if g_obj then [BClose] else [].

(** ** What the kernel has then *)

(** The block the loaded object was given. *)
Fixpoint loaded_image (l : list bcall) : option bytes :=
  match l with
  | [] => None
  | BSet v :: l => if bool_decide (BLoad ∈ l) then Some v else None
  | _ :: l => loaded_image l
  end.

(** The programs attached; their links belong to the process, not to the object,
    and last as long as it does. *)
Definition attached (l : list bcall) : list string :=
  omap (fun c => match c with BAttach p => Some p | _ => None end) l.

(** ** Lemmas *)

Lemma le_bytes_length n z : length (le_bytes n z) = n.
Proof. revert z. induction n as [|n IH]; intros z; [done|]. cbn. by rewrite IH. Qed.

Lemma code_chr_low z : code (chr z) = z mod 256.
Proof.
  rewrite <- (code_chr (z mod 256)) by (apply Z.mod_pos_bound; lia). f_equal. unfold chr. by rewrite Zmod_mod.
Qed.

Lemma le_val_bytes n z : 0 <= z < 256 ^ Z.of_nat n -> le_val (le_bytes n z) = z.
Proof.
  revert z. induction n as [|n IH]; intros z Hz.
  - change (256 ^ Z.of_nat 0) with 1 in Hz. cbn. lia.
  - rewrite Nat2Z.inj_succ, Z.pow_succ_r in Hz by lia. cbn [le_bytes le_val]. rewrite code_chr_low, IH.
    + pose proof (Z.div_mod z 256). lia.
    + split; [apply Z.div_pos; lia|]. apply Z.div_lt_upper_bound; lia.
Qed.

(** The block has the size of the section, and each constant of the program has
    the value the loader was called with. *)
Lemma cfg_image_read t e u b m :
  0 <= t < 2 ^ 64 -> 0 <= e < 2 ^ 32 -> 0 <= u < 2 ^ 64 -> 0 <= b < 2 ^ 64 -> 0 <= m < 2 ^ 32 ->
  length (cfg_image t e u b m) = rodata_size lsm_consts /\
  lsm_rodata (cfg_image t e u b m) = LsmCfg t (negb (e =? 0)) (m =? MODE_FLAT) u b.
Proof.
  intros Ht He Hu Hb Hm. split.
  - unfold cfg_image. rewrite !length_app, !le_bytes_length. done.
  - unfold lsm_rodata. set (v := rodata_var _ _).
    change (v 0%nat) with (le_val (le_bytes 8 t)). change (v 1%nat) with (le_val (le_bytes 4 e)).
    change (v 2%nat) with (le_val (le_bytes 4 m)). change (v 3%nat) with (le_val (le_bytes 8 u)).
    change (v 4%nat) with (le_val (le_bytes 8 b)). by rewrite !le_val_bytes.
Qed.

Lemma attach_all_ok lib ps l : attach_all lib ps = (true, l) -> l = BAttach <$> ps.
Proof.
  revert l. induction ps as [|p ps IH]; intros l; cbn; [congruence|]. destruct (lb_attach lib p); [|done].
  destruct (attach_all lib ps) as [ok l'] eqn:E. intros [= -> <-]. by rewrite (IH l' eq_refl).
Qed.

Lemma running_attached (ps : list string) v : attached (BSet v :: BLoad :: (BAttach <$> ps)) = ps.
Proof. unfold attached. cbn. induction ps as [|p ps IH]; [done|]. cbn. by f_equal. Qed.

Lemma load_object_ok lib ps img l :
  load_object lib ps img = (true, l) -> attached l = ps /\ loaded_image l = Some img.
Proof.
  unfold load_object. destruct (lb_open lib), (lb_rodata lib), (lb_set lib), (lb_load lib); try done. cbn [negb orb].
  destruct (attach_all lib ps) as [ok l'] eqn:E. intros [= -> <-]. apply attach_all_ok in E as ->.
  split; [apply running_attached|]. cbn [loaded_image]. rewrite bool_decide_eq_true_2; [done|left].
Qed.

(** A load that succeeds leaves every program attached with the block it was
    given, and [g_obj] set so that [bpf_detach] closes the object. *)
Lemma bpf_load_attach_ok lib t e u b m l g :
  bpf_load_attach lib t e u b m = (0, l, g) ->
  attached l = lsm_progs /\ loaded_image l = Some (cfg_image t e u b m) /\ g = true.
Proof.
  unfold bpf_load_attach. destruct (load_object _ _ _) as [[] l'] eqn:E; [|done]. apply load_object_ok in E as [H1 H2].
  cbn [negb]. destruct (_ || _); [done|]. by intros [= <- <-].
Qed.

(** What [serve_mode] loads is the configuration of the hook in the theorems
    about policies. *)
Lemma serve_config : lsm_rodata (cfg_image 0 1 0 0 MODE_SERVE) = serve_cfg.
Proof. by vm_compute. Qed.
