(* ===== verification/OneShot.v ===== *)
(** * The one-shot modes of [agentlsm], and the life of its daemon

    [agentlsm.c]: [main] (the options, [--block-all], the flat deny list),
    [on_evt_oneshot], [daemon_lock], and the start and the end of [serve_mode]
    as steps of a process among others on the same host.  [libbpf] answers are
    arguments. *)

From S2P Require Import Prelude CString Arch Policy NetDaemon Load.
Local Open Scope Z_scope.

(** ** The command line *)

Definition DENY_MAX : nat := 64.
Record osargs := OsArgs {
  oa_cgroup : option bytes; oa_deny : list bytes; oa_audit : bool; oa_any : bool; oa_block : Z
}.
Definition osargs0 : osargs := OsArgs None [] false false 0.

(** [PUsage]: status 2; [POverrun]: [deny[n_deny++]] beyond the array. *)
Inductive parsed := PUsage | POverrun | POk (o : osargs).

(** [strtod]: seconds as nanoseconds. *)
Fixpoint oneshot_args (strtod : bytes -> Z) (args : list bytes) (o : osargs) : parsed :=
  match args with
  | [] => POk o
  | x :: rest =>
      if decide (x = B "--audit") then
        oneshot_args strtod rest (OsArgs (oa_cgroup o) (oa_deny o) true (oa_any o) (oa_block o))
      else if decide (x = B "--any-cgroup") then
        oneshot_args strtod rest (OsArgs (oa_cgroup o) (oa_deny o) (oa_audit o) true (oa_block o))
      else
        match rest with
        | [] => PUsage
        | v :: rest' =>
            if decide (x = B "--cgroup") then
              oneshot_args strtod rest' (OsArgs (Some v) (oa_deny o) (oa_audit o) (oa_any o) (oa_block o))
            else if decide (x = B "--deny") then
              if (DENY_MAX <=? length (oa_deny o))%nat then POverrun
              else oneshot_args strtod rest'
                     (OsArgs (oa_cgroup o) (oa_deny o ++ [v]) (oa_audit o) (oa_any o) (oa_block o))
            else if decide (x = B "--block-all") then
              oneshot_args strtod rest' (OsArgs (oa_cgroup o) (oa_deny o) (oa_audit o) (oa_any o) (strtod v))
            else PUsage
        end
  end.

(** ** The two modes *)

Definition POLICY_MAX : nat := 128.

(** The keys of the deny list put into the map; [None]: an update failed. *)
Fixpoint policy_fill (deny : list bytes) (m : gmap bytes Z) : option (gmap bytes Z) :=
  match deny with
  | [] => Some m
  | d :: ds => m ← bpf_update POLICY_MAX m (snprintf_s PLEN d) ACT_DENY; policy_fill ds m
  end.

(** Without [--deny]. *)
Definition deny_list (o : osargs) : list bytes :=
  match oa_deny o with [] => [B "/etc/shadow"; B "/etc/gshadow"] | d => d end.

(** What [main] leaves loaded while it waits, or its status with the calls it had
    made. *)
Inductive osres :=
  | OsExit (rc : Z) (l : list bcall) | OsOverrun
  | OsBlock (block : Z) (l : list bcall)
  | OsFlat (o : osargs) (cgid : Z) (l : list bcall) (pol : gmap bytes Z).

(** [ino]: [stat] of the cgroup; [root]: [geteuid() == 0]; [now]: the monotonic
    clock in nanoseconds. *)
Definition oneshot_main (lib : libbpf) (strtod : bytes -> Z) (ino : bytes -> option Z) (root : bool) (now : Z)
    (args : list bytes) : osres :=
  match oneshot_args strtod args osargs0 with
  | PUsage => OsExit 2 []
  | POverrun => OsOverrun
  | POk o =>
      let block := oa_block o in
      if (block =? 0) && bool_decide (oa_cgroup o = None) && negb (oa_any o) then OsExit 2 []
      else if negb (block =? 0) && ((block <? 10 ^ 8) || (10 ^ 10 <? block)) then OsExit 2 []
      else
        match match oa_cgroup o with Some p => ino p | None => Some 0 end with
        | None => OsExit 1 []
        | Some st_ino =>
            if negb root then OsExit 1 []
            else
              let cgid := if bool_decide (is_Some (oa_cgroup o)) && negb (oa_any o) then st_ino else 0 in
              if negb (block =? 0)
              then
                let '(rc, l, _) := bpf_load_attach lib 0 0 (u64 (now + block + 500000000)) cgid MODE_SERVE in
                if negb (rc =? 0) then OsExit 1 l else OsBlock block l
              else
                let '(rc, l, _) := bpf_load_attach lib cgid (if oa_audit o then 0 else 1) 0 0 MODE_FLAT in
                if negb (rc =? 0) then OsExit 1 l
                else if lb_fd lib "policy" <? 0 then OsExit 1 l
                else match policy_fill (deny_list o) ∅ with
                     | None => OsExit 1 []
                     | Some pol => OsFlat o cgid l pol
                     end
        end
  end.

Definition on_evt_oneshot (e : evt) : bytes :=
  B "DENY (audit) " ++ print_u (ev_cgid e) ++ SP :: cstr (ev_path e) ++ [NL].

(** What is printed before the loop. *)
Definition flat_banner (o : osargs) (cgid : Z) : list bytes :=
  (B "agentlsm: enforcing=" ++ print_u (if oa_audit o then 0 else 1) ++ B " cgid=" ++ print_u cgid ++
   B " deny-list:" ++ [NL]) ::
  ((fun d => B "  - " ++ d ++ [NL]) <$> deny_list o) ++ [B "Ctrl-C to detach" ++ [NL]].

Definition EINTR : Z := 4.

(** The loop at the end: for each turn the [g_stop] it finds, the value of the
    poll and the events it delivered; [None]: it still waits. *)
Fixpoint flat_wait (polls : bool) (turns : list (bool * Z * list evt)) : option (list bytes) :=
  match turns with
  | [] => None
  | (stop, r, evs) :: ts =>
      if stop then Some []
      else if polls then
        if r =? - EINTR then Some (on_evt_oneshot <$> evs)
        else ((on_evt_oneshot <$> evs) ++.) <$> flat_wait polls ts
      else flat_wait polls ts
  end.

(** The loop of [--block-all], in nanoseconds: what it sleeps in each turn, for
    the [g_stop] each turn finds. *)
Fixpoint block_wait (total : Z) (stops : list bool) : option (list Z) :=
  if total <=? 0 then Some []
  else match stops with
       | [] => None
       | stop :: ss =>
           if stop then Some []
           else let step := if 250000000 <? total then 250000000 else total in
                (step ::.) <$> block_wait (total - step) ss
       end.

(** [main] to its end: status, calls, and what is printed ([--block-all] prints a
    floating-point number, which is left out); [ring]: whether [ring_buffer__new]
    succeeds. *)
Definition oneshot_run (res : osres) (ring : bool) (turns : list (bool * Z * list evt)) (stops : list bool)
    : option (Z * list bcall * list bytes) :=
  match res with
  | OsExit rc l => Some (rc, l, [])
  | OsOverrun => None
  | OsBlock block l =>
      _ ← block_wait (500000000 + block) stops; Some (0, l ++ bpf_detach true, [])
  | OsFlat o cgid l _ =>
      out ← flat_wait (oa_audit o && ring) turns;
      Some (0, l ++ bpf_detach true, flat_banner o cgid ++ out ++ [B "agentlsm: detached" ++ [NL]])
  end.

(** ** Daemons on one host *)

(** Where a process running [agentlsm serve] is; the last is its exit status
    ([None]: it was killed). *)
Inductive phase := PStart | PLocked | PLoaded | PRecovered (d : netd) | PServing (d : netd) | PGone (rc : option Z).

Record dhost {K : Type} := DHost {
  h_lock : option Z;                  (* holder of agentlsm.lock *)
  h_sock : option Z;                  (* who bound LSM_SOCK *)
  h_f : fwdfiles; h_k : K;            (* files and kernel *)
  h_procs : gmap Z phase
}.
Arguments dhost : clear implicits.
Arguments DHost {K} _ _ _ _ _.

Section Daemons.
Context {K : Type} (system : bytes -> K -> Z * K).

Definition holds (ph : phase) : bool :=
  match ph with PStart | PGone _ => false | _ => true end.

(** The lock is released with the process. *)
Definition leave_proc (p : Z) (rc : option Z) (h : dhost K) : dhost K :=
  DHost (if decide (h_lock h = Some p) then None else h_lock h) (h_sock h) (h_f h) (h_k h)
    (<[p := PGone rc]> (h_procs h)).
Definition put_proc (p : Z) (ph : phase) (h : dhost K) : dhost K :=
  DHost (h_lock h) (h_sock h) (h_f h) (h_k h) (<[p := ph]> (h_procs h)).

(** [serve_mode] of process [p], one step; [op]: the operation of a turn of its
    loop. *)
Inductive serve_step (p : Z) (op : netst (K := K) -> netst (K := K) -> Prop) : dhost K -> dhost K -> Prop :=
  | st_start h : h_procs h !! p = None -> serve_step p op h (put_proc p PStart h)
  | st_not_root h : h_procs h !! p = Some PStart -> serve_step p op h (leave_proc p (Some 1) h)
  | st_lock h : h_procs h !! p = Some PStart -> h_lock h = None ->
      serve_step p op h (DHost (Some p) (h_sock h) (h_f h) (h_k h) (<[p := PLocked]> (h_procs h)))
  | st_lock_busy h q : h_procs h !! p = Some PStart -> h_lock h = Some q ->
      serve_step p op h (leave_proc p (Some 1) h)
  | st_load h : h_procs h !! p = Some PLocked -> serve_step p op h (put_proc p PLoaded h)
  | st_load_fail h : h_procs h !! p = Some PLocked -> serve_step p op h (leave_proc p (Some 1) h)
  | st_recover h : h_procs h !! p = Some PLoaded ->
      let s := net_recover_startup system (NetSt netd_init (h_f h) (h_k h)) in
      serve_step p op h (DHost (h_lock h) (h_sock h) (st_f s) (st_k s) (<[p := PRecovered (st_d s)]> (h_procs h)))
  | st_bind h d : h_procs h !! p = Some (PRecovered d) ->
      serve_step p op h (DHost (h_lock h) (Some p) (h_f h) (h_k h) (<[p := PServing d]> (h_procs h)))
  | st_bind_fail h d : h_procs h !! p = Some (PRecovered d) ->
      let h' := leave_proc p (Some 1) h in
      serve_step p op h (DHost (h_lock h') None (h_f h') (h_k h') (h_procs h'))
  | st_ring_fail h d : h_procs h !! p = Some (PRecovered d) ->
      let h' := leave_proc p (Some 1) h in
      serve_step p op h (DHost (h_lock h') (Some p) (h_f h') (h_k h') (h_procs h'))
  | st_work h d s' : h_procs h !! p = Some (PServing d) -> op (NetSt d (h_f h) (h_k h)) s' ->
      serve_step p op h (DHost (h_lock h) (h_sock h) (st_f s') (st_k s') (<[p := PServing (st_d s')]> (h_procs h)))
  | st_stop h d : h_procs h !! p = Some (PServing d) ->
      let s := net_cleanup_all system (NetSt d (h_f h) (h_k h)) in
      let h' := leave_proc p (Some 0) h in
      serve_step p op h (DHost (h_lock h') None (st_f s) (st_k s) (h_procs h'))
  | st_kill h ph : h_procs h !! p = Some ph -> (forall rc, ph <> PGone rc) -> serve_step p op h (leave_proc p None h).
End Daemons.
