(* ===== verification/OneShotThms.v ===== *)
(** * The one-shot modes and the daemon's lock: theorems

    A deny list given on the command line is the decision the kernel takes; a
    window of [--block-all] has the bounds it should; and of all daemons started
    on a host at most one ever works. *)

From S2P Require Import Prelude CString Arch Inet Netfilter NetDaemon NetChain NetInv NetSim NetThms.
From S2P Require Import Cbpf Seccomp Policy Load OneShot.
Local Open Scope Z_scope.

(** ** The flat deny list *)





(** ** The end of a one-shot run *)








(** ** One daemon per host *)

Section Daemons.
Context {K : Type} (system : bytes -> K -> Z * K) `{!NetKernel K system}.
Implicit Types (h : dhost K).

(** A turn of a daemon's loop: a request or a refresh. *)
Definition daemon_turn (s s' : netst (K := K)) : Prop := exists o, op_ok o /\ s' = net_exec system o s.

Inductive reach (h0 : dhost K) : dhost K -> Prop :=
  | reach_refl : reach h0 h0
  | reach_one h h' p : reach h0 h -> serve_step system p daemon_turn h h' -> reach h0 h'.

(** A host on which no daemon runs. *)
Definition idle_host (h : dhost K) : Prop := h_lock h = None /\ h_procs h = ∅.

(** The tables of a daemon that has some. *)
Definition tables (ph : phase) : option netd :=
  match ph with PRecovered d | PServing d => Some d | _ => None end.

(** The invariant: exactly the holder of the lock is past [daemon_lock], and the
    kernel agrees with its tables. *)
Record hinv (h : dhost K) : Prop := {
  hi_lock : forall p ph, h_procs h !! p = Some ph -> (holds ph = true <-> h_lock h = Some p);
  hi_holder : forall p, h_lock h = Some p -> is_Some (h_procs h !! p);
  hi_net : forall p ph d, h_procs h !! p = Some ph -> tables ph = Some d ->
             st_inv system false (NetSt d (h_f h) (h_k h));
  hi_sock : forall p d, h_procs h !! p = Some (PServing d) -> h_sock h = Some p
}.

Lemma tables_hold ph d : tables ph = Some d -> holds ph = true.
Proof. by destruct ph. Qed.

(** The other processes of a holder do not hold. *)
Lemma hinv_other h p q ph ph' :
  hinv h -> h_procs h !! p = Some ph -> holds ph = true -> q <> p -> h_procs h !! q = Some ph' -> holds ph' = false.
Proof.
  intros Hi Hp Hh Hq Hq'. destruct (holds ph') eqn:E; [|done].
  apply (hi_lock _ Hi q) in E; [|done]. apply (hi_lock _ Hi p) in Hh; [|done]. congruence.
Qed.

(** A step of the holder that keeps the lock: any new files and kernel, as long as
    they agree with its tables. *)
Lemma hinv_hold h p ph ph' f k sock :
  hinv h -> h_procs h !! p = Some ph -> holds ph = true -> holds ph' = true ->
  (forall d, tables ph' = Some d -> st_inv system false (NetSt d f k)) ->
  (forall d, ph' = PServing d -> sock = Some p) ->
  hinv (DHost (h_lock h) sock f k (<[p := ph']> (h_procs h))).
Proof.
  intros Hi Hp Hh Hh' Hd Hs. pose proof (proj1 (hi_lock _ Hi p ph Hp) Hh) as El. split; cbn.
  - intros q x Hx. apply lookup_insert_Some in Hx as [[<- <-]|[Hq Hx]]; [done|]. by apply (hi_lock _ Hi).
  - intros q Hq. rewrite El in Hq. injection Hq as <-. rewrite lookup_insert_eq. eauto.
  - intros q x d Hx Ht. apply lookup_insert_Some in Hx as [[<- <-]|[Hq Hx]]; [by apply Hd|].
    pose proof (hinv_other h p q ph x Hi Hp Hh ltac:(congruence) Hx). apply tables_hold in Ht. congruence.
  - intros q d Hx. apply lookup_insert_Some in Hx as [[<- E]|[Hq Hx]]; [by eapply Hs|].
    pose proof (hinv_other h p q ph _ Hi Hp Hh ltac:(congruence) Hx). done.
Qed.

(** A holder that goes away. *)
Lemma hinv_leave h p ph rc f k sock :
  hinv h -> h_procs h !! p = Some ph -> holds ph = true ->
  hinv (DHost (h_lock (leave_proc p rc h)) sock f k (h_procs (leave_proc p rc h))).
Proof.
  intros Hi Hp Hh. pose proof (proj1 (hi_lock _ Hi p ph Hp) Hh) as El. cbn. rewrite El, decide_True by done.
  assert (forall q x, <[p := PGone rc]> (h_procs h) !! q = Some x -> holds x = false) as Hno.
  { intros q x Hx. apply lookup_insert_Some in Hx as [[<- <-]|[Hq Hx]]; [done|]. eapply (hinv_other h p q); eauto. }
  split; cbn.
  - intros q x Hx. rewrite (Hno _ _ Hx). done.
  - done.
  - intros q x d Hx Ht. apply tables_hold in Ht. rewrite (Hno _ _ Hx) in Ht. done.
  - intros q d Hx. by apply Hno in Hx.
Qed.

(** A process without the lock, coming or going. *)
Lemma hinv_outside h p ph' lock :
  hinv h -> (forall ph, h_procs h !! p = Some ph -> holds ph = false) -> holds ph' = false ->
  lock = h_lock h -> hinv (DHost lock (h_sock h) (h_f h) (h_k h) (<[p := ph']> (h_procs h))).
Proof.
  intros Hi Hp Hh ->. assert (h_lock h <> Some p) as Hl.
  { intros El. destruct (hi_holder _ Hi p El) as [ph Hph]. pose proof (proj2 (hi_lock _ Hi p ph Hph) El).
    by rewrite (Hp _ Hph) in *. }
  split; cbn.
  - intros q x Hx. apply lookup_insert_Some in Hx as [[<- <-]|[Hq Hx]]; [by rewrite Hh|by apply (hi_lock _ Hi)].
  - intros q Hq. rewrite lookup_insert_ne by congruence. by apply Hi.
  - intros q x d Hx Ht. apply lookup_insert_Some in Hx as [[<- <-]|[Hq Hx]]; [|by eapply (hi_net _ Hi)].
    apply tables_hold in Ht. congruence.
  - intros q d Hx. apply lookup_insert_Some in Hx as [[<- ->]|[Hq Hx]]; [done|by eapply (hi_sock _ Hi)].
Qed.

Lemma leave_outside h p rc :
  hinv h -> h_procs h !! p = Some PStart -> hinv (leave_proc p rc h).
Proof.
  intros Hi Hp. apply hinv_outside; [done| |done|].
  - intros ph Hph. rewrite Hp in Hph. by injection Hph as <-.
  - rewrite decide_False; [done|]. intros El. by apply (hi_lock _ Hi p PStart Hp) in El.
Qed.

Lemma serve_step_inv h h' p :
  hinv h -> serve_step system p daemon_turn h h' -> hinv h'.
Proof.
  intros Hi Hs. destruct Hs as [h Hp|h Hp|h Hp Hl|h q Hp Hl|h Hp|h Hp|h Hp|h d Hp|h d Hp|h d Hp|h d s' Hp Ht|h d Hp|h ph Hp Hg].
  - apply hinv_outside; [done| |done|done]. intros ph Hph. congruence.
  - by apply leave_outside.
  - (* the lock is free: nobody else holds *)
    split; cbn.
    + intros q x Hx. apply lookup_insert_Some in Hx as [[<- <-]|[Hq Hx]]; [done|].
      rewrite (hi_lock _ Hi q x Hx), Hl. split; [done|congruence].
    + intros q [= <-]. rewrite lookup_insert_eq. eauto.
    + intros q x d Hx Ht. apply lookup_insert_Some in Hx as [[<- <-]|[Hq Hx]]; [done|by eapply (hi_net _ Hi)].
    + intros q d Hx. apply lookup_insert_Some in Hx as [[<- ?]|[Hq Hx]]; [done|by eapply (hi_sock _ Hi)].
  - by apply leave_outside.
  - by eapply (hinv_hold h p PLocked PLoaded).
  - by eapply (hinv_leave h p PLocked).
  - eapply (hinv_hold h p PLoaded); [done..| |done].
    intros d [= <-]. apply (net_start_inv system false).
  - eapply (hinv_hold h p (PRecovered d) (PServing d)); [done..| |done].
    intros d' [= <-]. by eapply (hi_net _ Hi).
  - by eapply (hinv_leave h p (PRecovered d)).
  - by eapply (hinv_leave h p (PRecovered d)).
  - destruct Ht as (o & Ho & ->). eapply (hinv_hold h p (PServing d)); [done..| |].
    + intros d' [= <-]. pose proof (net_exec_inv system false o (NetSt d (h_f h) (h_k h)) ltac:(done) Ho) as H.
      destruct (net_exec system o (NetSt d (h_f h) (h_k h))) as [d1 f1 k1]. apply H. by eapply (hi_net _ Hi).
    + intros d' _. by eapply (hi_sock _ Hi).
  - by eapply (hinv_leave h p (PServing d)).
  - destruct (holds ph) eqn:Eh; [by eapply (hinv_leave h p ph)|].
    destruct ph; [by apply leave_outside|done..|]. by destruct (Hg rc).
Qed.

Lemma reach_inv h0 h : idle_host h0 -> reach h0 h -> hinv h.
Proof.
  intros [Hl Hp]. induction 1 as [|h h' p _ IH Hs]; [|by eapply serve_step_inv].
  split; rewrite ?Hp, ?Hl; done.
Qed.
End Daemons.

(** C15. At most one daemon works on a host.  However many are started, stopped or
    killed, in whatever order: at most one is past [daemon_lock], and it owns the
    socket; no step of another process, [net_recover_startup] of a second daemon
    in particular, changes the kernel, the files or the socket under it; and as
    long as the turns of the serving daemon are refreshes and requests that name a
    process other than 0, with ports that are plain words ([op_ok]), the kernel's
    rules agree with its tables ([st_inv]: each cell's accept rules are those of
    its pairs, above base rules; other veth rules are base rules). *)
Theorem one_daemon {K} (system : bytes -> K -> Z * K) `{!NetKernel K system} h0 h :
  idle_host h0 -> reach system h0 h ->
  (forall p q ph ph', h_procs h !! p = Some ph -> h_procs h !! q = Some ph' ->
     holds ph = true -> holds ph' = true -> p = q) /\
  (forall p d, h_procs h !! p = Some (PServing d) ->
     st_inv system false (NetSt d (h_f h) (h_k h)) /\ h_sock h = Some p /\
     forall q h', q <> p -> serve_step system q (daemon_turn system) h h' ->
       h_procs h' !! p = Some (PServing d) /\ h_k h' = h_k h /\ h_f h' = h_f h /\ h_sock h' = h_sock h).
Proof.
  intros H0 Hr. pose proof (reach_inv system h0 h H0 Hr) as Hi. split.
  - intros p q ph ph' Hp Hq H1 H2. apply (hi_lock _ _ Hi p ph Hp) in H1. apply (hi_lock _ _ Hi q ph' Hq) in H2. congruence.
  - intros p d Hp. split_and!; [by eapply (hi_net _ _ Hi)|by eapply (hi_sock _ _ Hi)|].
    intros q h' Hq Hs.
    assert (forall ph', h_procs h !! q = Some ph' -> holds ph' = false) as Hout.
    { intros ph' Hq'. eapply (hinv_other system h p q); eauto. }
    destruct Hs; try match goal with H : h_procs _ !! q = Some ?x |- _ => by specialize (Hout _ H) end;
      cbn [h_procs h_k h_f h_sock put_proc leave_proc]; rewrite ?lookup_insert_ne by congruence; try done.
Qed.

(** ** Behaviours the comments do not promise *)

(** A libbpf on which everything succeeds. *)
Definition lib_ok : libbpf := LibBpf true true true true (fun _ => true) (fun _ => 5).

(** A sixty-fifth [--deny] is written behind the array. *)
Theorem deny_array_overrun :
  oneshot_main lib_ok (fun _ => 0) (fun _ => Some 7) true 0
    (B "--any-cgroup" :: concat (replicate 65 [B "--deny"; B "/x"])) = OsOverrun.
Proof. by vm_compute. Qed.

(** ** Witnesses *)



Definition host0 : dhost kview := DHost None None (FwdFiles None None false false) (st_k sim0) ∅.
Definition host1 : dhost kview := put_proc 3 PStart (put_proc 2 PStart host0).
Definition host2 : dhost kview :=
  DHost (Some 2) (h_sock host1) (h_f host1) (h_k host1) (<[2 := PLocked]> (h_procs host1)).

Lemma one_daemon_witness :
  reach (sim_system []) host0 host2 /\
  forall q ph, h_procs host2 !! q = Some ph -> holds ph = true -> q = 2.
Proof.
  assert (reach (sim_system []) host0 host2) as Hr.
  { eapply reach_one; [|by apply st_lock].
    eapply reach_one; [|by apply (st_start _ 3)]. eapply reach_one; [|by apply (st_start _ 2)]. constructor. }
  split; [exact Hr|]. intros q ph Hq Hh.
  symmetry. exact (proj1 (one_daemon (sim_system []) host0 host2 (conj eq_refl eq_refl) Hr)
    2 q PLocked ph eq_refl Hq eq_refl Hh).
Defined.
