(* ===== verification/Agentmon.v ===== *)
(** * The activity monitor

    [agentmon.bpf.c]: the filter on the cgroup and the probes; [agentmon.c]: the
    options, loading, the poll loop, the printing of an event and the reading of a
    line of the kernel audit log.  What the kernel copies, libbpf's answers and
    the time of day are arguments. *)

From S2P Require Import Prelude CString Arch Inet Policy Control Load OneShot.
Local Open Scope Z_scope.

Definition DLEN : nat := 192.

(** [enum ev_type] of the monitor. *)
Definition MEV_EXEC : Z := 1.
Definition MEV_OPEN : Z := 2.
Definition MEV_CONNECT : Z := 3.
Definition MEV_ATTEMPT : Z := 4.

Record ev := Ev {
  e_ts : Z; e_cgid : Z; e_tgid : Z; e_tid : Z; e_type : Z; e_nr : Z; e_comm : bytes; e_data : bytes
}.

(** ** Probes *)

(** What a probe finds at an address of the process: the bytes there, or a fault,
    after which the record has some bytes (the result is not tested). *)
Inductive uread := UOk (s : bytes) | UFault (old : bytes).

Section Probes.
(** [target_cgid], whether the ring buffer has room, and the time. *)
Context (A : arch) (target_cgid : Z) (room : bool) (ts : Z).

(** The event with what the probe leaves in [data]. *)
Definition reserve (p : proc) (type nr : Z) (data : bytes) : option ev :=
  if negb (target_cgid =? 0) && negb (pr_cgid p =? target_cgid) then None
  else if negb room then None
  else Some (Ev ts (pr_cgid p) (Z.shiftr (pr_pid_tgid p) 32) (u32 (pr_pid_tgid p)) type nr (pr_comm p) data).

Definition AC_SYS_nr (s : string) : Z := default (-1) (ac_sys_nr A s).

(** [bpf_probe_read_user_str]: at most [DLEN] bytes are copied with the NUL. *)
Definition read_str (r : uread) : bytes :=
  match r with UOk s => take (DLEN - 1) (cstr s) | UFault old => take DLEN old end.
Definition mon_execve (p : proc) (path : uread) : option ev :=
  reserve p MEV_EXEC (AC_SYS_nr "execve") (read_str path).
Definition mon_openat (p : proc) (path : uread) : option ev :=
  reserve p MEV_OPEN (AC_SYS_nr "openat") (read_str path).
(** [bpf_probe_read_user] of 16 bytes. *)
Definition read_sa (r : uread) : bytes :=
  match r with UOk s => take 16 s | UFault old => take DLEN old end.
Definition mon_connect (p : proc) (sa : uread) : option ev :=
  reserve p MEV_CONNECT (AC_SYS_nr "connect") (read_sa sa).
Definition mon_attempt (p : proc) (name : string) : option ev :=
  if bool_decide (name ∈ AC_TRIP_X A) then reserve p MEV_ATTEMPT (AC_SYS_nr name) [] else None.
End Probes.

(** ** Printing *)

Definition ESC : ascii := "027"%char.
Definition QUOTE : ascii := "034"%char.

Definition AF_INET : Z := 2.

Definition mon_tag (colour name : string) : bytes := ESC :: B "[" ++ B colour ++ B "m" ++ B name ++ ESC :: B "[0m ".
Definition mon_who (e : ev) : bytes := cstr (e_comm e) ++ B "[" ++ print_d (s32 (e_tgid e)) ++ B "]".

Definition handle_ev (A : arch) (now : bytes) (e : ev) : bytes :=
  let d n := print_u (code (at_byte (e_data e) n)) in
  let fam := le16 (at_byte (e_data e) 0) (at_byte (e_data e) 1) in
  now ++ SP ::
  (if e_type e =? MEV_EXEC then mon_tag "32" "EXEC " ++ mon_who e ++ B "  " ++ cstr (e_data e)
   else if e_type e =? MEV_OPEN then mon_tag "34" "OPEN " ++ mon_who e ++ B "  " ++ cstr (e_data e)
   else if e_type e =? MEV_CONNECT then
     mon_tag "35" "NET  " ++ mon_who e ++ B "  connect " ++
     (if fam =? AF_INET
      then d 4%nat ++ DOT :: d 5%nat ++ DOT :: d 6%nat ++ DOT :: d 7%nat ++ COLON ::
           print_u (le16 (at_byte (e_data e) 3) (at_byte (e_data e) 2))
      else B "family=" ++ print_u (fam))
   else if e_type e =? MEV_ATTEMPT then
     mon_tag "31;1" "TRIP " ++ mon_who e ++ B " cgid=" ++ print_u (e_cgid e) ++ B " blocked syscall: " ++
     attempt_name A (e_nr e) ++ B " (" ++ print_u (e_nr e) ++ B ")"
   else B "????  " ++ mon_who e ++ B " type=" ++ print_u (e_type e)) ++ [NL].

(** ** The audit log *)

(** A scan of at most [n] bytes other than a quote: what [dst] holds after. *)
Definition scan_quoted (n : nat) (s dst : bytes) : bytes :=
  match take n (span_while (fun c => negb (bool_decide (c = QUOTE))) s) with [] => dst | w => w end.

(** What follows the first occurrence of a key. *)
Definition after (key line : bytes) : option bytes :=
  (fun i => drop (i + length key) line) <$> strstr key line.

Record audit := Audit { au_comm : bytes; au_exe : bytes; au_pid : Z; au_nr : Z }.

(** One line; [None]: not a seccomp record. *)
Definition audit_line (line : bytes) : option audit :=
  match strstr (B "type=1326") line with
  | None => None
  | Some _ =>
      let str key n := match after (B key ++ [QUOTE]) line with Some s => scan_quoted n s (B "?") | None => B "?" end in
      let num key v := match after (B key) line with
                       | Some s => match scan_ld s with Some (x, _) => x | None => v end
                       | None => v
                       end in
      Some (Audit (str "comm=" 63%nat) (str "exe=" 255%nat) (num "pid=" 0) (num "syscall=" (-1)))
  end.

Definition audit_text (A : arch) (now : bytes) (a : audit) : bytes :=
  now ++ SP :: mon_tag "31;1" "TRIP " ++ au_comm a ++ B "[" ++ print_d (au_pid a) ++ B "] (audit) " ++
  attempt_name A (u32 (au_nr a)) ++ B " — " ++ au_exe a ++ [NL].

(** [audit_mode]: what is printed for a log. *)
Definition audit_mode (A : arch) (now log : bytes) : list bytes :=
  omap (fun l => audit_text A now <$> audit_line l) (fgets_lines 2048 log).

(** ** Options *)

Record monargs := MonArgs { mo_cgroup : option bytes; mo_cgid : Z; mo_audit : bool }.

(** [strtoull0]: [strtoull] with base 0; [None]: status 2. *)
Fixpoint mon_args (strtoull0 : bytes -> Z) (args : list bytes) (o : monargs) : option monargs :=
  match args with
  | [] => Some o
  | x :: rest =>
      if decide (x = B "--audit") then mon_args strtoull0 rest (MonArgs (mo_cgroup o) (mo_cgid o) true)
      else
        match rest with
        | [] => None
        | v :: rest' =>
            if decide (x = B "--cgroup") then mon_args strtoull0 rest' (MonArgs (Some v) (mo_cgid o) (mo_audit o))
            else if decide (x = B "--cgid") then
              mon_args strtoull0 rest' (MonArgs (mo_cgroup o) (strtoull0 v) (mo_audit o))
            else None
        end
  end.

(** The constant of [agentmon.bpf.c], [target_cgid], and its programs. *)
Definition mon_consts : list nat := [8]%nat.
Definition mon_rodata (s : bytes) : Z := rodata_var mon_consts s 0.
Definition mon_progs (A : arch) : list string :=
  ["tp_execve"; "tp_openat"; "tp_connect"]%string ++ ((String.append "tp_att_") <$> AC_TRIP_X A).

(** What [main] goes on to do, or its status with the calls made; [ring]: whether [ring_buffer__new] succeeds. *)
Inductive monrun := MonExit (rc : Z) (l : list bcall) | MonAudit | MonProbe (cgid : Z) (l : list bcall).
Definition mon_main (A : arch) (lib : libbpf) (ring : bool) (strtoull0 : bytes -> Z) (ino : bytes -> option Z)
    (args : list bytes) : monrun :=
  match mon_args strtoull0 args (MonArgs None 0 false) with
  | None => MonExit 2 []
  | Some o =>
      if mo_audit o then MonAudit
      else match match mo_cgroup o with Some p => ino p | None => Some (mo_cgid o) end with
           | None => MonExit 1 []
           | Some cgid =>
               let '(ok, l) := load_object lib (mon_progs A) (le_bytes 8 cgid) in
               if negb ok then MonExit 1 l else if negb ring then MonExit 1 l else MonProbe cgid l
           end
  end.

(** The loop: for each turn the [g_stop] it finds, the value of the poll and the
    events it delivered, each with the time of day at which it was; [None]: it
    still waits. *)
Fixpoint mon_loop (A : arch) (turns : list (bool * Z * list (bytes * ev))) : option (list bytes) :=
  match turns with
  | [] => None
  | (stop, r, evs) :: ts =>
      if stop then Some []
      else let out := (fun '(now, e) => handle_ev A now e) <$> evs in
           if r =? - EINTR then Some out
           else if r <? 0 then Some out
           else (out ++.) <$> mon_loop A ts
  end.

(** [main] after the programs are attached: status, calls and what is printed. *)
Definition mon_run (A : arch) (cgid : Z) (l : list bcall) (turns : list (bool * Z * list (bytes * ev)))
    : option (Z * list bcall * list bytes) :=
  out ← mon_loop A turns;
  Some (0, l ++ [BClose],
    (B "agentmon: watching cgroup id " ++ print_u cgid ++ B " (0 = no filter) — Ctrl-C to stop" ++ [NL]) :: out).
