(* ===== verification/AgentmonThms.v ===== *)
(** * The activity monitor: theorems

    What a cell does is what the monitor prints, from the probe to the line; and
    what the audit reader can be made to print. *)

From S2P Require Import Prelude CString Arch Inet Policy Control Load OneShot Agentmon.
Local Open Scope Z_scope.

(** [struct sockaddr_in] in memory. *)
Definition sockaddr_in (ip port : Z) (rest : bytes) : bytes :=
  [chr 2; chr 0; chr (port / 256); chr port;
   chr (byte_of ip 0); chr (byte_of ip 1); chr (byte_of ip 2); chr (byte_of ip 3)] ++ rest.

(** The line the monitor prints for a process, given the tag and the rest. *)
Definition mon_line (now : bytes) (p : proc) (tag rest : bytes) : bytes :=
  now ++ SP :: tag ++ (cstr (pr_comm p) ++ B "[" ++ print_d (s32 (Z.shiftr (pr_pid_tgid p) 32)) ++ B "]") ++
  rest ++ [NL].

(** Where the monitor looks. *)
Definition watched (target : Z) (p : proc) : bool := (target =? 0) || (pr_cgid p =? target).

Lemma reserve_watched target room ts p type nr data :
  reserve target room ts p type nr data =
  if watched target p && room
  then Some (Ev ts (pr_cgid p) (Z.shiftr (pr_pid_tgid p) 32) (u32 (pr_pid_tgid p)) type nr (pr_comm p) data)
  else None.
Proof. unfold reserve, watched. by destruct (target =? 0), (pr_cgid p =? target), room. Qed.

Lemma cstr_no_nul_in s : no_nul (cstr s).
Proof.
  unfold no_nul. induction s as [|c s IH]; [apply not_elem_of_nil|]. cbn. destruct (decide (c = NUL)); [apply not_elem_of_nil|].
  apply not_elem_of_cons. split; [congruence|done].
Qed.

Lemma cstr_take_cstr n s : cstr (take n (cstr s)) = take n (cstr s).
Proof.
  apply cstr_no_nul. intros H. apply (cstr_no_nul_in s). rewrite <- (take_drop n (cstr s)). apply elem_of_app. by left.
Qed.

(** The names of the system calls probed are in the table, but for one. *)
Definition trip_named (A : arch) : bool :=
  forallb (fun n => bool_decide (n = "clone3"%string) || bool_decide (attempt_name A (AC_SYS_nr A n) = B n)) (AC_TRIP_X A).

Lemma trip_name t n :
  n ∈ AC_TRIP_X (syscalls_h t) -> n <> "clone3"%string ->
  attempt_name (syscalls_h t) (AC_SYS_nr (syscalls_h t) n) = B n.
Proof.
  intros Hin Hn. assert (trip_named (syscalls_h t) = true) as H by (destruct t; by vm_compute).
  unfold trip_named in H. rewrite forallb_forall in H. apply list_elem_of_In, H in Hin.
  apply orb_true_iff in Hin as [Hin%bool_decide_eq_true|Hin%bool_decide_eq_true]; done.
Qed.

(** The socket address in a buffer: the address and port of [AF_INET], the family
    of another. *)
Definition be32 (s : bytes) (n : nat) : Z :=
  ((code (at_byte s n) * 256 + code (at_byte s (n + 1))) * 256 + code (at_byte s (n + 2))) * 256 +
  code (at_byte s (n + 3)).
Definition sa_text (s : bytes) : bytes :=
  let fam := le16 (at_byte s 0) (at_byte s 1) in
  if fam =? 2 then inet_ntop (be32 s 4) ++ COLON :: print_u (code (at_byte s 2) * 256 + code (at_byte s 3))
  else B "family=" ++ print_u fam.

Lemma be32_bytes s n i : (i < 4)%nat -> byte_of (be32 s n) (Z.of_nat i) = code (at_byte s (n + i)).
Proof.
  intros Hi. unfold byte_of, be32. rewrite Z.shiftr_div_pow2 by lia.
  pose proof (code_range (at_byte s n)). pose proof (code_range (at_byte s (n + 1))).
  pose proof (code_range (at_byte s (n + 2))). pose proof (code_range (at_byte s (n + 3))).
  destruct i as [|[|[|[|]]]]; [..|lia]; rewrite ?Nat.add_0_r; cbn; Z.div_mod_to_equations; lia.
Qed.

(** The bytes of an address, printed one by one. *)
Lemma sa_bytes s :
  print_u (code (at_byte s 4)) ++ DOT :: print_u (code (at_byte s 5)) ++ DOT :: print_u (code (at_byte s 6)) ++
  DOT :: print_u (code (at_byte s 7)) ++ COLON :: print_u (le16 (at_byte s 3) (at_byte s 2)) =
  inet_ntop (be32 s 4) ++ COLON :: print_u (code (at_byte s 2) * 256 + code (at_byte s 3)).
Proof.
  assert (E0 : byte_of (be32 s 4) 0 = code (at_byte s 4)) by apply (be32_bytes s 4 0 ltac:(lia)).
  assert (E1 : byte_of (be32 s 4) 1 = code (at_byte s 5)) by apply (be32_bytes s 4 1 ltac:(lia)).
  assert (E2 : byte_of (be32 s 4) 2 = code (at_byte s 6)) by apply (be32_bytes s 4 2 ltac:(lia)).
  assert (E3 : byte_of (be32 s 4) 3 = code (at_byte s 7)) by apply (be32_bytes s 4 3 ltac:(lia)).
  unfold inet_ntop. rewrite E0, E1, E2, E3. unfold le16.
  rewrite <- !app_assoc; cbn [app]; rewrite <- !app_assoc; cbn [app]; rewrite <- !app_assoc; cbn [app].
  by replace (code (at_byte s 3) + 256 * code (at_byte s 2)) with (code (at_byte s 2) * 256 + code (at_byte s 3)) by lia.
Qed.

(** What it is for the address of a connection over IPv4. *)
Lemma sa_text_in ip port rest :
  0 <= ip < 2 ^ 32 -> 0 <= port < 2 ^ 16 ->
  sa_text (take 16 (sockaddr_in ip port rest)) = inet_ntop ip ++ COLON :: print_u port.
Proof.
  intros Hip Hport. unfold sa_text, sockaddr_in, be32, at_byte, le16.
  cbn [app take lookup list_lookup default from_option id Nat.add].
  change (code (chr 2) + 256 * code (chr 0) =? 2) with true. cbv iota.
  rewrite !(code_chr (byte_of ip _)) by apply byte_of_range.
  rewrite (code_chr (port / 256)) by (Z.div_mod_to_equations; lia). rewrite code_chr_low.
  assert (port / 256 * 256 + port mod 256 = port) as -> by (Z.div_mod_to_equations; lia).
  assert (((byte_of ip 0 * 256 + byte_of ip 1) * 256 + byte_of ip 2) * 256 + byte_of ip 3 = ip) as ->; [|done].
  unfold byte_of. rewrite !Z.shiftr_div_pow2 by lia. cbn. Z.div_mod_to_equations. lia.
Qed.

(** A cgroup id from the options is a 64-bit number. *)
Lemma mon_args_cgid strtoull0 args o o' :
  (forall s, 0 <= strtoull0 s < 2 ^ 64) -> mon_args strtoull0 args o = Some o' -> 0 <= mo_cgid o < 2 ^ 64 ->
  0 <= mo_cgid o' < 2 ^ 64.
Proof.
  intros Hs. remember (length args) as n eqn:En. revert args o En. induction (lt_wf n) as [n _ IH].
  intros [|x rest] o -> H Ho; [by injection H as <-|]. cbn [mon_args] in H. destruct (decide _).
  - eapply (IH (length rest)); [cbn; lia|done|exact H|done].
  - destruct rest as [|v rest]; [done|]. destruct (decide _).
    + eapply (IH (length rest)); [cbn; lia|done|exact H|done].
    + destruct (decide _); [|done]. eapply (IH (length rest)); [cbn; lia|done|exact H|apply Hs].
Qed.

(** ** What happens on the host, and its line *)

Inductive activity :=
  | AExec (path : uread) | AOpen (path : uread) | AConnect (sa : uread) | AAttempt (name : string).

(** The probe that fires. *)
Definition probe (A : arch) (target : Z) (room : bool) (ts : Z) (p : proc) (a : activity) : option ev :=
  match a with
  | AExec path => mon_execve A target room ts p path
  | AOpen path => mon_openat A target room ts p path
  | AConnect sa => mon_connect A target room ts p sa
  | AAttempt name => mon_attempt A target room ts p name
  end.

(** The path of a call: its first 191 bytes, or what a failed read left. *)
Definition path_text (r : uread) : bytes :=
  match r with UOk s => take 191 (cstr s) | UFault old => cstr (take 192 old) end.
(** The address of a connection: the first 16 bytes of it, or what was left. *)
Definition sa_bytes_of (r : uread) : bytes :=
  match r with UOk s => take 16 s | UFault old => take 192 old end.
(** The name shown for a probed system call. *)
Definition trip_text (name : string) : bytes :=
  if decide (name = "clone3"%string) then B "?" else B name.

Definition act_line (A : arch) (now : bytes) (p : proc) (a : activity) : bytes :=
  match a with
  | AExec path => mon_line now p (mon_tag "32" "EXEC ") (B "  " ++ path_text path)
  | AOpen path => mon_line now p (mon_tag "34" "OPEN ") (B "  " ++ path_text path)
  | AConnect sa => mon_line now p (mon_tag "35" "NET  ") (B "  connect " ++ sa_text (sa_bytes_of sa))
  | AAttempt name =>
      mon_line now p (mon_tag "31;1" "TRIP ")
        (B " cgid=" ++ print_u (pr_cgid p) ++ B " blocked syscall: " ++ trip_text name ++ B " (" ++
         print_u (AC_SYS_nr A name) ++ B ")")
  end.

(** Whether a probe is there for it. *)
Definition probed (A : arch) (a : activity) : bool :=
  match a with AAttempt name => bool_decide (name ∈ AC_TRIP_X A) | _ => true end.

Lemma read_str_text r : cstr (read_str r) = path_text r.
Proof. destruct r; [|done]. apply cstr_take_cstr. Qed.

Lemma trip_shown t n :
  n ∈ AC_TRIP_X (syscalls_h t) -> attempt_name (syscalls_h t) (AC_SYS_nr (syscalls_h t) n) = trip_text n.
Proof.
  intros Hin. unfold trip_text. destruct (decide _) as [->|]; [|by apply trip_name]. by destruct t; vm_compute.
Qed.

(** From the probe to the line. *)
Lemma probe_line t target room ts now p a :
  let A := syscalls_h t in
  handle_ev A now <$> probe A target room ts p a =
  if watched target p && room && probed A a then Some (act_line A now p a) else None.
Proof.
  intros A. set (on := watched target p && room).
  assert (forall type nr data txt,
    handle_ev A now (Ev ts (pr_cgid p) (Z.shiftr (pr_pid_tgid p) 32) (u32 (pr_pid_tgid p)) type nr
       (pr_comm p) data) = txt ->
    handle_ev A now <$> reserve target room ts p type nr data = if on && true then Some txt else None) as Hgo.
  { intros type nr data txt H. rewrite reserve_watched. fold on. destruct on; [|done]. cbn. by rewrite H. }
  destruct a as [path|path|sa|name]; cbn [probe act_line probed].
  - apply Hgo. unfold handle_ev, mon_line, mon_who. cbn [e_type e_comm e_tgid e_data].
    change (MEV_EXEC =? MEV_EXEC) with true. cbv iota. rewrite read_str_text. by rewrite <- !app_assoc.
  - apply Hgo. unfold handle_ev, mon_line, mon_who. cbn [e_type e_comm e_tgid e_data].
    change (MEV_OPEN =? MEV_EXEC) with false. change (MEV_OPEN =? MEV_OPEN) with true. cbv iota.
    rewrite read_str_text. by rewrite <- !app_assoc.
  - apply Hgo. change (sa_bytes_of sa) with (read_sa sa). set (d := read_sa sa).
    unfold handle_ev, mon_line, mon_who, sa_text. cbn [e_type e_comm e_tgid e_data].
    change (MEV_CONNECT =? MEV_EXEC) with false. change (MEV_CONNECT =? MEV_OPEN) with false.
    change (MEV_CONNECT =? MEV_CONNECT) with true. cbv iota zeta. change AF_INET with 2.
    destruct (le16 (at_byte d 0) (at_byte d 1) =? 2); [|by rewrite <- !app_assoc].
    rewrite sa_bytes. by rewrite <- !app_assoc.
  - unfold mon_attempt. case_bool_decide as Hin; [|by rewrite andb_false_r]. apply Hgo.
    unfold handle_ev, mon_line, mon_who. cbn [e_type e_comm e_tgid e_data e_nr e_cgid].
    change (MEV_ATTEMPT =? MEV_EXEC) with false. change (MEV_ATTEMPT =? MEV_OPEN) with false.
    change (MEV_ATTEMPT =? MEV_CONNECT) with false. change (MEV_ATTEMPT =? MEV_ATTEMPT) with true. cbv iota.
    unfold A. rewrite trip_shown by done. by rewrite <- !app_assoc.
Qed.

(** ** A run *)

(** One thing that happens: the time of day when it is printed, whether the ring
    buffer has room, the clock, the process and what it does. *)
Record happening := Happening { ha_now : bytes; ha_room : bool; ha_ts : Z; ha_proc : proc; ha_act : activity }.

(** The event it leaves in the buffer, and the line it should give. *)
Definition recorded (A : arch) (target : Z) (h : happening) : option (bytes * ev) :=
  (fun e => (ha_now h, e)) <$> probe A target (ha_room h) (ha_ts h) (ha_proc h) (ha_act h).
Definition expected (A : arch) (target : Z) (h : happening) : option bytes :=
  if watched target (ha_proc h) && ha_room h && probed A (ha_act h)
  then Some (act_line A (ha_now h) (ha_proc h) (ha_act h)) else None.

(** A turn of the loop that delivers what happened since the last one. *)
Definition deliver (A : arch) (target : Z) (x : bool * Z * list happening) : bool * Z * list (bytes * ev) :=
  (x.1, omap (recorded A target) x.2).

Lemma recorded_lines t target (hs : list happening) :
  (fun '(now, e) => handle_ev (syscalls_h t) now e) <$> omap (recorded (syscalls_h t) target) hs =
  omap (expected (syscalls_h t) target) hs.
Proof.
  induction hs as [|h hs IH]; [done|]. cbn [omap list_omap].
  pose proof (probe_line t target (ha_room h) (ha_ts h) (ha_now h) (ha_proc h) (ha_act h)) as E. cbv zeta in E.
  unfold recorded at 1, expected at 1.
  destruct (probe _ _ _ _ _ _) as [e|], (_ && _); cbn in E |- *; try done.
  injection E as ->. cbn. f_equal. exact IH.
Qed.

Lemma mon_loop_spec t target pre stop r hs post :
  let A := syscalls_h t in
  Forall (fun x => x.1.1 = false /\ 0 <= x.1.2) pre -> stop = true \/ r < 0 ->
  mon_loop A (deliver A target <$> pre ++ (stop, r, hs) :: post) =
  Some (omap (expected A target) (concat pre.*2 ++ if stop then [] else hs)).
Proof.
  intros A Hp He. subst A. induction Hp as [|[[st r'] hs'] pre [H1 H2] _ IH]; cbn in *.
  - destruct stop; [done|]. destruct He as [|He]; [done|]. rewrite recorded_lines.
    destruct (_ =? _); [done|]. by rewrite (proj2 (Z.ltb_lt _ _)).
  - rewrite H1. rewrite recorded_lines.
    rewrite (proj2 (Z.eqb_neq _ _)), (proj2 (Z.ltb_ge _ _)) by (unfold EINTR; lia).
    rewrite IH. cbn. by rewrite <- app_assoc, (omap_app _ hs').
Qed.

(** C32. The monitor, from its options to what it prints.  When it starts every
    probe is attached and its constant is the cgroup the options name.  Of what
    happens until it is stopped (or the poll fails) it prints, in order and once,
    what processes of that cgroup (all, for 0) do while the ring buffer has room:
    the path executed or opened up to its first 191 bytes, the address and port
    of a connection over IPv4 and the family of another, the number of a system
    call that reached its TRIP probe with its name ("?" for clone3), and where a
    read of the process's memory failed the bytes that left in the record;
    nothing of another process.  Then it closes the object and ends with status
    0. *)
Theorem monitor_exact t lib ring strtoull0 ino args cgid l :
  let A := syscalls_h t in
  (forall s, 0 <= strtoull0 s < 2 ^ 64) -> (forall p i, ino p = Some i -> 0 <= i < 2 ^ 64) ->
  mon_main A lib ring strtoull0 ino args = MonProbe cgid l ->
  (exists o, mon_args strtoull0 args (MonArgs None 0 false) = Some o /\ mo_audit o = false /\
     match mo_cgroup o with Some p => ino p = Some cgid | None => cgid = mo_cgid o end) /\
  attached l = mon_progs A /\
  (forall ip port rest, 0 <= ip < 2 ^ 32 -> 0 <= port < 2 ^ 16 ->
     sa_text (sa_bytes_of (UOk (sockaddr_in ip port rest))) = inet_ntop ip ++ COLON :: print_u port) /\
  exists target, mon_rodata <$> loaded_image l = Some target /\ target = cgid /\
  forall pre stop r hs post,
    Forall (fun x => x.1.1 = false /\ 0 <= x.1.2) pre -> stop = true \/ r < 0 ->
    exists banner,
      mon_run A cgid l (deliver A target <$> pre ++ (stop, r, hs) :: post) =
      Some (0, l ++ [BClose], banner :: omap (expected A cgid) (concat pre.*2 ++ if stop then [] else hs)).
Proof.
  intros A Hull Hino. unfold mon_main. destruct (mon_args _ _ _) as [o|] eqn:Eo; [|done].
  destruct (mo_audit o) eqn:Ea; [done|].
  destruct (match mo_cgroup o with Some p => ino p | None => Some (mo_cgid o) end) as [c|] eqn:Ec; [|done].
  destruct (load_object _ _ _) as [[] l'] eqn:El; [|done]. destruct ring; [|done]. cbn [negb]. intros [= <- <-].
  apply load_object_ok in El as [Hrun Himg]. split_and!; [|done|by apply sa_text_in|].
  { exists o. split_and!; [done..|]. destruct (mo_cgroup o); [done|]. by injection Ec. }
  exists c. split_and!; [|done|].
  { rewrite Himg. cbn. f_equal. change (le_val (le_bytes 8 c) = c). apply le_val_bytes.
    destruct (mo_cgroup o) as [p|]; [by apply (Hino p)|]. injection Ec as <-.
    apply (mon_args_cgid strtoull0 args) in Eo; [done|done|cbn; lia]. }
  intros pre stop r hs post Hp He. eexists. unfold mon_run. by rewrite (mon_loop_spec t) by done.
Qed.

(** ** Behaviours the comments do not promise *)

(** [clone3] is probed and is not in the table of names. *)
Theorem clone3_has_no_name t :
  ("clone3"%string ∈ AC_TRIP_X (syscalls_h t)) /\
  attempt_name (syscalls_h t) (AC_SYS_nr (syscalls_h t) "clone3") = B "?".
Proof. split; [|by destruct t; vm_compute]. destruct t; by apply (bool_decide_unpack _). Qed.

(** A record of the kernel's audit log for a process of a given name. *)
Definition audit_record (comm : string) : bytes :=
  B "audit: type=1326 audit(1.2:3): auid=1000 uid=1000 gid=1000 ses=1 pid=77 comm=" ++
  QUOTE :: B comm ++ QUOTE :: B " exe=" ++ QUOTE :: B "/usr/bin/x" ++ QUOTE ::
  B " sig=0 arch=c000003e syscall=165 compat=0 ip=0x7f code=0x50000" ++ [NL].

(** The audit reader takes the first "syscall=" of the line: a process can name
    itself so that another call is shown than the one it was refused. *)
Theorem audit_name_spoofs :
  audit_line (audit_record "x") = Some (Audit (B "x") (B "/usr/bin/x") 77 165) /\
  audit_line (audit_record "syscall=40") = Some (Audit (B "syscall=40") (B "/usr/bin/x") 77 40).
Proof. by vm_compute. Qed.

(** ** Witnesses *)

Definition mon_lib : libbpf := LibBpf true true true true (fun _ => true) (fun _ => 5).
Definition mon_calls : list bcall := BSet (le_bytes 8 7) :: BLoad :: (BAttach <$> mon_progs (syscalls_h T_x86_64)).
Definition mon_seen : happening :=
  Happening (B "12:00:00") true 0 (Proc 7 (2 ^ 32 * 5) (B "curl")) (AConnect (UOk (sockaddr_in (9 * 2 ^ 24 + 9) 443 []))).
Definition mon_unseen : happening :=
  Happening (B "12:00:00") true 0 (Proc 8 (2 ^ 32 * 5) (B "curl")) (AConnect (UOk (sockaddr_in (9 * 2 ^ 24 + 9) 443 []))).

Lemma monitor_exact_witness :
  exists banner,
    mon_run (syscalls_h T_x86_64) 7 mon_calls
      (deliver (syscalls_h T_x86_64) 7 <$> [(false, 2, [mon_seen; mon_unseen]); (true, 0, [])]) =
    Some (0, mon_calls ++ [BClose],
      [banner; mon_line (B "12:00:00") (Proc 7 (2 ^ 32 * 5) (B "curl")) (mon_tag "35" "NET  ")
                 (B "  connect 9.0.0.9:443")]).
Proof.
  destruct (monitor_exact T_x86_64 mon_lib true (fun _ => 7) (fun _ => None) [B "--cgid"; B "7"] 7 mon_calls
    ltac:(intros; lia) ltac:(done) ltac:(by vm_compute)) as (_ & _ & _ & target & _ & -> & H).
  destruct (H [(false, 2, [mon_seen; mon_unseen])] true 0 [] [] ltac:(by repeat constructor) ltac:(by left))
    as (banner & E).
  exists banner. exact E.
Defined.
